(* ===== verification/_CoqProject ===== *)
-Q . S2P
Prelude.v
Sqlite.v
TaskStates.v
Json.v
JsonLoads.v
JsonRoundTrip.v
JsonAscii.v
Clock.v
ArtifactPaths.v
JsonAsciiRoundTrip.v
StoreData.v
Store.v
StoreState.v
StoreArtifacts.v
StoreWindows.v
StoreInvariant.v
StoreOps.v
StoreReach.v
StoreFrame.v
Examples.v
StoreSpecs.v
StoreTheorems.v
StateTheorems.v
Runner.v
RunnerTheorems.v
Scheduler.v
SchedulerTheorems.v
BackendData.v
AuditTrail.v
MachineSecret.v
Idempotency.v
Credentials.v
Enrollment.v
AgentAuth.v
Protocol.v
BackendExamples.v
ProtocolTheorems.v
CredentialTheorems.v
IdentityData.v
Auth.v
Rbac.v
Seeds.v
IdentityTheorems.v
AgentIdentity.v
AgentIdentityTheorems.v
LinuxChannels.v
WindowsChannels.v
ChannelTheorems.v
CaptureState.v
CaptureRollback.v
CaptureTheorems.v
CaptureRestores.v
AgentServices.v
Runtime.v
RuntimeTheorems.v
Link.v
LinkTheorems.v
Controller.v
ControllerTheorems.v
SecureFs.v
Staging.v
Stager.v
SecureFsTheorems.v
StagerFrame.v
StagerKept.v
StagerTheorems.v
CaptureMarkerLog.v
CaptureMarkerFrames.v
StagerDurable.v
StagerExamples.v
StagerHistory.v
CaptureMarkerTheorems.v
StagerRace.v
StagerStray.v
