(* ===== verification/Prelude.v ===== *)
(** * WiFi Test Orchestrator: a verification library

    This library models the program logic of the repository's desktop agent
    ([src/agents/desktop/src/wto_desktop_agent], called [agent/] below) and of its
    backend ([src/backend/src/wto_backend], called [backend/] below), and proves
    what they promise.  This file is its root: the exceptions, the monads, the
    Hoare triples and the generic lemmas that every other file uses.

    ** The system

    An agent on a laptop fetches test tasks from the backend, keeps them in a
    local SQLite database, runs each at most once through a plugin, stages the
    files it produced, and delivers progress, results and uploads from outboxes.
    It enrolls once with a token, authenticates with a credential that rotates,
    and reports manifests and heartbeats.  On Linux a capture plugin switches a
    Wi-Fi interface to monitor mode and must restore it; on Windows a controller
    connects to allowlisted profiles for a local administrator.  The backend
    keeps agents, credentials, manifests, presence, users and roles in PostgreSQL
    and nonces in Redis.

    ** How the code is modelled

    - A text is a byte string of UTF-8 ([String.string]); a time is a number of
      microseconds ([Clock]); a JSON document is [json] ([Json], [JsonLoads]).
    - A computation that keeps state and may raise is [SE S A := S -> result A * S]:
      what it did before it raised stays done, as in Python.  Each definition is a
      whole method, its guards, effects and early returns in the order of the code.
    - A transaction of SQLite or of SQLAlchemy rolls back when it raises ([Sqlite],
      [BackendData]); constraints of the schema raise [IntegrityError].
    - What the process does not decide (clock readings, random tokens, fresh
      identifiers, answers of tools and servers, what other coroutines do at a
      suspension) is an argument.  System calls of the artifact stager, effects of
      the identity manager and of the capture rollback may each be made to fail by
      their number; a process that is killed is one whose later effects all fail.
    - Code that is not in the repository is a parameter with the laws the code
      relies on: SHA-256, HMAC, AES-GCM, Argon2, signatures, [uuid], case mapping
      outside ASCII, JSON-schema validation, plugins, the native Wi-Fi API, the
      tools of the host.  Witnesses give each of them a concrete function.

    ** Files, in dependency order

    Foundations: [Prelude]; [Sqlite] (connections, transactions, tables);
    [Json], [JsonLoads], [JsonRoundTrip], [JsonAscii], [JsonAsciiRoundTrip] (documents,
    their canonical and ASCII text, [json.loads]); [Clock] (ISO 8601 time stamps, whose order as
    text SQL relies on); [ArtifactPaths] ([agent/domain/artifact_paths.py]).

    The agent's store ([agent/infrastructure/sqlite/store.py] and its migrations):
    [TaskStates] ([agent/domain/states.py]); [StoreData] (rows and constraints);
    [Store] (tasks, attempts, effects, outboxes), [StoreState] (identity, runtime,
    manifests, heartbeats), [StoreArtifacts] (uploads and retention),
    [StoreWindows] (the journal of Windows operations).  [StoreInvariant] and
    [StoreOps] prove the invariant for every method, [StoreReach] for every
    history of calls, [StoreFrame] which tables a method leaves alone;
    [StoreSpecs] gives ingestion, claiming and finishing as plain functions and
    proves the methods compute them.  [StoreTheorems] and [StateTheorems] are the
    guarantees.

    The agent's execution: [Runner] ([agent/application/task_runner.py],
    [agent/plugins/], [agent/ports/plugins.py]), [Scheduler]
    ([agent/application/scheduler.py]), [AgentServices] ([capabilities.py] and
    [heartbeat.py] of [agent/application/]), [AgentIdentity]
    ([agent/application/identity.py]), [Runtime] ([agent/application/runtime.py]),
    which composes them; each with its file of theorems.

    Staging of artifacts: [SecureFs] ([agent/platforms/linux/secure_fs.py] over
    inodes, the directories of the outbox, of intents, pruning and capture markers,
    and what a loss of power may leave of them), [Staging] and
    [Stager] ([agent/application/artifacts.py]).  [SecureFsTheorems] and
    [StagerFrame] say what each call leaves alone, [StagerKept] what every
    operation keeps, [StagerDurable] why a staged file is on the disk;
    [StagerTheorems], [StagerHistory], [StagerRace] and [StagerStray] are the
    guarantees and the ways staging can block.

    Captures on Linux: [LinuxChannels] and [WindowsChannels] (the frequency tables
    of both platforms), [CaptureState] (snapshots of an interface and the restore
    plan) and [CaptureRollback] (reports, the durable rollback, the simulated
    backend; [agent/platforms/linux/capture.py], [capture_identity.py] and the
    rollback entry of [capture_recovery.py]); [CaptureTheorems] and
    [CaptureRestores] are their guarantees.  [CaptureMarkerLog] is the marker of a
    capture, a log of events with a chain of digests in a file of the file system of
    [SecureFs] ([capture_recovery.py]); [CaptureMarkerFrames] says what a marker's text
    reads as and what every operation leaves of the file, [CaptureMarkerTheorems] what
    an event that is cut leaves and what no history loses.

    Windows: [Controller] ([agent/platforms/windows/network_controller.py]) and
    [ControllerTheorems].

    The backend: [BackendData] and [IdentityData] (tables, queries, the session of
    one request), [AuditTrail], [MachineSecret], [Idempotency], [Credentials],
    [Enrollment], [AgentAuth], [Protocol], [Auth], [Rbac], [Seeds] (one per module
    of [backend/services], [backend/security], [backend/audit.py] and
    [backend/api/agent_dependencies.py]); [ProtocolTheorems], [CredentialTheorems]
    and [IdentityTheorems] are their guarantees.

    Both sides: [Link] answers the agent's requests
    ([agent/infrastructure/http_transport.py]) by the routes of
    [backend/api/routers/agent_protocol.py] over the services of the backend, with
    requests and replies lost anywhere; [LinkTheorems] relates the two databases.

    ** What the theorems show

    - Tasks: over any history of calls and restarts an effect is attempted at most
      once, terminal states are final, results are stored once; the methods refine
      their specifications; a run ends with a result; outboxes deliver at least once.
    - Artifacts: what staging confirmed survives any loss of power, every queued
      upload has its file, cancellation and commit never both win.
    - Identity: the credential the identity names stays obtainable through any
      interruption; a revocation is finished by the next start.
    - Captures: whatever is cut, the rollback can be resumed, repeats no confirmed
      command, reports complete only what it saw restored, and the first rollback
      that is left alone restores the interface.
    - Markers of captures: an event is added whole, or not at all, or leaves a part
      that every reader refuses; what was confirmed survives any loss of power.
    - Windows: commands stay on the allowlists and behind the journal.
    - Backend: rotation swaps credentials atomically, enrollment tokens are spent
      once, captured requests and replayed refresh tokens are refused for good, an
      active administrator remains, refused requests change nothing but what had expired.
    - Errors the code does not mean, each proved where it can be stated: a cancelled
      task that is lost ([RunnerTheorems]), a heartbeat that stays refused
      ([LinkTheorems]), names that block the stager ([StagerStray], [StagerHistory]).

    ** Bounds and fuel

    [json_loads] takes one unit of fuel per character and one more; each call
    consumes a character, and [JsonRoundTrip] proves it enough for every rendered
    document.  Loops of the stager take one unit per byte to move and one more,
    since a call moves at least one byte; the copy loop has the maximum size plus
    two.  The quarantine's attempts (16) and the limits of polls of the Windows
    controller are those of the code.  Python integers are unbounded and so are
    [Z]; SQLite's 64-bit range and PostgreSQL's column widths are constraints where
    a column has them.

    ** What is not modelled

    - The journal of pruning and the full audit of the outbox in [artifacts.py],
      the waiting for worker threads, and the secret stores, cgroups, spawned
      processes and service managers of both platforms: they consist of calls of
      the operating system.
    - The inventories and parsers of external tools, the Win32 bindings; of captures
      the bindings between markers and artifacts, the workspace, the journal in files,
      the commands and the live backend.
    - The rate limit of logins, two counters of Redis with a time to live.
    - Command lines, configuration, logging, doctor reports, the HTTP client, the
      FastAPI wiring around the routes above, the signature of access tokens.
    - The frontend, the mobile and simulated agents, deployment and scripts. *)

From Stdlib Require Export ZArith Lia Bool.
From stdpp Require Export base option strings.
From stdpp Require Export list.

Open Scope Z_scope.

#[export] Set Warnings "-clear-no-such-hyp,-register-all".

(** ** Exceptions and fallible computations *)

(** The exception classes the modelled code raises or lets through.  The text
    is the message where a handler or a caller can observe it. *)
Inductive exc :=
  | ValueError (msg : string)
  | KeyError (msg : string)
  | RuntimeError (msg : string)
  | AssertionError
  | PermissionError (msg : string)
  | IntegrityError (constraint : string)
  | OperationalError (msg : string)
  | DuplicateConflictError (msg : string)
  | StateConflictError (msg : string)
  | IdentityNotEnrolledError (msg : string)
  | PluginUnavailableError (msg : string)
  | SecureStoreUnavailableError (msg : string)
  | TransportError (msg : string)
  | NativeWifiError (category : string)
  | LinuxProviderError (provider category detail : string)
  | DomainError (name : string)
  | CancelledError
  | TimeoutError.

#[global] Instance exc_eq_dec : EqDecision exc.
Proof. solve_decision. Defined.

(** [type(error).__name__] *)
Definition type_name (e : exc) : string :=
  match e with
  | ValueError _ => "ValueError" | KeyError _ => "KeyError" | RuntimeError _ => "RuntimeError"
  | AssertionError => "AssertionError" | PermissionError _ => "PermissionError"
  | IntegrityError _ => "IntegrityError" | OperationalError _ => "OperationalError"
  | DuplicateConflictError _ => "DuplicateConflictError" | StateConflictError _ => "StateConflictError"
  | IdentityNotEnrolledError _ => "IdentityNotEnrolledError" | PluginUnavailableError _ => "PluginUnavailableError"
  | SecureStoreUnavailableError _ => "SecureStoreUnavailableError" | TransportError _ => "TransportError"
  | NativeWifiError _ => "NativeWifiError" | LinuxProviderError _ _ _ => "LinuxProviderError"
  | DomainError name => name | CancelledError => "CancelledError" | TimeoutError => "TimeoutError"
  end.
(** [except Exception]: not [asyncio.CancelledError]. *)
Definition ordinary (e : exc) : bool := match e with CancelledError => false | _ => true end.

Inductive result (A : Type) :=
  | Ok (a : A)
  | Err (e : exc).
Arguments Ok {_} _.
Arguments Err {_} _.

Definition is_ok {A} (r : result A) : bool :=
  match r with Ok _ => true | Err _ => false end.

#[global] Instance result_ret : MRet result := fun A a => Ok a.
#[global] Instance result_bind : MBind result :=
  fun A B f r => match r with Ok a => f a | Err e => Err e end.

Definition of_option {A} (e : exc) (o : option A) : result A :=
  match o with Some a => Ok a | None => Err e end.

Lemma result_bind_Ok {A B} (r : result A) (f : A → result B) b :
  (r ≫= f) = Ok b ↔ ∃ a, r = Ok a ∧ f a = Ok b.
Proof.
  destruct r as [a|e]; simpl; split.
  - eauto.
  - by intros (a' & [= ->] & H).
  - done.
  - by intros (a' & ? & _).
Qed.

(** A state-and-exception computation.  The state survives an exception, as
    the memory of a Python process does. *)
Definition SE (S A : Type) : Type := S → result A * S.

#[global] Instance SE_ret S : MRet (SE S) := fun A a s => (Ok a, s).
#[global] Instance SE_bind S : MBind (SE S) :=
  fun A B f m s =>
    match m s with
    | (Ok a, s') => f a s'
    | (Err e, s') => (Err e, s')
    end.

Section StateError.
Context {S : Type}.

Definition raise {A} (e : exc) : SE S A := fun s => (Err e, s).
Definition raise_if (b : bool) (e : exc) : SE S unit :=
  fun s => if b then (Err e, s) else (Ok tt, s).
Definition get {A} (f : S → A) : SE S A := fun s => (Ok (f s), s).
Definition modify (f : S → S) : SE S unit := fun s => (Ok tt, f s).
Definition lift {A} (r : result A) : SE S A := fun s => (r, s).

(** [try ... except]: the handler sees the exception and the state left. *)
Definition catch {A} (m : SE S A) (h : exc → SE S A) : SE S A :=
  fun s => match m s with
           | (Ok a, s') => (Ok a, s')
           | (Err e, s') => h e s'
           end.

Fixpoint for_each {A} (xs : list A) (body : A → SE S unit) : SE S unit :=
  match xs with
  | [] => mret tt
  | x :: xs' => body x ;; for_each xs' body
  end.
End StateError.

Lemma SE_bind_Ok {S A B} (m : SE S A) (f : A → SE S B) s b s' :
  (m ≫= f) s = (Ok b, s') ↔ ∃ a s1, m s = (Ok a, s1) ∧ f a s1 = (Ok b, s').
Proof.
  unfold mbind, SE_bind. destruct (m s) as [[a|e] s1]; split.
  - eauto.
  - by intros (a' & s2 & [= -> ->] & H).
  - done.
  - by intros (a' & s2 & ? & _).
Qed.

Lemma bind_state {S A B} (m : SE S A) (f : A → SE S B) s :
  (m ≫= f) s = match m s with (Ok a, s') => f a s' | (Err e, s') => (Err e, s') end.
Proof. unfold mbind, SE_bind. by destruct (m s) as [[]]. Qed.

(** A computation whose exception is a value: [try] with the handling written
    out afterwards. *)
Definition attempt {S A} (m : SE S A) : SE S (result A) :=
  fun s => let '(r, s') := m s in (Ok r, s').

(** ** Triples

    From a state in [P], [m] ends in [Q] with its value or in [E] with its
    exception. *)
Definition triple {S A} (P : S → Prop) (m : SE S A) (Q : A → S → Prop) (E : exc → S → Prop) : Prop :=
  ∀ s, P s → match m s with (Ok a, s') => Q a s' | (Err e, s') => E e s' end.

Section Triples.
Context {S : Type}.
Implicit Types (P : S → Prop) (E : exc → S → Prop).

Lemma triple_bind {A B} P (R : A → S → Prop) (Q : B → S → Prop) E (m : SE S A) (f : A → SE S B) :
  triple P m R E → (∀ a, triple (R a) (f a) Q E) → triple P (m ≫= f) Q E.
Proof.
  intros Hm Hf s Hs. rewrite bind_state. specialize (Hm s Hs). destruct (m s) as [[a|e] s1]; [|done]. by apply Hf.
Qed.
Lemma triple_ret {A} P (Q : A → S → Prop) E (a : A) : (∀ s, P s → Q a s) → triple P (mret a) Q E.
Proof. intros H s Hs. by apply H. Qed.
Lemma triple_raise {A} P (Q : A → S → Prop) E e : (∀ s, P s → E e s) → triple P (raise e) Q E.
Proof. intros H s Hs. by apply H. Qed.
Lemma triple_raise_if P Q E b e :
  (∀ s, P s → b = true → E e s) → (∀ s, P s → b = false → Q tt s) → triple P (raise_if b e) Q E.
Proof. intros He Hq s Hs. unfold raise_if. destruct b; [by apply He|by apply Hq]. Qed.
Lemma triple_weaken {A} P P' (Q Q' : A → S → Prop) E E' (m : SE S A) :
  triple P m Q E → (∀ s, P' s → P s) → (∀ a s, Q a s → Q' a s) → (∀ e s, E e s → E' e s) → triple P' m Q' E'.
Proof.
  intros Hm HP HQ HE s Hs. specialize (Hm s (HP s Hs)). destruct (m s) as [[a|e] s']; [by apply HQ|by apply HE].
Qed.
Lemma triple_catch {A} P (Q : A → S → Prop) E E' (m : SE S A) h :
  triple P m Q E → (∀ e, triple (E e) (h e) Q E') → triple P (catch m h) Q E'.
Proof.
  intros Hm Hh s Hs. unfold catch. specialize (Hm s Hs). destruct (m s) as [[a|e] s1]; [done|]. by apply Hh.
Qed.
Lemma triple_attempt {A} P (Q : A → S → Prop) E E' (m : SE S A) :
  triple P m Q E → triple P (attempt m) (λ r s, match r with Ok a => Q a s | Err e => E e s end) E'.
Proof. intros Hm s Hs. unfold attempt. specialize (Hm s Hs). by destruct (m s) as [[a|e] s1]. Qed.
Lemma triple_lift {A} P (Q : A → S → Prop) E (r : result A) :
  (∀ s a, P s → r = Ok a → Q a s) → (∀ s e, P s → r = Err e → E e s) → triple P (lift r) Q E.
Proof. intros HQ HE s Hs. unfold lift. destruct r; [by apply HQ|by apply HE]. Qed.
Lemma triple_get {A} P (Q : A → S → Prop) E (f : S → A) : (∀ s, P s → Q (f s) s) → triple P (get f) Q E.
Proof. intros H s Hs. by apply H. Qed.
(** A fact that is not about the state. *)
Lemma triple_pure {A} (K : Prop) (m : SE S A) : triple (λ _, K) m (λ _ _, K) (λ _ _, True).
Proof. intros s Hs. by destruct (m s) as [[a|e] s']. Qed.
Lemma triple_fact {A} (K : Prop) (m : SE S A) Q E :
  (K → triple (λ _, True) m Q E) → triple (λ _, K) m Q E.
Proof. intros Hm s Hk. by apply Hm. Qed.
Lemma triple_true {A} P (m : SE S A) : triple P m (λ _ _, True) (λ _ _, True).
Proof. intros s _. by destruct (m s) as [[a|e] s']. Qed.
Lemma triple_for_each {A} (I : S → Prop) E (xs : list A) body :
  (∀ x, triple I (body x) (λ _, I) E) → triple I (for_each xs body) (λ _, I) E.
Proof.
  intros Hb. induction xs as [|x xs IH]; simpl; [by apply triple_ret|]. by eapply triple_bind; [apply Hb|].
Qed.
End Triples.

(** A property of the state that every part of a computation keeps is kept by
    the whole. *)
Definition preserves {S A} (P : S → Prop) (m : SE S A) : Prop :=
  ∀ s, P s → P (m s).2.

Section Preserves.
Context {S : Type} (P : S → Prop).

Lemma preserves_ret {A} (a : A) : preserves P (mret a : SE S A).
Proof. intros s H. exact H. Qed.
Lemma preserves_raise {A} e : preserves P (raise e : SE S A).
Proof. intros s H. exact H. Qed.
Lemma preserves_raise_if b e : preserves P (raise_if b e).
Proof. intros s H. unfold raise_if. by destruct b. Qed.
Lemma preserves_get {A} (f : S → A) : preserves P (get f).
Proof. intros s H. exact H. Qed.
Lemma preserves_lift {A} (r : result A) : preserves P (lift r).
Proof. intros s H. exact H. Qed.
Lemma preserves_bind {A B} (m : SE S A) (f : A → SE S B) :
  preserves P m → (∀ a, preserves P (f a)) → preserves P (m ≫= f).
Proof.
  intros Hm Hf s Hs. unfold mbind, SE_bind. specialize (Hm s Hs).
  destruct (m s) as [[a|e] s1]; simpl in *; [by apply Hf | done].
Qed.
Lemma preserves_catch {A} (m : SE S A) h :
  preserves P m → (∀ e, preserves P (h e)) → preserves P (catch m h).
Proof.
  intros Hm Hh s Hs. unfold catch. specialize (Hm s Hs).
  destruct (m s) as [[a|e] s1]; simpl in *; [done | by apply Hh].
Qed.
Lemma preserves_for_each {A} (xs : list A) body :
  (∀ x, preserves P (body x)) → preserves P (for_each xs body).
Proof.
  intros Hb. induction xs as [|x xs IH]; simpl.
  - apply preserves_ret.
  - apply preserves_bind; [apply Hb | intros _; exact IH].
Qed.
End Preserves.

Lemma triple_preserves {S A} (P : S → Prop) (m : SE S A) :
  triple P m (λ _, P) (λ _, P) ↔ preserves P m.
Proof.
  split; intros Hm s Hs; specialize (Hm s Hs); by destruct (m s) as [[a|e] s'].
Qed.
Lemma preserves_attempt {S A} (P : S → Prop) (m : SE S A) : preserves P m → preserves P (attempt m).
Proof. intros Hm s Hs. specialize (Hm s Hs). unfold attempt. by destruct (m s) as [r s']. Qed.

Create HintDb preserves.
#[export] Hint Resolve preserves_ret preserves_raise preserves_raise_if preserves_get
  preserves_lift preserves_bind preserves_catch preserves_for_each preserves_attempt : preserves.

(** ** Boolean tests on strings and options *)

Definition opt_is_some {A} (o : option A) : bool :=
  match o with Some _ => true | None => false end.
Definition opt_is_none {A} (o : option A) : bool := negb (opt_is_some o).

(** Membership of a string in a literal set, [value in {...}]. *)
Definition str_in (x : string) (xs : list string) : bool := existsb (String.eqb x) xs.

Lemma str_in_spec x xs : str_in x xs = true ↔ x ∈ xs.
Proof.
  unfold str_in. rewrite existsb_exists. split.
  - intros (y & Hy & E%String.eqb_eq). subst. by apply list_elem_of_In.
  - intros H%list_elem_of_In. exists x. split; [done | apply String.eqb_refl].
Qed.

(** [COALESCE(o, x)] and [o or x] on values that are never falsy. *)
Definition coalesce {A} (o : option A) (x : A) : A :=
  match o with Some a => a | None => x end.
Definition coalesce_opt {A} (o p : option A) : option A :=
  match o with Some a => Some a | None => p end.

(** ** Tactics *)

(** Decide the first [if]/[match] scrutinee of the goal. *)
Ltac split_match :=
  match goal with
  | |- context [ if ?b then _ else _ ] => destruct b eqn:?
  | |- context [ match ?x with _ => _ end ] => destruct x eqn:?
  end.

(** Turn boolean tests in the context into propositions. *)
Ltac bool_simp :=
  repeat match goal with
  | H : _ && _ = true |- _ => apply andb_true_iff in H; destruct H
  | H : _ || _ = false |- _ => apply orb_false_iff in H; destruct H
  | H : negb _ = true |- _ => apply negb_true_iff in H
  | H : negb _ = false |- _ => apply negb_false_iff in H
  | H : String.eqb _ _ = true |- _ => apply String.eqb_eq in H
  | H : String.eqb _ _ = false |- _ => apply String.eqb_neq in H
  | H : Z.eqb _ _ = true |- _ => apply Z.eqb_eq in H
  | H : Z.eqb _ _ = false |- _ => apply Z.eqb_neq in H
  end.

(** Discharge a [preserves] goal along the structure of the program. *)
Ltac preserve := eauto 20 with preserves.
