(* ===== verification/Sqlite.v ===== *)
(** * SQLite connections and tables

    What the agent's store uses of Python's [sqlite3] module: a connection in
    autocommit mode ([isolation_level=None]) on which [BEGIN IMMEDIATE] opens a
    transaction that [commit] makes durable and that [rollback], or closing the
    connection, discards.  A statement that violates a constraint has no effect
    and raises [IntegrityError]; the transaction stays open.

    Tables are lists of rows in insertion order.  [UPDATE ... WHERE] rewrites
    every matching row and reports how many matched. *)

From S2P Require Export Prelude.

Section Connection.
Context {DB : Type}.

Record conn := Conn { committed : DB; working : DB; in_tx : bool }.

(** Read the view of this connection. *)
Definition query {A} (f : DB → A) : SE conn A := fun c => (Ok (f (working c)), c).

(** Run one statement; outside a transaction it commits by itself. *)
Definition exec {A} (f : DB → result (A * DB)) : SE conn A := fun c =>
  match f (working c) with
  | Err e => (Err e, c)
  | Ok (a, d) => (Ok a, Conn (if in_tx c then committed c else d) d (in_tx c))
  end.

Definition begin_immediate : SE conn unit := fun c =>
  (Ok tt, Conn (committed c) (committed c) true).
Definition commit : SE conn unit := fun c => (Ok tt, Conn (working c) (working c) false).
Definition rollback : SE conn unit := fun c => (Ok tt, Conn (committed c) (committed c) false).

(** [with self.connection() as connection]: what is not committed when the
    block ends, by return or by exception, is lost. *)
Definition with_connection {A} (m : SE conn A) : SE DB A := fun d =>
  let '(r, c) := m (Conn d d false) in (r, committed c).
End Connection.
Arguments conn DB : clear implicits.
Arguments Conn {_} _ _ _.

(** ** Rows *)

Section Rows.
Context {R : Type}.

Definition update_rows (p : R → bool) (f : R → R) (t : list R) : list R :=
  map (fun r => if p r then f r else r) t.
Definition rowcount (p : R → bool) (t : list R) : nat := length (List.filter p t).
Definition delete_rows (p : R → bool) (t : list R) : list R :=
  List.filter (fun r => negb (p r)) t.
(** [SELECT ... WHERE ...] and its [fetchone]. *)
Definition select (p : R → bool) (t : list R) : list R := List.filter p t.
Definition select_one (p : R → bool) (t : list R) : option R := List.find p t.

(** Rows in the order of an [ORDER BY] key; rows with equal keys keep their
    insertion order. *)
Fixpoint insert_sorted (le : R → R → bool) (x : R) (t : list R) : list R :=
  match t with
  | [] => [x]
  | y :: t' => if le x y then x :: y :: t' else y :: insert_sorted le x t'
  end.
Fixpoint order_by (le : R → R → bool) (t : list R) : list R :=
  match t with
  | [] => []
  | x :: t' => insert_sorted le x (order_by le t')
  end.

Implicit Types (t : list R) (p : R → bool).

Lemma elem_of_select p t r : r ∈ select p t ↔ r ∈ t ∧ p r = true.
Proof.
  unfold select. rewrite !list_elem_of_In. apply filter_In.
Qed.
Lemma elem_of_delete_rows p t r : r ∈ delete_rows p t ↔ r ∈ t ∧ p r = false.
Proof.
  unfold delete_rows. rewrite !list_elem_of_In, filter_In.
  by rewrite negb_true_iff.
Qed.
Lemma select_one_Some p t r : select_one p t = Some r → r ∈ t ∧ p r = true.
Proof. intros H%find_some. by rewrite list_elem_of_In. Qed.
Lemma select_one_None p t : select_one p t = None ↔ ∀ r, r ∈ t → p r = false.
Proof.
  split.
  - intros H r Hr%list_elem_of_In. by apply (find_none _ _ H).
  - intros H. destruct (select_one p t) eqn:E; [|done].
    apply select_one_Some in E as [E1 E2]. rewrite (H _ E1) in E2. done.
Qed.
Lemma rowcount_0 p t : rowcount p t = 0%nat ↔ ∀ r, r ∈ t → p r = false.
Proof.
  unfold rowcount. rewrite length_zero_iff_nil. split.
  - intros H r Hr. destruct (p r) eqn:E; [|done].
    assert (In r (List.filter p t)) as Hin by (apply filter_In; by rewrite <-list_elem_of_In).
    by rewrite H in Hin.
  - intros H. destruct (List.filter p t) as [|x l] eqn:E; [done|].
    assert (In x (List.filter p t)) as Hin by (rewrite E; by left).
    apply filter_In in Hin as [H1 H2]. rewrite <-list_elem_of_In in H1.
    by rewrite (H _ H1) in H2.
Qed.
Lemma rowcount_pos p t : rowcount p t ≠ 0%nat → ∃ r, r ∈ t ∧ p r = true.
Proof.
  unfold rowcount. destruct (List.filter p t) as [|x l] eqn:E; [done|]. intros _.
  exists x. rewrite list_elem_of_In. apply filter_In. rewrite E. by left.
Qed.
Lemma elem_of_update_rows p f t r :
  r ∈ update_rows p f t ↔ ∃ r0, r0 ∈ t ∧ r = if p r0 then f r0 else r0.
Proof.
  unfold update_rows. rewrite list_elem_of_In, in_map_iff. split.
  - intros (r0 & <- & H). exists r0. by rewrite list_elem_of_In.
  - intros (r0 & H & ->). exists r0. by rewrite <-list_elem_of_In.
Qed.
Lemma length_update_rows p f t : length (update_rows p f t) = length t.
Proof. apply length_map. Qed.
Lemma update_rows_id p f t : rowcount p t = 0%nat → update_rows p f t = t.
Proof.
  rewrite rowcount_0. intros H. unfold update_rows.
  transitivity (map id t); [|by rewrite map_id].
  apply map_ext_in. intros r Hr%list_elem_of_In. by rewrite (H _ Hr).
Qed.
Lemma update_rows_keys {K} (key : R → K) p f t :
  (∀ r, key (f r) = key r) → map key (update_rows p f t) = map key t.
Proof.
  intros H. unfold update_rows. rewrite map_map. apply map_ext.
  intros r. by destruct (p r).
Qed.

Lemma elem_of_insert_sorted le x t r : r ∈ insert_sorted le x t ↔ r = x ∨ r ∈ t.
Proof.
  induction t as [|y t IH]; simpl.
  - rewrite elem_of_cons. done.
  - destruct (le x y); rewrite !elem_of_cons; [done|]. rewrite IH. tauto.
Qed.
Lemma elem_of_order_by le t r : r ∈ order_by le t ↔ r ∈ t.
Proof.
  induction t as [|x t IH]; simpl; [done|].
  rewrite elem_of_insert_sorted, IH, elem_of_cons. done.
Qed.
Lemma insert_sorted_Permutation le x t : Permutation (insert_sorted le x t) (x :: t).
Proof.
  induction t as [|y t IH]; simpl; [done|].
  destruct (le x y); [done|]. rewrite IH. apply perm_swap.
Qed.
Lemma order_by_Permutation le t : Permutation (order_by le t) t.
Proof.
  induction t as [|x t IH]; simpl; [done|].
  rewrite insert_sorted_Permutation. by constructor.
Qed.
End Rows.

(** ** Keys *)

Section Keys.
Context {R : Type} (key : R → string).
Implicit Types (t : list R).

Definition key_is (k : string) (r : R) : bool := String.eqb (key r) k.
(** A [UNIQUE] or [PRIMARY KEY] column. *)
Definition unique_key t : Prop := NoDup (map key t).
Definition has_key (k : string) t : bool := existsb (key_is k) t.

Lemma key_is_true k r : key_is k r = true ↔ key r = k.
Proof. apply String.eqb_eq. Qed.
Lemma has_key_false k t : has_key k t = false ↔ ∀ r, r ∈ t → key r ≠ k.
Proof.
  unfold has_key. split.
  - intros H r Hr Heq. apply not_true_iff_false in H. apply H.
    apply existsb_exists. exists r. rewrite <-list_elem_of_In, key_is_true. done.
  - intros H. apply not_true_iff_false. rewrite existsb_exists.
    intros (r & Hr%list_elem_of_In & Hk%key_is_true). by apply (H r).
Qed.
Lemma has_key_true k t : has_key k t = true ↔ ∃ r, r ∈ t ∧ key r = k.
Proof.
  unfold has_key. rewrite existsb_exists. split.
  - intros (r & Hr%list_elem_of_In & Hk%key_is_true). eauto.
  - intros (r & Hr & Hk). exists r. by rewrite <-list_elem_of_In, key_is_true.
Qed.
Lemma unique_key_nil : unique_key [].
Proof. constructor. Qed.
Lemma unique_key_snoc t r :
  unique_key t → has_key (key r) t = false → unique_key (t ++ [r]).
Proof.
  unfold unique_key. intros Ht H. rewrite map_app. apply NoDup_app. split; [done|].
  split; [|by apply NoDup_singleton]. intros k Hk ->%list_elem_of_singleton.
  apply list_elem_of_In, in_map_iff in Hk as (r' & E & Hr').
  rewrite has_key_false in H. apply (H r'); [by rewrite list_elem_of_In | done].
Qed.
Lemma unique_key_inj t r1 r2 :
  unique_key t → r1 ∈ t → r2 ∈ t → key r1 = key r2 → r1 = r2.
Proof.
  unfold unique_key. induction t as [|x t IH]; simpl; intros Ht H1 H2 E.
  - by apply elem_of_nil in H1.
  - apply NoDup_cons in Ht as [Hx Ht]. rewrite elem_of_cons in H1, H2.
    assert (∀ r, r ∈ t → key r = key x → False) as Hnot.
    { intros r Hr Er. apply Hx. rewrite <-Er. apply list_elem_of_In, in_map.
      by rewrite <-list_elem_of_In. }
    destruct H1 as [->|H1], H2 as [->|H2]; [done| | |by apply IH].
    + exfalso. by eapply Hnot.
    + exfalso. by eapply Hnot.
Qed.
Lemma unique_key_update t p f :
  (∀ r, key (f r) = key r) → unique_key t → unique_key (update_rows p f t).
Proof. intros Hf. unfold unique_key. by rewrite update_rows_keys. Qed.
Lemma unique_key_delete t p : unique_key t → unique_key (delete_rows p t).
Proof.
  unfold unique_key, delete_rows. induction t as [|x t IH]; simpl; [done|].
  rewrite NoDup_cons. intros [Hx Ht]. destruct (negb (p x)); [|by apply IH].
  simpl. apply NoDup_cons. split; [|by apply IH]. intros H. apply Hx.
  apply list_elem_of_In, in_map_iff in H as (y & E & Hy).
  apply filter_In in Hy as [Hy _]. rewrite <-E. by apply list_elem_of_In, in_map.
Qed.
Lemma select_one_key t k r :
  unique_key t → r ∈ t → key r = k → select_one (key_is k) t = Some r.
Proof.
  intros Hu Hr Hk. destruct (select_one (key_is k) t) as [r'|] eqn:E.
  - apply select_one_Some in E as [H1 H2%key_is_true]. f_equal.
    apply (unique_key_inj t); congruence.
  - rewrite select_one_None in E. specialize (E _ Hr).
    apply not_true_iff_false in E. exfalso. apply E. by apply key_is_true.
Qed.
(** An [UPDATE] whose [WHERE] pins a unique key touches at most one row. *)
Lemma rowcount_unique t p k :
  unique_key t → (∀ r, p r = true → key r = k) → (rowcount p t ≤ 1)%nat.
Proof.
  unfold unique_key, rowcount. intros Hu Hp. induction t as [|x t IH]; simpl in *; [lia|].
  apply NoDup_cons in Hu as [Hx Hu]. specialize (IH Hu).
  destruct (p x) eqn:E; [|done]. simpl.
  assert (rowcount p t = 0%nat) as H0; [|unfold rowcount in H0; lia].
  apply rowcount_0. intros r Hr. destruct (p r) eqn:Er; [|done].
  exfalso. apply Hx. rewrite (Hp _ E), <-(Hp _ Er).
  apply list_elem_of_In, in_map. by rewrite <-list_elem_of_In.
Qed.
Lemma rowcount_one t p r :
  unique_key t → (∀ r', p r' = true → key r' = key r) → r ∈ t → p r = true →
  rowcount p t = 1%nat.
Proof.
  intros Hu Hp Hr E. pose proof (rowcount_unique t p (key r) Hu Hp).
  destruct (decide (rowcount p t = 0%nat)) as [H0|]; [|lia].
  rewrite rowcount_0 in H0. by rewrite (H0 _ Hr) in E.
Qed.
End Keys.

Lemma select_one_snoc {R} (p : R → bool) t r :
  select_one p t = None → p r = true → select_one p (t ++ [r]) = Some r.
Proof.
  unfold select_one. intros Hn Hp. induction t as [|x t IH]; simpl in *; [by rewrite Hp|].
  destruct (p x); [done | by apply IH].
Qed.
Lemma select_one_updated {R} (p q : R → bool) f t :
  (∀ x, p (f x) = p x) →
  select_one p (update_rows q f t) = (λ r, if q r then f r else r) <$> select_one p t.
Proof.
  intros Hp. unfold select_one, update_rows. induction t as [|x t IH]; simpl; [done|].
  assert (p (if q x then f x else x) = p x) as -> by (destruct (q x); [apply Hp|done]).
  by destruct (p x).
Qed.
(** A row updated under its own key. *)
Lemma select_one_update {R} (key : R → string) k f (t : list R) :
  (∀ r, key (f r) = key r) →
  select_one (key_is key k) (update_rows (key_is key k) f t)
  = f <$> select_one (key_is key k) t.
Proof.
  intros Hf. unfold select_one, update_rows. induction t as [|r t IH]; simpl; [done|].
  destruct (key_is key k r) eqn:E; simpl.
  - unfold key_is in *. by rewrite Hf, E.
  - by rewrite E.
Qed.

Create HintDb tables.
#[export] Hint Resolve unique_key_nil unique_key_snoc unique_key_update unique_key_delete : tables.
