(* ===== verification/TaskStates.v ===== *)
(** * Task states

    The lifecycle of a local task: [domain/states.py] of the desktop agent.
    The fourteen states, the two sets of terminal states, the transition table
    and the guard [ensure_transition] that the store calls before every
    compare-and-set. *)

From S2P Require Export Prelude.

Inductive TaskState :=
  | RECEIVED | DUPLICATE | SKIPPED | BLOCKED | REJECTED | QUEUED | PREPARING
  | RUNNING | CANCEL_REQUESTED | CLEANING_UP | COMPLETED | FAILED | CANCELLED
  | INTERRUPTED.

#[global] Instance TaskState_eq_dec : EqDecision TaskState.
Proof. solve_decision. Defined.

(** [TaskState] is a [StrEnum]: this is its [.value], the text in the table. *)
Definition value (s : TaskState) : string :=
  match s with
  | RECEIVED => "received" | DUPLICATE => "duplicate" | SKIPPED => "skipped"
  | BLOCKED => "blocked" | REJECTED => "rejected" | QUEUED => "queued"
  | PREPARING => "preparing" | RUNNING => "running"
  | CANCEL_REQUESTED => "cancel_requested" | CLEANING_UP => "cleaning_up"
  | COMPLETED => "completed" | FAILED => "failed" | CANCELLED => "cancelled"
  | INTERRUPTED => "interrupted"
  end.

Definition PRE_EXECUTION_TERMINAL : list TaskState := [DUPLICATE; SKIPPED; BLOCKED; REJECTED].
Definition EXECUTION_TERMINAL : list TaskState := [COMPLETED; FAILED; CANCELLED; INTERRUPTED].
Definition TERMINAL_STATES : list TaskState := PRE_EXECUTION_TERMINAL ++ EXECUTION_TERMINAL.

(** [ALLOWED_TRANSITIONS.get(current, set())]. *)
Definition ALLOWED_TRANSITIONS (current : TaskState) : list TaskState :=
  match current with
  | RECEIVED => [DUPLICATE; SKIPPED; BLOCKED; REJECTED; QUEUED]
  | QUEUED => [PREPARING; CANCEL_REQUESTED; SKIPPED; BLOCKED; REJECTED]
  | PREPARING => [RUNNING; CANCEL_REQUESTED; FAILED; INTERRUPTED]
  | RUNNING => [CANCEL_REQUESTED; CLEANING_UP; INTERRUPTED]
  | CANCEL_REQUESTED => [CLEANING_UP]
  | CLEANING_UP => [COMPLETED; FAILED; CANCELLED; INTERRUPTED]
  | _ => []
  end.

Definition allowed (current target : TaskState) : bool :=
  bool_decide (target ∈ ALLOWED_TRANSITIONS current).
Definition terminal (s : TaskState) : bool := bool_decide (s ∈ TERMINAL_STATES).

Definition ensure_transition (current target : TaskState) : result unit :=
  if allowed current target then Ok tt
  else Err (ValueError
    ("invalid task transition: " +:+ value current +:+ " -> " +:+ value target)).

Definition state_eqb (a b : TaskState) : bool := bool_decide (a = b).

Lemma state_eqb_true a b : state_eqb a b = true ↔ a = b.
Proof. apply bool_decide_eq_true. Qed.
Lemma state_eqb_refl a : state_eqb a a = true.
Proof. by apply state_eqb_true. Qed.

Lemma value_inj a b : value a = value b → a = b.
Proof. destruct a, b; simpl; congruence. Qed.

(** Steps of the table, and chains of them. *)
Definition transition (a b : TaskState) : Prop := allowed a b = true.

(** How many transitions a task can still make. *)
Definition rank (s : TaskState) : nat :=
  match s with
  | RECEIVED => 6 | QUEUED => 5 | PREPARING => 4 | RUNNING => 3
  | CANCEL_REQUESTED => 2 | CLEANING_UP => 1 | _ => 0
  end.

Lemma transition_rank a b : transition a b → (rank b < rank a)%nat.
Proof. unfold transition. destruct a, b; vm_compute; intros; (discriminate || lia). Qed.

Lemma terminal_final a b : terminal a = true → allowed a b = false.
Proof. by destruct a, b. Qed.

Lemma nonterminal_moves a : terminal a = false → ∃ b, transition a b.
Proof.
  destruct a; try discriminate; intros _;
    [exists QUEUED | exists PREPARING | exists RUNNING | exists CLEANING_UP
    | exists CLEANING_UP | exists COMPLETED]; reflexivity.
Qed.
