(* ===== verification/Json.v ===== *)
(** * JSON values, their canonical rendering and their parser

    [canonical_json] of [infrastructure/contracts.py] (and of the backend's
    [contracts.py]): [json.dumps] with sorted keys, no insignificant white
    space, non-ASCII text kept, encoded as UTF-8; and the [json.loads] that
    reads the stored text back.  A text is its UTF-8 byte string, so non-ASCII
    characters pass through unchanged and the order of keys by code point is
    the order of bytes.  A float is carried as the literal [repr] writes. *)

From Stdlib Require Import DecimalString DecimalZ Ascii.
From S2P Require Export Prelude.

Inductive json :=
  | JNull
  | JBool (b : bool)
  | JInt (z : Z)
  | JFloat (repr : string)
  | JStr (s : string)
  | JList (xs : list json)
  | JObj (kvs : list (string * json)).

Section JsonInd.
Context (P : json → Prop).
Hypothesis (Hnull : P JNull) (Hbool : ∀ b, P (JBool b)) (Hint : ∀ z, P (JInt z))
  (Hfloat : ∀ r, P (JFloat r)) (Hstr : ∀ s, P (JStr s))
  (Hlist : ∀ xs, Forall P xs → P (JList xs))
  (Hobj : ∀ kvs, Forall (λ kv, P kv.2) kvs → P (JObj kvs)).

Fixpoint json_nested_ind (j : json) : P j :=
  match j with
  | JNull => Hnull
  | JBool b => Hbool b
  | JInt z => Hint z
  | JFloat r => Hfloat r
  | JStr s => Hstr s
  | JList xs => Hlist xs
      ((fix go (xs : list json) : Forall P xs :=
         match xs with
         | [] => Forall_nil_2 _
         | x :: xs' => Forall_cons_2 _ _ _ (json_nested_ind x) (go xs')
         end) xs)
  | JObj kvs => Hobj kvs
      ((fix go (kvs : list (string * json)) : Forall (λ kv, P kv.2) kvs :=
         match kvs with
         | [] => Forall_nil_2 _
         | kv :: kvs' => Forall_cons_2 _ _ _ (json_nested_ind kv.2) (go kvs')
         end) kvs)
  end.
End JsonInd.

(** ** Order on text *)

(** [a <= b] for Python strings, by code point. *)
Fixpoint str_leb (a b : string) : bool :=
  match a, b with
  | EmptyString, _ => true
  | String _ _, EmptyString => false
  | String x a', String y b' =>
      let m := N_of_ascii x in
      let n := N_of_ascii y in
      if (m <? n)%N then true else if (n <? m)%N then false else str_leb a' b'
  end.

(** ** Rendering *)

Definition dquote : string := String (ascii_of_nat 34) EmptyString.
Definition backslash : string := String (ascii_of_nat 92) EmptyString.

Definition hex_digit (n : N) : ascii :=
  ascii_of_N (if (n <? 10)%N then 48 + n else 87 + n).

(** The escapes of [json.dumps(..., ensure_ascii=False)]. *)
Definition escape_char (c : ascii) : string :=
  let n := N_of_ascii c in
  if (n =? 34)%N then backslash +:+ dquote
  else if (n =? 92)%N then backslash +:+ backslash
  else if (n =? 10)%N then backslash +:+ "n"
  else if (n =? 13)%N then backslash +:+ "r"
  else if (n =? 9)%N then backslash +:+ "t"
  else if (n =? 12)%N then backslash +:+ "f"
  else if (n =? 8)%N then backslash +:+ "b"
  else if (n <? 32)%N then
    backslash +:+ "u00" +:+
      String (hex_digit (n / 16)) (String (hex_digit (n mod 16)) EmptyString)
  else String c EmptyString.

Fixpoint escape (s : string) : string :=
  match s with
  | EmptyString => EmptyString
  | String c s' => escape_char c +:+ escape s'
  end.

Definition quote (s : string) : string := dquote +:+ escape s +:+ dquote.

(** [str(z)] for an [int]. *)
Definition str_of_Z (z : Z) : string := NilZero.string_of_int (Z.to_int z).

Fixpoint join (sep : string) (xs : list string) : string :=
  match xs with
  | [] => EmptyString
  | [x] => x
  | x :: xs' => x +:+ sep +:+ join sep xs'
  end.

Fixpoint insert_kv {A} (kv : string * A) (l : list (string * A)) : list (string * A) :=
  match l with
  | [] => [kv]
  | kv' :: l' => if str_leb kv.1 kv'.1 then kv :: kv' :: l' else kv' :: insert_kv kv l'
  end.
Fixpoint sort_kvs {A} (l : list (string * A)) : list (string * A) :=
  match l with
  | [] => []
  | kv :: l' => insert_kv kv (sort_kvs l')
  end.

Fixpoint canonical_json (j : json) : string :=
  match j with
  | JNull => "null"
  | JBool true => "true"
  | JBool false => "false"
  | JInt z => str_of_Z z
  | JFloat r => r
  | JStr s => quote s
  | JList xs => "[" +:+ join "," (map canonical_json xs) +:+ "]"
  | JObj kvs =>
      "{" +:+ join "," (map (λ kv, quote kv.1 +:+ ":" +:+ kv.2)
                         (sort_kvs (map (λ kv, (kv.1, canonical_json kv.2)) kvs))) +:+ "}"
  end.

(** [allow_nan=False]: [NaN] and the infinities make [json.dumps] raise
    [ValueError]. *)
Fixpoint finite (j : json) : bool :=
  match j with
  | JFloat r => negb (str_in r ["NaN"; "Infinity"; "-Infinity"])
  | JList xs => forallb finite xs
  | JObj kvs => forallb (λ kv, finite kv.2) kvs
  | _ => true
  end.

(** ** Dictionaries *)

(** [d.get(k)] *)
Definition dict_get (d : list (string * json)) (k : string) : option json :=
  snd <$> List.find (λ kv, String.eqb kv.1 k) d.

(** [d[k] = v]: replaces in place, or appends. *)
Fixpoint dict_set (d : list (string * json)) (k : string) (v : json) : list (string * json) :=
  match d with
  | [] => [(k, v)]
  | kv :: d' => if String.eqb kv.1 k then (k, v) :: d' else kv :: dict_set d' k v
  end.
