(* ===== verification/JsonLoads.v ===== *)
(** * [json.loads]

    The decoder of Python's [json] module on a whole text: white space, the
    literals, numbers, strings with their escapes (surrogate pairs included,
    encoded as UTF-8), arrays and objects, with [JSONDecodeError] as [None].
    Every call consumes at least one character, so a fuel of one more than the
    length of the text is enough.  A number with a fraction or an exponent is a
    float and keeps its literal.  The limits CPython puts on nesting depth and
    on the digits of one integer are not modelled. *)

From Stdlib Require Import DecimalString DecimalZ Ascii.
From S2P Require Export Json.

Definition char_code (c : ascii) : N := N_of_ascii c.
Definition is_char (n : N) (c : ascii) : bool := (char_code c =? n)%N.
Definition is_digit (c : ascii) : bool :=
  let n := char_code c in (48 <=? n)%N && (n <=? 57)%N.
Definition is_ws (c : ascii) : bool :=
  let n := char_code c in ((n =? 32) || (n =? 9) || (n =? 10) || (n =? 13))%N.

Fixpoint skip_ws (s : string) : string :=
  match s with
  | String c s' => if is_ws c then skip_ws s' else s
  | EmptyString => s
  end.

Fixpoint strip_prefix (p s : string) : option string :=
  match p, s with
  | EmptyString, _ => Some s
  | String a p', String b s' => if Ascii.eqb a b then strip_prefix p' s' else None
  | _, _ => None
  end.

(** The longest run of digits, and the rest. *)
Fixpoint span_digits (s : string) : string * string :=
  match s with
  | String c s' =>
      if is_digit c then let '(d, r) := span_digits s' in (String c d, r)
      else (EmptyString, s)
  | EmptyString => (EmptyString, EmptyString)
  end.

Definition hex_value (c : ascii) : option N :=
  let n := char_code c in
  if (48 <=? n)%N && (n <=? 57)%N then Some (n - 48)%N
  else if (97 <=? n)%N && (n <=? 102)%N then Some (n - 87)%N
  else if (65 <=? n)%N && (n <=? 70)%N then Some (n - 55)%N
  else None.

Definition hex4 (s : string) : option (N * string) :=
  match s with
  | String a (String b (String c (String d r))) =>
      x ← hex_value a; y ← hex_value b; z ← hex_value c; w ← hex_value d;
      Some ((((x * 16 + y) * 16 + z) * 16 + w)%N, r)
  | _ => None
  end.

Definition byte (n : N) : string := String (ascii_of_N n) EmptyString.

Definition utf8 (n : N) : string :=
  (if n <? 128 then byte n
   else if n <? 2048 then byte (192 + n / 64) +:+ byte (128 + n mod 64)
   else if n <? 65536 then
     byte (224 + n / 4096) +:+ byte (128 + n / 64 mod 64) +:+ byte (128 + n mod 64)
   else byte (240 + n / 262144) +:+ byte (128 + n / 4096 mod 64)
        +:+ byte (128 + n / 64 mod 64) +:+ byte (128 + n mod 64))%N.

(** One escape, after the backslash. *)
Definition scan_escape (s : string) : option (string * string) :=
  match s with
  | EmptyString => None
  | String c r =>
      if is_char 34 c then Some (dquote, r)
      else if is_char 92 c then Some (backslash, r)
      else if is_char 47 c then Some ("/", r)
      else if is_char 98 c then Some (byte 8, r)
      else if is_char 102 c then Some (byte 12, r)
      else if is_char 110 c then Some (byte 10, r)
      else if is_char 114 c then Some (byte 13, r)
      else if is_char 116 c then Some (byte 9, r)
      else if is_char 117 c then
        '(u, r1) ← hex4 r;
        if (55296 <=? u)%N && (u <=? 56319)%N then
          match strip_prefix (backslash +:+ "u") r1 ≫= hex4 with
          | Some (u2, r2) =>
              if (56320 <=? u2)%N && (u2 <=? 57343)%N
              then Some (utf8 (65536 + (u - 55296) * 1024 + (u2 - 56320)), r2)
              else Some (utf8 u, r1)
          | None => Some (utf8 u, r1)
          end
        else Some (utf8 u, r1)
      else None
  end.

(** [scanstring], after the opening quote. *)
Fixpoint scan_string (fuel : nat) (s : string) : option (string * string) :=
  match fuel with
  | O => None
  | S fuel' =>
      match s with
      | EmptyString => None
      | String c r =>
          if is_char 34 c then Some (EmptyString, r)
          else if is_char 92 c then
            '(e, r1) ← scan_escape r;
            '(t, r2) ← scan_string fuel' r1;
            Some (e +:+ t, r2)
          else if (char_code c <? 32)%N then None
          else '(t, r1) ← scan_string fuel' r; Some (String c t, r1)
      end
  end.

(** [(-?(?:0|[1-9][0-9]* ))(\.[0-9]+)?([eE][-+]?[0-9]+)?] *)
Definition scan_frac (s : string) : string * string :=
  match s with
  | String c r =>
      if is_char 46 c then
        match span_digits r with
        | (EmptyString, _) => (EmptyString, s)
        | (d, r') => (String c d, r')
        end
      else (EmptyString, s)
  | EmptyString => (EmptyString, s)
  end.
Definition scan_exp (s : string) : string * string :=
  match s with
  | String c r =>
      if is_char 101 c || is_char 69 c then
        let '(sign, r1) :=
          match r with
          | String g r' => if is_char 43 g || is_char 45 g
                           then (String g EmptyString, r') else (EmptyString, r)
          | EmptyString => (EmptyString, r)
          end in
        match span_digits r1 with
        | (EmptyString, _) => (EmptyString, s)
        | (d, r') => (String c (sign +:+ d), r')
        end
      else (EmptyString, s)
  | EmptyString => (EmptyString, s)
  end.
Definition scan_int (s : string) : option (string * string) :=
  let '(sign, r) := match s with
                    | String c r => if is_char 45 c then (String c EmptyString, r)
                                    else (EmptyString, s)
                    | EmptyString => (EmptyString, s)
                    end in
  match r with
  | String c r' =>
      if is_char 48 c then Some (sign +:+ String c EmptyString, r')
      else match span_digits r with
           | (EmptyString, _) => None
           | (d, r'') => Some (sign +:+ d, r'')
           end
  | EmptyString => None
  end.
Definition Z_of_str (s : string) : option Z := Z.of_int <$> NilZero.int_of_string s.

Definition scan_number (s : string) : option (json * string) :=
  '(i, r) ← scan_int s;
  match scan_frac r with
  | (f, r1) =>
      match scan_exp r1 with
      | (EmptyString, _) =>
          match f with
          | EmptyString => z ← Z_of_str i; Some (JInt z, r)
          | _ => Some (JFloat (i +:+ f), r1)
          end
      | (e, r2) => Some (JFloat (i +:+ f +:+ e), r2)
      end
  end.

Section Scanner.
(** [scan_value] with the recursion cut by fuel. *)
Context (scan_value : string → option (json * string)).

(** The elements of an array, from its first value on. *)
Fixpoint scan_items (fuel : nat) (s : string) : option (list json * string) :=
  match fuel with
  | O => None
  | S fuel' =>
      '(v, r) ← scan_value s;
      match skip_ws r with
      | String c r1 =>
          if is_char 93 c then Some ([v], r1)
          else if is_char 44 c then
            '(vs, r2) ← scan_items fuel' (skip_ws r1); Some (v :: vs, r2)
          else None
      | EmptyString => None
      end
  end.

(** The members of an object, from its first key on. *)
Fixpoint scan_members (fuel : nat) (s : string)
    : option (list (string * json) * string) :=
  match fuel with
  | O => None
  | S fuel' =>
      match s with
      | String q r =>
          if is_char 34 q then
            '(k, r1) ← scan_string (S (String.length r)) r;
            match skip_ws r1 with
            | String c r2 =>
                if is_char 58 c then
                  '(v, r3) ← scan_value (skip_ws r2);
                  match skip_ws r3 with
                  | String d r4 =>
                      if is_char 125 d then Some ([(k, v)], r4)
                      else if is_char 44 d then
                        '(kvs, r5) ← scan_members fuel' (skip_ws r4);
                        Some ((k, v) :: kvs, r5)
                      else None
                  | EmptyString => None
                  end
                else None
            | EmptyString => None
            end
          else None
      | EmptyString => None
      end
  end.
End Scanner.

(** [dict(pairs)]: the last value of a repeated key wins. *)
Definition dict_of_pairs (kvs : list (string * json)) : list (string * json) :=
  fold_left (λ d kv, dict_set d kv.1 kv.2) kvs [].

Definition scan_literal (p : string) (v : json) (s : string) : option (json * string) :=
  r ← strip_prefix p s; Some (v, r).

(** [scan_once] *)
Fixpoint scan_value (fuel : nat) (s : string) : option (json * string) :=
  match fuel with
  | O => None
  | S fuel' =>
      match s with
      | EmptyString => None
      | String c r =>
          if is_char 34 c then
            '(t, r1) ← scan_string (S (String.length r)) r; Some (JStr t, r1)
          else if is_char 123 c then
            match skip_ws r with
            | String d r1 =>
                if is_char 125 d then Some (JObj [], r1)
                else '(kvs, r2) ← scan_members (scan_value fuel') fuel' (String d r1);
                     Some (JObj (dict_of_pairs kvs), r2)
            | EmptyString => None
            end
          else if is_char 91 c then
            match skip_ws r with
            | String d r1 =>
                if is_char 93 d then Some (JList [], r1)
                else '(xs, r2) ← scan_items (scan_value fuel') fuel' (String d r1);
                     Some (JList xs, r2)
            | EmptyString => None
            end
          else if is_char 110 c then scan_literal "null" JNull s
          else if is_char 116 c then scan_literal "true" (JBool true) s
          else if is_char 102 c then scan_literal "false" (JBool false) s
          else match scan_number s with
               | Some x => Some x
               | None =>
                   if is_char 78 c then scan_literal "NaN" (JFloat "NaN") s
                   else if is_char 73 c then scan_literal "Infinity" (JFloat "Infinity") s
                   else scan_literal "-Infinity" (JFloat "-Infinity") s
               end
      end
  end.

Definition json_loads (s : string) : option json :=
  '(v, r) ← scan_value (S (String.length s)) (skip_ws s);
  match skip_ws r with
  | EmptyString => Some v
  | String _ _ => None
  end.

Example loads_dumps_example :
  let j := JObj [("b", JList [JInt (-12); JNull; JBool true]); ("a", JStr "x/y")] in
  json_loads (canonical_json j) =
    Some (JObj [("a", JStr "x/y"); ("b", JList [JInt (-12); JNull; JBool true])]).
Proof. vm_compute. reflexivity. Qed.
