(* ===== verification/JsonRoundTrip.v ===== *)
(** * [json.loads] reads back what [canonical_json] writes

    The text of a document is read back as the document with its keys sorted,
    whatever follows the text; and that document has the same text, hence the
    same digest. *)

From Stdlib Require Import Sorted DecimalString DecimalFacts DecimalZ DecimalPos DecimalN Ascii.
From S2P Require Export JsonLoads.

(** ** Documents *)

(** The document with the keys of every object sorted. *)
Fixpoint sorted_json (j : json) : json :=
  match j with
  | JList xs => JList (map sorted_json xs)
  | JObj kvs => JObj (sort_kvs (map (λ kv, (kv.1, sorted_json kv.2)) kvs))
  | other => other
  end.

(** What a Python value is: the keys of an object are distinct and a float is
    written as [repr] writes it, with a fraction or an exponent. *)
Fixpoint well_formed (j : json) : bool :=
  match j with
  | JFloat r => match scan_number r with
                | Some (JFloat r', EmptyString) => String.eqb r' r
                | _ => false
                end
  | JList xs => forallb well_formed xs
  | JObj kvs => bool_decide (NoDup (map fst kvs)) && forallb (λ kv, well_formed kv.2) kvs
  | _ => true
  end.

(** What may follow a value: nothing, or the punctuation after a value. *)
Definition follows (rest : string) : bool :=
  match rest with
  | EmptyString => true
  | String c _ => is_char 44 c || is_char 93 c || is_char 125 c
  end.

(** ** Strings *)

Lemma forallb_Forall {A} (f : A → bool) l : forallb f l = true → Forall (λ x, f x = true) l.
Proof.
  induction l as [|x l IH]; simpl; [constructor|]. intros H. apply andb_true_iff in H as [Hx Hl].
  constructor; auto.
Qed.

Lemma app_string_cons c a b : String c a +:+ b = String c (a +:+ b).
Proof. reflexivity. Qed.
Lemma app_string_assoc (a b c : string) : (a +:+ b) +:+ c = a +:+ (b +:+ c).
Proof. induction a as [|x a IH]; [done|]. by rewrite !app_string_cons, IH. Qed.
Lemma app_string_nil_r (a : string) : a +:+ EmptyString = a.
Proof. induction a as [|x a IH]; [done|]. by rewrite app_string_cons, IH. Qed.
Lemma length_app_string a b : String.length (a +:+ b) = (String.length a + String.length b)%nat.
Proof. induction a as [|x a IH]; [done|]. rewrite app_string_cons. simpl. by rewrite IH. Qed.

Lemma scan_escaped_char c fuel r :
  scan_string (S fuel) (escape_char c +:+ r) = ('(t, r1) ← scan_string fuel r; Some (String c t, r1)).
Proof.
  destruct c as [[] [] [] [] [] [] [] []]; cbn -[scan_string]; reflexivity.
Qed.

Lemma escape_char_length c : (0 < String.length (escape_char c))%nat.
Proof.
  unfold escape_char. repeat (destruct (_ =? _)%N; [simpl; lia|]). destruct (_ <? _)%N; simpl; lia.
Qed.

Lemma scan_string_escape s fuel rest :
  (String.length (escape s) < fuel)%nat →
  scan_string fuel (escape s +:+ dquote +:+ rest) = Some (s, rest).
Proof.
  revert fuel. induction s as [|c s IH]; intros fuel Hf.
  - destruct fuel; [lia|]. reflexivity.
  - destruct fuel as [|fuel]; [lia|]. cbn [escape] in *. rewrite length_app_string in Hf.
    pose proof (escape_char_length c). rewrite app_string_assoc, scan_escaped_char.
    rewrite IH by lia. reflexivity.
Qed.

(** ** Numbers *)

(** A rest at which no digit string, fraction or exponent goes on. *)
Definition number_ends (rest : string) : bool :=
  match rest with
  | EmptyString => true
  | String c _ => negb (is_digit c || is_char 46 c || is_char 101 c || is_char 69 c || is_char 43 c || is_char 45 c)
  end.

Lemma follows_number_ends rest : follows rest = true → number_ends rest = true.
Proof.
  destruct rest as [|c rest]; [done|]. destruct c as [[] [] [] [] [] [] [] []]; vm_compute; congruence.
Qed.
Lemma number_ends_head c rest :
  number_ends (String c rest) = true →
  is_digit c = false ∧ is_char 46 c = false ∧ (is_char 101 c || is_char 69 c) = false
  ∧ (is_char 43 c || is_char 45 c) = false.
Proof.
  simpl. destruct (is_digit c), (is_char 46 c), (is_char 101 c), (is_char 69 c), (is_char 43 c), (is_char 45 c);
    try discriminate. done.
Qed.

Section Local.
Context (rest : string) (Hr : number_ends rest = true).

Lemma span_digits_end : span_digits rest = (EmptyString, rest).
Proof. destruct rest as [|c s]; [done|]. simpl. by destruct (number_ends_head _ _ Hr) as (-> & _). Qed.
Lemma scan_frac_end : scan_frac rest = (EmptyString, rest).
Proof. destruct rest as [|c s]; [done|]. simpl. by destruct (number_ends_head _ _ Hr) as (_ & -> & _). Qed.
Lemma scan_exp_end : scan_exp rest = (EmptyString, rest).
Proof. destruct rest as [|c s]; [done|]. simpl. by destruct (number_ends_head _ _ Hr) as (_ & _ & -> & _). Qed.

Lemma scan_sign_end :
  match rest with
  | String g r' => if is_char 43 g || is_char 45 g then (String g EmptyString, r') else (EmptyString, rest)
  | EmptyString => (EmptyString, rest)
  end = (EmptyString, rest).
Proof. destruct rest as [|c s]; [done|]. by destruct (number_ends_head _ _ Hr) as (_ & _ & _ & ->). Qed.

Lemma span_digits_local s d r :
  span_digits s = (d, r) → span_digits (s +:+ rest) = (d, r +:+ rest).
Proof.
  revert d r. induction s as [|c s IH]; intros d r.
  - intros [= <- <-]. exact span_digits_end.
  - rewrite app_string_cons. cbn [span_digits]. destruct (is_digit c).
    + destruct (span_digits s) as [d' r'] eqn:E. intros [= <- <-]. by rewrite (IH _ _ eq_refl).
    + by intros [= <- <-].
Qed.

Lemma scan_frac_local s f r :
  scan_frac s = (f, r) → scan_frac (s +:+ rest) = (f, r +:+ rest).
Proof.
  destruct s as [|c s]; [intros [= <- <-]; exact scan_frac_end|].
  rewrite app_string_cons. cbn [scan_frac]. destruct (is_char 46 c); [|by intros [= <- <-]].
  destruct (span_digits s) as [d r'] eqn:E. rewrite (span_digits_local _ _ _ E).
  by destruct d; intros [= <- <-].
Qed.

(** The sign of an exponent, and what follows. *)
Lemma scan_exp_local s f r :
  scan_exp s = (f, r) → scan_exp (s +:+ rest) = (f, r +:+ rest).
Proof.
  destruct s as [|c s]; [intros [= <- <-]; exact scan_exp_end|].
  rewrite app_string_cons. cbn [scan_exp]. destruct (is_char 101 c || is_char 69 c); [|by intros [= <- <-]].
  destruct s as [|g s].
  - cbn [span_digits]. intros [= <- <-]. change (EmptyString +:+ rest) with rest.
    by rewrite scan_sign_end, span_digits_end.
  - rewrite app_string_cons. destruct (is_char 43 g || is_char 45 g).
    + destruct (span_digits s) as [d r'] eqn:E. rewrite (span_digits_local _ _ _ E).
      by destruct d; intros [= <- <-].
    + destruct (span_digits (String g s)) as [d r'] eqn:E.
      change (String g (s +:+ rest)) with (String g s +:+ rest).
      rewrite (span_digits_local _ _ _ E). by destruct d; intros [= <- <-].
Qed.

Lemma scan_int_local s i r :
  scan_int s = Some (i, r) → scan_int (s +:+ rest) = Some (i, r +:+ rest).
Proof.
  unfold scan_int. destruct s as [|c s]; [done|]. rewrite app_string_cons.
  destruct (is_char 45 c).
  - destruct s as [|d s]; [done|]. rewrite (app_string_cons d s rest). destruct (is_char 48 d); [by intros [= <- <-]|].
    destruct (span_digits (String d s)) as [x y] eqn:E.
    change (String d (s +:+ rest)) with (String d s +:+ rest). rewrite (span_digits_local _ _ _ E). by destruct x; [done|intros [= <- <-]].
  - destruct (is_char 48 c); [by intros [= <- <-]|].
    destruct (span_digits (String c s)) as [x y] eqn:E.
    change (String c (s +:+ rest)) with (String c s +:+ rest). rewrite (span_digits_local _ _ _ E). by destruct x; [done|intros [= <- <-]].
Qed.

Lemma scan_number_local s j r :
  scan_number s = Some (j, r) → scan_number (s +:+ rest) = Some (j, r +:+ rest).
Proof.
  unfold scan_number. destruct (scan_int s) as [[i r1]|] eqn:Ei; [|done].
  rewrite (scan_int_local _ _ _ Ei). simpl. destruct (scan_frac r1) as [f r2] eqn:Ef.
  rewrite (scan_frac_local _ _ _ Ef). destruct (scan_exp r2) as [e r3] eqn:Ee.
  rewrite (scan_exp_local _ _ _ Ee). destruct e; [|by intros [= <- <-]]. destruct f; [|by intros [= <- <-]].
  by destruct (Z_of_str i); simpl; [intros [= <- <-]|].
Qed.
End Local.

(** ** Integers *)

Lemma span_uint u : span_digits (NilEmpty.string_of_uint u) = (NilEmpty.string_of_uint u, EmptyString).
Proof. induction u as [|u IH|u IH|u IH|u IH|u IH|u IH|u IH|u IH|u IH|u IH]; simpl; by rewrite ?IH. Qed.

Lemma to_uint_head p u : Pos.to_uint p ≠ Decimal.D0 u.
Proof.
  intros E. assert (Decimal.unorm (Pos.to_uint p) = Pos.to_uint p) as Hn.
  { rewrite <- (DecimalN.Unsigned.to_of (Pos.to_uint p)). change N.of_uint with Pos.of_uint.
    by rewrite DecimalPos.Unsigned.of_to. }
  rewrite E in Hn. unfold Decimal.unorm in Hn. simpl in Hn.
  destruct (Decimal.nzhead u) as [|u'| | | | | | | | | ] eqn:Eu; try discriminate.
  - injection Hn as <-. by apply (DecimalPos.Unsigned.to_uint_nonzero p).
  - by apply nzhead_nonzero in Eu.
Qed.

(** The digits of a positive number. *)
Lemma scan_digits p :
  NilZero.string_of_uint (Pos.to_uint p) = NilEmpty.string_of_uint (Pos.to_uint p)
  ∧ ∃ c s, NilEmpty.string_of_uint (Pos.to_uint p) = String c s ∧ is_char 48 c = false ∧ is_char 45 c = false.
Proof.
  pose proof (DecimalPos.Unsigned.to_uint_nonnil p). pose proof (to_uint_head p).
  destruct (Pos.to_uint p); try congruence; (split; [done|]); eexists _, _; (split; [reflexivity|done]).
Qed.

Lemma scan_number_str z : scan_number (str_of_Z z) = Some (JInt z, EmptyString).
Proof.
  assert (Z_of_str (str_of_Z z) = Some z) as Hz.
  { unfold Z_of_str, str_of_Z. rewrite NilZero.isi; simpl; [by rewrite DecimalZ.of_to|..];
      destruct z; simpl; try discriminate; intros [= E]; by apply DecimalPos.Unsigned.to_uint_nonnil in E. }
  assert (scan_int (str_of_Z z) = Some (str_of_Z z, EmptyString)) as Hs.
  { unfold str_of_Z. destruct z as [|p|p]; [reflexivity|..]; simpl; destruct (scan_digits p) as [-> (c & s & E & H0 & Hm)];
      pose proof (span_uint (Pos.to_uint p)) as Hsp; rewrite E in *; unfold scan_int.
    - by rewrite Hm, H0, Hsp.
    - change (is_char 45 "-") with true. cbv iota. by rewrite H0, Hsp. }
  unfold scan_number. rewrite Hs. simpl. by rewrite Hz.
Qed.

(** ** Sorting *)

Lemma str_leb_total a b : str_leb a b = false → str_leb b a = true.
Proof.
  revert b. induction a as [|x a IH]; intros [|y b]; simpl; try done.
  destruct (N_of_ascii x <? N_of_ascii y)%N eqn:E1; [done|].
  destruct (N_of_ascii y <? N_of_ascii x)%N eqn:E2; [done|]. apply IH.
Qed.

Definition keys_le {A B} (a : string * A) (b : string * B) : Prop := str_leb a.1 b.1 = true.

Lemma insert_kv_sorted {A} (kv : string * A) l :
  LocallySorted keys_le l → LocallySorted keys_le (insert_kv kv l).
Proof.
  induction l as [|a l IH]; simpl; [constructor|]. intros Hl.
  destruct (str_leb kv.1 a.1) eqn:E; [by constructor|]. apply str_leb_total in E.
  inversion Hl as [| |a' b l' Hl' Hab]; subst; [by repeat constructor|]. specialize (IH Hl').
  simpl in *. destruct (str_leb kv.1 b.1); by constructor.
Qed.
Lemma sort_kvs_sorted {A} (l : list (string * A)) : LocallySorted keys_le (sort_kvs l).
Proof. induction l; simpl; [constructor|by apply insert_kv_sorted]. Qed.
Lemma sort_kvs_id {A} (l : list (string * A)) : LocallySorted keys_le l → sort_kvs l = l.
Proof.
  induction l as [|a l IH]; simpl; [done|]. intros Hl. inversion Hl as [| |a' b l' Hl' Hab]; subst; [done|].
  rewrite IH by done. simpl. by rewrite Hab.
Qed.

(** Sorting looks at the keys only. *)
Lemma insert_kv_map {A B} (f : A → B) kv l :
  insert_kv (kv.1, f kv.2) (map (λ kv, (kv.1, f kv.2)) l) = map (λ kv, (kv.1, f kv.2)) (insert_kv kv l).
Proof. induction l as [|a l IH]; simpl; [done|]. destruct (str_leb kv.1 a.1); simpl; [done|]. by rewrite IH. Qed.
Lemma sort_kvs_map {A B} (f : A → B) l :
  sort_kvs (map (λ kv, (kv.1, f kv.2)) l) = map (λ kv, (kv.1, f kv.2)) (sort_kvs l).
Proof. induction l as [|a l IH]; simpl; [done|]. by rewrite IH, <- insert_kv_map. Qed.

Lemma insert_kv_perm {A} (kv : string * A) l : insert_kv kv l ≡ₚ kv :: l.
Proof.
  induction l as [|a l IH]; simpl; [done|]. destruct (str_leb kv.1 a.1); [done|].
  rewrite IH. apply Permutation_swap.
Qed.
Lemma sort_kvs_perm {A} (l : list (string * A)) : sort_kvs l ≡ₚ l.
Proof. induction l; simpl; [done|]. rewrite insert_kv_perm. by constructor. Qed.

(** ** Reading back *)

(** The text of a value starts with no white space and with no closing
    bracket. *)
(** *** Any way of escaping that [scanstring] undoes *)

Section Rendering.
Context (body : string → string).
Context (body_scan : ∀ s fuel rest, (String.length (body s) < fuel)%nat → scan_string fuel (body s +:+ dquote +:+ rest) = Some (s, rest)).

Definition quoted (s : string) : string := dquote +:+ body s +:+ dquote.
Fixpoint render (j : json) : string :=
  match j with
  | JNull => "null"
  | JBool true => "true"
  | JBool false => "false"
  | JInt z => str_of_Z z
  | JFloat r => r
  | JStr s => quoted s
  | JList xs => "[" +:+ join "," (map render xs) +:+ "]"
  | JObj kvs =>
      "{" +:+ join "," (map (λ kv, quoted kv.1 +:+ ":" +:+ kv.2)
                         (sort_kvs (map (λ kv, (kv.1, render kv.2)) kvs))) +:+ "}"
  end.

Lemma render_head j :
  well_formed j = true → ∃ c s, render j = String c s ∧ is_ws c = false ∧ is_char 93 c = false.
Proof.
  destruct j as [|[]|z|r|s|xs|kvs]; intros Hw; try (by eexists _, _).
  - simpl. unfold str_of_Z. destruct z as [|p|p]; [by eexists _, _| |by eexists _, _]. simpl.
    destruct (scan_digits p) as [-> _]. destruct (Pos.to_uint p) eqn:E; try (by eexists _, _).
    by apply DecimalPos.Unsigned.to_uint_nonnil in E.
  - simpl in *. destruct r as [|c r]; [done|]. exists c, r. split; [done|].
    unfold scan_number, scan_int in Hw. cbn [span_digits] in Hw.
    destruct (is_ws c) eqn:E1; [exfalso|destruct (is_char 93 c) eqn:E2; [exfalso|done]].
    all: destruct c as [[] [] [] [] [] [] [] []]; vm_compute in E1; try discriminate; try (vm_compute in E2; discriminate);
      by vm_compute in Hw.
Qed.
Lemma skip_ws_render j rest :
  well_formed j = true → skip_ws (render j +:+ rest) = render j +:+ rest.
Proof.
  intros Hw. destruct (render_head j Hw) as (c & s & -> & Hc & _). rewrite app_string_cons. simpl. by rewrite Hc.
Qed.
Lemma render_nonempty j : well_formed j = true → (0 < String.length (render j))%nat.
Proof. intros Hw. destruct (render_head j Hw) as (c & s & -> & _). simpl. lia. Qed.

(** A scanner reads the texts of these values, whatever follows. *)
Definition reads_value (scan : string → option (json * string)) (v : json) : Prop :=
  ∀ rest, follows rest = true → scan (render v +:+ rest) = Some (sorted_json v, rest).

Lemma join_more sep x y l rest :
  join sep (x :: y :: l) +:+ rest = x +:+ (sep +:+ (join sep (y :: l) +:+ rest)).
Proof. cbn [join]. by rewrite !app_string_assoc. Qed.
Lemma skip_comma rest : skip_ws ("," +:+ rest) = String "," rest.
Proof. reflexivity. Qed.

Lemma scan_items_join scan vs fuel rest :
  vs ≠ [] → (length vs ≤ fuel)%nat → Forall (reads_value scan) vs → forallb well_formed vs = true →
  scan_items scan fuel (join "," (map render vs) +:+ String "]" rest) = Some (map sorted_json vs, rest).
Proof.
  intros Hne. revert fuel. induction vs as [|v vs IH]; intros fuel Hf Hs Hw; [done|].
  destruct fuel as [|fuel]; [simpl in Hf; lia|]. inversion Hs as [|? ? Hv Hvs]; subst.
  simpl in Hw. apply andb_true_iff in Hw as [Hw Hws]. cbn [map scan_items].
  destruct vs as [|w vs].
  - cbn [map join]. by rewrite Hv.
  - cbn [map]. rewrite join_more, Hv by done. cbn [mbind option_bind].
    rewrite skip_comma. change (is_char 93 ",") with false. change (is_char 44 ",") with true. cbv iota.
    assert (∀ l r, skip_ws (join "," (render w :: l) +:+ r) = join "," (render w :: l) +:+ r) as Hskip.
    { intros [|x l] r; [apply skip_ws_render|rewrite join_more; apply skip_ws_render];
        by apply andb_true_iff in Hws as [? _]. }
    rewrite Hskip. change (render w :: map render vs) with (map render (w :: vs)).
    rewrite IH; [done|done|simpl in *; lia|done|done].
Qed.

(** ** Members *)

Definition member_text (kv : string * json) : string := quoted kv.1 +:+ ":" +:+ render kv.2.

Lemma scan_member scan fuel k v rest :
  reads_value scan v → well_formed v = true → follows rest = true →
  scan_members scan (S fuel) (member_text (k, v) +:+ rest) =
    match skip_ws rest with
    | String d r4 =>
        if is_char 125 d then Some ([(k, sorted_json v)], r4)
        else if is_char 44 d then
          '(kvs, r5) ← scan_members scan fuel (skip_ws r4); Some ((k, sorted_json v) :: kvs, r5)
        else None
    | EmptyString => None
    end.
Proof.
  intros Hv Hw Hf. unfold member_text, quoted. cbn [fst snd]. rewrite !app_string_assoc.
  change (dquote +:+ ?x) with (String (Ascii.ascii_of_nat 34) x). cbn [scan_members].
  change (is_char 34 (Ascii.ascii_of_nat 34)) with true. cbv iota.
  change (String (Ascii.ascii_of_nat 34) ?x) with (dquote +:+ x).
  rewrite body_scan by (rewrite !length_app_string; lia). cbn [mbind option_bind].
  change (skip_ws (":" +:+ ?x)) with (String ":" x). change (is_char 58 ":") with true. cbv iota.
  rewrite skip_ws_render, Hv by done. reflexivity.
Qed.

Lemma scan_members_join scan kvs fuel rest :
  kvs ≠ [] → (length kvs ≤ fuel)%nat → Forall (λ kv, reads_value scan kv.2) kvs →
  forallb (λ kv, well_formed kv.2) kvs = true →
  scan_members scan fuel (join "," (map member_text kvs) +:+ String "}" rest)
    = Some (map (λ kv, (kv.1, sorted_json kv.2)) kvs, rest).
Proof.
  intros Hne. revert fuel. induction kvs as [|[k v] kvs IH]; intros fuel Hf Hs Hw; [done|].
  destruct fuel as [|fuel]; [simpl in Hf; lia|]. inversion Hs as [|? ? Hv Hvs]; subst. simpl in Hv.
  simpl in Hw. apply andb_true_iff in Hw as [Hw Hws].
  destruct kvs as [|kv' kvs].
  - cbn [map join]. by rewrite scan_member.
  - cbn [map]. rewrite join_more, scan_member by done. rewrite skip_comma.
    change (is_char 125 ",") with false. change (is_char 44 ",") with true. cbv iota.
    assert (∀ l r, skip_ws (join "," (member_text kv' :: l) +:+ r) = join "," (member_text kv' :: l) +:+ r)
      as Hskip by (by intros [|x l] r).
    rewrite Hskip. change (member_text kv' :: map member_text kvs) with (map member_text (kv' :: kvs)).
    rewrite IH; [done|done|simpl in *; lia|done|done].
Qed.

(** A list of pairs with distinct keys is its own dictionary. *)
Lemma dict_set_new d k v : k ∉ map fst d → dict_set d k v = d ++ [(k, v)].
Proof.
  induction d as [|kv d IH]; simpl; [done|]. intros Hk. apply not_elem_of_cons in Hk as [Hk Hd].
  destruct (String.eqb_spec kv.1 k); [congruence|]. by rewrite IH.
Qed.
Lemma dict_of_pairs_id kvs : NoDup (map fst kvs) → dict_of_pairs kvs = kvs.
Proof.
  intros Hn. unfold dict_of_pairs.
  assert (∀ d, NoDup (map fst (d ++ kvs)) → fold_left (λ d kv, dict_set d kv.1 kv.2) kvs d = d ++ kvs) as Hd.
  { clear Hn. induction kvs as [|kv kvs IH]; intros d Hn; simpl; [by rewrite app_nil_r|].
    rewrite map_app in Hn. simpl in Hn. pose proof Hn as Hn'.
    apply NoDup_app in Hn as (_ & Hnot & Hn). rewrite dict_set_new.
    - rewrite IH; [by destruct kv; rewrite <- app_assoc|]. rewrite <- app_assoc. simpl. rewrite map_app. by destruct kv.
    - intros Hin. by apply (Hnot _ Hin); left. }
  by apply (Hd []).
Qed.

Lemma sort_kvs_keys {A} (kvs : list (string * A)) : NoDup (map fst kvs) → NoDup (map fst (sort_kvs kvs)).
Proof. intros Hn. by rewrite sort_kvs_perm. Qed.
Lemma render_obj kvs :
  render (JObj kvs) = "{" +:+ join "," (map member_text (sort_kvs kvs)) +:+ "}".
Proof.
  cbn [render]. rewrite (sort_kvs_map render), map_map. reflexivity.
Qed.
Lemma sorted_obj kvs :
  sorted_json (JObj kvs) = JObj (map (λ kv, (kv.1, sorted_json kv.2)) (sort_kvs kvs)).
Proof. cbn [sorted_json]. by rewrite (sort_kvs_map sorted_json). Qed.

Lemma join_length xs :
  Forall (λ x, (0 < String.length x)%nat) xs → (length xs ≤ String.length (join "," xs))%nat.
Proof.
  induction 1 as [|x xs Hx Hxs IH]; [simpl; lia|]. destruct xs as [|y xs]; [simpl in *; lia|].
  cbn [join]. rewrite !length_app_string. simpl in *. lia.
Qed.
Lemma join_element_length x xs : x ∈ xs → (String.length x ≤ String.length (join "," xs))%nat.
Proof.
  induction xs as [|y xs IH]; intros Hx; [by apply elem_of_nil in Hx|].
  apply elem_of_cons in Hx as [->|Hx]; destruct xs as [|z xs]; try by apply elem_of_nil in Hx.
  - done.
  - cbn [join]. rewrite !length_app_string. lia.
  - specialize (IH Hx). change (join "," (y :: z :: xs)) with (y +:+ "," +:+ join "," (z :: xs)).
    rewrite !length_app_string. lia.
Qed.

Lemma scan_value_list fuel xs rest :
  xs ≠ [] → (length xs ≤ fuel)%nat → Forall (reads_value (scan_value fuel)) xs →
  forallb well_formed xs = true →
  scan_value (S fuel) (render (JList xs) +:+ rest) = Some (sorted_json (JList xs), rest).
Proof.
  intros Hne Hf Hs Hw. cbn [render]. rewrite !app_string_assoc.
  pose proof (scan_items_join _ xs fuel rest Hne Hf Hs Hw) as Hitems.
  change ("[" +:+ ?x) with (String "[" x). change ("]" +:+ ?x) with (String "]" x).
  assert (∃ c t, join "," (map render xs) +:+ String "]" rest = String c t ∧ is_ws c = false
                 ∧ is_char 93 c = false) as (c & t & E & Hc & Hb).
  { destruct xs as [|x xs]; [done|]. simpl in Hw. apply andb_true_iff in Hw as [Hw _].
    destruct (render_head x Hw) as (c & t & E & Hc & Hb). exists c.
    destruct xs as [|y xs]; cbn [map]; [|rewrite join_more]; cbn [join]; rewrite E, app_string_cons; eauto. }
  rewrite E in *. cbn [scan_value]. change (is_char 34 "[") with false. change (is_char 123 "[") with false.
  change (is_char 91 "[") with true. cbv iota. simpl. rewrite Hc. simpl. rewrite Hb, Hitems. reflexivity.
Qed.

Lemma scan_value_obj fuel kvs rest :
  kvs ≠ [] → (length kvs ≤ fuel)%nat → Forall (λ kv, reads_value (scan_value fuel) kv.2) kvs →
  well_formed (JObj kvs) = true →
  scan_value (S fuel) (render (JObj kvs) +:+ rest) = Some (sorted_json (JObj kvs), rest).
Proof.
  intros Hne Hf Hs Hw. cbn [well_formed] in Hw. apply andb_true_iff in Hw as [Hn Hw].
  apply bool_decide_eq_true in Hn. rewrite render_obj, sorted_obj, !app_string_assoc.
  assert (sort_kvs kvs ≠ []) as Hne'.
  { intros E. apply Hne, Permutation_nil. by rewrite <- E, sort_kvs_perm. }
  assert (Forall (λ kv, reads_value (scan_value fuel) kv.2) (sort_kvs kvs)) as Hs' by (by rewrite sort_kvs_perm).
  assert (forallb (λ kv, well_formed kv.2) (sort_kvs kvs) = true) as Hw'.
  { apply forallb_forall. intros kv Hin. rewrite forallb_forall in Hw. apply Hw.
    by rewrite <- (sort_kvs_perm kvs). }
  pose proof (scan_members_join (scan_value fuel) (sort_kvs kvs) fuel rest Hne') as Hm.
  rewrite (Permutation_length (sort_kvs_perm kvs)) in Hm. specialize (Hm Hf Hs' Hw').
  change ("{" +:+ ?x) with (String "{" x). change ("}" +:+ ?x) with (String "}" x).
  assert (∃ t, join "," (map member_text (sort_kvs kvs)) +:+ String "}" rest = String (Ascii.ascii_of_nat 34) t)
    as (t & E).
  { destruct (sort_kvs kvs) as [|kv [|kv' l]]; [done|..]; eexists; reflexivity. }
  rewrite E in *. cbn [scan_value]. change (is_char 34 "{") with false. change (is_char 123 "{") with true.
  cbv iota. change (skip_ws (String (Ascii.ascii_of_nat 34) t)) with (String (Ascii.ascii_of_nat 34) t).
  change (is_char 125 (Ascii.ascii_of_nat 34)) with false. cbv iota. rewrite Hm. cbn [mbind option_bind].
  rewrite dict_of_pairs_id; [done|]. rewrite map_map. simpl. by apply sort_kvs_keys.
Qed.

Lemma scan_value_number fuel j rest :
  follows rest = true → scan_number (render j) = Some (j, EmptyString) → sorted_json j = j →
  scan_value (S fuel) (render j +:+ rest) = Some (sorted_json j, rest).
Proof.
  intros Hr Hj ->. apply follows_number_ends in Hr. pose proof (scan_number_local rest Hr _ _ _ Hj) as Hn.
  change (EmptyString +:+ rest) with rest in Hn. destruct (render j) as [|c t]; [done|].
  rewrite app_string_cons in *.
  assert (is_char 45 c || is_digit c = true) as Hc.
  { destruct (is_char 45 c) eqn:Em; [done|]. simpl. unfold scan_number, scan_int in Hj. rewrite Em in Hj.
    destruct (is_char 48 c) eqn:Ez; [unfold is_char in Ez; unfold is_digit; apply N.eqb_eq in Ez; by rewrite Ez|].
    cbn [span_digits] in Hj. by destruct (is_digit c). }
  assert (is_char 34 c = false ∧ is_char 123 c = false ∧ is_char 91 c = false ∧ is_char 110 c = false
          ∧ is_char 116 c = false ∧ is_char 102 c = false) as (E1 & E2 & E3 & E4 & E5 & E6).
  { clear -Hc. destruct c as [[] [] [] [] [] [] [] []]; vm_compute in Hc |- *; try discriminate; done. }
  cbn [scan_value]. by rewrite E1, E2, E3, E4, E5, E6, Hn.
Qed.

Lemma list_text_bounds {A} (f : A → string) xs fuel :
  Forall (λ x, (0 < String.length (f x))%nat) xs →
  (S (String.length (join "," (map f xs))) < S fuel)%nat →
  (length xs ≤ fuel)%nat ∧ ∀ x, x ∈ xs → (String.length (f x) < fuel)%nat.
Proof.
  intros Hp Hl. split.
  - assert (Forall (λ x, (0 < String.length x)%nat) (map f xs)) as Hq by (by rewrite Forall_map).
    apply join_length in Hq. rewrite length_map in Hq. lia.
  - intros x Hx. pose proof (join_element_length (f x) (map f xs)). apply (list_elem_of_fmap_2 f) in Hx. specialize (H Hx). lia.
Qed.

Lemma scan_value_render j :
  well_formed j = true →
  ∀ fuel, (String.length (render j) < fuel)%nat → reads_value (scan_value fuel) j.
Proof.
  induction j as [|b|z|r|s|xs IH|kvs IH] using json_nested_ind; intros Hw [|fuel] Hf rest Hr; try lia.
  - reflexivity.
  - by destruct b.
  - apply scan_value_number; [done|apply scan_number_str|done].
  - apply scan_value_number; [done| |done]. simpl in *.
    destruct (scan_number r) as [[[| | |r'| | |] [|]]|]; try done. apply String.eqb_eq in Hw. by rewrite Hw.
  - cbn [render]. unfold quoted. rewrite !app_string_assoc.
    change (dquote +:+ ?x) with (String (Ascii.ascii_of_nat 34) x) at 1. cbn [scan_value].
    change (is_char 34 (Ascii.ascii_of_nat 34)) with true. cbv iota.
    rewrite body_scan; [done|rewrite !length_app_string; lia].
  - destruct (decide (xs = [])) as [->|Hne]; [reflexivity|]. cbn [well_formed] in Hw.
    assert (Forall (λ x, well_formed x = true) xs) as Hall by (by apply forallb_Forall).
    cbn [render] in Hf. rewrite !length_app_string in Hf.
    destruct (list_text_bounds render xs fuel) as [Hlen Heach];
      [eapply Forall_impl; [exact Hall|apply render_nonempty]|simpl in *; lia|].
    apply scan_value_list; [done|done| |done]. apply Forall_forall. intros x Hx.
    rewrite Forall_forall in IH, Hall. apply IH; auto.
  - destruct (decide (kvs = [])) as [->|Hne]; [reflexivity|].
    pose proof Hw as Hw'. cbn [well_formed] in Hw'. apply andb_true_iff in Hw' as [_ Hall].
    assert (Forall (λ kv, well_formed kv.2 = true) kvs) as Hall' by (by apply forallb_Forall).
    rewrite render_obj, !length_app_string in Hf.
    destruct (list_text_bounds member_text (sort_kvs kvs) fuel) as [Hlen Heach].
    { apply Forall_forall. intros kv _. unfold member_text, quoted. rewrite !length_app_string. simpl. lia. }
    { simpl in *. lia. }
    rewrite (Permutation_length (sort_kvs_perm kvs)) in Hlen.
    apply scan_value_obj; [done|done| |done]. apply Forall_forall. intros kv Hkv.
    rewrite Forall_forall in IH, Hall'. apply IH; [done|by apply Hall'|].
    rewrite <- (sort_kvs_perm kvs) in Hkv. specialize (Heach kv Hkv). unfold member_text in Heach.
    rewrite !length_app_string in Heach. lia.
Qed.

(** ** The round trip *)

Lemma sorted_render j : well_formed j = true → render (sorted_json j) = render j.
Proof.
  induction j as [|b|z|r|s|xs IH|kvs IH] using json_nested_ind; intros Hw; try done; cbn [well_formed] in Hw.
  - cbn [sorted_json render]. rewrite map_map. do 3 f_equal. apply forallb_Forall in Hw.
    induction Hw as [|x xs Hx Hxs IHxs]; [done|]. inversion IH; subst. simpl. f_equal; auto.
  - apply andb_true_iff in Hw as [_ Hw]. apply forallb_Forall in Hw.
    rewrite sorted_obj, !render_obj. do 3 f_equal.
    rewrite sort_kvs_id; [|rewrite <- sort_kvs_map; apply sort_kvs_sorted].
    rewrite map_map. apply map_ext_in. intros kv Hkv%list_elem_of_In. rewrite sort_kvs_perm in Hkv.
    rewrite Forall_forall in IH, Hw. unfold member_text. simpl. by rewrite IH by auto.
Qed.

Lemma json_loads_render j :
  well_formed j = true → json_loads (render j) = Some (sorted_json j).
Proof.
  intros Hw. unfold json_loads. rewrite <- (app_string_nil_r (render j)).
  rewrite skip_ws_render by done.
  rewrite (scan_value_render j Hw) by (done || rewrite length_app_string; lia).
  reflexivity.
Qed.

End Rendering.

Lemma escape_scan s fuel rest :
  (String.length (escape s) < fuel)%nat → scan_string fuel (escape s +:+ dquote +:+ rest) = Some (s, rest).
Proof. apply scan_string_escape. Qed.
Lemma canonical_render j : canonical_json j = render escape j.
Proof. reflexivity. Qed.
Lemma json_loads_canonical j : well_formed j = true → json_loads (canonical_json j) = Some (sorted_json j).
Proof. apply (json_loads_render escape escape_scan). Qed.
Lemma sorted_well_formed j : well_formed j = true → canonical_json (sorted_json j) = canonical_json j.
Proof. apply (sorted_render escape). Qed.
