(* ===== verification/JsonAscii.v ===== *)
(** * UTF-8 and the ASCII form of documents

    [bytes.decode("utf-8")] and [json.dumps(payload, sort_keys=True,
    separators=(",", ":"))] with its default [ensure_ascii=True]. *)

From Stdlib Require Import Ascii.
From S2P Require Export Json JsonLoads.

(** ** Code points *)

Definition continuation (c : ascii) : option N :=
  let n := char_code c in if ((128 <=? n) && (n <? 192))%N then Some (n - 128)%N else None.

(** A decoded code point must need its length and not be a surrogate. *)
Definition well_coded (low n : N) : option N :=
  if ((low <=? n) && (n <? 1114112) && negb ((55296 <=? n) && (n <? 57344)))%N then Some n else None.

(** [bytes.decode("utf-8")] *)
Fixpoint utf8_decode (s : string) : option (list N) :=
  match s with
  | EmptyString => Some []
  | String a s1 =>
      let n := char_code a in
      if (n <? 128)%N then cons n <$> utf8_decode s1
      else if ((192 <=? n) && (n <? 224))%N then
        match s1 with
        | String b s2 =>
            x ← continuation b; p ← well_coded 128 ((n - 192) * 64 + x); cons p <$> utf8_decode s2
        | _ => None
        end
      else if ((224 <=? n) && (n <? 240))%N then
        match s1 with
        | String b (String c s3) =>
            x ← continuation b; y ← continuation c;
            p ← well_coded 2048 ((n - 224) * 4096 + x * 64 + y); cons p <$> utf8_decode s3
        | _ => None
        end
      else if ((240 <=? n) && (n <? 248))%N then
        match s1 with
        | String b (String c (String d s4)) =>
            x ← continuation b; y ← continuation c; z ← continuation d;
            p ← well_coded 65536 ((n - 240) * 262144 + x * 4096 + y * 64 + z); cons p <$> utf8_decode s4
        | _ => None
        end
      else None
  end.
Definition is_utf8 (s : string) : bool :=
  match utf8_decode s with Some _ => true | None => false end.

(** ** [ensure_ascii] *)

Definition hex4_text (n : N) : string :=
  String (hex_digit (n / 4096 mod 16)) (String (hex_digit (n / 256 mod 16))
    (String (hex_digit (n / 16 mod 16)) (String (hex_digit (n mod 16)) EmptyString))).
Definition escape_point (n : N) : string :=
  (if n <? 127 then escape_char (ascii_of_N n)
   else if n <? 65536 then backslash +:+ "u" +:+ hex4_text n
   else backslash +:+ "u" +:+ hex4_text (55296 + (n - 65536) / 1024)
        +:+ backslash +:+ "u" +:+ hex4_text (56320 + (n - 65536) mod 1024))%N.
Definition quote_ascii (s : string) : string :=
  dquote +:+ match utf8_decode s with
             | Some points => String.concat EmptyString (map escape_point points)
             | None => escape s
             end +:+ dquote.

Fixpoint ascii_json (j : json) : string :=
  match j with
  | JNull => "null"
  | JBool true => "true"
  | JBool false => "false"
  | JInt z => str_of_Z z
  | JFloat r => r
  | JStr s => quote_ascii s
  | JList xs => "[" +:+ join "," (map ascii_json xs) +:+ "]"
  | JObj kvs =>
      "{" +:+ join "," (map (λ kv, quote_ascii kv.1 +:+ ":" +:+ kv.2)
                         (sort_kvs (map (λ kv, (kv.1, ascii_json kv.2)) kvs))) +:+ "}"
  end.

Example escapes_point : quote_ascii (utf8 233) = dquote +:+ backslash +:+ "u00e9" +:+ dquote.
Proof. reflexivity. Qed.
Example escapes_pair : quote_ascii (utf8 128512) = dquote +:+ backslash +:+ "ud83d" +:+ backslash +:+ "ude00" +:+ dquote.
Proof. reflexivity. Qed.
Example decodes_reads : utf8_decode (utf8 128512 +:+ utf8 233 +:+ "a") = Some [128512; 233; 97]%N.
Proof. reflexivity. Qed.
