(* ===== verification/Clock.v ===== *)
(** * Time stamps

    Aware [datetime] values and their ISO 8601 text.  An instant is a number of
    microseconds since 1970-01-01T00:00:00Z; the store writes every time stamp
    with [utc_now] ([infrastructure/sqlite/store.py]) and SQL compares the
    resulting texts byte by byte. *)

From Stdlib Require Import Ascii.
From S2P Require Export Json.

Record datetime := DateTime { instant : Z; utc_offset_minutes : Z }.

Definition astimezone_utc (d : datetime) : datetime := DateTime (instant d) 0.

(** [a <= b] and [a < b] on aware values compare instants. *)
Definition dt_leb (a b : datetime) : bool := instant a <=? instant b.
Definition dt_ltb (a b : datetime) : bool := instant a <? instant b.

Definition us_per_second : Z := 1000000.
Definition us_per_day : Z := 86400 * us_per_second.

(** Gregorian date of a day number (day 0 is 1970-01-01). *)
Definition civil_of_days (days : Z) : Z * Z * Z :=
  let z := days + 719468 in
  let era := z / 146097 in
  let doe := z mod 146097 in
  let yoe := (doe - doe / 1460 + doe / 36524 - doe / 146096) / 365 in
  let doy := doe - (365 * yoe + yoe / 4 - yoe / 100) in
  let mp := (5 * doy + 2) / 153 in
  let d := doy - (153 * mp + 2) / 5 + 1 in
  let m := if mp <? 10 then mp + 3 else mp - 9 in
  let y := yoe + era * 400 + (if m <=? 2 then 1 else 0) in
  (y, m, d).

Definition digit (n : Z) : ascii := ascii_of_N (Z.to_N (48 + n mod 10)).

(** [f"{n:0{w}d}"] for a number of at most [w] digits. *)
Fixpoint padded (w : nat) (n : Z) : string :=
  match w with
  | O => EmptyString
  | S w' => String (digit (n / 10 ^ Z.of_nat w')) (padded w' n)
  end.

(** The text up to and including the seconds. *)
Definition iso_seconds (seconds : Z) : string :=
  let '(y, m, d) := civil_of_days (seconds / 86400) in
  let s := seconds mod 86400 in
  padded 4 y +:+ "-" +:+ padded 2 m +:+ "-" +:+ padded 2 d +:+ "T" +:+
  padded 2 (s / 3600) +:+ ":" +:+ padded 2 (s / 60 mod 60) +:+ ":" +:+ padded 2 (s mod 60).

(** [isoformat] writes the microseconds only when they are not zero. *)
Definition iso_fraction (us : Z) : string :=
  if us =? 0 then EmptyString else "." +:+ padded 6 us.

Definition iso_offset (minutes : Z) : string :=
  (if minutes <? 0 then "-" else "+") +:+
  padded 2 (Z.abs minutes / 60) +:+ ":" +:+ padded 2 (Z.abs minutes mod 60).

Definition isoformat (d : datetime) : string :=
  let local := instant d + utc_offset_minutes d * 60 * us_per_second in
  iso_seconds (local / us_per_second) +:+ iso_fraction (local mod us_per_second)
  +:+ iso_offset (utc_offset_minutes d).

(** [s.replace(old, new)] for a non-empty [old]. *)
Fixpoint str_prefix (p s : string) : option string :=
  match p, s with
  | EmptyString, _ => Some s
  | String a p', String b s' => if Ascii.eqb a b then str_prefix p' s' else None
  | _, _ => None
  end.
Fixpoint replace_fuel (fuel : nat) (old new s : string) : string :=
  match fuel with
  | O => s
  | S fuel' =>
      match str_prefix old s with
      | Some r => new +:+ replace_fuel fuel' old new r
      | None => match s with
                | EmptyString => EmptyString
                | String c s' => String c (replace_fuel fuel' old new s')
                end
      end
  end.
Definition str_replace (old new s : string) : string :=
  replace_fuel (S (String.length s)) old new s.

(** [utc_now()], reading the clock as [d]. *)
Definition utc_now (d : datetime) : string :=
  str_replace "+00:00" "Z" (isoformat (astimezone_utc d)).

(** The text of an instant, without the detour through [replace]. *)
Definition utc_text (t : Z) : string :=
  iso_seconds (t / us_per_second) +:+ iso_fraction (t mod us_per_second) +:+ "Z".

Example utc_now_example :
  utc_now (DateTime 1783987199000042 120) = "2026-07-13T23:59:59.000042Z".
Proof. vm_compute. reflexivity. Qed.
Example utc_now_whole_second :
  utc_now (DateTime 1783987199000000 0) = "2026-07-13T23:59:59Z".
Proof. vm_compute. reflexivity. Qed.
