(* ===== verification/ArtifactPaths.v ===== *)
(** * Artifact paths

    POSIX path texts as [pathlib] reads them, and the lexical rule for pruning
    quarantine paths of [domain/artifact_paths.py]. *)

From Stdlib Require Import Ascii.
From S2P Require Export Prelude.

(** ** [pathlib] *)

Definition slash : ascii := "/"%char.

(** [s.split("/")]: never empty. *)
Fixpoint split_slash (s : string) : list string :=
  match s with
  | EmptyString => [EmptyString]
  | String c s' =>
      if Ascii.eqb c slash then EmptyString :: split_slash s'
      else match split_slash s' with
           | [] => [String c EmptyString]
           | w :: ws => String c w :: ws
           end
  end.

Fixpoint join_slash (xs : list string) : string :=
  match xs with
  | [] => EmptyString
  | [x] => x
  | x :: xs' => x +:+ String slash (join_slash xs')
  end.

(** The root of a POSIX path: exactly two leading slashes are kept. *)
Definition posix_root (s : string) : string :=
  match s with
  | String a (String b (String c _)) =>
      if Ascii.eqb a slash then
        if Ascii.eqb b slash && negb (Ascii.eqb c slash) then "//" else "/"
      else EmptyString
  | String a (String b EmptyString) =>
      if Ascii.eqb a slash then if Ascii.eqb b slash then "//" else "/" else EmptyString
  | String a EmptyString => if Ascii.eqb a slash then "/" else EmptyString
  | EmptyString => EmptyString
  end.

Definition is_absolute (s : string) : bool := negb (String.eqb (posix_root s) EmptyString).

Definition posix_names (s : string) : list string :=
  List.filter (λ w, negb (String.eqb w EmptyString) && negb (String.eqb w ".")) (split_slash s).

(** [PurePosixPath(s).parts] *)
Definition posix_parts (s : string) : list string :=
  if is_absolute s then posix_root s :: posix_names s else posix_names s.

(** [PurePosixPath(s).as_posix()] *)
Definition as_posix (s : string) : string :=
  match is_absolute s, posix_names s with
  | false, [] => "."
  | _, names => posix_root s +:+ join_slash names
  end.

(** [PurePosixPath(s).name] *)
Definition posix_name (s : string) : string := List.last (posix_names s) EmptyString.

(** ** Quarantine paths *)

Definition ARTIFACT_PRUNE_QUARANTINE_PREFIX : string := ".artifact-prune-quarantine-".
Definition ARTIFACT_PRUNE_QUARANTINE_TOKEN_LENGTH : nat := 64.
Definition ARTIFACT_PRUNE_QUARANTINE_PATH_PREFIX : string :=
  "outbox/" +:+ ARTIFACT_PRUNE_QUARANTINE_PREFIX.
Definition ARTIFACT_PRUNE_QUARANTINE_PREFIX_LENGTH : nat :=
  String.length ARTIFACT_PRUNE_QUARANTINE_PATH_PREFIX.
(** SQL offsets count from 1. *)
Definition ARTIFACT_PRUNE_QUARANTINE_TOKEN_OFFSET : nat :=
  S ARTIFACT_PRUNE_QUARANTINE_PREFIX_LENGTH.
Definition ARTIFACT_PRUNE_QUARANTINE_PATH_LENGTH : nat :=
  (ARTIFACT_PRUNE_QUARANTINE_PREFIX_LENGTH + ARTIFACT_PRUNE_QUARANTINE_TOKEN_LENGTH)%nat.

Definition is_lower_hex (c : ascii) : bool :=
  let n := N_of_ascii c in
  ((48 <=? n) && (n <=? 57) || (97 <=? n) && (n <=? 102))%N.

Fixpoint all_chars (p : ascii → bool) (s : string) : bool :=
  match s with
  | EmptyString => true
  | String c s' => p c && all_chars p s'
  end.

(** Remove a literal prefix. *)
Fixpoint after_prefix (p s : string) : option string :=
  match p, s with
  | EmptyString, _ => Some s
  | String a p', String b s' => if Ascii.eqb a b then after_prefix p' s' else None
  | _, _ => None
  end.

(** [\A<prefix>[0-9a-f]{64}\Z] *)
Definition quarantine_pattern (value : string) : bool :=
  match after_prefix ARTIFACT_PRUNE_QUARANTINE_PATH_PREFIX value with
  | Some token =>
      (String.length token =? ARTIFACT_PRUNE_QUARANTINE_TOKEN_LENGTH)%nat
      && all_chars is_lower_hex token
  | None => false
  end.

Definition is_artifact_prune_quarantine_path (value : string) : bool :=
  if quarantine_pattern value then
    negb (is_absolute value)
    && String.eqb (as_posix value) value
    && bool_decide (posix_parts value = ["outbox"; posix_name value])
  else false.

(** The SQL form of the same rule ([confirmed_artifacts_for_pruning]): length,
    no NUL, prefix and token compared on the bytes of the column. *)
Definition sql_quarantine_path (relative_path : string) : bool :=
  (String.length relative_path =? ARTIFACT_PRUNE_QUARANTINE_PATH_LENGTH)%nat
  && all_chars (λ c, negb (N_of_ascii c =? 0)%N) relative_path
  && String.eqb (String.substring 0 ARTIFACT_PRUNE_QUARANTINE_PREFIX_LENGTH relative_path)
       ARTIFACT_PRUNE_QUARANTINE_PATH_PREFIX
  && all_chars is_lower_hex
       (String.substring (ARTIFACT_PRUNE_QUARANTINE_TOKEN_OFFSET - 1)
          ARTIFACT_PRUNE_QUARANTINE_TOKEN_LENGTH relative_path).

(** ** The two rules agree *)

Lemma append_nil s : EmptyString +:+ s = s.
Proof. reflexivity. Qed.
Lemma append_cons c s t : String c s +:+ t = String c (s +:+ t).
Proof. reflexivity. Qed.

Lemma after_prefix_Some p s r : after_prefix p s = Some r ↔ s = p +:+ r.
Proof.
  revert s. induction p as [|a p IH]; intros s; rewrite ?append_cons, ?append_nil; simpl.
  - split; [by intros [= ->] | by intros ->].
  - destruct s as [|b s]; [done|]. destruct (Ascii.eqb_spec a b) as [->|Hne].
    + rewrite IH. split; [by intros -> | by intros [= ->]].
    + split; [done | by intros [= ? ?]].
Qed.

Lemma length_append s t : String.length (s +:+ t) = (String.length s + String.length t)%nat.
Proof. induction s as [|c s IH]; [done|]. rewrite append_cons. simpl. by rewrite IH. Qed.

Lemma substring_full s : String.substring 0 (String.length s) s = s.
Proof. induction s as [|c s IH]; simpl; [done | by rewrite IH]. Qed.
Lemma substring_0 s : String.substring 0 0 s = EmptyString.
Proof. by destruct s. Qed.
Lemma substring_prefix p r : String.substring 0 (String.length p) (p +:+ r) = p.
Proof.
  induction p as [|c p IH]; [apply substring_0|]. rewrite append_cons. simpl. by rewrite IH.
Qed.
Lemma substring_rest p r n :
  String.substring (String.length p) n (p +:+ r) = String.substring 0 n r.
Proof. induction p as [|c p IH]; [done | exact IH]. Qed.
Lemma substring_split n s :
  (n ≤ String.length s)%nat →
  s = String.substring 0 n s +:+ String.substring n (String.length s - n) s
  ∧ String.length (String.substring 0 n s) = n.
Proof.
  revert s. induction n as [|n IH]; intros s Hn.
  - rewrite substring_0, Nat.sub_0_r, substring_full. done.
  - destruct s as [|c s]; simpl in *; [lia|].
    destruct (IH s) as [H1 H2]; [lia|]. rewrite append_cons.
    split; [by f_equal | by rewrite H2].
Qed.

Lemma all_chars_impl (p q : ascii → bool) s :
  (∀ c, p c = true → q c = true) → all_chars p s = true → all_chars q s = true.
Proof.
  intros H. induction s as [|c s IH]; simpl; [done|].
  intros [H1 H2]%andb_true_iff. by rewrite (H _ H1), (IH H2).
Qed.
Lemma all_chars_append p s t : all_chars p (s +:+ t) = all_chars p s && all_chars p t.
Proof.
  induction s as [|c s IH]; [done|]. rewrite append_cons. simpl. by rewrite IH, andb_assoc.
Qed.

Lemma split_slash_none s :
  all_chars (λ c, negb (Ascii.eqb c slash)) s = true → split_slash s = [s].
Proof.
  induction s as [|c s IH]; simpl; [done|].
  intros [H1%negb_true_iff H2]%andb_true_iff. by rewrite H1, (IH H2).
Qed.
Lemma split_slash_cons a s :
  all_chars (λ c, negb (Ascii.eqb c slash)) a = true →
  split_slash (a +:+ String slash s) = a :: split_slash s.
Proof.
  induction a as [|c a IH]; [done|]. rewrite append_cons. simpl.
  intros [H1%negb_true_iff H2]%andb_true_iff. by rewrite H1, (IH H2).
Qed.

Lemma is_lower_hex_not_slash c : is_lower_hex c = true → negb (Ascii.eqb c slash) = true.
Proof. intros H. apply negb_true_iff. apply Ascii.eqb_neq. by intros ->. Qed.
Lemma is_lower_hex_not_nul c : is_lower_hex c = true → negb (N_of_ascii c =? 0)%N = true.
Proof.
  unfold is_lower_hex. intros H. apply negb_true_iff, N.eqb_neq. intros E.
  by rewrite E in H.
Qed.

(** A text the pattern accepts is already a canonical two-part path. *)
Lemma quarantine_pattern_canonical value :
  quarantine_pattern value = true → is_artifact_prune_quarantine_path value = true.
Proof.
  intros H. unfold is_artifact_prune_quarantine_path. rewrite H.
  unfold quarantine_pattern in H.
  destruct (after_prefix _ value) as [token|] eqn:E; [|done].
  apply after_prefix_Some in E. apply andb_true_iff in H as [_ Hhex].
  set (name := ARTIFACT_PRUNE_QUARANTINE_PREFIX +:+ token).
  assert (value = "outbox" +:+ String slash name) as -> by exact E.
  assert (split_slash ("outbox" +:+ String slash name) = ["outbox"; name]) as Hsplit.
  { rewrite split_slash_cons by done. f_equal. apply split_slash_none.
    unfold name. rewrite all_chars_append.
    by rewrite (all_chars_impl _ _ _ is_lower_hex_not_slash Hhex). }
  assert (posix_names ("outbox" +:+ String slash name) = ["outbox"; name]) as Hnames.
  { unfold posix_names. rewrite Hsplit. reflexivity. }
  unfold posix_parts, as_posix, posix_name. rewrite Hnames.
  change (is_absolute ("outbox" +:+ String slash name)) with false.
  change (posix_root ("outbox" +:+ String slash name)) with EmptyString.
  change (EmptyString +:+ join_slash ["outbox"; name]) with ("outbox" +:+ String slash name).
  rewrite String.eqb_refl. simpl List.last. by rewrite bool_decide_eq_true_2.
Qed.

Lemma quarantine_path_iff_pattern value :
  is_artifact_prune_quarantine_path value = quarantine_pattern value.
Proof.
  destruct (quarantine_pattern value) eqn:E; [by apply quarantine_pattern_canonical|].
  unfold is_artifact_prune_quarantine_path. by rewrite E.
Qed.

Lemma sql_quarantine_path_pattern value :
  sql_quarantine_path value = quarantine_pattern value.
Proof.
  apply eq_true_iff_eq. unfold sql_quarantine_path, quarantine_pattern.
  unfold ARTIFACT_PRUNE_QUARANTINE_TOKEN_OFFSET, ARTIFACT_PRUNE_QUARANTINE_PATH_LENGTH,
    ARTIFACT_PRUNE_QUARANTINE_PREFIX_LENGTH.
  set (p := ARTIFACT_PRUNE_QUARANTINE_PATH_PREFIX).
  set (n := ARTIFACT_PRUNE_QUARANTINE_TOKEN_LENGTH).
  rewrite Nat.sub_succ, Nat.sub_0_r. split.
  - rewrite !andb_true_iff, Nat.eqb_eq. intros [[[Hlen _] Hp%String.eqb_eq] Hhex].
    destruct (substring_split (String.length p) value) as [Hsplit _]; [lia|].
    rewrite Hp in Hsplit. replace (String.length value - String.length p)%nat with n in Hsplit by lia.
    set (token := String.substring (String.length p) n value) in *.
    assert (after_prefix p value = Some token) as -> by (by apply after_prefix_Some).
    rewrite Hsplit, length_append in Hlen. rewrite Hhex, andb_true_r, Nat.eqb_eq. lia.
  - destruct (after_prefix p value) as [token|] eqn:E; [|done].
    apply after_prefix_Some in E as ->. rewrite andb_true_iff, Nat.eqb_eq. intros [Hlen Hhex].
    rewrite substring_prefix, String.eqb_refl, substring_rest, length_append, Hlen.
    rewrite <-Hlen, substring_full, Hhex, all_chars_append.
    by rewrite (all_chars_impl _ _ _ is_lower_hex_not_nul Hhex), Nat.eqb_refl.
Qed.

(** ** Safe relative artifact paths *)

(** The guard of [ensure_artifact_queued]. *)
Definition unsafe_relative (s : string) : bool :=
  is_absolute s || bool_decide (posix_parts s = []) || str_in ".." (posix_parts s).

(** The guard of [update_confirmed_artifact_path]. *)
Definition unsafe_outbox (s : string) : bool :=
  is_absolute s
  || match posix_parts s with
     | [a; b] => negb (String.eqb a "outbox") || str_in b [EmptyString; "."; ".."]
     | _ => true
     end
  || negb (String.eqb (as_posix s) s).
