(* ===== verification/JsonAsciiRoundTrip.v ===== *)
(** * [json.loads] reads back what [json.dumps] writes in ASCII

    Every text, non-ASCII characters and surrogate pairs included, is read back
    from its ASCII form; so are documents.  The ASCII form is printable and holds no
    line break, which is what lets a log keep one document per line. *)

From Stdlib Require Import Ascii.
From S2P Require Export ArtifactPaths JsonAscii JsonRoundTrip.

Local Ltac Zify.zify_post_hook ::= Z.to_euclidean_division_equations.

(** ** UTF-8 *)

Definition scalar (n : N) : Prop := (n < 1114112 ∧ ¬ (55296 ≤ n < 57344))%N.

Lemma char_code_bound c : (char_code c < 256)%N.
Proof. apply N_ascii_bounded. Qed.
Lemma ascii_of_char_code c : ascii_of_N (char_code c) = c.
Proof. apply ascii_N_embedding. Qed.
Lemma continuation_Some c x : continuation c = Some x → (x < 64)%N ∧ c = ascii_of_N (128 + x).
Proof.
  unfold continuation. case_match eqn:E; [|done]. intros [= <-]. apply andb_true_iff in E as [E1 E2].
  apply N.leb_le in E1. apply N.ltb_lt in E2. split; [lia|]. rewrite <- (ascii_of_char_code c) at 1. f_equal. lia.
Qed.
Lemma well_coded_Some low n p : well_coded low n = Some p → p = n ∧ scalar n ∧ (low ≤ n)%N.
Proof.
  unfold well_coded. case_match eqn:E; [|done]. intros [= <-]. rewrite !andb_true_iff, negb_true_iff in E.
  destruct E as [[E1%N.leb_le E2%N.ltb_lt] E3]. unfold scalar. apply andb_false_iff in E3.
  rewrite N.leb_gt, N.ltb_ge in E3. split_and!; [done|done|lia|done].
Qed.

Lemma utf8_one n : (n < 128)%N → utf8 n = byte n.
Proof. intros Hn. unfold utf8. by rewrite (proj2 (N.ltb_lt _ _) Hn). Qed.
Lemma utf8_two a x :
  (192 ≤ a < 224)%N → (x < 64)%N → (128 ≤ (a - 192) * 64 + x)%N → utf8 ((a - 192) * 64 + x) = byte a +:+ byte (128 + x).
Proof.
  intros Ha Hx Hl. unfold utf8. rewrite (proj2 (N.ltb_ge _ _)), (proj2 (N.ltb_lt _ 2048)) by lia.
  f_equal; f_equal; lia.
Qed.
Lemma utf8_three a x y :
  (224 ≤ a < 240)%N → (x < 64)%N → (y < 64)%N → (2048 ≤ (a - 224) * 4096 + x * 64 + y)%N →
  utf8 ((a - 224) * 4096 + x * 64 + y) = byte a +:+ byte (128 + x) +:+ byte (128 + y).
Proof.
  intros Ha Hx Hy Hl. unfold utf8. rewrite (proj2 (N.ltb_ge _ 128)), (proj2 (N.ltb_ge _ 2048)), (proj2 (N.ltb_lt _ 65536)) by lia.
  f_equal; [f_equal; lia|]. f_equal; f_equal; lia.
Qed.
Lemma utf8_four a x y z :
  (240 ≤ a < 248)%N → (x < 64)%N → (y < 64)%N → (z < 64)%N → (65536 ≤ (a - 240) * 262144 + x * 4096 + y * 64 + z)%N →
  utf8 ((a - 240) * 262144 + x * 4096 + y * 64 + z) = byte a +:+ byte (128 + x) +:+ byte (128 + y) +:+ byte (128 + z).
Proof.
  intros Ha Hx Hy Hz Hl. unfold utf8.
  rewrite (proj2 (N.ltb_ge _ 128)), (proj2 (N.ltb_ge _ 2048)), (proj2 (N.ltb_ge _ 65536)) by lia.
  f_equal; [f_equal; lia|]. f_equal; [f_equal; lia|]. f_equal; f_equal; lia.
Qed.

(** A text of UTF-8 is the encoding of its code points. *)
Definition encode (points : list N) : string := String.concat EmptyString (map utf8 points).
Lemma concat_cons x l : String.concat EmptyString (x :: l) = x +:+ String.concat EmptyString l.
Proof. destruct l; simpl; [by rewrite app_string_nil_r|done]. Qed.
Lemma encode_cons n l : encode (n :: l) = utf8 n +:+ encode l.
Proof. apply concat_cons. Qed.

(** The rest that was decoded is shorter. *)
Local Ltac decoded :=
  match goal with
  | IH : ∀ y, _ → _, Hl : utf8_decode ?t = Some _ |- _ => destruct (IH t ltac:(simpl; lia) _ Hl) as [<- ?]
  end.
Lemma utf8_decode_encode s points : utf8_decode s = Some points → encode points = s ∧ Forall scalar points.
Proof.
  revert points. induction s as [s IH] using (induction_ltof1 _ String.length). unfold ltof in IH. intros points.
  destruct s as [|a s1]; [by intros [= <-]|]. cbn [utf8_decode].
  assert (byte (char_code a) = String a EmptyString) as Ha by (unfold byte; by rewrite ascii_of_char_code).
  repeat case_match; try discriminate; rewrite ?andb_true_iff, ?N.leb_le, ?N.ltb_lt in *; subst;
    rewrite ?bind_Some, ?fmap_Some.
  - intros (l & Hl & ->). decoded. split; [by rewrite encode_cons, utf8_one, Ha by done|].
    constructor; [unfold scalar; lia|done].
  - intros (x & [Hx ->]%continuation_Some & (p & (-> & Hsc & Hlow)%well_coded_Some & (l & Hl & ->)%fmap_Some)%bind_Some).
    decoded. split; [by rewrite encode_cons, utf8_two, Ha by done|by constructor].
  - intros (x & [Hx ->]%continuation_Some & (y & [Hy ->]%continuation_Some
      & (p & (-> & Hsc & Hlow)%well_coded_Some & (l & Hl & ->)%fmap_Some)%bind_Some)%bind_Some).
    decoded. split; [by rewrite encode_cons, utf8_three, Ha by done|by constructor].
  - intros (x & [Hx ->]%continuation_Some & (y & [Hy ->]%continuation_Some & (z & [Hz ->]%continuation_Some
      & (p & (-> & Hsc & Hlow)%well_coded_Some & (l & Hl & ->)%fmap_Some)%bind_Some)%bind_Some)%bind_Some).
    decoded. split; [by rewrite encode_cons, utf8_four, Ha by done|by constructor].
Qed.

(** ** Escapes *)

Lemma hex_value_digit d : (d < 16)%N → hex_value (hex_digit d) = Some d.
Proof.
  intros Hd. assert (∃ k, (k < 16)%nat ∧ d = N.of_nat k) as (k & Hk & ->) by (exists (N.to_nat d); lia).
  do 16 (destruct k as [|k]; [reflexivity|]). lia.
Qed.
Lemma hex4_text_scan n r : (n < 65536)%N → hex4 (hex4_text n +:+ r) = Some (n, r).
Proof.
  intros Hn. unfold hex4_text. rewrite !app_string_cons. change (EmptyString +:+ r) with r. cbn [hex4].
  rewrite !hex_value_digit by lia. simpl. do 2 f_equal. lia.
Qed.
Lemma scan_escape_eq r :
  scan_escape ("u" +:+ r) =
    ('(u, r1) ← hex4 r;
     if (55296 <=? u)%N && (u <=? 56319)%N then
       match strip_prefix (backslash +:+ "u") r1 ≫= hex4 with
       | Some (u2, r2) =>
           if (56320 <=? u2)%N && (u2 <=? 57343)%N
           then Some (utf8 (65536 + (u - 55296) * 1024 + (u2 - 56320)), r2)
           else Some (utf8 u, r1)
       | None => Some (utf8 u, r1)
       end
     else Some (utf8 u, r1)).
Proof. reflexivity. Qed.
Lemma strip_escape r : strip_prefix (backslash +:+ "u") (backslash +:+ "u" +:+ r) = Some r.
Proof. reflexivity. Qed.
Lemma scan_escape_u n r :
  (n < 65536)%N → ¬ (55296 ≤ n < 56320)%N → scan_escape ("u" +:+ hex4_text n +:+ r) = Some (utf8 n, r).
Proof.
  intros Hn Hs. rewrite scan_escape_eq, hex4_text_scan by done. simpl.
  destruct ((55296 <=? n)%N && (n <=? 56319)%N) eqn:E; [|done].
  rewrite andb_true_iff, !N.leb_le in E. lia.
Qed.
Lemma scan_escape_pair n r :
  (65536 ≤ n < 1114112)%N →
  scan_escape ("u" +:+ hex4_text (55296 + (n - 65536) / 1024) +:+ backslash +:+ "u" +:+ hex4_text (56320 + (n - 65536) mod 1024) +:+ r)
  = Some (utf8 n, r).
Proof.
  intros Hn. set (u := (55296 + (n - 65536) / 1024)%N). set (v := (56320 + (n - 65536) mod 1024)%N).
  assert (55296 ≤ u ≤ 56319)%N as Hu by (unfold u; lia). assert (56320 ≤ v ≤ 57343)%N as Hv by (unfold v; lia).
  rewrite scan_escape_eq, hex4_text_scan by lia. cbn [mbind option_bind].
  rewrite (proj2 (N.leb_le 55296 u)), (proj2 (N.leb_le u 56319)) by lia. cbn [andb]. rewrite strip_escape. cbn [mbind option_bind].
  rewrite hex4_text_scan by lia.
  rewrite (proj2 (N.leb_le 56320 v)), (proj2 (N.leb_le v 57343)) by lia. cbn [andb].
  do 3 f_equal. unfold u, v. lia.
Qed.

Lemma scan_string_backslash fuel r e r1 :
  scan_escape r = Some (e, r1) →
  scan_string (S fuel) (backslash +:+ r) = ('(t, r2) ← scan_string fuel r1; Some (e +:+ t, r2)).
Proof. intros He. unfold backslash. rewrite app_string_cons. cbn -[scan_escape]. change (EmptyString +:+ r) with r. by rewrite He. Qed.
Lemma scan_point n fuel r :
  scalar n → scan_string (S fuel) (escape_point n +:+ r) = ('(t, r1) ← scan_string fuel r; Some (utf8 n +:+ t, r1)).
Proof.
  intros [Hn Hs]. unfold escape_point. destruct (N.ltb_spec n 127).
  - rewrite scan_escaped_char, utf8_one by lia. reflexivity.
  - destruct (N.ltb_spec n 65536).
    + rewrite !app_string_assoc. apply scan_string_backslash, scan_escape_u; [done|lia].
    + rewrite !app_string_assoc. by apply scan_string_backslash, scan_escape_pair.
Qed.
Lemma escape_point_length n : (0 < String.length (escape_point n))%nat.
Proof. unfold escape_point. case_match; [apply escape_char_length|]. case_match; simpl; lia. Qed.

(** The text between the quotes of [quote_ascii]. *)
Definition ascii_body (s : string) : string :=
  match utf8_decode s with
  | Some points => String.concat EmptyString (map escape_point points)
  | None => escape s
  end.
Lemma scan_points points fuel rest :
  Forall scalar points → (String.length (String.concat EmptyString (map escape_point points)) < fuel)%nat →
  scan_string fuel (String.concat EmptyString (map escape_point points) +:+ dquote +:+ rest) = Some (encode points, rest).
Proof.
  intros Hs. revert fuel. induction Hs as [|n points Hn _ IH]; intros fuel Hf.
  - destruct fuel; [lia|]. reflexivity.
  - cbn [map] in *. rewrite concat_cons in *. rewrite length_app_string in Hf. pose proof (escape_point_length n).
    destruct fuel as [|fuel]; [lia|]. rewrite app_string_assoc, scan_point, IH, encode_cons by (done || lia). reflexivity.
Qed.
Lemma ascii_body_scan s fuel rest :
  (String.length (ascii_body s) < fuel)%nat → scan_string fuel (ascii_body s +:+ dquote +:+ rest) = Some (s, rest).
Proof.
  unfold ascii_body. destruct (utf8_decode s) as [points|] eqn:E; [|apply scan_string_escape].
  apply utf8_decode_encode in E as [<- Hs]. by apply scan_points.
Qed.
Lemma ascii_render j : ascii_json j = render ascii_body j.
Proof. reflexivity. Qed.
Lemma json_loads_ascii j : well_formed j = true → json_loads (ascii_json j) = Some (sorted_json j).
Proof. apply (json_loads_render ascii_body ascii_body_scan). Qed.

(** ** Printable text *)

Definition printable (c : ascii) : bool := let n := char_code c in (32 <=? n)%N && (n <? 127)%N.
(** Every text of the document is UTF-8. *)
Fixpoint utf8_json (j : json) : bool :=
  match j with
  | JStr s => is_utf8 s
  | JList xs => forallb utf8_json xs
  | JObj kvs => forallb (λ kv, is_utf8 kv.1 && utf8_json kv.2) kvs
  | _ => true
  end.

Lemma escape_char_printable n : (n < 127)%N → all_chars printable (escape_char (ascii_of_N n)) = true.
Proof.
  intros Hn. assert (char_code (ascii_of_N n) = n) as Hc by (apply N_ascii_embedding; lia).
  revert Hc. generalize (ascii_of_N n). intros c <-. revert Hn.
  destruct c as [[] [] [] [] [] [] [] []]; vm_compute; congruence.
Qed.
Lemma hex_digit_printable d : (d < 16)%N → printable (hex_digit d) = true.
Proof.
  intros Hd. assert (∃ k, (k < 16)%nat ∧ d = N.of_nat k) as (k & Hk & ->) by (exists (N.to_nat d); lia).
  do 16 (destruct k as [|k]; [reflexivity|]). lia.
Qed.
Lemma hex4_text_printable n : all_chars printable (hex4_text n) = true.
Proof. unfold hex4_text. cbn [all_chars]. by rewrite !hex_digit_printable by lia. Qed.
Lemma escape_point_printable n : all_chars printable (escape_point n) = true.
Proof.
  unfold escape_point. destruct (N.ltb_spec n 127); [by apply escape_char_printable|].
  case_match; rewrite !all_chars_append, !hex4_text_printable; reflexivity.
Qed.
Lemma quote_ascii_printable s : is_utf8 s = true → all_chars printable (quote_ascii s) = true.
Proof.
  unfold is_utf8, quote_ascii. destruct (utf8_decode s) as [points|]; [intros _|done].
  rewrite !all_chars_append. cbn [all_chars dquote]. rewrite andb_true_r.
  induction points as [|n points IH]; [done|]. cbn [map]. rewrite concat_cons, all_chars_append, escape_point_printable.
  cbn [andb]. exact IH.
Qed.

(** A number is made of these characters. *)
Definition number_char (c : ascii) : bool :=
  is_digit c || is_char 46 c || is_char 101 c || is_char 69 c || is_char 43 c || is_char 45 c.
Lemma number_char_printable s : all_chars number_char s = true → all_chars printable s = true.
Proof.
  apply all_chars_impl. intros c. destruct c as [[] [] [] [] [] [] [] []]; vm_compute; congruence.
Qed.
Lemma span_digits_number s d r : span_digits s = (d, r) → s = d +:+ r ∧ all_chars number_char d = true.
Proof.
  revert d r. induction s as [|c s IH]; intros d r; [by intros [= <- <-]|]. cbn [span_digits].
  destruct (is_digit c) eqn:Ec; [|by intros [= <- <-]]. destruct (span_digits s) as [d' r'] eqn:E. intros [= <- <-].
  destruct (IH d' r' eq_refl) as [-> Hd]. split; [done|]. cbn [all_chars]. unfold number_char at 1. by rewrite Ec, Hd.
Qed.
Lemma scan_int_number s i r : scan_int s = Some (i, r) → s = i +:+ r ∧ all_chars number_char i = true.
Proof.
  assert (∀ s i r, match s with
    | String c r' => if is_char 48 c then Some (String c EmptyString, r')
        else match span_digits s with (EmptyString, _) => None | (d, r'') => Some (d, r'') end
    | EmptyString => None end = Some (i, r) → s = i +:+ r ∧ all_chars number_char i = true) as Hd.
  { clear. intros s i r. destruct s as [|c s]; [done|]. destruct (is_char 48 c) eqn:Ec.
    - intros [= <- <-]. split; [done|]. cbn [all_chars]. unfold is_char in Ec. apply N.eqb_eq in Ec. unfold number_char, is_digit. by rewrite Ec.
    - destruct (span_digits (String c s)) as [d r'] eqn:E. apply span_digits_number in E as [-> Hd].
      destruct d as [|c' d]; [done|]. by intros [= <- <-]. }
  unfold scan_int. destruct s as [|c s]; [done|]. destruct (is_char 45 c) eqn:Ec.
  - assert (all_chars number_char (String c EmptyString) = true) as Hc by (cbn; unfold number_char; by rewrite Ec, !orb_true_r).
    specialize (Hd s). destruct s as [|c' s]; [done|]. destruct (is_char 48 c').
    + intros [= <- <-]. destruct (Hd _ _ eq_refl) as [-> Hn]. split; [done|].
      change (String c (String c' EmptyString)) with (String c EmptyString +:+ String c' EmptyString).
      by rewrite all_chars_append, Hc, Hn.
    + destruct (span_digits (String c' s)) as [d r'] eqn:E. destruct d as [|c'' d]; [done|]. intros [= <- <-].
      destruct (Hd _ _ eq_refl) as [-> Hn]. split; [done|].
      change (String c (String c'' d)) with (String c EmptyString +:+ String c'' d).
      by rewrite all_chars_append, Hc, Hn.
  - intros Hs. apply Hd. destruct (is_char 48 c); [done|]. destruct (span_digits (String c s)) as [[|c' d] r']; done.
Qed.
Lemma scan_frac_number s f r : scan_frac s = (f, r) → s = f +:+ r ∧ all_chars number_char f = true.
Proof.
  destruct s as [|c s]; [by intros [= <- <-]|]. cbn [scan_frac]. destruct (is_char 46 c) eqn:Ec; [|by intros [= <- <-]].
  destruct (span_digits s) as [d r'] eqn:E. apply span_digits_number in E as [-> Hd]. destruct d as [|c' d]; [by intros [= <- <-]|].
  intros [= <- <-]. split; [done|]. change (all_chars number_char (String c (String c' d))) with (number_char c && all_chars number_char (String c' d)).
  rewrite Hd. unfold number_char. rewrite Ec. by rewrite !orb_true_r.
Qed.
Lemma scan_exp_number s f r : scan_exp s = (f, r) → s = f +:+ r ∧ all_chars number_char f = true.
Proof.
  destruct s as [|c s]; [by intros [= <- <-]|]. cbn [scan_exp]. destruct (is_char 101 c || is_char 69 c) eqn:Ec; [|by intros [= <- <-]].
  assert (number_char c = true) as Hc.
  { unfold number_char. apply orb_true_iff in Ec as [->| ->]; by rewrite ?orb_true_r. }
  set (p := match s with String _ _ => _ | EmptyString => _ end).
  assert (s = p.1 +:+ p.2 ∧ all_chars number_char p.1 = true) as [Hp Hn].
  { unfold p. destruct s as [|g s]; [done|]. destruct (is_char 43 g || is_char 45 g) eqn:Eg; [|done]. split; [done|].
    cbn. unfold number_char. apply orb_true_iff in Eg as [->| ->]; by rewrite ?orb_true_r. }
  destruct p as [sign r1]. simpl in *. destruct (span_digits r1) as [d r'] eqn:E. apply span_digits_number in E as [-> Hd].
  destruct d as [|c' d]; intros [= <- <-]; [done|]. rewrite Hp. split; [by rewrite (app_string_cons c (sign +:+ _)), app_string_assoc|].
  cbn [all_chars]. by rewrite all_chars_append, Hc, Hn, Hd.
Qed.
Lemma scan_number_text s j : scan_number s = Some (j, EmptyString) → all_chars number_char s = true.
Proof.
  unfold scan_number. destruct (scan_int s) as [[i r]|] eqn:Ei; [|done]. simpl. apply scan_int_number in Ei as [-> Hi].
  destruct (scan_frac r) as [f r1] eqn:Ef. apply scan_frac_number in Ef as [-> Hf].
  destruct (scan_exp r1) as [e r2] eqn:Ee. apply scan_exp_number in Ee as [-> He].
  assert (r2 = EmptyString → all_chars number_char (i +:+ f +:+ e +:+ r2) = true) as Hall
    by (intros ->; by rewrite !all_chars_append, Hi, Hf, He).
  intros Hs. apply Hall. destruct e as [|c e]; [|by injection Hs].
  destruct f as [|c f]; [|by injection Hs]. simpl in Hs. destruct (Z_of_str i); [|done]. by injection Hs.
Qed.

(** The ASCII form of a document is printable, hence one line of ASCII. *)
Lemma join_printable xs : Forall (λ x, all_chars printable x = true) xs → all_chars printable (join "," xs) = true.
Proof.
  induction 1 as [|x xs Hx Hxs IH]; [done|]. destruct xs as [|y xs]; [done|].
  change (join "," (x :: y :: xs)) with (x +:+ "," +:+ join "," (y :: xs)). by rewrite !all_chars_append, Hx, IH.
Qed.
Lemma ascii_json_printable j : well_formed j = true → utf8_json j = true → all_chars printable (ascii_json j) = true.
Proof.
  induction j as [|[]|z|r|s|xs IH|kvs IH] using json_nested_ind; intros Hw Hu; try done; cbn [well_formed utf8_json] in *.
  - apply number_char_printable, (scan_number_text _ (JInt z)), scan_number_str.
  - cbn [ascii_json]. destruct (scan_number r) as [[[] []]|] eqn:E; try discriminate. by apply number_char_printable, (scan_number_text _ _ E).
  - by apply quote_ascii_printable.
  - cbn [ascii_json]. rewrite !all_chars_append, join_printable; [done|]. apply forallb_Forall in Hw, Hu.
    rewrite Forall_forall in IH, Hw, Hu. apply Forall_forall. intros x (y & -> & Hy)%list_elem_of_fmap. auto.
  - apply andb_true_iff in Hw as [_ Hw]. apply forallb_Forall in Hw, Hu. cbn [ascii_json].
    rewrite !all_chars_append, join_printable; [done|]. rewrite (sort_kvs_map ascii_json), map_map.
    apply Forall_forall. intros x (kv & -> & Hkv)%list_elem_of_fmap. rewrite sort_kvs_perm in Hkv. rewrite Forall_forall in IH, Hw, Hu.
    specialize (Hu _ Hkv). apply andb_true_iff in Hu as [Hk Hv]. cbn [fst snd].
    by rewrite !all_chars_append, quote_ascii_printable, IH by auto.
Qed.

Lemma printable_utf8 s : all_chars printable s = true → is_utf8 s = true.
Proof.
  intros Hs. assert (∃ points, utf8_decode s = Some points) as [points Hp]; [|unfold is_utf8; by rewrite Hp].
  induction s as [|c s IH]; [by eexists|]. cbn [all_chars] in Hs. apply andb_true_iff in Hs as [Hc Hs].
  destruct (IH Hs) as [points Hp]. exists (char_code c :: points). cbn [utf8_decode].
  unfold printable in Hc. apply andb_true_iff in Hc as [_ Hc%N.ltb_lt]. rewrite (proj2 (N.ltb_lt _ 128)) by lia. by rewrite Hp.
Qed.

(** C38: Reading the stored text of a document gives back the document, its keys
    sorted, whether the text is the canonical UTF-8 or the ASCII form; so the
    document read back has the same texts and the same digest as the one that was
    written.  The ASCII form of a document of UTF-8 texts is printable ASCII, in
    particular one line. *)
Theorem json_round_trip j :
  well_formed j = true →
  json_loads (canonical_json j) = Some (sorted_json j) ∧ canonical_json (sorted_json j) = canonical_json j
  ∧ json_loads (ascii_json j) = Some (sorted_json j) ∧ ascii_json (sorted_json j) = ascii_json j
  ∧ (utf8_json j = true → all_chars printable (ascii_json j) = true).
Proof.
  intros Hw. split_and!; [by apply json_loads_canonical|by apply sorted_well_formed|by apply json_loads_ascii| |].
  - apply (sorted_render ascii_body j Hw).
  - by apply ascii_json_printable.
Qed.

Definition example_document : json :=
  JObj [("task", JStr (String (Ascii.ascii_of_nat 10) "line" +:+ utf8 128512)); ("metrics", JList [JInt (-40); JFloat "2.4e9"; JNull]);
        ("ok", JBool true); ("nested", JObj [])].
Lemma json_round_trip_witness :
  json_loads (canonical_json example_document) = Some (sorted_json example_document)
  ∧ canonical_json (sorted_json example_document) = canonical_json example_document
  ∧ json_loads (ascii_json example_document) = Some (sorted_json example_document)
  ∧ ascii_json (sorted_json example_document) = ascii_json example_document
  ∧ (utf8_json example_document = true → all_chars printable (ascii_json example_document) = true).
Proof. apply (json_round_trip example_document). vm_compute. reflexivity. Defined.
