(* ===== verification/StoreData.v ===== *)
(** * The tables of the local store

    The schema of [infrastructure/sqlite/versions/*.sql] as records, one per
    table, with the constraints an [INSERT] or [UPDATE] checks; the task
    envelope of [domain/models.py]; and SHA-256 as an interface.  A [CHECK]
    that confines a column to an enumeration is the type of the field. *)

From stdpp Require Export gmap.
From S2P Require Export Json JsonLoads Clock Sqlite TaskStates ArtifactPaths.

(** ** Digests *)

(** [hashlib.sha256(text).hexdigest()]: 64 characters, whatever the input. *)
Class Sha256 := {
  sha256_hex : string → string;
  sha256_hex_length : ∀ s, String.length (sha256_hex s) = 64%nat;
}.

(** A concrete function with the interface, to run examples on. *)
Definition pad64 (s : string) : string :=
  String.substring 0 64
    (s +:+ "0000000000000000000000000000000000000000000000000000000000000000").

Lemma substring_0_length n s :
  (n ≤ String.length s)%nat → String.length (String.substring 0 n s) = n.
Proof. intros H. by apply substring_split. Qed.

Lemma pad64_length s : String.length (pad64 s) = 64%nat.
Proof. unfold pad64. apply substring_0_length. rewrite length_append. simpl. lia. Qed.

Definition example_sha256 : Sha256 := {| sha256_hex := pad64; sha256_hex_length := pad64_length |}.

Definition digest `{Sha256} (payload : json) : string := sha256_hex (canonical_json payload).

(** ** Task envelopes *)

(** [LocalTaskEnvelope]; identifiers are the text of a UUID. *)
Record LocalTaskEnvelope := {
  schema_version : string;
  protocol_version : string;
  task_id : string;
  execution_id : string;
  task_type : string;
  task_type_version : string;
  issued_at : datetime;
  not_before : datetime;
  expires_at : datetime;
  idempotency_key : string;
  required_capabilities : list string;
  foreground_requirement : string;
  user_interaction_requirement : string;
  parameters : list (string * json);
}.

Definition logical_effect (t : LocalTaskEnvelope) : json :=
  JObj [("execution_id", JStr (execution_id t));
        ("task_type", JStr (task_type t));
        ("task_type_version", JStr (task_type_version t));
        ("required_capabilities", JList (map JStr (required_capabilities t)));
        ("foreground_requirement", JStr (foreground_requirement t));
        ("user_interaction_requirement", JStr (user_interaction_requirement t));
        ("parameters", JObj (parameters t))].

(** pydantic's [model_dump(mode="json")] and [model_validate] on envelopes. *)
Class EnvelopeCodec := {
  model_dump : LocalTaskEnvelope → json;
  model_validate : json → option LocalTaskEnvelope;
}.

(** ** SQL values *)

(** A column read or written by name. *)
Inductive sqlval := VNull | VInt (z : Z) | VText (s : string).

#[global] Instance sqlval_eq_dec : EqDecision sqlval.
Proof. solve_decision. Defined.

Definition of_text (o : option string) : sqlval :=
  match o with Some s => VText s | None => VNull end.

(** ** Rows *)

Inductive DeliveryState := D_PENDING | D_IN_FLIGHT | D_CONFIRMED | D_FAILED.
#[global] Instance DeliveryState_eq_dec : EqDecision DeliveryState.
Proof. solve_decision. Defined.
Definition delivery_eqb (a b : DeliveryState) : bool := bool_decide (a = b).

Record TaskRow := MkTask {
  it_task_id : string; it_execution_id : string; it_idempotency_key : string;
  it_task_type : string; it_task_type_version : string; it_payload : string;
  it_payload_hash : string; it_effect_hash : string;
  it_canonical_task_id : option string; it_state : TaskState; it_reason : option string;
  it_received_at : string; it_expires_at : string; it_updated_at : string;
}.

Record EffectRow := MkEffect {
  ie_idempotency_key : string; ie_effect_hash : string; ie_canonical_task_id : string;
  ie_claimed_at : option string; ie_terminal_state : option TaskState;
  ie_result_id : option string; ie_created_at : string; ie_updated_at : string;
}.

Record AttemptRow := MkAttempt {
  ta_attempt_id : string; ta_task_id : string; ta_claimed_at : string;
  ta_invoked_at : option string; ta_finished_at : option string;
  ta_cleanup_requested_at : option string; ta_cleanup_completed_at : option string;
  ta_cleanup_attempts : Z; ta_last_cleanup_error : option string;
}.

Record ProgressRow := MkProgress {
  op_event_id : string; op_task_id : string; op_sequence : Z; op_payload : string;
  op_payload_hash : string; op_state : DeliveryState; op_next_attempt_at : string;
  op_confirmed_at : option string;
}.

Record ResultRow := MkResult {
  or_result_id : string; or_task_id : string; or_idempotency_key : string;
  or_payload : string; or_payload_hash : string; or_state : DeliveryState;
  or_next_attempt_at : string; or_confirmed_at : option string;
}.

Record UploadRow := MkUpload {
  pu_upload_id : string; pu_artifact_id : string; pu_task_id : string;
  pu_relative_path : string; pu_media_type : string; pu_size_bytes : Z;
  pu_sha256 : string; pu_payload : string; pu_payload_hash : string;
  pu_state : DeliveryState; pu_next_attempt_at : string; pu_confirmed_at : option string;
}.

Record ManifestRow := MkManifest {
  cm_manifest_id : string; cm_sequence : Z; cm_payload : string; cm_payload_hash : string;
  cm_server_digest : option string; cm_confirmed : bool; cm_created_at : string;
  cm_confirmed_at : option string;
}.

Record RuntimeRow := MkRuntime {
  rs_boot_id : string; rs_heartbeat_acked_sequence : Z;
  rs_heartbeat_pending_sequence : option Z; rs_heartbeat_pending_payload : option string;
  rs_heartbeat_pending_hash : option string; rs_manifest_acked_sequence : Z;
  rs_clean_shutdown : bool; rs_started_at : option string; rs_stopped_at : option string;
  rs_updated_at : string;
}.

Record QuarantineRow := MkQuarantine {
  qr_quarantine_id : string; qr_source_table : string; qr_source_key : string;
  qr_reason : string; qr_raw_payload : option string; qr_observed_hash : string;
  qr_quarantined_at : string;
}.

Inductive WinAction := W_CONNECT | W_DISCONNECT | W_SCAN.
#[global] Instance WinAction_eq_dec : EqDecision WinAction.
Proof. solve_decision. Defined.
Definition action_value (a : WinAction) : string :=
  match a with W_CONNECT => "connect" | W_DISCONNECT => "disconnect" | W_SCAN => "scan" end.

Inductive WinState :=
  | WS_INTENT_RECORDED | WS_RUNNING | WS_COMPLETED | WS_FAILED | WS_CANCELLED
  | WS_RECONCILING | WS_ROLLED_BACK.
#[global] Instance WinState_eq_dec : EqDecision WinState.
Proof. solve_decision. Defined.

Record WindowsRow := MkWindows {
  wo_operation_id : string; wo_idempotency_key : string; wo_intent_hash : string;
  wo_action : WinAction; wo_interface_guid : string; wo_target_profile : option string;
  wo_previous_profile : option string; wo_state : WinState; wo_started_at : string;
  wo_updated_at : string; wo_completed_at : option string;
  wo_reconciliation_result : option string; wo_last_error : option string;
}.

(** ** The database *)

Record Store := MkStore {
  agent_identity : option (gmap string sqlval);
  runtime_state : option RuntimeRow;
  capability_manifests : list ManifestRow;
  inbox_tasks : list TaskRow;
  idempotency_effects : list EffectRow;
  task_attempts : list AttemptRow;
  outbox_progress : list ProgressRow;
  outbox_results : list ResultRow;
  pending_uploads : list UploadRow;
  quarantine : list QuarantineRow;
  windows_network_operations : list WindowsRow;
}.

Definition empty_store : Store :=
  MkStore None None [] [] [] [] [] [] [] [] [].

Definition set_identity v (s : Store) : Store :=
  MkStore v (runtime_state s) (capability_manifests s) (inbox_tasks s)
    (idempotency_effects s) (task_attempts s) (outbox_progress s) (outbox_results s)
    (pending_uploads s) (quarantine s) (windows_network_operations s).
Definition set_runtime v (s : Store) : Store :=
  MkStore (agent_identity s) v (capability_manifests s) (inbox_tasks s)
    (idempotency_effects s) (task_attempts s) (outbox_progress s) (outbox_results s)
    (pending_uploads s) (quarantine s) (windows_network_operations s).
Definition set_manifests v (s : Store) : Store :=
  MkStore (agent_identity s) (runtime_state s) v (inbox_tasks s)
    (idempotency_effects s) (task_attempts s) (outbox_progress s) (outbox_results s)
    (pending_uploads s) (quarantine s) (windows_network_operations s).
Definition set_inbox v (s : Store) : Store :=
  MkStore (agent_identity s) (runtime_state s) (capability_manifests s) v
    (idempotency_effects s) (task_attempts s) (outbox_progress s) (outbox_results s)
    (pending_uploads s) (quarantine s) (windows_network_operations s).
Definition set_effects v (s : Store) : Store :=
  MkStore (agent_identity s) (runtime_state s) (capability_manifests s) (inbox_tasks s)
    v (task_attempts s) (outbox_progress s) (outbox_results s)
    (pending_uploads s) (quarantine s) (windows_network_operations s).
Definition set_attempts v (s : Store) : Store :=
  MkStore (agent_identity s) (runtime_state s) (capability_manifests s) (inbox_tasks s)
    (idempotency_effects s) v (outbox_progress s) (outbox_results s)
    (pending_uploads s) (quarantine s) (windows_network_operations s).
Definition set_progress v (s : Store) : Store :=
  MkStore (agent_identity s) (runtime_state s) (capability_manifests s) (inbox_tasks s)
    (idempotency_effects s) (task_attempts s) v (outbox_results s)
    (pending_uploads s) (quarantine s) (windows_network_operations s).
Definition set_results v (s : Store) : Store :=
  MkStore (agent_identity s) (runtime_state s) (capability_manifests s) (inbox_tasks s)
    (idempotency_effects s) (task_attempts s) (outbox_progress s) v
    (pending_uploads s) (quarantine s) (windows_network_operations s).
Definition set_uploads v (s : Store) : Store :=
  MkStore (agent_identity s) (runtime_state s) (capability_manifests s) (inbox_tasks s)
    (idempotency_effects s) (task_attempts s) (outbox_progress s) (outbox_results s)
    v (quarantine s) (windows_network_operations s).
Definition set_quarantine v (s : Store) : Store :=
  MkStore (agent_identity s) (runtime_state s) (capability_manifests s) (inbox_tasks s)
    (idempotency_effects s) (task_attempts s) (outbox_progress s) (outbox_results s)
    (pending_uploads s) v (windows_network_operations s).
Definition set_windows v (s : Store) : Store :=
  MkStore (agent_identity s) (runtime_state s) (capability_manifests s) (inbox_tasks s)
    (idempotency_effects s) (task_attempts s) (outbox_progress s) (outbox_results s)
    (pending_uploads s) (quarantine s) v.

(** ** Row updates *)

Definition task_set_state (st : TaskState) (now : string) (r : TaskRow) : TaskRow :=
  MkTask (it_task_id r) (it_execution_id r) (it_idempotency_key r) (it_task_type r)
    (it_task_type_version r) (it_payload r) (it_payload_hash r) (it_effect_hash r)
    (it_canonical_task_id r) st (it_reason r) (it_received_at r) (it_expires_at r) now.
Definition task_set_state_reason (st : TaskState) (reason now : string) (r : TaskRow) : TaskRow :=
  MkTask (it_task_id r) (it_execution_id r) (it_idempotency_key r) (it_task_type r)
    (it_task_type_version r) (it_payload r) (it_payload_hash r) (it_effect_hash r)
    (it_canonical_task_id r) st (Some reason) (it_received_at r) (it_expires_at r) now.
Definition effect_claim (now : string) (e : EffectRow) : EffectRow :=
  MkEffect (ie_idempotency_key e) (ie_effect_hash e) (ie_canonical_task_id e) (Some now)
    (ie_terminal_state e) (ie_result_id e) (ie_created_at e) now.
Definition effect_finish (st : TaskState) (result_id now : string) (e : EffectRow) : EffectRow :=
  MkEffect (ie_idempotency_key e) (ie_effect_hash e) (ie_canonical_task_id e)
    (ie_claimed_at e) (Some st) (Some result_id) (ie_created_at e) now.

(** ** Constraints on INSERT *)

Definition check (b : bool) (constraint : string) : result unit :=
  if b then Ok tt else Err (IntegrityError constraint).
Definition len64 (s : string) : bool := (String.length s =? 64)%nat.

Definition insert_task (r : TaskRow) (s : Store) : result (unit * Store) :=
  check (negb (has_key it_task_id (it_task_id r) (inbox_tasks s))) "inbox_tasks.task_id" ;;
  check (len64 (it_payload_hash r)) "inbox_tasks.payload_hash" ;;
  check (len64 (it_effect_hash r)) "inbox_tasks.effect_hash" ;;
  check match it_canonical_task_id r with
        | None => true
        | Some c => has_key it_task_id c (inbox_tasks s) || String.eqb c (it_task_id r)
        end "inbox_tasks.canonical_task_id" ;;
  Ok (tt, set_inbox (inbox_tasks s ++ [r]) s).

Definition insert_effect (e : EffectRow) (s : Store) : result (unit * Store) :=
  check (negb (has_key ie_idempotency_key (ie_idempotency_key e) (idempotency_effects s)))
    "idempotency_effects.idempotency_key" ;;
  check (len64 (ie_effect_hash e)) "idempotency_effects.effect_hash" ;;
  check (negb (has_key ie_canonical_task_id (ie_canonical_task_id e) (idempotency_effects s)))
    "idempotency_effects.canonical_task_id" ;;
  check (has_key it_task_id (ie_canonical_task_id e) (inbox_tasks s))
    "idempotency_effects.canonical_task_id references inbox_tasks" ;;
  Ok (tt, set_effects (idempotency_effects s ++ [e]) s).

Definition insert_attempt (a : AttemptRow) (s : Store) : result (unit * Store) :=
  check (negb (has_key ta_attempt_id (ta_attempt_id a) (task_attempts s)))
    "task_attempts.attempt_id" ;;
  check (negb (has_key ta_task_id (ta_task_id a) (task_attempts s))) "task_attempts.task_id" ;;
  check (has_key it_task_id (ta_task_id a) (inbox_tasks s))
    "task_attempts.task_id references inbox_tasks" ;;
  Ok (tt, set_attempts (task_attempts s ++ [a]) s).

Definition insert_progress (p : ProgressRow) (s : Store) : result (unit * Store) :=
  check (negb (has_key op_event_id (op_event_id p) (outbox_progress s)))
    "outbox_progress.event_id" ;;
  check (len64 (op_payload_hash p)) "outbox_progress.payload_hash" ;;
  check (negb (existsb (λ q, String.eqb (op_task_id q) (op_task_id p)
                             && (op_sequence q =? op_sequence p)) (outbox_progress s)))
    "outbox_progress.task_id, sequence" ;;
  check (has_key it_task_id (op_task_id p) (inbox_tasks s))
    "outbox_progress.task_id references inbox_tasks" ;;
  Ok (tt, set_progress (outbox_progress s ++ [p]) s).

Definition insert_result (r : ResultRow) (s : Store) : result (unit * Store) :=
  check (negb (has_key or_result_id (or_result_id r) (outbox_results s)))
    "outbox_results.result_id" ;;
  check (negb (has_key or_task_id (or_task_id r) (outbox_results s))) "outbox_results.task_id" ;;
  check (negb (has_key or_idempotency_key (or_idempotency_key r) (outbox_results s)))
    "outbox_results.idempotency_key" ;;
  check (len64 (or_payload_hash r)) "outbox_results.payload_hash" ;;
  check (has_key it_task_id (or_task_id r) (inbox_tasks s))
    "outbox_results.task_id references inbox_tasks" ;;
  Ok (tt, set_results (outbox_results s ++ [r]) s).

(** [relative_path NOT LIKE '/%' AND relative_path NOT LIKE '%..%'] *)
Definition path_check (s : string) : bool :=
  negb (opt_is_some (after_prefix "/" s))
  && negb (opt_is_some (String.index 0 ".." s)).

Definition insert_upload (u : UploadRow) (s : Store) : result (unit * Store) :=
  check (negb (has_key pu_upload_id (pu_upload_id u) (pending_uploads s)))
    "pending_uploads.upload_id" ;;
  check (negb (has_key pu_artifact_id (pu_artifact_id u) (pending_uploads s)))
    "pending_uploads.artifact_id" ;;
  check (path_check (pu_relative_path u)) "pending_uploads.relative_path" ;;
  check (0 <=? pu_size_bytes u) "pending_uploads.size_bytes" ;;
  check (len64 (pu_sha256 u)) "pending_uploads.sha256" ;;
  check (len64 (pu_payload_hash u)) "pending_uploads.payload_hash" ;;
  check (has_key it_task_id (pu_task_id u) (inbox_tasks s))
    "pending_uploads.task_id references inbox_tasks" ;;
  Ok (tt, set_uploads (pending_uploads s ++ [u]) s).

Definition insert_manifest (m : ManifestRow) (s : Store) : result (unit * Store) :=
  check (negb (has_key cm_manifest_id (cm_manifest_id m) (capability_manifests s)))
    "capability_manifests.manifest_id" ;;
  check (negb (existsb (λ n, cm_sequence n =? cm_sequence m) (capability_manifests s)))
    "capability_manifests.sequence" ;;
  check (len64 (cm_payload_hash m)) "capability_manifests.payload_hash" ;;
  Ok (tt, set_manifests (capability_manifests s ++ [m]) s).

Definition insert_quarantine (q : QuarantineRow) (s : Store) : result (unit * Store) :=
  check (negb (has_key qr_quarantine_id (qr_quarantine_id q) (quarantine s)))
    "quarantine.quarantine_id" ;;
  Ok (tt, set_quarantine (quarantine s ++ [q]) s).

Definition insert_windows (w : WindowsRow) (s : Store) : result (unit * Store) :=
  check (negb (has_key wo_operation_id (wo_operation_id w) (windows_network_operations s)))
    "windows_network_operations.operation_id" ;;
  check (negb (has_key wo_idempotency_key (wo_idempotency_key w) (windows_network_operations s)))
    "windows_network_operations.idempotency_key" ;;
  check (len64 (wo_intent_hash w)) "windows_network_operations.intent_hash" ;;
  Ok (tt, set_windows (windows_network_operations s ++ [w]) s).
