(* ===== verification/Store.v ===== *)
(** * The local store's operations

    [class SQLiteStore] of [infrastructure/sqlite/store.py], method by method.
    Clock readings ([utc_now()]) and fresh identifiers ([uuid4()]) are
    arguments, one per call the method makes.  Each definition is the whole
    method: its transaction, its guards and every statement in order. *)

From S2P Require Export StoreData.

Section Store.
Context `{Sha256} `{EnvelopeCodec}.

(** The [{"code": "blocked", "detail": ...}] reason texts. *)
Definition reason_json (detail : string) : string :=
  "{" +:+ quote "code" +:+ ": " +:+ quote "blocked" +:+ ", "
      +:+ quote "detail" +:+ ": " +:+ quote detail +:+ "}".

Definition quarantine_in_transaction (qid now source_table source_key reason : string)
    (raw_payload : option string) : SE (conn Store) unit :=
  exec (insert_quarantine
          (MkQuarantine qid source_table source_key reason raw_payload
             (sha256_hex (coalesce raw_payload EmptyString)) now)).

(** ** Tasks *)

Definition ingest_task (now qid qnow : string) (task : LocalTaskEnvelope) : SE Store string :=
  let payload := model_dump task in
  let encoded := canonical_json payload in
  let payload_hash := digest payload in
  let effect_hash := digest (logical_effect task) in
  let tid := task_id task in
  let key := idempotency_key task in
  let row canonical state reason :=
    MkTask tid (execution_id task) key (task_type task) (task_type_version task)
      encoded payload_hash effect_hash canonical state reason now
      (isoformat (expires_at task)) now in
  with_connection (
    begin_immediate ;;
    existing_task ← query (λ s, select_one (key_is it_task_id tid) (inbox_tasks s));
    match existing_task with
    | Some existing =>
        if negb (String.eqb (it_payload_hash existing) payload_hash) then
          quarantine_in_transaction qid qnow "inbox_tasks" tid
            "task_id_payload_conflict" (Some encoded) ;;
          commit ;;
          raise (DuplicateConflictError "task_id was reused with a different payload")
        else commit ;; mret "duplicate"
    | None =>
        effect ← query (λ s, select_one (key_is ie_idempotency_key key)
                               (idempotency_effects s));
        match effect with
        | Some e =>
            let same := String.eqb (ie_effect_hash e) effect_hash in
            let state := if same then DUPLICATE else BLOCKED in
            let reason := if same then "idempotency_duplicate" else "idempotency_conflict" in
            exec (insert_task (row (Some (ie_canonical_task_id e)) state
                                 (Some (reason_json reason)))) ;;
            commit ;;
            mret (value state)
        | None =>
            exec (insert_task (row None RECEIVED None)) ;;
            exec (insert_effect (MkEffect key effect_hash tid None None None now now)) ;;
            exec (λ s, Ok (tt, set_inbox
                    (update_rows (λ r, key_is it_task_id tid r && state_eqb (it_state r) RECEIVED)
                       (task_set_state QUEUED now) (inbox_tasks s)) s)) ;;
            commit ;;
            mret (value QUEUED)
        end
    end).

(** The [try] block of [queued_tasks]: the stored text must parse, hash to
    the stored digest and validate. *)
Definition decode_row (row : TaskRow) : option LocalTaskEnvelope :=
  match json_loads (it_payload row) with
  | Some payload =>
      if finite payload && String.eqb (digest payload) (it_payload_hash row)
      then model_validate payload
      else None
  | None => None
  end.

(** One row of [queued_tasks]: the envelope, or the quarantine of the row. *)
Definition queued_row (qid qnow now : string) (row : TaskRow)
    : SE (conn Store) (option LocalTaskEnvelope) :=
  let raw := it_payload row in
  match decode_row row with
  | Some envelope => mret (Some envelope)
  | None =>
      begin_immediate ;;
      quarantine_in_transaction qid qnow "inbox_tasks" (it_task_id row)
        "corrupt_task_row" (Some raw) ;;
      exec (λ s, Ok (tt, set_inbox
              (update_rows (λ r, key_is it_task_id (it_task_id row) r
                                 && state_eqb (it_state r) QUEUED)
                 (task_set_state_reason REJECTED (reason_json "corrupt_row") now)
                 (inbox_tasks s)) s)) ;;
      commit ;;
      mret None
  end.

Fixpoint queued_rows (ids clock : nat → string) (n : nat) (rows : list TaskRow)
    : SE (conn Store) (list LocalTaskEnvelope) :=
  match rows with
  | [] => mret []
  | row :: rows' =>
      envelope ← queued_row (ids n) (clock (2 * n)%nat) (clock (2 * n + 1)%nat) row;
      rest ← queued_rows ids clock (S n) rows';
      mret match envelope with Some t => t :: rest | None => rest end
  end.

(** [LIMIT ?] *)
Definition limit {A} (n : Z) (rows : list A) : list A :=
  if n <? 0 then rows else take (Z.to_nat n) rows.

Definition queued_tasks (ids clock : nat → string) (n : Z)
    : SE Store (list LocalTaskEnvelope) :=
  with_connection (
    rows ← query (λ s, limit n
      (order_by (λ a b, str_leb (it_received_at a) (it_received_at b))
         (select (λ r, state_eqb (it_state r) QUEUED) (inbox_tasks s))));
    queued_rows ids clock 0 rows).

Definition claim_task (now attempt_id tid : string) : SE Store (option string) :=
  with_connection (
    begin_immediate ;;
    row ← query (λ s, select_one (key_is it_task_id tid) (inbox_tasks s));
    match row with
    | Some r =>
        if negb (state_eqb (it_state r) QUEUED) then rollback ;; mret None else
        let claimable e := key_is ie_idempotency_key (it_idempotency_key r) e
                           && opt_is_none (ie_claimed_at e) in
        n ← exec (λ s, Ok (rowcount claimable (idempotency_effects s),
                           set_effects (update_rows claimable (effect_claim now)
                                          (idempotency_effects s)) s));
        if negb (n =? 1)%nat then rollback ;; mret None else
        exec (λ s, Ok (tt, set_inbox
                (update_rows (λ r, key_is it_task_id tid r && state_eqb (it_state r) QUEUED)
                   (task_set_state PREPARING now) (inbox_tasks s)) s)) ;;
        exec (insert_attempt (MkAttempt attempt_id tid now None None None None 0 None)) ;;
        commit ;;
        mret (Some attempt_id)
    | None => rollback ;; mret None
    end).

Definition transition_task (now tid : string) (current target : TaskState) : SE Store unit :=
  lift (ensure_transition current target) ;;
  with_connection (
    let p r := key_is it_task_id tid r && state_eqb (it_state r) current in
    n ← exec (λ s, Ok (rowcount p (inbox_tasks s),
                       set_inbox (update_rows p (task_set_state target now) (inbox_tasks s)) s));
    raise_if (negb (n =? 1)%nat)
      (StateConflictError "task transition compare-and-set failed")).

Definition attempt_is (tid : string) (a : AttemptRow) : bool := key_is ta_task_id tid a.

Definition mark_invoked (now tid : string) : SE Store unit :=
  with_connection (
    begin_immediate ;;
    let p a := attempt_is tid a && opt_is_none (ta_invoked_at a) in
    n ← exec (λ s, Ok (rowcount p (task_attempts s),
          set_attempts (update_rows p (λ a,
            MkAttempt (ta_attempt_id a) (ta_task_id a) (ta_claimed_at a) (Some now)
              (ta_finished_at a) (ta_cleanup_requested_at a) (ta_cleanup_completed_at a)
              (ta_cleanup_attempts a) (ta_last_cleanup_error a)) (task_attempts s)) s));
    if negb (n =? 1)%nat then
      rollback ;; raise (StateConflictError "plugin invocation was already recorded")
    else commit).

Definition request_cleanup (now tid : string) : SE Store unit :=
  with_connection (exec (λ s, Ok (tt, set_attempts (update_rows (attempt_is tid) (λ a,
    MkAttempt (ta_attempt_id a) (ta_task_id a) (ta_claimed_at a) (ta_invoked_at a)
      (ta_finished_at a) (Some (coalesce (ta_cleanup_requested_at a) now))
      (ta_cleanup_completed_at a) (ta_cleanup_attempts a) (ta_last_cleanup_error a))
    (task_attempts s)) s))).

Definition complete_cleanup (now tid : string) (error : option string) : SE Store unit :=
  with_connection (exec (λ s, Ok (tt, set_attempts (update_rows (attempt_is tid) (λ a,
    MkAttempt (ta_attempt_id a) (ta_task_id a) (ta_claimed_at a) (ta_invoked_at a)
      (ta_finished_at a) (ta_cleanup_requested_at a)
      (match error with None => Some now | Some _ => ta_cleanup_completed_at a end)
      (ta_cleanup_attempts a + 1) error) (task_attempts s)) s))).

(** [payload] is the result document; its [result_id] is read from it. *)
Definition finish_with_result (now result_key tid : string) (current target : TaskState)
    (result_id : string) (payload : json) : SE Store unit :=
  lift (ensure_transition current target) ;;
  let encoded := canonical_json payload in
  with_connection (
    begin_immediate ;;
    let p r := key_is it_task_id tid r && state_eqb (it_state r) current in
    n ← exec (λ s, Ok (rowcount p (inbox_tasks s),
                       set_inbox (update_rows p (task_set_state target now) (inbox_tasks s)) s));
    if negb (n =? 1)%nat then
      rollback ;; raise (StateConflictError "terminal task transition compare-and-set failed")
    else
      row ← query (λ s, select_one (key_is it_task_id tid) (inbox_tasks s));
      match row with
      | None => raise AssertionError
      | Some r =>
          exec (insert_result (MkResult result_id tid result_key encoded (digest payload)
                                 D_PENDING now None)) ;;
          exec (λ s, Ok (tt, set_effects
                  (update_rows (key_is ie_idempotency_key (it_idempotency_key r))
                     (effect_finish target result_id now) (idempotency_effects s)) s)) ;;
          exec (λ s, Ok (tt, set_attempts (update_rows (attempt_is tid) (λ a,
                  MkAttempt (ta_attempt_id a) (ta_task_id a) (ta_claimed_at a)
                    (ta_invoked_at a) (Some now) (ta_cleanup_requested_at a)
                    (ta_cleanup_completed_at a) (ta_cleanup_attempts a)
                    (ta_last_cleanup_error a)) (task_attempts s)) s)) ;;
          commit
      end).

Definition queue_progress (now tid event_id : string) (sequence : Z) (payload : json)
    : SE Store unit :=
  with_connection (exec (insert_progress
    (MkProgress event_id tid sequence (canonical_json payload) (digest payload)
       D_PENDING now None))).

Definition interruptible (st : TaskState) : bool :=
  bool_decide (st ∈ [PREPARING; RUNNING; CANCEL_REQUESTED; CLEANING_UP]).

Definition recover_interrupted (now : string) : SE Store nat :=
  with_connection (
    begin_immediate ;;
    rows ← query (λ s, select (λ r, interruptible (it_state r)) (inbox_tasks s));
    for_each rows (λ row,
      exec (λ s, Ok (tt, set_inbox (update_rows (key_is it_task_id (it_task_id row))
             (task_set_state_reason INTERRUPTED (reason_json "process_restart") now)
             (inbox_tasks s)) s)) ;;
      exec (λ s, Ok (tt, set_attempts (update_rows (attempt_is (it_task_id row)) (λ a,
             MkAttempt (ta_attempt_id a) (ta_task_id a) (ta_claimed_at a) (ta_invoked_at a)
               (Some (coalesce (ta_finished_at a) now))
               (Some (coalesce (ta_cleanup_requested_at a) now))
               (ta_cleanup_completed_at a) (ta_cleanup_attempts a)
               (ta_last_cleanup_error a)) (task_attempts s)) s))) ;;
    commit ;;
    mret (length rows)).

(** ** Outboxes *)

Inductive OutboxItem :=
  | ProgressItem (p : ProgressRow)
  | ResultItem (r : ResultRow)
  | UploadItem (u : UploadRow).

Definition deliverable (st : DeliveryState) : bool :=
  bool_decide (st ∈ [D_PENDING; D_IN_FLIGHT]).

Definition pending_outbox (table : string) : SE Store (list OutboxItem) :=
  raise_if (negb (str_in table ["outbox_progress"; "outbox_results"; "pending_uploads"]))
    (ValueError "unknown outbox") ;;
  with_connection (query (λ s,
    if String.eqb table "outbox_progress" then
      map ProgressItem (order_by (λ a b, str_leb (op_next_attempt_at a) (op_next_attempt_at b))
        (select (λ r, deliverable (op_state r)) (outbox_progress s)))
    else if String.eqb table "outbox_results" then
      map ResultItem (order_by (λ a b, str_leb (or_next_attempt_at a) (or_next_attempt_at b))
        (select (λ r, deliverable (or_state r)) (outbox_results s)))
    else
      map UploadItem (order_by (λ a b, str_leb (pu_next_attempt_at a) (pu_next_attempt_at b))
        (select (λ r, deliverable (pu_state r)) (pending_uploads s))))).

Definition outbox_key (table : string) : option string :=
  if String.eqb table "outbox_progress" then Some "event_id"
  else if String.eqb table "outbox_results" then Some "result_id"
  else if String.eqb table "pending_uploads" then Some "upload_id"
  else None.

Definition confirm_outbox (now table key_name key : string) : SE Store unit :=
  raise_if (negb (bool_decide (outbox_key table = Some key_name)))
    (ValueError "invalid outbox key") ;;
  with_connection (exec (λ s, Ok (tt,
    if String.eqb table "outbox_progress" then
      set_progress (update_rows (key_is op_event_id key) (λ r,
        MkProgress (op_event_id r) (op_task_id r) (op_sequence r) (op_payload r)
          (op_payload_hash r) D_CONFIRMED (op_next_attempt_at r) (Some now))
        (outbox_progress s)) s
    else if String.eqb table "outbox_results" then
      set_results (update_rows (key_is or_result_id key) (λ r,
        MkResult (or_result_id r) (or_task_id r) (or_idempotency_key r) (or_payload r)
          (or_payload_hash r) D_CONFIRMED (or_next_attempt_at r) (Some now))
        (outbox_results s)) s
    else
      set_uploads (update_rows (key_is pu_upload_id key) (λ r,
        MkUpload (pu_upload_id r) (pu_artifact_id r) (pu_task_id r) (pu_relative_path r)
          (pu_media_type r) (pu_size_bytes r) (pu_sha256 r) (pu_payload r)
          (pu_payload_hash r) D_CONFIRMED (pu_next_attempt_at r) (Some now))
        (pending_uploads s)) s))).
End Store.
