(* ===== verification/StoreState.v ===== *)
(** * Identity, runtime, manifests and heartbeats

    The methods of [class SQLiteStore] that keep the agent's own state: the
    singleton rows [agent_identity] and [runtime_state] and the table
    [capability_manifests]. *)

From S2P Require Export StoreData.

Section StoreState.
Context `{Sha256}.

(** ** Identity *)

Definition identity : SE Store (option (gmap string sqlval)) :=
  with_connection (query agent_identity).

Definition identity_columns : list string :=
  ["singleton"; "installation_id"; "display_name"; "platform"; "platform_version";
   "agent_version"; "device_id"; "agent_id"; "protocol_version"; "enrolled_at"; "revoked_at";
   "enrollment_idempotency_key"; "enrollment_reported_at"; "active_credential_id";
   "active_credential_version"; "active_credential_fingerprint"; "active_credential_ref";
   "active_credential_expires_at"; "previous_credential_id"; "previous_credential_ref";
   "pending_credential_id"; "pending_credential_version"; "pending_credential_fingerprint";
   "pending_credential_ref"; "pending_credential_expires_at"; "rotation_id";
   "rotation_idempotency_key"; "activation_idempotency_key"; "rotation_state"; "updated_at"].

(** Columns of an [INSERT] that names only some of them; the others take
    their default. *)
Definition new_identity (given : list (string * sqlval)) : gmap string sqlval :=
  foldr (λ kv m, <[kv.1 := kv.2]> m)
    (<["rotation_state" := VText "none"]>
       (foldr (λ c m, <[c := VNull]> m) ∅ identity_columns)) given.

Definition ensure_identity (now : string)
    (installation_id display_name platform platform_version agent_version
     enrollment_idempotency_key enrollment_reported_at : string)
    : SE Store (gmap string sqlval) :=
  with_connection (
    begin_immediate ;;
    row ← query agent_identity;
    match row with
    | None =>
        exec (λ s, Ok (tt, set_identity (Some (new_identity
          [("singleton", VInt 1); ("installation_id", VText installation_id);
           ("display_name", VText display_name); ("platform", VText platform);
           ("platform_version", VText platform_version);
           ("agent_version", VText agent_version);
           ("enrollment_idempotency_key", VText enrollment_idempotency_key);
           ("enrollment_reported_at", VText enrollment_reported_at);
           ("updated_at", VText now)])) s))
    | Some _ => mret tt
    end ;;
    commit) ;;
  found ← identity;
  match found with Some i => mret i | None => raise AssertionError end.

Definition updatable : list string :=
  ["device_id"; "agent_id"; "protocol_version"; "enrolled_at"; "revoked_at";
   "active_credential_id"; "active_credential_version"; "active_credential_fingerprint";
   "active_credential_ref"; "active_credential_expires_at"; "previous_credential_id";
   "previous_credential_ref"; "pending_credential_id"; "pending_credential_version";
   "pending_credential_fingerprint"; "pending_credential_ref";
   "pending_credential_expires_at"; "rotation_id"; "rotation_idempotency_key";
   "activation_idempotency_key"; "rotation_state"].

Definition rotation_states : list string :=
  ["none"; "requested"; "pending_stored"; "activation_uncertain"; "activated"; "revoked"].

(** [rotation_state TEXT NOT NULL CHECK(rotation_state IN (...))] *)
Definition identity_check (m : gmap string sqlval) : bool :=
  match m !! "rotation_state" with
  | Some (VText s) => str_in s rotation_states
  | _ => false
  end.

Definition assign (values : list (string * sqlval)) (now : string) (m : gmap string sqlval)
    : gmap string sqlval :=
  <["updated_at" := VText now]> (fold_left (λ m kv, <[kv.1 := kv.2]> m) values m).

Definition update_identity (now : string) (values : list (string * sqlval)) : SE Store unit :=
  raise_if (negb (forallb (λ kv, str_in kv.1 updatable) values))
    (ValueError "unsupported identity update") ;;
  with_connection (
    begin_immediate ;;
    raise_if (bool_decide (values = [])) (OperationalError "near comma: syntax error") ;;
    exec (λ s, match agent_identity s with
               | None => Ok (tt, s)
               | Some m => if identity_check (assign values now m)
                           then Ok (tt, set_identity (Some (assign values now m)) s)
                           else Err (IntegrityError "agent_identity.rotation_state")
               end) ;;
    commit).

Definition purge_identity : SE Store unit :=
  with_connection (
    begin_immediate ;;
    exec (λ s, Ok (tt, set_manifests [] s)) ;;
    exec (λ s, Ok (tt, set_runtime None s)) ;;
    exec (λ s, Ok (tt, set_identity None s)) ;;
    commit).

(** ** Runtime *)

Definition get_runtime_state : SE Store (option RuntimeRow) :=
  with_connection (query runtime_state).

Definition start_runtime (now boot_id : string) : SE Store unit :=
  with_connection (
    begin_immediate ;;
    exec (λ s, Ok (tt, set_runtime (Some
      match runtime_state s with
      | None => MkRuntime boot_id (-1) None None None (-1) false (Some now) None now
      | Some r => MkRuntime boot_id (rs_heartbeat_acked_sequence r)
                    (rs_heartbeat_pending_sequence r) (rs_heartbeat_pending_payload r)
                    (rs_heartbeat_pending_hash r) (rs_manifest_acked_sequence r)
                    false (Some now) None now
      end) s)) ;;
    commit).

Definition stop_runtime (now : string) : SE Store unit :=
  with_connection (exec (λ s, Ok (tt, set_runtime
    ((λ r, MkRuntime (rs_boot_id r) (rs_heartbeat_acked_sequence r)
             (rs_heartbeat_pending_sequence r) (rs_heartbeat_pending_payload r)
             (rs_heartbeat_pending_hash r) (rs_manifest_acked_sequence r)
             true (rs_started_at r) (Some now) now) <$> runtime_state s) s))).

(** ** Manifests *)

Definition by_sequence (a b : ManifestRow) : bool := cm_sequence a <=? cm_sequence b.

Definition pending_manifest : SE Store (option ManifestRow) :=
  with_connection (query (λ s,
    head (order_by by_sequence (select (λ m, negb (cm_confirmed m)) (capability_manifests s))))).

Definition confirmed_manifest : SE Store (option ManifestRow) :=
  with_connection (query (λ s,
    head (order_by (λ a b, by_sequence b a) (select cm_confirmed (capability_manifests s))))).

Definition persist_manifest (now manifest_id : string) (sequence : Z) (payload : json)
    : SE Store unit :=
  with_connection (
    begin_immediate ;;
    exec (insert_manifest (MkManifest manifest_id sequence (canonical_json payload)
                             (digest payload) None false now None)) ;;
    commit).

Definition confirm_manifest (now1 now2 manifest_id : string) (sequence : Z)
    (server_digest : string) : SE Store unit :=
  with_connection (
    begin_immediate ;;
    let p m := key_is cm_manifest_id manifest_id m && (cm_sequence m =? sequence)
               && negb (cm_confirmed m) in
    n ← exec (λ s,
          if (rowcount p (capability_manifests s) =? 0)%nat || len64 server_digest then
            Ok (rowcount p (capability_manifests s),
                set_manifests (update_rows p (λ m,
                  MkManifest (cm_manifest_id m) (cm_sequence m) (cm_payload m)
                    (cm_payload_hash m) (Some server_digest) true (cm_created_at m)
                    (Some now1)) (capability_manifests s)) s)
          else Err (IntegrityError "capability_manifests.server_digest"));
    if negb (n =? 1)%nat then
      rollback ;; raise (StateConflictError "manifest confirmation conflict")
    else
      exec (λ s, Ok (tt, set_runtime
        ((λ r, MkRuntime (rs_boot_id r) (rs_heartbeat_acked_sequence r)
                 (rs_heartbeat_pending_sequence r) (rs_heartbeat_pending_payload r)
                 (rs_heartbeat_pending_hash r) sequence (rs_clean_shutdown r)
                 (rs_started_at r) (rs_stopped_at r) now2) <$> runtime_state s) s)) ;;
      commit).

(** ** Heartbeats *)

(** The stored text is [json.loads]ed; a corrupt text raises [ValueError]. *)
Definition pending_heartbeat : SE Store (option json) :=
  state ← get_runtime_state;
  match state with
  | None => mret None
  | Some r =>
      match rs_heartbeat_pending_payload r with
      | None => mret None
      | Some text => match json_loads text with
                     | Some j => mret (Some j)
                     | None => raise (ValueError "JSONDecodeError")
                     end
      end
  end.

Definition persist_heartbeat (now : string) (sequence : Z) (payload : json) : SE Store unit :=
  with_connection (
    begin_immediate ;;
    row ← query runtime_state;
    match row with
    | Some r =>
        if opt_is_some (rs_heartbeat_pending_sequence r) then
          rollback ;;
          raise (StateConflictError "heartbeat already pending or runtime not started")
        else
          exec (λ s, Ok (tt, set_runtime
            ((λ r, MkRuntime (rs_boot_id r) (rs_heartbeat_acked_sequence r) (Some sequence)
                     (Some (canonical_json payload)) (Some (digest payload))
                     (rs_manifest_acked_sequence r) (rs_clean_shutdown r) (rs_started_at r)
                     (rs_stopped_at r) now) <$> runtime_state s) s)) ;;
          commit
    | None =>
        rollback ;;
        raise (StateConflictError "heartbeat already pending or runtime not started")
    end).

Definition confirm_heartbeat (now : string) (sequence : Z) : SE Store unit :=
  with_connection (
    begin_immediate ;;
    n ← exec (λ s,
          match runtime_state s with
          | Some r =>
              if bool_decide (rs_heartbeat_pending_sequence r = Some sequence) then
                Ok (1%nat, set_runtime (Some
                  (MkRuntime (rs_boot_id r) sequence None None None
                     (rs_manifest_acked_sequence r) (rs_clean_shutdown r) (rs_started_at r)
                     (rs_stopped_at r) now)) s)
              else Ok (0%nat, s)
          | None => Ok (0%nat, s)
          end);
    if negb (n =? 1)%nat then
      rollback ;; raise (StateConflictError "heartbeat confirmation conflict")
    else commit).
End StoreState.
