(* ===== verification/StoreArtifacts.v ===== *)
(** * Artifact uploads

    The methods of [class SQLiteStore] over [pending_uploads]: idempotent
    queueing, queries, the retention query of pruning with its window
    functions, quarantine renaming and deletion.  The fields of the upload
    document that a method reads ([artifact_id], [size_bytes], [sha256]) are
    arguments next to the document. *)

From S2P Require Export Store.

Section StoreArtifacts.
Context `{Sha256}.

(** The row agrees with the request in every field the method compares. *)
Definition same_upload (tid path media_type : string) (size_bytes : Z)
    (sha256 encoded : string) (u : UploadRow) : bool :=
  String.eqb (pu_task_id u) tid && String.eqb (pu_relative_path u) path
  && String.eqb (pu_media_type u) media_type && (pu_size_bytes u =? size_bytes)
  && String.eqb (pu_sha256 u) sha256 && String.eqb (pu_payload u) encoded.

Definition ensure_artifact_queued (now upload_id : string)
    (tid relative_path media_type : string)
    (artifact_id : string) (size_bytes : Z) (sha256 : string) (payload : json)
    : SE Store bool :=
  raise_if (unsafe_relative relative_path)
    (ValueError "artifact path must be a safe relative path") ;;
  let encoded := canonical_json payload in
  with_connection (
    begin_immediate ;;
    existing ← query (λ s, select_one (key_is pu_artifact_id artifact_id) (pending_uploads s));
    match existing with
    | Some u =>
        if negb (same_upload tid (as_posix relative_path) media_type size_bytes sha256 encoded u)
        then rollback ;; raise (RuntimeError "artifact idempotency conflict")
        else commit ;; mret false
    | None =>
        exec (insert_upload (MkUpload upload_id artifact_id tid (as_posix relative_path)
                media_type size_bytes sha256 encoded (digest payload) D_PENDING now None)) ;;
        commit ;;
        mret true
    end).

Definition queue_artifact (now upload_id : string) (tid relative_path media_type : string)
    (artifact_id : string) (size_bytes : Z) (sha256 : string) (payload : json)
    : SE Store unit :=
  ensure_artifact_queued now upload_id tid relative_path media_type
    artifact_id size_bytes sha256 payload ;;
  mret tt.

Definition artifact_upload (artifact_id : string) : SE Store (option UploadRow) :=
  with_connection (query (λ s,
    select_one (key_is pu_artifact_id artifact_id) (pending_uploads s))).

Definition by_upload_id (a b : UploadRow) : bool := str_leb (pu_upload_id a) (pu_upload_id b).

Definition in_states (states : list DeliveryState) (u : UploadRow) : bool :=
  existsb (delivery_eqb (pu_state u)) states.

Definition artifact_uploads (states : list DeliveryState) (n : Z) : SE Store (list UploadRow) :=
  raise_if ((n <=? 0) || (10000 <? n))
    (ValueError "artifact upload query limit must be between 1 and 10000") ;;
  raise_if (bool_decide (states = [])) (ValueError "artifact upload query states are invalid") ;;
  with_connection (query (λ s,
    limit n (order_by by_upload_id (select (in_states states) (pending_uploads s))))).

Definition artifact_upload_count (states : list DeliveryState) : SE Store Z :=
  raise_if (bool_decide (states = [])) (ValueError "artifact upload count states are invalid") ;;
  with_connection (query (λ s, Z.of_nat (rowcount (in_states states) (pending_uploads s)))).

(** ** Pruning *)

(** [COALESCE(confirmed_at, next_attempt_at)] *)
Definition confirmed_key (u : UploadRow) : string :=
  coalesce (pu_confirmed_at u) (pu_next_attempt_at u).

(** [ORDER BY COALESCE(...), upload_id], ascending. *)
Definition older (a b : UploadRow) : bool :=
  if String.eqb (confirmed_key a) (confirmed_key b) then by_upload_id a b
  else str_leb (confirmed_key a) (confirmed_key b).
Definition newer (a b : UploadRow) : bool := older b a.

Definition prunable (u : UploadRow) : bool :=
  delivery_eqb (pu_state u) D_CONFIRMED && negb (sql_quarantine_path (pu_relative_path u)).

(** A row with the window values [keep_position] and [keep_bytes]. *)
Fixpoint ranked (position bytes : Z) (rows : list UploadRow) : list (UploadRow * Z * Z) :=
  match rows with
  | [] => []
  | u :: rows' =>
      (u, position + 1, bytes + pu_size_bytes u)
        :: ranked (position + 1) (bytes + pu_size_bytes u) rows'
  end.

Definition expired (confirmed_before : option string) (retain_count retain_bytes : option Z)
    (r : UploadRow * Z * Z) : bool :=
  let '(u, keep_position, keep_bytes) := r in
  match confirmed_before with
  | Some t => str_leb (confirmed_key u) t && negb (String.eqb (confirmed_key u) t)
  | None => false
  end
  || match retain_count with Some n => n <? keep_position | None => false end
  || match retain_bytes with Some n => n <? keep_bytes | None => false end.

Definition prune_candidates (confirmed_before : option string)
    (retain_count retain_bytes : option Z) (uploads : list UploadRow) : list UploadRow :=
  order_by older (map (λ r, r.1.1)
    (List.filter (expired confirmed_before retain_count retain_bytes)
       (ranked 0 0 (order_by newer (select prunable uploads))))).

Definition negative (o : option Z) : bool :=
  match o with Some n => n <? 0 | None => false end.

Definition confirmed_artifacts_for_pruning (confirmed_before : option string)
    (retain_count retain_bytes : option Z) (n : Z) : SE Store (list UploadRow) :=
  raise_if ((n <=? 0) || (10000 <? n))
    (ValueError "artifact pruning query limit must be between 1 and 10000") ;;
  raise_if (negative retain_count) (ValueError "artifact retain count cannot be negative") ;;
  raise_if (negative retain_bytes) (ValueError "artifact retain bytes cannot be negative") ;;
  with_connection (query (λ s,
    limit n (prune_candidates confirmed_before retain_count retain_bytes (pending_uploads s)))).

Definition delete_confirmed_artifact (upload_id : string) : SE Store bool :=
  with_connection (
    begin_immediate ;;
    let p u := key_is pu_upload_id upload_id u && delivery_eqb (pu_state u) D_CONFIRMED in
    n ← exec (λ s, Ok (rowcount p (pending_uploads s),
                       set_uploads (delete_rows p (pending_uploads s)) s));
    commit ;;
    mret (n =? 1)%nat).

Definition update_confirmed_artifact_path (upload_id : string)
    (expected_relative_path quarantine_relative_path : string) : SE Store bool :=
  raise_if (unsafe_outbox expected_relative_path || unsafe_outbox quarantine_relative_path)
    (ValueError "artifact quarantine path must be a safe outbox path") ;;
  raise_if (negb (is_artifact_prune_quarantine_path quarantine_relative_path))
    (ValueError "artifact quarantine path has an invalid prefix") ;;
  with_connection (
    begin_immediate ;;
    let p u := key_is pu_upload_id upload_id u && delivery_eqb (pu_state u) D_CONFIRMED
               && String.eqb (pu_relative_path u) expected_relative_path in
    n ← exec (λ s,
          if (rowcount p (pending_uploads s) =? 0)%nat || path_check quarantine_relative_path
          then Ok (rowcount p (pending_uploads s),
                   set_uploads (update_rows p (λ u,
                     MkUpload (pu_upload_id u) (pu_artifact_id u) (pu_task_id u)
                       quarantine_relative_path (pu_media_type u) (pu_size_bytes u)
                       (pu_sha256 u) (pu_payload u) (pu_payload_hash u) (pu_state u)
                       (pu_next_attempt_at u) (pu_confirmed_at u)) (pending_uploads s)) s)
          else Err (IntegrityError "pending_uploads.relative_path"));
    commit ;;
    mret (n =? 1)%nat).
End StoreArtifacts.
