(* ===== verification/StoreWindows.v ===== *)
(** * Windows network operations

    The methods of [class SQLiteStore] over [windows_network_operations]: an
    intent is recorded once per idempotency key and moves by compare-and-set. *)

From S2P Require Export StoreData.

Section StoreWindows.
Context `{Sha256}.

Definition intent_hash (action : WinAction) (interface_guid : string)
    (target_profile : option string) : string :=
  digest (JObj [("action", JStr (action_value action));
                ("interface_guid", JStr interface_guid);
                ("target_profile", match target_profile with
                                   | Some p => JStr p | None => JNull end)]).

Definition windows_operation (key : string) : SE Store WindowsRow :=
  with_connection (
    row ← query (λ s, select_one (key_is wo_idempotency_key key)
                        (windows_network_operations s));
    match row with
    | Some w => mret w
    | None => raise (KeyError "Windows network operation is unavailable")
    end).

Definition begin_windows_operation (now operation_id key : string) (action : WinAction)
    (interface_guid : string) (target_profile previous_profile : option string)
    : SE Store WindowsRow :=
  let hash := intent_hash action interface_guid target_profile in
  found ← with_connection (
    begin_immediate ;;
    existing ← query (λ s, select_one (key_is wo_idempotency_key key)
                             (windows_network_operations s));
    match existing with
    | Some w =>
        if negb (String.eqb (wo_intent_hash w) hash) then
          rollback ;;
          raise (DuplicateConflictError
            "Windows network idempotency key was reused for another intent")
        else commit ;; mret (Some w)
    | None =>
        exec (insert_windows (MkWindows operation_id key hash action interface_guid
                target_profile previous_profile WS_INTENT_RECORDED now now None None None)) ;;
        commit ;;
        mret None
    end);
  match found with
  | Some w => mret w
  | None => windows_operation key
  end.

(** The states after which [completed_at] is set. *)
Definition win_terminal (st : WinState) : bool :=
  bool_decide (st ∈ [WS_COMPLETED; WS_FAILED; WS_CANCELLED; WS_ROLLED_BACK]).

Definition win_update (target : WinState) (now : string)
    (reconciliation_result last_error : option string) (w : WindowsRow) : WindowsRow :=
  MkWindows (wo_operation_id w) (wo_idempotency_key w) (wo_intent_hash w) (wo_action w)
    (wo_interface_guid w) (wo_target_profile w) (wo_previous_profile w) target
    (wo_started_at w) now
    (coalesce_opt (if win_terminal target then Some now else None) (wo_completed_at w))
    (coalesce_opt reconciliation_result (wo_reconciliation_result w))
    (coalesce_opt last_error (wo_last_error w)).

Definition transition_windows_operation (now key : string) (current : list WinState)
    (target : WinState) (reconciliation_result last_error : option string)
    : SE Store WindowsRow :=
  raise_if (bool_decide (current = []))
    (ValueError "invalid Windows network current state set") ;;
  with_connection (
    begin_immediate ;;
    let p w := key_is wo_idempotency_key key w && bool_decide (wo_state w ∈ current) in
    n ← exec (λ s, Ok (rowcount p (windows_network_operations s),
          set_windows (update_rows p (win_update target now reconciliation_result last_error)
                         (windows_network_operations s)) s));
    if negb (n =? 1)%nat then
      rollback ;;
      raise (StateConflictError "Windows network operation transition conflict")
    else commit) ;;
  windows_operation key.

Definition incomplete_windows_operations : SE Store (list WindowsRow) :=
  with_connection (query (λ s,
    order_by (λ a b, str_leb (wo_started_at a) (wo_started_at b))
      (select (λ w, bool_decide (wo_state w ∈ [WS_INTENT_RECORDED; WS_RUNNING; WS_RECONCILING]))
         (windows_network_operations s)))).
End StoreWindows.
