(* ===== verification/StoreInvariant.v ===== *)
(** * The invariant of the task tables

    What holds of the tables between two operations of the store, how single
    statements keep it, and how rows may evolve: a task row keeps its identity
    and content and only moves along the lifecycle, an effect keeps its
    canonical task and never loses its claim, an attempt keeps the moment of its
    first invocation, a result keeps its document. *)

From S2P Require Export Store StoreState StoreArtifacts StoreWindows.

(** Run a transaction: unfold the connection monad and keep the case analysis
    on the guards. *)
Ltac run_tx :=
  cbv [with_connection begin_immediate commit rollback query exec raise raise_if mbind
       SE_bind mret SE_ret lift get] in *;
  cbn [committed working in_tx] in *.

(** Decide the guards of a transaction one after the other, innermost first. *)
Ltac inner_case x :=
  lazymatch x with
  | context [match ?y with _ => _ end] => inner_case y
  | _ => destruct x eqn:?
  end.
Ltac tx_case :=
  match goal with
  | |- context [match ?x with _ => _ end] => inner_case x
  end; cbn [committed working in_tx fst snd] in *;
  repeat match goal with u : unit |- _ => destruct u end.

(** ** The invariant *)

Record Inv (s : Store) : Prop := MkInv {
  inv_tasks : unique_key it_task_id (inbox_tasks s);
  inv_effects : unique_key ie_idempotency_key (idempotency_effects s);
  inv_attempts : unique_key ta_task_id (task_attempts s);
  inv_results : unique_key or_task_id (outbox_results s);
  (** No row rests in [received]. *)
  inv_settled : ∀ r, r ∈ inbox_tasks s → it_state r ≠ RECEIVED;
  (** A queued task owns the effect of its key, which nobody has claimed. *)
  inv_queued : ∀ r, r ∈ inbox_tasks s → it_state r = QUEUED →
    ∃ e, e ∈ idempotency_effects s ∧ ie_idempotency_key e = it_idempotency_key r
         ∧ ie_canonical_task_id e = it_task_id r ∧ ie_claimed_at e = None;
  (** An attempt belongs to a task that left the queue by claiming its effect. *)
  inv_claimed : ∀ a, a ∈ task_attempts s →
    ∃ r e, r ∈ inbox_tasks s ∧ it_task_id r = ta_task_id a ∧ it_state r ≠ QUEUED
           ∧ e ∈ idempotency_effects s ∧ ie_idempotency_key e = it_idempotency_key r
           ∧ ie_canonical_task_id e = it_task_id r ∧ ie_claimed_at e ≠ None;
  (** The canonical task of an effect exists and carries its key. *)
  inv_canonical : ∀ e, e ∈ idempotency_effects s →
    ∃ r, r ∈ inbox_tasks s ∧ it_task_id r = ie_canonical_task_id e
         ∧ it_idempotency_key r = ie_idempotency_key e;
  (** A result belongs to a task. *)
  inv_result_task : ∀ o, o ∈ outbox_results s →
    ∃ r, r ∈ inbox_tasks s ∧ it_task_id r = or_task_id o;
}.

Lemma Inv_empty : Inv empty_store.
Proof.
  constructor; simpl; try (by apply unique_key_nil);
    intros ? H; by apply elem_of_nil in H.
Qed.

(** The tables the invariant reads. *)
Definition same_tasks (s s' : Store) : Prop :=
  inbox_tasks s' = inbox_tasks s ∧ idempotency_effects s' = idempotency_effects s
  ∧ task_attempts s' = task_attempts s ∧ outbox_results s' = outbox_results s.

Lemma Inv_same s s' : same_tasks s s' → Inv s → Inv s'.
Proof. intros (E1 & E2 & E3 & E4) [????????]. constructor; rewrite ?E1, ?E2, ?E3, ?E4; done. Qed.

(** What an update of a task row may change. *)
Definition task_kept (f : TaskRow → TaskRow) : Prop :=
  ∀ r, it_task_id (f r) = it_task_id r ∧ it_idempotency_key (f r) = it_idempotency_key r.

Lemma elem_of_update_fwd {R} (p : R → bool) (f : R → R) (t : list R) (r : R) :
  r ∈ t → (if p r then f r else r) ∈ update_rows p f t.
Proof. intros Hr. apply elem_of_update_rows. eauto. Qed.

Lemma Inv_update_inbox s p f :
  task_kept f →
  (∀ r, r ∈ inbox_tasks s → p r = true → it_state (f r) ∉ [RECEIVED; QUEUED]) →
  Inv s → Inv (set_inbox (update_rows p f (inbox_tasks s)) s).
Proof.
  intros Hk Hs [U1 U2 U3 U4 Hset Hq Hc Hcan Hres].
  assert (∀ r, it_task_id (if p r then f r else r) = it_task_id r
               ∧ it_idempotency_key (if p r then f r else r) = it_idempotency_key r) as Hk'.
  { intros r. destruct (p r); [apply Hk | done]. }
  assert (∀ r, r ∈ inbox_tasks s → it_state r ≠ QUEUED →
               it_state (if p r then f r else r) ≠ QUEUED) as Hnq.
  { intros r Hr Hne. destruct (p r) eqn:E; [|done]. specialize (Hs r Hr E). set_solver. }
  constructor; simpl; try done.
  - apply unique_key_update; [|done]. intros r. apply Hk.
  - intros r' (r & Hr & ->)%elem_of_update_rows. destruct (p r) eqn:E; [|by apply Hset].
    specialize (Hs r Hr E). set_solver.
  - intros r' (r & Hr & ->)%elem_of_update_rows. destruct (p r) eqn:E; [|by apply Hq].
    specialize (Hs r Hr E). intros HQ. rewrite HQ in Hs. set_solver.
  - intros a Ha. destruct (Hc a Ha) as (r & e & Hr & E1 & E2 & He & E3 & E4 & E5).
    exists (if p r then f r else r), e. destruct (Hk' r) as [-> ->].
    split_and!; [by apply elem_of_update_fwd | done | by apply Hnq | done ..].
  - intros e He. destruct (Hcan e He) as (r & Hr & E1 & E2).
    exists (if p r then f r else r). destruct (Hk' r) as [-> ->].
    split_and!; [by apply elem_of_update_fwd | done ..].
  - intros o Ho. destruct (Hres o Ho) as (r & Hr & E1).
    exists (if p r then f r else r). destruct (Hk' r) as [-> _].
    split; [by apply elem_of_update_fwd | done].
Qed.

Lemma Inv_update_attempts s p f :
  (∀ a, ta_task_id (f a) = ta_task_id a) →
  Inv s → Inv (set_attempts (update_rows p f (task_attempts s)) s).
Proof.
  intros Hk [U1 U2 U3 U4 Hset Hq Hc Hcan Hres]. constructor; simpl; try done.
  - by apply unique_key_update.
  - intros a' (a & Ha & ->)%elem_of_update_rows.
    assert (ta_task_id (if p a then f a else a) = ta_task_id a) as ->
      by (destruct (p a); [apply Hk | done]).
    by apply Hc.
Qed.

(** An update of effects that keeps their keys and their claims, and that claims
    no effect of a queued task. *)
Definition effect_kept (s : Store) (p : EffectRow → bool) (f : EffectRow → EffectRow) : Prop :=
  ∀ e, e ∈ idempotency_effects s → p e = true →
    ie_idempotency_key (f e) = ie_idempotency_key e
    ∧ ie_canonical_task_id (f e) = ie_canonical_task_id e
    ∧ (ie_claimed_at e ≠ None → ie_claimed_at (f e) ≠ None)
    ∧ (∀ r, r ∈ inbox_tasks s → it_state r = QUEUED →
         it_idempotency_key r = ie_idempotency_key e →
         ie_claimed_at e = None → ie_claimed_at (f e) = None).

Lemma unique_key_update_in {R} (key : R → string) (t : list R) p f :
  (∀ r, r ∈ t → p r = true → key (f r) = key r) → unique_key key t →
  unique_key key (update_rows p f t).
Proof.
  intros Hf. unfold unique_key, update_rows. rewrite map_map.
  assert (map (λ r, key (if p r then f r else r)) t = map key t) as ->; [|done].
  apply map_ext_in. intros r Hr%list_elem_of_In. destruct (p r) eqn:E; [by apply Hf | done].
Qed.

Lemma Inv_update_effects s p f :
  effect_kept s p f → Inv s → Inv (set_effects (update_rows p f (idempotency_effects s)) s).
Proof.
  intros Hk [U1 U2 U3 U4 Hset Hq Hc Hcan Hres].
  assert (effect_kept s (λ _, true) (λ e, if p e then f e else e)) as Hk'.
  { intros e He _. destruct (p e) eqn:E; [by apply Hk | done]. }
  constructor; simpl; try done.
  - apply unique_key_update_in; [|done]. intros e He E. by apply Hk.
  - intros r Hr HQ. destruct (Hq r Hr HQ) as (e & He & E1 & E2 & E3).
    exists (if p e then f e else e). destruct (Hk' e He) as (-> & -> & _ & Hn); [done|].
    split_and!; [by apply elem_of_update_fwd | done | done |]. by apply (Hn r).
  - intros a Ha. destruct (Hc a Ha) as (r & e & Hr & E1 & E2 & He & E3 & E4 & E5).
    exists r, (if p e then f e else e). destruct (Hk' e He) as (-> & -> & Hcl & _); [done|].
    split_and!; [done | done | done | by apply elem_of_update_fwd | done | done | by apply Hcl].
  - intros e' (e & He & ->)%elem_of_update_rows.
    destruct (Hk' e He) as (-> & -> & _); [done|]. by apply Hcan.
Qed.

Lemma check_Ok b c u : check b c = Ok u → b = true.
Proof. unfold check. by destruct b. Qed.

(** Peel the constraint checks off a successful insertion. *)
Ltac inserted H :=
  repeat (let u := fresh "u" in let C := fresh "C" in
          apply result_bind_Ok in H as (u & C & H); apply check_Ok in C; destruct u);
  injection H as <-.

Lemma Inv_insert_task r s s' :
  insert_task r s = Ok (tt, s') → it_state r ∉ [RECEIVED; QUEUED] → Inv s → Inv s'.
Proof.
  unfold insert_task. intros H Hst [U1 U2 U3 U4 Hset Hq Hc Hcan Hres]. inserted H.
  bool_simp. constructor; simpl; try done.
  - by apply unique_key_snoc.
  - intros r' [Hr| ->%list_elem_of_singleton]%elem_of_app; [by apply Hset | set_solver].
  - intros r' [Hr| ->%list_elem_of_singleton]%elem_of_app HQ; [by apply Hq | set_solver].
  - intros a Ha. destruct (Hc a Ha) as (r' & e & Hr & ?). exists r', e. set_solver.
  - intros e He. destruct (Hcan e He) as (r' & Hr & ?). exists r'. set_solver.
  - intros o Ho. destruct (Hres o Ho) as (r' & Hr & ?). exists r'. set_solver.
Qed.

Lemma Inv_insert_result o s s' :
  insert_result o s = Ok (tt, s') → Inv s → Inv s'.
Proof.
  unfold insert_result. intros H [U1 U2 U3 U4 Hset Hq Hc Hcan Hres]. inserted H.
  bool_simp. constructor; simpl; try done.
  - by apply unique_key_snoc.
  - intros o' [Ho| ->%list_elem_of_singleton]%elem_of_app; [by apply Hres|].
    by apply has_key_true.
Qed.

Lemma Inv_insert_attempt a s s' r e :
  insert_attempt a s = Ok (tt, s') →
  r ∈ inbox_tasks s → it_task_id r = ta_task_id a → it_state r ≠ QUEUED →
  e ∈ idempotency_effects s → ie_idempotency_key e = it_idempotency_key r →
  ie_canonical_task_id e = it_task_id r → ie_claimed_at e ≠ None →
  Inv s → Inv s'.
Proof.
  unfold insert_attempt. intros H Hr E1 E2 He E3 E4 E5 [U1 U2 U3 U4 Hset Hq Hc Hcan Hres].
  inserted H. bool_simp. constructor; simpl; try done.
  - by apply unique_key_snoc.
  - intros a' [Ha| ->%list_elem_of_singleton]%elem_of_app; [by apply Hc|]. by exists r, e.
Qed.

(** ** How rows evolve *)

(** One step of the life of a task in the store: a transition of the table, or
    the interruption of an unfinished task by recovery. *)
Definition life_step (a b : TaskState) : Prop :=
  transition a b ∨ (interruptible a = true ∧ b = INTERRUPTED).

Record task_evolves (r r' : TaskRow) : Prop := {
  te_id : it_task_id r' = it_task_id r;
  te_key : it_idempotency_key r' = it_idempotency_key r;
  te_payload : it_payload r' = it_payload r;
  te_payload_hash : it_payload_hash r' = it_payload_hash r;
  te_effect_hash : it_effect_hash r' = it_effect_hash r;
  te_received : it_received_at r' = it_received_at r;
  te_state : rtc life_step (it_state r) (it_state r');
}.

Record effect_evolves (e e' : EffectRow) : Prop := {
  ee_key : ie_idempotency_key e' = ie_idempotency_key e;
  ee_hash : ie_effect_hash e' = ie_effect_hash e;
  ee_canonical : ie_canonical_task_id e' = ie_canonical_task_id e;
  ee_claimed : ∀ t, ie_claimed_at e = Some t → ie_claimed_at e' = Some t;
}.

Record attempt_evolves (a a' : AttemptRow) : Prop := {
  ae_id : ta_attempt_id a' = ta_attempt_id a;
  ae_task : ta_task_id a' = ta_task_id a;
  ae_claimed : ta_claimed_at a' = ta_claimed_at a;
  ae_invoked : ∀ t, ta_invoked_at a = Some t → ta_invoked_at a' = Some t;
}.

Record result_evolves (o o' : ResultRow) : Prop := {
  re_id : or_result_id o' = or_result_id o;
  re_task : or_task_id o' = or_task_id o;
  re_payload : or_payload o' = or_payload o;
}.

#[global] Instance task_evolves_preorder : PreOrder task_evolves.
Proof.
  split; [by constructor|]. intros x y z [] []. constructor; try congruence. by etrans.
Qed.
#[global] Instance effect_evolves_preorder : PreOrder effect_evolves.
Proof. split; [by constructor|]. intros x y z [] []. constructor; try congruence. auto. Qed.
#[global] Instance attempt_evolves_preorder : PreOrder attempt_evolves.
Proof. split; [by constructor|]. intros x y z [] []. constructor; try congruence. auto. Qed.
#[global] Instance result_evolves_preorder : PreOrder result_evolves.
Proof. split; [by constructor|]. intros x y z [] []. constructor; congruence. Qed.

(** Every row of [t] is still in [t'], evolved. *)
Definition persists {R} (rel : R → R → Prop) (t t' : list R) : Prop :=
  ∀ r, r ∈ t → ∃ r', r' ∈ t' ∧ rel r r'.

Section Persists.
Context {R : Type} (rel : R → R → Prop) `{!PreOrder rel}.

Lemma persists_refl t : persists rel t t.
Proof. intros r Hr. by exists r. Qed.
Lemma persists_trans t1 t2 t3 : persists rel t1 t2 → persists rel t2 t3 → persists rel t1 t3.
Proof.
  intros H1 H2 r Hr. destruct (H1 r Hr) as (r' & Hr' & E').
  destruct (H2 r' Hr') as (r'' & Hr'' & E''). exists r''. split; [done | by etrans].
Qed.
Lemma persists_app t new : persists rel t (t ++ new).
Proof. intros r Hr. exists r. split; [set_solver | done]. Qed.
Lemma persists_update t p f :
  (∀ r, r ∈ t → p r = true → rel r (f r)) → persists rel t (update_rows p f t).
Proof.
  intros Hf r Hr. exists (if p r then f r else r). split.
  - apply elem_of_update_rows. eauto.
  - destruct (p r) eqn:E; [by apply Hf | done].
Qed.
End Persists.

Record evolves (s s' : Store) : Prop := MkEvolves {
  ev_tasks : persists task_evolves (inbox_tasks s) (inbox_tasks s');
  ev_effects : persists effect_evolves (idempotency_effects s) (idempotency_effects s');
  ev_attempts : persists attempt_evolves (task_attempts s) (task_attempts s');
  ev_results : persists result_evolves (outbox_results s) (outbox_results s');
}.

#[global] Instance evolves_preorder : PreOrder evolves.
Proof.
  split.
  - intros s. constructor; apply persists_refl; apply _.
  - intros s1 s2 s3 [] []. constructor; eapply persists_trans; (apply _ || done).
Qed.

Lemma evolves_same s s' : same_tasks s s' → evolves s s'.
Proof.
  intros (E1 & E2 & E3 & E4). constructor; rewrite ?E1, ?E2, ?E3, ?E4;
    apply persists_refl; apply _.
Qed.

(** What an operation started in [s0] keeps at every statement. *)
Definition Keep (s0 s : Store) : Prop := Inv s ∧ evolves s0 s.

Lemma Keep_step s0 s s' : Keep s0 s → Inv s' → evolves s s' → Keep s0 s'.
Proof. intros [_ H1] H2 H3. split; [done | by etrans]. Qed.

Lemma Keep_same s0 s s' : same_tasks s s' → Keep s0 s → Keep s0 s'.
Proof.
  intros E HK. eapply Keep_step; [done | | by apply evolves_same].
  by eapply Inv_same, HK.
Qed.

Lemma Keep_update_inbox s0 s p f :
  (∀ r, r ∈ inbox_tasks s → p r = true →
        task_evolves r (f r) ∧ it_state (f r) ∉ [RECEIVED; QUEUED]) →
  task_kept f → Keep s0 s → Keep s0 (set_inbox (update_rows p f (inbox_tasks s)) s).
Proof.
  intros Hf Hk HK. eapply Keep_step; [done | |].
  - apply Inv_update_inbox; [done | | apply HK]. intros r Hr E. by apply Hf.
  - constructor; simpl; try (apply persists_refl; apply _).
    apply persists_update; [apply _|]. intros r Hr E. by apply Hf.
Qed.

Lemma Keep_update_attempts s0 s p f :
  (∀ a, p a = true → attempt_evolves a (f a)) → (∀ a, ta_task_id (f a) = ta_task_id a) →
  Keep s0 s → Keep s0 (set_attempts (update_rows p f (task_attempts s)) s).
Proof.
  intros Hf Hk HK. eapply Keep_step; [done | |].
  - apply Inv_update_attempts; [done | apply HK].
  - constructor; simpl; try (apply persists_refl; apply _).
    apply persists_update; [apply _ | auto].
Qed.

Lemma Keep_update_effects s0 s p f :
  (∀ e, p e = true → effect_evolves e (f e)) → effect_kept s p f →
  Keep s0 s → Keep s0 (set_effects (update_rows p f (idempotency_effects s)) s).
Proof.
  intros Hf Hk HK. eapply Keep_step; [done | |].
  - apply Inv_update_effects; [done | apply HK].
  - constructor; simpl; try (apply persists_refl; apply _).
    apply persists_update; [apply _ | auto].
Qed.

Lemma Keep_update_results s0 s p f :
  (∀ o, result_evolves o (f o)) →
  Keep s0 s → Keep s0 (set_results (update_rows p f (outbox_results s)) s).
Proof.
  intros Hf HK. eapply Keep_step; [done | |].
  - destruct HK as [[U1 U2 U3 U4 Hset Hq Hc Hcan Hres] _]. constructor; simpl; try done.
    + apply unique_key_update; [|done]. intros o. apply Hf.
    + intros o' (o & Ho & ->)%elem_of_update_rows. destruct (Hres o Ho) as (r & Hr & Er).
      exists r. destruct (p o); [|done]. by rewrite (re_task _ _ (Hf o)).
  - constructor; simpl; try (apply persists_refl; apply _).
    apply persists_update; [apply _ | auto].
Qed.

Lemma Keep_insert_task s0 r s s' :
  insert_task r s = Ok (tt, s') → it_state r ∉ [RECEIVED; QUEUED] → Keep s0 s → Keep s0 s'.
Proof.
  intros E Hst HK. eapply Keep_step; [done | eapply Inv_insert_task; [done..|apply HK] |].
  unfold insert_task in E. inserted E.
  constructor; simpl; try (apply persists_refl; apply _). apply persists_app, _.
Qed.

Lemma Keep_insert_result s0 o s s' :
  insert_result o s = Ok (tt, s') → Keep s0 s → Keep s0 s'.
Proof.
  intros E HK. eapply Keep_step; [done | eapply Inv_insert_result; [done|apply HK] |].
  unfold insert_result in E. inserted E.
  constructor; simpl; try (apply persists_refl; apply _). apply persists_app, _.
Qed.

(** ** Transactions *)

Section ConnKeep.
Context {P : Store → Prop}.

(** [P] holds of the committed and of the working view. *)
Definition ConnP (c : conn Store) : Prop := P (committed c) ∧ P (working c).

Lemma preserves_with_connection {A} (m : SE (conn Store) A) :
  preserves ConnP m → preserves P (with_connection m).
Proof.
  intros Hm s Hs. unfold with_connection. specialize (Hm (Conn s s false) (conj Hs Hs)).
  destruct (m _) as [r c]. apply Hm.
Qed.
Lemma preserves_begin : preserves ConnP begin_immediate.
Proof. intros c [H1 H2]. by split. Qed.
Lemma preserves_commit : preserves ConnP commit.
Proof. intros c [H1 H2]. by split. Qed.
Lemma preserves_rollback : preserves ConnP rollback.
Proof. intros c [H1 H2]. by split. Qed.
Lemma preserves_query {A} (f : Store → A) : preserves ConnP (query f).
Proof. intros c Hc. exact Hc. Qed.
Lemma preserves_exec {A} (f : Store → result (A * Store)) :
  (∀ s a s', f s = Ok (a, s') → P s → P s') → preserves ConnP (exec f).
Proof.
  intros Hf c [H1 H2]. unfold exec. destruct (f (working c)) as [[a s']|e] eqn:E; [|done].
  specialize (Hf _ _ _ E H2). split; [by destruct (in_tx c) | done].
Qed.
Lemma preserves_exec_total {A} (a : Store → A) (g : Store → Store) :
  (∀ s, P s → P (g s)) → preserves ConnP (exec (λ s, Ok (a s, g s))).
Proof. intros Hg. apply preserves_exec. intros s b s' [= <- <-]. apply Hg. Qed.
End ConnKeep.
Arguments ConnP P : clear implicits.

(** Walk through the statements of a transaction; what is left is what each
    statement must keep. *)
Ltac preserve_tx :=
  repeat first
    [ apply preserves_with_connection | apply preserves_begin | apply preserves_commit
    | apply preserves_rollback | apply preserves_query | apply preserves_ret
    | apply preserves_raise | apply preserves_raise_if | apply preserves_lift
    | apply preserves_exec_total; intros ? ?
    | apply preserves_for_each; intros ?
    | apply preserves_bind; [|intros ?]
    | lazymatch goal with
      | |- preserves _ (match ?x with _ => _ end) => destruct x eqn:?
      | |- preserves _ (let x := _ in _) => intros ?
      end ].
