(* ===== verification/StoreOps.v ===== *)
(** * Every operation of the store keeps the tables

    For each method: started in a state that satisfies the invariant, it ends
    in one that does and in which every row has only evolved ([Keep]).  The
    recovery loop is first brought to closed form. *)

From S2P Require Export StoreInvariant Store StoreState StoreArtifacts StoreWindows.

Section TaskOps.
Context `{Sha256} `{EnvelopeCodec} (s0 : Store).

Lemma Keep_exec_quarantine q : preserves (ConnP (Keep s0)) (exec (insert_quarantine q)).
Proof.
  apply preserves_exec. intros s [] s' E. apply Keep_same.
  unfold insert_quarantine in E. by inserted E.
Qed.

Lemma update_settled r f t :
  it_state r = RECEIVED →
  (∀ r', r' ∈ t → it_state r' ≠ RECEIVED) →
  update_rows (λ r', key_is it_task_id (it_task_id r) r' && state_eqb (it_state r') RECEIVED)
    f (t ++ [r]) = t ++ [f r].
Proof.
  intros Hst Hset. unfold update_rows. rewrite map_app. simpl.
  unfold key_is at 2. rewrite String.eqb_refl, Hst. f_equal.
  transitivity (map id t); [|by rewrite map_id].
  apply map_ext_in. intros r' Hr'%list_elem_of_In.
  destruct (state_eqb (it_state r') RECEIVED) eqn:E; [|by rewrite andb_false_r].
  apply state_eqb_true in E. by apply Hset in Hr'.
Qed.

(** The canonical insertion: task row, effect row, and the move to the queue. *)
Lemma Keep_insert_canonical r e s s1 s2 f :
  insert_task r s = Ok (tt, s1) → insert_effect e s1 = Ok (tt, s2) →
  it_state r = RECEIVED → ie_idempotency_key e = it_idempotency_key r →
  ie_canonical_task_id e = it_task_id r → ie_claimed_at e = None → task_kept f →
  (∀ r', it_state (f r') = QUEUED) → Keep s0 s →
  Keep s0 (set_inbox (update_rows
         (λ r', key_is it_task_id (it_task_id r) r' && state_eqb (it_state r') RECEIVED)
         f (inbox_tasks s2)) s2).
Proof.
  unfold insert_task, insert_effect. intros E1 E2 Hst Ek Ec En Hf HfQ HK.
  pose proof (proj1 HK) as [U1 U2 U3 U4 Hset Hq Hc Hcan Hres].
  inserted E1. inserted E2. simpl in *. bool_simp. rewrite update_settled by done.
  destruct (Hf r) as [Hfid Hfk]. eapply Keep_step; [done | |].
  - constructor; simpl; try done.
    + apply unique_key_snoc; [done|]. by rewrite Hfid.
    + by apply unique_key_snoc.
    + intros r' [Hr| ->%list_elem_of_singleton]%elem_of_app; [by apply Hset | by rewrite HfQ].
    + intros r' [Hr| ->%list_elem_of_singleton]%elem_of_app HQ.
      * destruct (Hq r' Hr HQ) as (e' & ? & ?). exists e'. set_solver.
      * exists e. rewrite Hfid, Hfk. set_solver.
    + intros a Ha. destruct (Hc a Ha) as (r' & e' & Hr & ? & ? & He & ?).
      exists r', e'. set_solver.
    + intros e' [He| ->%list_elem_of_singleton]%elem_of_app.
      * destruct (Hcan e' He) as (r' & Hr & ?). exists r'. set_solver.
      * exists (f r). rewrite Hfid, Hfk. set_solver.
    + intros o Ho. destruct (Hres o Ho) as (r' & Hr & ?). exists r'. set_solver.
  - constructor; simpl; try (apply persists_refl; apply _); apply persists_app, _.
Qed.

Lemma ingest_task_Keep now qid qnow t : preserves (Keep s0) (ingest_task now qid qnow t).
Proof.
  intros s HK. unfold ingest_task, quarantine_in_transaction. run_tx.
  repeat (tx_case; try done).
  - eapply Keep_same; [|done]. unfold insert_quarantine in *. by inserted Heqr.
  - eapply Keep_insert_task; [done | simpl; set_solver | done].
  - eapply Keep_insert_task; [done | simpl; set_solver | done].
  - eapply (Keep_insert_canonical _ _ _ _ _ (task_set_state QUEUED now) Heqr Heqr0); done.
Qed.

Lemma life_transition a b : allowed a b = true → rtc life_step a b.
Proof. intros E. apply rtc_once. by left. Qed.

Lemma queued_row_Keep qid qnow now row :
  preserves (ConnP (Keep s0)) (queued_row qid qnow now row).
Proof.
  unfold queued_row, quarantine_in_transaction. cbv zeta.
  destruct (decode_row row); preserve_tx.
  - apply Keep_exec_quarantine.
  - apply Keep_update_inbox; [|by intros r|done].
    intros r _ [_ E%state_eqb_true]%andb_true_iff. split; [|simpl; set_solver].
    constructor; simpl; try done. rewrite E. by apply life_transition.
Qed.

Lemma queued_tasks_Keep ids clock n : preserves (Keep s0) (queued_tasks ids clock n).
Proof.
  unfold queued_tasks. preserve_tx. generalize 0%nat.
  induction a as [|row rows IH]; intros k; simpl; preserve_tx; [apply queued_row_Keep | apply IH].
Qed.

Lemma allowed_not_queued a b :
  allowed a b = true → a ≠ RECEIVED → b ∉ [RECEIVED; QUEUED].
Proof. destruct a, b; vm_compute; try discriminate; set_solver. Qed.

Lemma Keep_move_task now tid current target s :
  allowed current target = true → Keep s0 s →
  Keep s0 (set_inbox (update_rows
         (λ r, key_is it_task_id tid r && state_eqb (it_state r) current)
         (task_set_state target now) (inbox_tasks s)) s).
Proof.
  intros Ha HK. apply Keep_update_inbox; [|by intros r|done].
  intros r Hr [_ E%state_eqb_true]%andb_true_iff. split.
  - constructor; simpl; try done. rewrite E. by apply life_transition.
  - simpl. eapply allowed_not_queued; [done|]. rewrite <-E. by eapply inv_settled, Hr; apply HK.
Qed.

Lemma transition_task_Keep now tid current target :
  preserves (Keep s0) (transition_task now tid current target).
Proof.
  unfold transition_task, ensure_transition. destruct (allowed current target) eqn:E.
  - preserve_tx. by apply Keep_move_task.
  - intros s Hs. exact Hs.
Qed.

Lemma mark_invoked_Keep now tid : preserves (Keep s0) (mark_invoked now tid).
Proof.
  unfold mark_invoked. cbv zeta. preserve_tx. apply Keep_update_attempts; [|done..].
  intros a1 [_ Hn]%andb_true_iff. constructor; simpl; try done. intros t Ht. by rewrite Ht in Hn.
Qed.
Lemma request_cleanup_Keep now tid : preserves (Keep s0) (request_cleanup now tid).
Proof. unfold request_cleanup. preserve_tx. by apply Keep_update_attempts. Qed.
Lemma complete_cleanup_Keep now tid error : preserves (Keep s0) (complete_cleanup now tid error).
Proof. unfold complete_cleanup. preserve_tx. by apply Keep_update_attempts. Qed.

Lemma finish_with_result_Keep now key tid current target result_id payload :
  preserves (Keep s0) (finish_with_result now key tid current target result_id payload).
Proof.
  unfold finish_with_result, ensure_transition. cbv zeta.
  destruct (allowed current target) eqn:E.
  - preserve_tx.
    + by apply Keep_move_task.
    + apply preserves_exec. intros s [] s'. apply Keep_insert_result.
    + by apply Keep_update_effects.
    + by apply Keep_update_attempts.
  - intros s Hs. exact Hs.
Qed.

Lemma queue_progress_Keep now tid event_id sequence payload :
  preserves (Keep s0) (queue_progress now tid event_id sequence payload).
Proof.
  unfold queue_progress. preserve_tx. apply preserves_exec. intros s [] s' E.
  apply Keep_same. unfold insert_progress in E. by inserted E.
Qed.

(** Once the row of a queued task has moved, no queued task has its key. *)
Lemma moved_not_queued now tid s t r :
  Inv s → t ∈ inbox_tasks s → it_task_id t = tid → it_state t = QUEUED →
  r ∈ update_rows (λ r, key_is it_task_id tid r && state_eqb (it_state r) QUEUED)
        (task_set_state PREPARING now) (inbox_tasks s) →
  it_state r = QUEUED → it_idempotency_key r ≠ it_idempotency_key t.
Proof.
  intros HI Ht Hid Hst (r0 & Hr0 & ->)%elem_of_update_rows.
  destruct (key_is it_task_id tid r0 && state_eqb (it_state r0) QUEUED) eqn:E; [done|].
  intros HQ Ek. destruct (inv_queued s HI t Ht Hst) as (e & He & E1 & E2 & _).
  destruct (inv_queued s HI r0 Hr0 HQ) as (e0 & He0 & E3 & E4 & _).
  assert (e0 = e) as ->.
  { apply (unique_key_inj ie_idempotency_key (idempotency_effects s)); [apply HI|done..|congruence]. }
  apply andb_false_iff in E as [E|E].
  - apply String.eqb_neq in E. congruence.
  - by rewrite HQ, state_eqb_refl in E.
Qed.

(** The claim: one unclaimed effect of the row's key, the row leaves the
    queue, and an attempt is recorded. *)
Lemma claim_task_Keep now attempt_id tid : preserves (Keep s0) (claim_task now attempt_id tid).
Proof.
  intros s HK. unfold claim_task. run_tx. repeat (tx_case; try done).
  pose proof (proj1 HK) as HI.
  apply select_one_Some in Heqo as [Hr Hid%key_is_true].
  apply negb_false_iff, state_eqb_true in Heqb.
  destruct (inv_queued s HI t Hr Heqb) as (e & He & Ek & Ec & En).
  set (p := λ e, key_is ie_idempotency_key (it_idempotency_key t) e
                 && opt_is_none (ie_claimed_at e)) in *.
  apply negb_false_iff, Nat.eqb_eq in Heqb0.
  assert (p e = true) as Hp.
  { destruct (rowcount_pos p (idempotency_effects s)) as (e' & He' & Hp'); [lia|].
    assert (e' = e) as <-; [|done].
    apply (unique_key_inj ie_idempotency_key (idempotency_effects s));
      [apply HI | done | done|]. apply andb_true_iff in Hp' as [Hp' _].
    apply key_is_true in Hp'. congruence. }
  set (q := λ r, key_is it_task_id tid r && state_eqb (it_state r) QUEUED) in *.
  set (sm := set_inbox (update_rows q (task_set_state PREPARING now) (inbox_tasks s)) s).
  pose proof (Keep_move_task now tid QUEUED PREPARING s eq_refl HK) as HKm.
  fold q in HKm. fold sm in HKm.
  assert (Keep s0 (set_effects (update_rows p (effect_claim now) (idempotency_effects s)) sm))
    as HK2.
  { apply (Keep_update_effects s0 sm); [| |done].
    - intros e' [_ Hn]%andb_true_iff. constructor; simpl; try done. intros x Hx. by rewrite Hx in Hn.
    - intros e' _ [Hk _]%andb_true_iff. apply key_is_true in Hk. split_and!; [done..|].
      intros r Hrm HQ Ekr. exfalso. eapply (moved_not_queued now tid s t r); [done..|congruence]. }
  eapply Keep_step; [exact HK2 | |].
  - eapply (Inv_insert_attempt _ _ _ (task_set_state PREPARING now t) (effect_claim now e) Heqr);
      simpl; try done; [| |apply HK2].
    + apply elem_of_update_rows. exists t. split; [done|]. unfold q, key_is.
      by rewrite Hid, String.eqb_refl, Heqb.
    + apply elem_of_update_rows. exists e. by rewrite Hp.
  - unfold insert_attempt in Heqr. inserted Heqr.
    constructor; simpl; try (apply persists_refl; apply _). apply persists_app, _.
Qed.

Lemma confirm_outbox_Keep now table key_name key :
  preserves (Keep s0) (confirm_outbox now table key_name key).
Proof.
  unfold confirm_outbox. preserve_tx. rename select Store into s. rename select (Keep _ _) into HK.
  destruct (String.eqb table "outbox_progress"); [by apply (Keep_same s0 s)|].
  destruct (String.eqb table "outbox_results"); [|by apply (Keep_same s0 s)].
  by apply Keep_update_results.
Qed.
End TaskOps.

(** ** Recovery *)

Section Recovery.
Context `{Sha256} `{EnvelopeCodec}.

Definition among {R} (key : R → string) (ids : list string) (r : R) : bool :=
  existsb (λ i, key_is key i r) ids.

Lemma update_rows_twice {R} (p q : R → bool) (f : R → R) (t : list R) :
  (∀ r, q (f r) = q r) → (∀ r, f (f r) = f r) →
  update_rows q f (update_rows p f t) = update_rows (λ r, p r || q r) f t.
Proof.
  intros Hq Hf. unfold update_rows. rewrite map_map. apply map_ext. intros r.
  destruct (p r) eqn:Ep; simpl; [|done]. rewrite Hq, Hf. by destruct (q r).
Qed.

Lemma update_rows_none {R} (f : R → R) (t : list R) : update_rows (λ _, false) f t = t.
Proof. unfold update_rows. apply map_id. Qed.

Definition interrupt (now : string) : TaskRow → TaskRow :=
  task_set_state_reason INTERRUPTED (reason_json "process_restart") now.
Definition close_attempt (now : string) (a : AttemptRow) : AttemptRow :=
  MkAttempt (ta_attempt_id a) (ta_task_id a) (ta_claimed_at a) (ta_invoked_at a)
    (Some (coalesce (ta_finished_at a) now)) (Some (coalesce (ta_cleanup_requested_at a) now))
    (ta_cleanup_completed_at a) (ta_cleanup_attempts a) (ta_last_cleanup_error a).

(** The state after the loop has visited the tasks [ids]. *)
Definition interrupted_store (now : string) (ids : list string) (s : Store) : Store :=
  set_attempts (update_rows (among ta_task_id ids) (close_attempt now) (task_attempts s))
    (set_inbox (update_rows (among it_task_id ids) (interrupt now) (inbox_tasks s)) s).

Lemma interrupted_store_nil now s : interrupted_store now [] s = s.
Proof.
  unfold interrupted_store, among. simpl. rewrite !update_rows_none. by destruct s.
Qed.

Lemma interrupted_store_step now i ids s :
  set_attempts (update_rows (attempt_is i) (close_attempt now) (task_attempts (interrupted_store now ids s)))
    (set_inbox (update_rows (key_is it_task_id i) (interrupt now) (inbox_tasks (interrupted_store now ids s)))
       (interrupted_store now ids s))
  = interrupted_store now (ids ++ [i]) s.
Proof.
  unfold interrupted_store, attempt_is. simpl. rewrite !update_rows_twice; try done.
  assert (∀ R (key : R → string) r, (among key ids r || key_is key i r) = among key (ids ++ [i]) r)
    as E.
  { intros R key r. unfold among. rewrite existsb_app. simpl. by rewrite orb_false_r. }
  unfold set_attempts, set_inbox. simpl. f_equal; unfold update_rows; apply map_ext;
    intros r; by rewrite E.
Qed.

Lemma recovery_loop now c s ids rows :
  for_each rows (λ row,
    exec (λ s, Ok (tt, set_inbox (update_rows (key_is it_task_id (it_task_id row))
           (task_set_state_reason INTERRUPTED (reason_json "process_restart") now)
           (inbox_tasks s)) s)) ;;
    exec (λ s, Ok (tt, set_attempts (update_rows (attempt_is (it_task_id row)) (λ a,
           MkAttempt (ta_attempt_id a) (ta_task_id a) (ta_claimed_at a) (ta_invoked_at a)
             (Some (coalesce (ta_finished_at a) now))
             (Some (coalesce (ta_cleanup_requested_at a) now))
             (ta_cleanup_completed_at a) (ta_cleanup_attempts a)
             (ta_last_cleanup_error a)) (task_attempts s)) s)))
    (Conn c (interrupted_store now ids s) true)
  = (Ok tt, Conn c (interrupted_store now (ids ++ map it_task_id rows) s) true).
Proof.
  revert ids. induction rows as [|row rows IH]; intros ids; simpl.
  - by rewrite app_nil_r.
  - unfold mbind, SE_bind, exec. cbn [committed working in_tx].
    specialize (IH (ids ++ [it_task_id row])). rewrite <-app_assoc in IH. simpl in IH.
    rewrite <-IH. do 2 f_equal. apply interrupted_store_step.
Qed.

Lemma among_interruptible s :
  unique_key it_task_id (inbox_tasks s) → ∀ r, r ∈ inbox_tasks s →
  among it_task_id (map it_task_id (select (λ r, interruptible (it_state r)) (inbox_tasks s))) r
  = interruptible (it_state r).
Proof.
  intros Hu r Hr. apply eq_true_iff_eq. unfold among. rewrite existsb_exists. split.
  - intros (i & Hi & Hk%key_is_true). apply in_map_iff in Hi as (r' & Er & Hr').
    apply list_elem_of_In, elem_of_select in Hr' as [Hr' Hint].
    assert (r' = r) as <-; [|done]. apply (unique_key_inj it_task_id (inbox_tasks s)); congruence.
  - intros Hint. exists (it_task_id r). split; [|by apply key_is_true].
    apply in_map, list_elem_of_In, elem_of_select. done.
Qed.

(** Recovery, in closed form: every unfinished task is interrupted, its
    attempt closed with cleanup requested, and their number returned. *)
Lemma recover_interrupted_closed now s :
  unique_key it_task_id (inbox_tasks s) →
  let ids := map it_task_id (select (λ r, interruptible (it_state r)) (inbox_tasks s)) in
  recover_interrupted now s =
    (Ok (length ids),
     set_attempts (update_rows (among ta_task_id ids) (close_attempt now) (task_attempts s))
       (set_inbox (update_rows (λ r, interruptible (it_state r)) (interrupt now) (inbox_tasks s)) s)).
Proof.
  intros Hu ids.
  pose proof (recovery_loop now s s [] (select (λ r, interruptible (it_state r)) (inbox_tasks s))) as L.
  rewrite interrupted_store_nil in L. simpl in L. fold ids in L.
  unfold recover_interrupted, with_connection, begin_immediate, query, commit, mret, SE_ret.
  unfold mbind, SE_bind in *. cbn [committed working in_tx]. rewrite L. simpl.
  unfold ids. rewrite length_map. do 2 f_equal.
  unfold interrupted_store, set_attempts, set_inbox. simpl. f_equal.
  unfold update_rows. apply map_ext_in. intros r Hr%list_elem_of_In.
  unfold ids. by rewrite among_interruptible.
Qed.

Lemma recover_interrupted_Keep s0 now : preserves (Keep s0) (recover_interrupted now).
Proof.
  intros s HK. pose proof (proj1 HK) as HI. rewrite recover_interrupted_closed by apply HI.
  simpl. apply (Keep_update_attempts s0 (set_inbox _ s)); [done..|].
  apply Keep_update_inbox; [|by intros r|done]. intros r _ Hint. split; [|simpl; set_solver].
  constructor; simpl; try done. apply rtc_once. by right.
Qed.
End Recovery.

(** ** The other operations do not touch the task tables *)

Section OtherOps.
Context `{Sha256}.

(** Keep the projections of the task tables equal to [s0]'s. *)
Definition keeps_tasks {A} (m : SE Store A) : Prop := ∀ s, same_tasks s (m s).2.

Lemma keeps_tasks_Keep {A} (m : SE Store A) s0 : keeps_tasks m → preserves (Keep s0) m.
Proof. intros Hm s. by apply Keep_same. Qed.

Ltac keeps := intros ?; unfold same_tasks; run_tx; repeat (tx_case; try done); try done.

Lemma insert_upload_same u s s' : insert_upload u s = Ok (tt, s') → same_tasks s s'.
Proof. unfold insert_upload. intros E. by inserted E. Qed.
Lemma insert_manifest_same m s s' : insert_manifest m s = Ok (tt, s') → same_tasks s s'.
Proof. unfold insert_manifest. intros E. by inserted E. Qed.
Lemma insert_windows_same w s s' : insert_windows w s = Ok (tt, s') → same_tasks s s'.
Proof. unfold insert_windows. intros E. by inserted E. Qed.

Lemma ensure_identity_keeps now a b c d e f g : keeps_tasks (ensure_identity now a b c d e f g).
Proof. unfold ensure_identity, identity. keeps. Qed.
Lemma update_identity_keeps now values : keeps_tasks (update_identity now values).
Proof. unfold update_identity. keeps; simplify_eq; done. Qed.
Lemma purge_identity_keeps : keeps_tasks purge_identity.
Proof. unfold purge_identity. keeps. Qed.
Lemma start_runtime_keeps now boot : keeps_tasks (start_runtime now boot).
Proof. unfold start_runtime. keeps. Qed.
Lemma stop_runtime_keeps now : keeps_tasks (stop_runtime now).
Proof. unfold stop_runtime. keeps. Qed.
Lemma persist_manifest_keeps now id sequence payload :
  keeps_tasks (persist_manifest now id sequence payload).
Proof. unfold persist_manifest. keeps. by eapply insert_manifest_same. Qed.
Lemma confirm_manifest_keeps now1 now2 id sequence d :
  keeps_tasks (confirm_manifest now1 now2 id sequence d).
Proof. unfold confirm_manifest. keeps; simplify_eq; done. Qed.
Lemma persist_heartbeat_keeps now sequence payload :
  keeps_tasks (persist_heartbeat now sequence payload).
Proof. unfold persist_heartbeat. keeps. Qed.
Lemma confirm_heartbeat_keeps now sequence : keeps_tasks (confirm_heartbeat now sequence).
Proof. unfold confirm_heartbeat. keeps; simplify_eq; done. Qed.
Lemma ensure_artifact_queued_keeps now uid tid path mt aid size sha payload :
  keeps_tasks (ensure_artifact_queued now uid tid path mt aid size sha payload).
Proof. unfold ensure_artifact_queued. keeps. by eapply insert_upload_same. Qed.
Lemma delete_confirmed_artifact_keeps uid : keeps_tasks (delete_confirmed_artifact uid).
Proof. unfold delete_confirmed_artifact. keeps. Qed.
Lemma update_confirmed_artifact_path_keeps uid a b :
  keeps_tasks (update_confirmed_artifact_path uid a b).
Proof. unfold update_confirmed_artifact_path. keeps; simplify_eq; done. Qed.
Lemma windows_operation_keeps key : keeps_tasks (windows_operation key).
Proof. unfold windows_operation. keeps. Qed.
Lemma begin_windows_operation_keeps now id key action guid target previous :
  keeps_tasks (begin_windows_operation now id key action guid target previous).
Proof.
  unfold begin_windows_operation, windows_operation. keeps; simplify_eq; try done;
    by eapply insert_windows_same.
Qed.
Lemma transition_windows_operation_keeps now key current target a b :
  keeps_tasks (transition_windows_operation now key current target a b).
Proof. unfold transition_windows_operation, windows_operation. keeps; simplify_eq; done. Qed.
End OtherOps.
