(* ===== verification/StoreReach.v ===== *)
(** * Histories of the local store

    A history is any sequence of calls to the store's methods, each with
    arbitrary arguments, clock readings and identifiers, and each possibly
    failing; a restart of the process is no step at all, since the store keeps
    nothing in memory.  [reachable] collects the states of all histories from
    the empty database, and every one of them satisfies the invariant. *)

From S2P Require Export StoreOps.

Section Histories.
Context `{Sha256} `{EnvelopeCodec}.

(** One call of a method, with its result and the state after it. *)
Inductive store_step (s : Store) : Store → Prop :=
| step_ingest now qid qnow t : store_step s (ingest_task now qid qnow t s).2
| step_queued ids clock n : store_step s (queued_tasks ids clock n s).2
| step_claim now aid tid : store_step s (claim_task now aid tid s).2
| step_transition now tid a b : store_step s (transition_task now tid a b s).2
| step_invoked now tid : store_step s (mark_invoked now tid s).2
| step_request_cleanup now tid : store_step s (request_cleanup now tid s).2
| step_complete_cleanup now tid e : store_step s (complete_cleanup now tid e s).2
| step_finish now key tid a b rid p : store_step s (finish_with_result now key tid a b rid p s).2
| step_progress now tid eid n p : store_step s (queue_progress now tid eid n p s).2
| step_recover now : store_step s (recover_interrupted now s).2
| step_confirm_outbox now t k v : store_step s (confirm_outbox now t k v s).2
| step_ensure_identity now a b c d e f g : store_step s (ensure_identity now a b c d e f g s).2
| step_update_identity now values : store_step s (update_identity now values s).2
| step_purge_identity : store_step s (purge_identity s).2
| step_start now boot : store_step s (start_runtime now boot s).2
| step_stop now : store_step s (stop_runtime now s).2
| step_persist_manifest now id n p : store_step s (persist_manifest now id n p s).2
| step_confirm_manifest n1 n2 id n d : store_step s (confirm_manifest n1 n2 id n d s).2
| step_persist_heartbeat now n p : store_step s (persist_heartbeat now n p s).2
| step_confirm_heartbeat now n : store_step s (confirm_heartbeat now n s).2
| step_artifact now uid tid path mt aid size sha p :
    store_step s (ensure_artifact_queued now uid tid path mt aid size sha p s).2
| step_delete_artifact uid : store_step s (delete_confirmed_artifact uid s).2
| step_rename_artifact uid a b : store_step s (update_confirmed_artifact_path uid a b s).2
| step_begin_windows now oid key act guid tp pp :
    store_step s (begin_windows_operation now oid key act guid tp pp s).2
| step_transition_windows now key cur tgt a b :
    store_step s (transition_windows_operation now key cur tgt a b s).2.

Definition history : relation Store := rtc store_step.
Definition reachable : Store → Prop := history empty_store.

Lemma history_reachable s s' : reachable s → history s s' → reachable s'.
Proof. unfold reachable, history. intros. by etrans. Qed.
Lemma store_step_reachable s s' : reachable s → store_step s s' → reachable s'.
Proof. intros Hr Hs. eapply history_reachable; [done | by apply rtc_once]. Qed.

Lemma store_step_Keep s s' : store_step s s' → Inv s → Keep s s'.
Proof.
  intros Hstep HI. assert (Keep s s) as HK by done.
  destruct Hstep; revert HK; first
    [ apply ingest_task_Keep | apply queued_tasks_Keep | apply claim_task_Keep
    | apply transition_task_Keep | apply mark_invoked_Keep | apply request_cleanup_Keep
    | apply complete_cleanup_Keep | apply finish_with_result_Keep | apply queue_progress_Keep
    | apply recover_interrupted_Keep | apply confirm_outbox_Keep
    | apply keeps_tasks_Keep; first
      [ apply ensure_identity_keeps | apply update_identity_keeps | apply purge_identity_keeps
      | apply start_runtime_keeps | apply stop_runtime_keeps | apply persist_manifest_keeps
      | apply confirm_manifest_keeps | apply persist_heartbeat_keeps
      | apply confirm_heartbeat_keeps | apply ensure_artifact_queued_keeps
      | apply delete_confirmed_artifact_keeps | apply update_confirmed_artifact_path_keeps
      | apply begin_windows_operation_keeps | apply transition_windows_operation_keeps ] ].
Qed.

Lemma history_Keep s s' : history s s' → Inv s → Keep s s'.
Proof.
  induction 1 as [s|s1 s2 s3 Hstep _ IH]; [done|]. intros HI.
  pose proof (store_step_Keep _ _ Hstep HI) as [HI2 HE]. destruct (IH HI2) as [HI3 HE'].
  split; [done | by etrans].
Qed.

Lemma reachable_Inv s : reachable s → Inv s.
Proof. intros Hr. eapply history_Keep; [exact Hr | apply Inv_empty]. Qed.
Lemma history_evolves s s' : reachable s → history s s' → evolves s s'.
Proof. intros Hr Hh. eapply history_Keep; [exact Hh | by apply reachable_Inv]. Qed.

(** Follow one task row through a history. *)
Lemma follow_task s s' r r' :
  reachable s → history s s' → r ∈ inbox_tasks s → r' ∈ inbox_tasks s' →
  it_task_id r' = it_task_id r → task_evolves r r'.
Proof.
  intros Hr Hh Hin Hin' E. destruct (ev_tasks _ _ (history_evolves _ _ Hr Hh) r Hin)
    as (r2 & Hr2 & He). assert (r2 = r') as <-; [|done].
  apply (unique_key_inj it_task_id (inbox_tasks s')); [|done..|].
  - apply reachable_Inv. by eapply history_reachable.
  - rewrite (te_id _ _ He). congruence.
Qed.

Lemma life_step_final a b : terminal a = true → rtc life_step a b → b = a.
Proof.
  intros Ht Hs. inversion Hs as [|x y z [Ha|[Ha _]] _]; subst; [done| |].
  - unfold transition in Ha. by rewrite terminal_final in Ha.
  - by destruct a.
Qed.
End Histories.
