(* ===== verification/StoreFrame.v ===== *)
(** * Which tables an operation touches

    Frame lemmas: an operation leaves every projection of the database alone
    that the writes of its own tables leave alone.  A projection is described
    once, by the setters it ignores, and every theorem about a table that few
    operations write gets the other operations from here. *)

From S2P Require Export StoreReach.

(** [f] does not look at what [set] writes. *)
Definition ignores {V F} (f : Store → F) (set : V → Store → Store) : Prop :=
  ∀ v s, f (set v s) = f s.

(** Statements that write a table [f] ignores. *)
Ltac frame_exec :=
  lazymatch goal with
  | |- preserves _ (exec _) =>
      apply preserves_exec; let s := fresh "s" in let s' := fresh "s'" in
      let E := fresh "E" in intros s [] s' E;
      first [ unfold insert_task in E | unfold insert_effect in E | unfold insert_attempt in E
            | unfold insert_progress in E | unfold insert_result in E | unfold insert_upload in E
            | unfold insert_quarantine in E | unfold insert_manifest in E
            | unfold insert_windows in E ];
      inserted E
  | _ => idtac
  end.
Ltac frame :=
  preserve_tx; try frame_exec; try (intros <-); auto; try congruence.

Section TaskFrame.
Context `{Sha256} `{EnvelopeCodec} {F : Type} (f : Store → F) (x : F).
Context (Hinbox : ignores f set_inbox) (Hquarantine : ignores f set_quarantine).

Let P (s : Store) : Prop := f s = x.

Lemma quarantine_frame qid qnow t k r raw :
  preserves (ConnP P) (quarantine_in_transaction qid qnow t k r raw).
Proof. unfold quarantine_in_transaction, P. frame. Qed.

Lemma transition_task_frame now tid a b : preserves P (transition_task now tid a b).
Proof.
  unfold transition_task, ensure_transition, P.
  destruct (allowed a b); [frame | by intros ? ?].
Qed.

Lemma queued_tasks_frame ids clock n : preserves P (queued_tasks ids clock n).
Proof.
  unfold queued_tasks. preserve_tx. generalize 0%nat.
  induction a as [|row rows IH]; intros k; simpl; preserve_tx; [|apply IH].
  unfold queued_row. cbv zeta. preserve_tx; [apply quarantine_frame | unfold P in *; congruence].
Qed.

Context (Heffects : ignores f set_effects).
Lemma ingest_task_frame now qid qnow t : preserves P (ingest_task now qid qnow t).
Proof. unfold ingest_task, P. frame; apply quarantine_frame. Qed.

Context (Hattempts : ignores f set_attempts).
Lemma claim_task_frame now aid tid : preserves P (claim_task now aid tid).
Proof. unfold claim_task, P. frame. Qed.
Lemma mark_invoked_frame now tid : preserves P (mark_invoked now tid).
Proof. unfold mark_invoked, P. cbv zeta. frame. Qed.
Lemma request_cleanup_frame now tid : preserves P (request_cleanup now tid).
Proof. unfold request_cleanup, P. frame. Qed.
Lemma complete_cleanup_frame now tid e : preserves P (complete_cleanup now tid e).
Proof. unfold complete_cleanup, P. frame. Qed.
Lemma recover_interrupted_frame now : preserves P (recover_interrupted now).
Proof. unfold recover_interrupted, P. frame. Qed.

Context (Hresults : ignores f set_results).
Lemma finish_with_result_frame now key tid a b rid p :
  preserves P (finish_with_result now key tid a b rid p).
Proof.
  unfold finish_with_result, ensure_transition, P.
  destruct (allowed a b); [cbv zeta; frame | by intros ? ?].
Qed.

Context (Hprogress : ignores f set_progress).
Lemma queue_progress_frame now tid eid n p : preserves P (queue_progress now tid eid n p).
Proof. unfold queue_progress, P. frame. Qed.
End TaskFrame.

Section StateFrame.
Context `{Sha256} {F : Type} (f : Store → F) (x : F).

Let P (s : Store) : Prop := f s = x.

Section Identity.
Context (Hidentity : ignores f set_identity).
Lemma ensure_identity_frame now a b c d e g h : preserves P (ensure_identity now a b c d e g h).
Proof. unfold ensure_identity, identity, P. frame. Qed.
Lemma update_identity_frame now values : preserves P (update_identity now values).
Proof.
  unfold update_identity, P. preserve_tx. apply preserves_exec. intros s [] s' E Hs.
  destruct (agent_identity s); [|by simplify_eq]. by destruct (identity_check _); simplify_eq.
Qed.
End Identity.

Section Runtime.
Context (Hruntime : ignores f set_runtime).
Lemma start_runtime_frame now boot : preserves P (start_runtime now boot).
Proof. unfold start_runtime, P. frame. Qed.
Lemma stop_runtime_frame now : preserves P (stop_runtime now).
Proof. unfold stop_runtime, P. frame. Qed.
Lemma persist_heartbeat_frame now n p : preserves P (persist_heartbeat now n p).
Proof. unfold persist_heartbeat, P. frame. Qed.
Lemma confirm_heartbeat_frame now n : preserves P (confirm_heartbeat now n).
Proof.
  unfold confirm_heartbeat, P. preserve_tx. apply preserves_exec. intros s k s' E Hs.
  by repeat case_match; simplify_eq; rewrite ?Hruntime.
Qed.

Context (Hmanifests : ignores f set_manifests).
Lemma persist_manifest_frame now id n p : preserves P (persist_manifest now id n p).
Proof. unfold persist_manifest, P. frame. Qed.
Lemma confirm_manifest_frame n1 n2 id n d : preserves P (confirm_manifest n1 n2 id n d).
Proof.
  unfold confirm_manifest, P. cbv zeta. preserve_tx; [|congruence].
  apply preserves_exec. intros s k s' E Hs.
  by destruct (_ || _); simplify_eq; rewrite ?Hmanifests.
Qed.
Lemma purge_identity_frame : ignores f set_identity → preserves P purge_identity.
Proof. intros Hi. unfold purge_identity, P. frame. Qed.
End Runtime.

Section Uploads.
Context (Huploads : ignores f set_uploads).
Lemma ensure_artifact_queued_frame now uid tid path mt aid size sha p :
  preserves P (ensure_artifact_queued now uid tid path mt aid size sha p).
Proof. unfold ensure_artifact_queued, P. cbv zeta. frame. Qed.
Lemma delete_confirmed_artifact_frame uid : preserves P (delete_confirmed_artifact uid).
Proof. unfold delete_confirmed_artifact, P. cbv zeta. frame. Qed.
Lemma update_confirmed_artifact_path_frame uid a b :
  preserves P (update_confirmed_artifact_path uid a b).
Proof.
  unfold update_confirmed_artifact_path, P. cbv zeta. preserve_tx. apply preserves_exec.
  intros s k s' E Hs. by destruct (_ || _); simplify_eq; rewrite ?Huploads.
Qed.
Lemma confirm_outbox_frame now t k v :
  ignores f set_progress → ignores f set_results → preserves P (confirm_outbox now t k v).
Proof.
  intros H1 H2. unfold confirm_outbox, P. preserve_tx.
  by repeat case_match; rewrite ?H1, ?H2, ?Huploads.
Qed.
End Uploads.

Section Windows.
Context (Hwindows : ignores f set_windows).
Lemma windows_operation_frame key : preserves P (windows_operation key).
Proof. unfold windows_operation, P. frame. Qed.
Lemma begin_windows_operation_frame now oid key act guid tp pp :
  preserves P (begin_windows_operation now oid key act guid tp pp).
Proof.
  unfold begin_windows_operation. cbv zeta. preserve_tx;
    try apply windows_operation_frame; unfold P; frame.
Qed.
Lemma transition_windows_operation_frame now key cur tgt a b :
  preserves P (transition_windows_operation now key cur tgt a b).
Proof.
  unfold transition_windows_operation. cbv zeta. preserve_tx;
    try apply windows_operation_frame; unfold P in *; congruence.
Qed.
End Windows.
End StateFrame.

(** Discharge a step for a projection of the tables it does not touch. *)
Ltac by_frame :=
  first
    [ apply ingest_task_frame | apply queued_tasks_frame | apply claim_task_frame
    | apply transition_task_frame | apply mark_invoked_frame | apply request_cleanup_frame
    | apply complete_cleanup_frame | apply finish_with_result_frame | apply queue_progress_frame
    | apply recover_interrupted_frame | apply confirm_outbox_frame | apply ensure_identity_frame
    | apply update_identity_frame | apply purge_identity_frame | apply start_runtime_frame
    | apply stop_runtime_frame | apply persist_manifest_frame | apply confirm_manifest_frame
    | apply persist_heartbeat_frame | apply confirm_heartbeat_frame
    | apply ensure_artifact_queued_frame | apply delete_confirmed_artifact_frame
    | apply update_confirmed_artifact_path_frame | apply begin_windows_operation_frame
    | apply transition_windows_operation_frame ];
  solve [done | reflexivity].
