(* ===== verification/Examples.v ===== *)
(** * Concrete instances

    An envelope codec, a task and small databases on which the theorems of the
    store are instantiated.  The codec writes every field under its name and
    reads it back; the digest is [example_sha256]. *)

From Stdlib Require Import Ascii.
From S2P Require Export StoreReach.

Definition dump_time (d : datetime) : json := JList [JInt (instant d); JInt (utc_offset_minutes d)].
Definition load_time (j : json) : option datetime :=
  match j with JList [JInt a; JInt b] => Some (DateTime a b) | _ => None end.
Definition load_str (j : json) : option string :=
  match j with JStr s => Some s | _ => None end.
Definition load_strs (j : json) : option (list string) :=
  match j with JList xs => mapM load_str xs | _ => None end.
Definition load_obj (j : json) : option (list (string * json)) :=
  match j with JObj kvs => Some kvs | _ => None end.

Definition example_dump (t : LocalTaskEnvelope) : json :=
  JObj [("execution_id", JStr (execution_id t)); ("expires_at", dump_time (expires_at t));
        ("foreground_requirement", JStr (foreground_requirement t));
        ("idempotency_key", JStr (idempotency_key t)); ("issued_at", dump_time (issued_at t));
        ("not_before", dump_time (not_before t)); ("parameters", JObj (parameters t));
        ("protocol_version", JStr (protocol_version t));
        ("required_capabilities", JList (map JStr (required_capabilities t)));
        ("schema_version", JStr (schema_version t)); ("task_id", JStr (task_id t));
        ("task_type", JStr (task_type t)); ("task_type_version", JStr (task_type_version t));
        ("user_interaction_requirement", JStr (user_interaction_requirement t))].

Definition example_validate (j : json) : option LocalTaskEnvelope :=
  d ← load_obj j;
  a ← dict_get d "schema_version" ≫= load_str;
  b ← dict_get d "protocol_version" ≫= load_str;
  c ← dict_get d "task_id" ≫= load_str;
  e ← dict_get d "execution_id" ≫= load_str;
  f ← dict_get d "task_type" ≫= load_str;
  g ← dict_get d "task_type_version" ≫= load_str;
  h ← dict_get d "issued_at" ≫= load_time;
  i ← dict_get d "not_before" ≫= load_time;
  k ← dict_get d "expires_at" ≫= load_time;
  l ← dict_get d "idempotency_key" ≫= load_str;
  m ← dict_get d "required_capabilities" ≫= load_strs;
  n ← dict_get d "foreground_requirement" ≫= load_str;
  o ← dict_get d "user_interaction_requirement" ≫= load_str;
  p ← dict_get d "parameters" ≫= load_obj;
  Some (Build_LocalTaskEnvelope a b c e f g h i k l m n o p).

Definition example_codec : EnvelopeCodec :=
  {| model_dump := example_dump; model_validate := example_validate |}.

#[global] Existing Instances example_sha256 example_codec.

Definition example_task (tid key execution : string) : LocalTaskEnvelope :=
  Build_LocalTaskEnvelope "1.0" "1" tid execution "noop" "1"
    (DateTime 0 0) (DateTime 0 0) (DateTime 60000000 0) key [] "none" "none" [].

(** One queued task, then claimed, invoked and finished. *)
Definition store_queued : Store :=
  (ingest_task "2026-01-01T00:00:00Z" "q0" "2026-01-01T00:00:00Z"
     (example_task "t1" "k1" "e1") empty_store).2.
Definition store_claimed : Store := (claim_task "2026-01-01T00:00:01Z" "a1" "t1" store_queued).2.
Definition store_running : Store :=
  (mark_invoked "2026-01-01T00:00:02Z" "t1"
     (transition_task "2026-01-01T00:00:02Z" "t1" PREPARING RUNNING store_claimed).2).2.
Definition store_cleaning : Store :=
  (transition_task "2026-01-01T00:00:03Z" "t1" RUNNING CLEANING_UP store_running).2.
Definition store_finished : Store :=
  (finish_with_result "2026-01-01T00:00:04Z" "rk1" "t1" CLEANING_UP COMPLETED "r1"
     (JObj [("result_id", JStr "r1")]) store_cleaning).2.

(** The only task of such a database. *)
Definition the_task (s : Store) : TaskRow :=
  hd (MkTask "t" "e" "k" "noop" "1" "p" "h" "h" None RECEIVED None "n" "n" "n") (inbox_tasks s).

Lemma the_task_running :
  the_task store_running ∈ inbox_tasks store_running ∧ it_task_id (the_task store_running) = "t1".
Proof. vm_compute. split; [left | reflexivity]. Qed.
Lemma the_task_finished :
  the_task store_finished ∈ inbox_tasks store_finished
  ∧ it_task_id (the_task store_finished) = "t1" ∧ it_state (the_task store_finished) = COMPLETED.
Proof. vm_compute. split; [left | split; reflexivity]. Qed.
Definition running_attempt : AttemptRow :=
  MkAttempt "a1" "t1" "2026-01-01T00:00:01Z" (Some "2026-01-01T00:00:02Z") None None None 0 None.
Lemma store_running_attempt : running_attempt ∈ task_attempts store_running.
Proof. vm_compute. left. Qed.

(** What the finished run left, and the database after a restart. *)
Definition finished_attempt : AttemptRow :=
  MkAttempt "a1" "t1" "2026-01-01T00:00:01Z" (Some "2026-01-01T00:00:02Z")
    (Some "2026-01-01T00:00:04Z") None None 0 None.
Definition finished_result : ResultRow := hd (MkResult "r" "t" "k" "p" "h" D_PENDING "n" None)
  (outbox_results store_finished).
Definition store_restarted : Store := (recover_interrupted "2026-01-01T00:00:05Z" store_finished).2.
Lemma store_finished_rows :
  hd running_attempt (task_attempts store_finished) ∈ task_attempts store_finished
  ∧ finished_attempt ∈ task_attempts store_finished
  ∧ ta_task_id (hd running_attempt (task_attempts store_finished)) = "t1"
  ∧ finished_result ∈ outbox_results store_finished ∧ or_task_id finished_result = "t1".
Proof. vm_compute. repeat split; left. Qed.
Lemma the_task_restarted :
  the_task store_restarted ∈ inbox_tasks store_restarted
  ∧ it_task_id (the_task store_restarted) = "t1".
Proof. vm_compute. split; [left | reflexivity]. Qed.

Lemma store_queued_reachable : reachable store_queued.
Proof. unfold store_queued. eapply store_step_reachable; [apply rtc_refl | constructor]. Qed.
Lemma store_claimed_reachable : reachable store_claimed.
Proof.
  unfold store_claimed. eapply store_step_reachable; [apply store_queued_reachable | constructor].
Qed.
Lemma store_running_history : history store_claimed store_running.
Proof.
  unfold store_running. unfold history. generalize store_claimed. intros s.
  eapply rtc_l; [|apply rtc_once]; constructor.
Qed.
Lemma store_running_reachable : reachable store_running.
Proof. eapply history_reachable; [apply store_claimed_reachable | apply store_running_history]. Qed.
Lemma store_finished_history : history store_running store_finished.
Proof.
  unfold store_finished, store_cleaning. unfold history. generalize store_running. intros s.
  eapply rtc_l; [|apply rtc_once]; constructor.
Qed.
Lemma store_finished_reachable : reachable store_finished.
Proof. eapply history_reachable; [apply store_running_reachable | apply store_finished_history]. Qed.

Lemma store_restarted_history : history store_finished store_restarted.
Proof.
  unfold store_restarted. unfold history. generalize store_finished. intros s.
  apply rtc_once. constructor.
Qed.

(** Distinct identifiers. *)
Definition nth_id (n : nat) : string := Nat.iter n (String (ascii_of_nat 113)) EmptyString.
Lemma nth_id_inj i j : nth_id i = nth_id j → i = j.
Proof.
  assert (∀ n, String.length (nth_id n) = n) as L by (induction n; simpl; congruence).
  intros E. by rewrite <-(L i), <-(L j), E.
Qed.
