(* ===== verification/StoreSpecs.v ===== *)
(** * Specifications of the task operations

    What ingestion, claiming and finishing promise, as plain functions on the
    tables without transactions, guards on row counts or constraint checks that
    cannot fail; and the proofs that the methods compute exactly these
    functions in every state that satisfies the invariant. *)

From S2P Require Export Examples.

(** ** Specifications of the operations *)

Section Specs.
Context `{Sha256} `{EnvelopeCodec}.

(** What ingestion promises, without a transaction: an exact redelivery is a
    duplicate; the same identifier with other content is refused and kept in
    quarantine; another task with a known key is recorded as a duplicate or
    as blocked, next to its canonical task; a new key enters the queue. *)
Definition ingested_row (now : string) (t : LocalTaskEnvelope) (canonical : option string)
    (state : TaskState) (reason : option string) : TaskRow :=
  MkTask (task_id t) (execution_id t) (idempotency_key t) (task_type t) (task_type_version t)
    (canonical_json (model_dump t)) (digest (model_dump t)) (digest (logical_effect t))
    canonical state reason now (isoformat (expires_at t)) now.

Definition ingest_spec (now qid qnow : string) (t : LocalTaskEnvelope) (s : Store)
    : result string * Store :=
  match select_one (key_is it_task_id (task_id t)) (inbox_tasks s),
        select_one (key_is ie_idempotency_key (idempotency_key t)) (idempotency_effects s) with
  | Some r, _ =>
      if String.eqb (it_payload_hash r) (digest (model_dump t)) then (Ok "duplicate", s)
      else if has_key qr_quarantine_id qid (quarantine s)
      then (Err (IntegrityError "quarantine.quarantine_id"), s)
      else (Err (DuplicateConflictError "task_id was reused with a different payload"),
            set_quarantine (quarantine s ++
              [MkQuarantine qid "inbox_tasks" (task_id t) "task_id_payload_conflict"
                 (Some (canonical_json (model_dump t)))
                 (sha256_hex (canonical_json (model_dump t))) qnow]) s)
  | None, Some e =>
      if String.eqb (ie_effect_hash e) (digest (logical_effect t)) then
        (Ok "duplicate",
         set_inbox (inbox_tasks s ++
           [ingested_row now t (Some (ie_canonical_task_id e)) DUPLICATE
              (Some (reason_json "idempotency_duplicate"))]) s)
      else
        (Ok "blocked",
         set_inbox (inbox_tasks s ++
           [ingested_row now t (Some (ie_canonical_task_id e)) BLOCKED
              (Some (reason_json "idempotency_conflict"))]) s)
  | None, None =>
      (Ok "queued",
       set_effects (idempotency_effects s ++
           [MkEffect (idempotency_key t) (digest (logical_effect t)) (task_id t)
              None None None now now])
         (set_inbox (inbox_tasks s ++ [ingested_row now t None QUEUED None]) s))
  end.

(** A claim of a queued task takes it off the queue, marks the effect of its
    key and records the attempt; any other claim changes nothing. *)
Definition claim_spec (now attempt_id tid : string) (s : Store)
    : result (option string) * Store :=
  match select_one (key_is it_task_id tid) (inbox_tasks s) with
  | Some r =>
      if negb (state_eqb (it_state r) QUEUED) then (Ok None, s)
      else if has_key ta_attempt_id attempt_id (task_attempts s)
      then (Err (IntegrityError "task_attempts.attempt_id"), s)
      else (Ok (Some attempt_id),
            set_attempts (task_attempts s ++
                [MkAttempt attempt_id tid now None None None None 0 None])
              (set_inbox (update_rows (key_is it_task_id tid) (task_set_state PREPARING now)
                            (inbox_tasks s))
                 (set_effects (update_rows (key_is ie_idempotency_key (it_idempotency_key r))
                                 (effect_claim now) (idempotency_effects s)) s)))
  | None => (Ok None, s)
  end.

Lemma len64_sha x : len64 (sha256_hex x) = true.
Proof. unfold len64. rewrite sha256_hex_length. done. Qed.
Lemma len64_digest j : len64 (digest j) = true.
Proof. apply len64_sha. Qed.

Lemma select_one_has_key {R} (key : R → string) k t :
  select_one (key_is key k) t = None → has_key key k t = false.
Proof.
  rewrite select_one_None, has_key_false. intros Hn r Hr E.
  specialize (Hn r Hr). by rewrite (proj2 (key_is_true key k r) E) in Hn.
Qed.

Lemma insert_task_Ok r s :
  has_key it_task_id (it_task_id r) (inbox_tasks s) = false →
  len64 (it_payload_hash r) = true → len64 (it_effect_hash r) = true →
  match it_canonical_task_id r with
  | None => true
  | Some c => has_key it_task_id c (inbox_tasks s)
  end = true →
  insert_task r s = Ok (tt, set_inbox (inbox_tasks s ++ [r]) s).
Proof.
  intros E1 E2 E3 E4. unfold insert_task, check. rewrite E1, E2, E3.
  destruct (it_canonical_task_id r); [rewrite E4|]; done.
Qed.

Lemma insert_effect_Ok e s :
  has_key ie_idempotency_key (ie_idempotency_key e) (idempotency_effects s) = false →
  len64 (ie_effect_hash e) = true →
  has_key ie_canonical_task_id (ie_canonical_task_id e) (idempotency_effects s) = false →
  has_key it_task_id (ie_canonical_task_id e) (inbox_tasks s) = true →
  insert_effect e s = Ok (tt, set_effects (idempotency_effects s ++ [e]) s).
Proof. intros E1 E2 E3 E4. unfold insert_effect, check. by rewrite E1, E2, E3, E4. Qed.

(** An effect's canonical task is in the inbox. *)
Lemma canonical_present s e :
  Inv s → e ∈ idempotency_effects s →
  has_key it_task_id (ie_canonical_task_id e) (inbox_tasks s) = true.
Proof.
  intros HI He. apply has_key_true. destruct (inv_canonical s HI e He) as (r & ? & ? & ?). eauto.
Qed.

Lemma has_key_snoc {R} (key : R → string) k t r :
  key r = k → has_key key k (t ++ [r]) = true.
Proof. intros E. apply has_key_true. exists r. split; [set_solver | done]. Qed.

Lemma update_settled' tid f t r :
  it_task_id r = tid → it_state r = RECEIVED →
  (∀ r', r' ∈ t → it_state r' ≠ RECEIVED) →
  update_rows (λ r', key_is it_task_id tid r' && state_eqb (it_state r') RECEIVED)
    f (t ++ [r]) = t ++ [f r].
Proof. intros <-. apply update_settled. Qed.

Lemma ingest_refines now qid qnow t s :
  Inv s → ingest_task now qid qnow t s = ingest_spec now qid qnow t s.
Proof.
  intros HI. unfold ingest_task, ingest_spec, quarantine_in_transaction. run_tx.
  destruct (select_one (key_is it_task_id _) _) as [r|] eqn:Er.
  - destruct (String.eqb _ _); [done|]. simpl. unfold insert_quarantine, check. simpl.
    by destruct (has_key qr_quarantine_id qid (quarantine s)).
  - apply select_one_has_key in Er as Hk.
    destruct (select_one (key_is ie_idempotency_key _) _) as [e|] eqn:Ee.
    + apply select_one_Some in Ee as [He _].
      destruct (String.eqb _ _); rewrite insert_task_Ok; simpl;
        by rewrite ?len64_digest, ?canonical_present.
    + rewrite insert_task_Ok; simpl; [|by rewrite ?len64_digest..].
      rewrite insert_effect_Ok; simpl; [| | by rewrite ?len64_digest | |].
      * unfold ingested_row. rewrite update_settled'; [done..|]. intros r' Hr'.
        by apply (inv_settled s HI).
      * by apply select_one_has_key.
      * apply has_key_false. intros e He E. rewrite has_key_false in Hk.
        destruct (inv_canonical s HI e He) as (r & Hr & E1 & _).
        apply (Hk r Hr). congruence.
      * by apply has_key_snoc.
Qed.

Lemma update_rows_ext_in {R} (p q : R → bool) f t :
  (∀ r, r ∈ t → p r = q r) → update_rows p f t = update_rows q f t.
Proof.
  intros E. unfold update_rows. apply map_ext_in. intros r Hr%list_elem_of_In. by rewrite E.
Qed.

(** A condition that holds of the row with a key adds nothing to the key. *)
Lemma key_and {R} (key : R → string) (c : R → bool) t r0 :
  unique_key key t → r0 ∈ t → c r0 = true → ∀ r, r ∈ t →
  key_is key (key r0) r && c r = key_is key (key r0) r.
Proof.
  intros Hu Hin0 Hc r Hr. destruct (key_is key (key r0) r) eqn:E; [|done]. simpl.
  apply key_is_true in E. by rewrite (unique_key_inj key t r r0 Hu).
Qed.

Lemma queued_no_attempt s r :
  Inv s → r ∈ inbox_tasks s → it_state r = QUEUED →
  has_key ta_task_id (it_task_id r) (task_attempts s) = false.
Proof.
  intros HI Hr HQ. apply has_key_false. intros a Ha E.
  destruct (inv_claimed s HI a Ha) as (r' & e & Hr' & E1 & Hnq & _).
  apply Hnq. rewrite (unique_key_inj it_task_id (inbox_tasks s) r' r); [done | apply HI|done..|].
  congruence.
Qed.

Lemma claim_refines now attempt_id tid s :
  Inv s → claim_task now attempt_id tid s = claim_spec now attempt_id tid s.
Proof.
  intros HI. unfold claim_task, claim_spec. run_tx.
  destruct (select_one (key_is it_task_id tid) _) as [r|] eqn:Er; [|done].
  destruct (state_eqb (it_state r) QUEUED) eqn:EQ; simpl; [|done].
  apply select_one_Some in Er as [Hr E%key_is_true]. subst tid.
  apply state_eqb_true in EQ as HQ.
  destruct (inv_queued s HI r Hr HQ) as (e & He & E1 & E2 & E3). rewrite <-E1.
  rewrite (rowcount_one ie_idempotency_key _ _ e) by
    (apply HI || done || (intros e' [Hk%key_is_true _]%andb_true_iff; done)
     || (unfold key_is; by rewrite String.eqb_refl, E3)).
  simpl. rewrite !(update_rows_ext_in _ (key_is ie_idempotency_key (ie_idempotency_key e))
                     (effect_claim now))
    by (apply key_and; [apply HI | done | by rewrite E3]).
  rewrite (update_rows_ext_in _ (key_is it_task_id (it_task_id r)) (task_set_state PREPARING now))
    by (apply (key_and it_task_id); [apply HI | done | done]).
  unfold insert_attempt, check. simpl. rewrite (queued_no_attempt s r) by done.
  destruct (has_key ta_attempt_id attempt_id (task_attempts s)); [done|]. simpl.
  assert (has_key it_task_id (it_task_id r)
    (update_rows (key_is it_task_id (it_task_id r)) (task_set_state PREPARING now)
       (inbox_tasks s)) = true) as ->; [|done].
  apply has_key_true. exists (task_set_state PREPARING now r). split; [|done].
  apply elem_of_update_rows. exists r. split; [done|]. unfold key_is. by rewrite String.eqb_refl.
Qed.

(** Finishing moves the task, stores its only result, marks the effect and
    closes the attempt, all or nothing. *)
Definition finish_spec (now result_key tid : string) (current target : TaskState)
    (result_id : string) (payload : json) (s : Store) : result unit * Store :=
  if negb (allowed current target) then
    (Err (ValueError ("invalid task transition: " +:+ value current +:+ " -> " +:+ value target)), s)
  else match select_one (key_is it_task_id tid) (inbox_tasks s) with
  | Some r =>
      if negb (state_eqb (it_state r) current) then
        (Err (StateConflictError "terminal task transition compare-and-set failed"), s)
      else match insert_result (MkResult result_id tid result_key (canonical_json payload)
                                  (digest payload) D_PENDING now None) s with
      | Err e => (Err e, s)
      | Ok (_, s1) =>
          (Ok tt,
           set_attempts (update_rows (key_is ta_task_id tid) (λ a,
               MkAttempt (ta_attempt_id a) (ta_task_id a) (ta_claimed_at a) (ta_invoked_at a)
                 (Some now) (ta_cleanup_requested_at a) (ta_cleanup_completed_at a)
                 (ta_cleanup_attempts a) (ta_last_cleanup_error a)) (task_attempts s))
             (set_effects (update_rows (key_is ie_idempotency_key (it_idempotency_key r))
                 (effect_finish target result_id now) (idempotency_effects s))
               (set_inbox (update_rows (key_is it_task_id tid) (task_set_state target now)
                   (inbox_tasks s)) s1)))
      end
  | None => (Err (StateConflictError "terminal task transition compare-and-set failed"), s)
  end.

Lemma has_key_map {R} (key : R → string) k t t' :
  map key t = map key t' → has_key key k t = has_key key k t'.
Proof.
  revert t'. induction t as [|r t IH]; intros [|r' t'] E; simplify_eq/=; [done|].
  unfold key_is. rewrite H1. f_equal. by apply IH.
Qed.

Lemma insert_result_inbox o s v :
  map it_task_id v = map it_task_id (inbox_tasks s) →
  insert_result o (set_inbox v s) =
    match insert_result o s with Ok (u, s1) => Ok (u, set_inbox v s1) | Err e => Err e end.
Proof.
  intros E. unfold insert_result, check. simpl.
  rewrite (has_key_map it_task_id _ v (inbox_tasks s)) by done.
  repeat (case_match; simpl; try done).
Qed.

Lemma insert_result_only o s s1 :
  insert_result o s = Ok (tt, s1) → s1 = set_results (outbox_results s ++ [o]) s.
Proof. unfold insert_result. intros E. by inserted E. Qed.

Lemma finish_refines now key tid current target result_id payload s :
  Inv s → finish_with_result now key tid current target result_id payload s
          = finish_spec now key tid current target result_id payload s.
Proof.
  intros HI. unfold finish_with_result, finish_spec, ensure_transition.
  destruct (allowed current target) eqn:Ea; [|done]. run_tx.
  set (p := λ r, key_is it_task_id tid r && state_eqb (it_state r) current).
  destruct (select_one (key_is it_task_id tid) (inbox_tasks s)) as [r|] eqn:Er.
  2:{ rewrite (proj2 (rowcount_0 p _)); [done|]. intros r Hr. unfold p.
      rewrite select_one_None in Er. by rewrite (Er r Hr). }
  apply select_one_Some in Er as [Hr E%key_is_true]. subst tid.
  destruct (state_eqb (it_state r) current) eqn:Ec; simpl.
  2:{ rewrite (proj2 (rowcount_0 p _)); [done|]. intros r' Hr'. unfold p.
      destruct (key_is it_task_id (it_task_id r) r') eqn:E; [|done]. apply key_is_true in E.
      by rewrite (unique_key_inj it_task_id (inbox_tasks s) r' r (inv_tasks s HI) Hr' Hr E). }
  assert (∀ r', r' ∈ inbox_tasks s → p r' = key_is it_task_id (it_task_id r) r') as Hp.
  { apply key_and; [apply HI | done..]. }
  rewrite (rowcount_one it_task_id _ p r); [|apply HI|by intros r' [?%key_is_true _]%andb_true_iff
    |done|unfold p, key_is; by rewrite String.eqb_refl, Ec].
  cbn [Nat.eqb negb committed working in_tx inbox_tasks set_inbox].
  rewrite (update_rows_ext_in p _ _ _ Hp).
  set (v := update_rows (key_is it_task_id (it_task_id r)) (task_set_state target now) (inbox_tasks s)).
  rewrite (select_one_key it_task_id v (it_task_id r) (task_set_state target now r)); [| |
    apply elem_of_update_rows; exists r; unfold key_is; by rewrite String.eqb_refl | done].
  2:{ apply unique_key_update; [done | apply HI]. }
  cbn [committed working in_tx].
  rewrite insert_result_inbox by (apply update_rows_keys; done).
  destruct (insert_result _ s) as [[[] s1]|e] eqn:Ei; [|done].
  apply insert_result_only in Ei as ->. done.
Qed.

(** A transition is a compare-and-set on the one row of the task. *)
Definition transition_spec (now tid : string) (current target : TaskState) (s : Store)
    : result unit * Store :=
  if negb (allowed current target) then
    (Err (ValueError ("invalid task transition: " +:+ value current +:+ " -> " +:+ value target)), s)
  else match select_one (key_is it_task_id tid) (inbox_tasks s) with
  | Some r =>
      if state_eqb (it_state r) current then
        (Ok tt, set_inbox (update_rows (key_is it_task_id tid) (task_set_state target now)
                             (inbox_tasks s)) s)
      else (Err (StateConflictError "task transition compare-and-set failed"), s)
  | None => (Err (StateConflictError "task transition compare-and-set failed"), s)
  end.

(** The rows a compare-and-set on a unique key selects. *)
Lemma cas_rows {R} (key : R → string) (c : R → bool) k (t : list R) :
  unique_key key t →
  match select_one (key_is key k) t with
  | Some r =>
      if c r then rowcount (λ r, key_is key k r && c r) t = 1%nat
                  ∧ ∀ f, update_rows (λ r, key_is key k r && c r) f t
                         = update_rows (key_is key k) f t
      else rowcount (λ r, key_is key k r && c r) t = 0%nat
  | None => rowcount (λ r, key_is key k r && c r) t = 0%nat
  end.
Proof.
  intros Hu. destruct (select_one (key_is key k) t) as [r|] eqn:Er.
  - apply select_one_Some in Er as [Hr E%key_is_true]. subst k. destruct (c r) eqn:Ec.
    + split.
      * apply (rowcount_one key _ _ r); [done|by intros r' [?%key_is_true _]%andb_true_iff|done|].
        unfold key_is. by rewrite String.eqb_refl, Ec.
      * intros f. apply update_rows_ext_in. by apply key_and.
    + apply rowcount_0. intros r' Hr'. destruct (key_is key (key r) r') eqn:E; [|done].
      apply key_is_true in E. by rewrite (unique_key_inj key t r' r Hu Hr' Hr E).
  - apply rowcount_0. intros r Hr. rewrite select_one_None in Er. by rewrite (Er r Hr).
Qed.

Lemma transition_refines now tid current target s :
  Inv s → transition_task now tid current target s = transition_spec now tid current target s.
Proof.
  intros HI. unfold transition_task, transition_spec, ensure_transition.
  destruct (allowed current target); [|done]. run_tx.
  pose proof (cas_rows it_task_id (λ r, state_eqb (it_state r) current) tid (inbox_tasks s)
                (inv_tasks s HI)) as Hc.
  destruct (select_one _ (inbox_tasks s)) as [r|]; [destruct (state_eqb (it_state r) current)|].
  - destruct Hc as [-> ->]. done.
  - rewrite Hc. simpl. rewrite update_rows_id by done. by destruct s.
  - rewrite Hc. simpl. rewrite update_rows_id by done. by destruct s.
Qed.
End Specs.
