(* ===== verification/StoreTheorems.v ===== *)
(** * What the store guarantees about tasks

    The contract of the task tables over histories of calls: the operations
    implement their specifications, a logical effect is attempted at most once,
    a task only moves forward, its result is durable, and a restart interrupts
    exactly what was unfinished. *)

From S2P Require Export StoreSpecs.

Section TaskTheorems.
Context `{Sha256} `{EnvelopeCodec}.

(** C1: two attempts in the table never serve the same idempotency key: over
    any history of calls, restarts included, a logical effect is claimed for
    execution at most once. *)
Theorem one_attempt_per_effect s a1 a2 r1 r2 :
  reachable s →
  a1 ∈ task_attempts s → a2 ∈ task_attempts s →
  r1 ∈ inbox_tasks s → r2 ∈ inbox_tasks s →
  ta_task_id a1 = it_task_id r1 → ta_task_id a2 = it_task_id r2 →
  it_idempotency_key r1 = it_idempotency_key r2 → a1 = a2.
Proof.
  intros HI%reachable_Inv Ha1 Ha2 Hr1 Hr2 E1 E2 Ek.
  destruct (inv_claimed s HI a1 Ha1) as (q1 & e1 & Hq1 & I1 & _ & He1 & K1 & C1 & _).
  destruct (inv_claimed s HI a2 Ha2) as (q2 & e2 & Hq2 & I2 & _ & He2 & K2 & C2 & _).
  assert (q1 = r1) as -> by (eapply unique_key_inj; [apply (inv_tasks s HI)|..]; congruence || done).
  assert (q2 = r2) as -> by (eapply unique_key_inj; [apply (inv_tasks s HI)|..]; congruence || done).
  assert (e1 = e2) as -> by (eapply unique_key_inj; [apply (inv_effects s HI)|..]; congruence || done).
  eapply unique_key_inj; [apply (inv_attempts s HI)|..]; congruence || done.
Qed.

(** C4: [ingest_task] computes its specification in every reachable state:
    exact redelivery, payload conflict with quarantine, duplicate or blocked
    key, or a new queued task with its effect, and nothing else. *)
Theorem ingest_task_refines now qid qnow t s :
  reachable s → ingest_task now qid qnow t s = ingest_spec now qid qnow t s.
Proof. intros HI%reachable_Inv. by apply ingest_refines. Qed.

(** C2: [claim_task] computes its specification in every reachable state; in
    particular a queued task can always be claimed, its effect was never
    claimed before, and a claim that returns nothing changes nothing. *)
Theorem claim_task_refines now attempt_id tid s :
  reachable s → claim_task now attempt_id tid s = claim_spec now attempt_id tid s.
Proof. intros HI%reachable_Inv. by apply claim_refines. Qed.

(** C3: [finish_with_result] computes its specification in every reachable
    state: the transition, the result, the effect and the attempt are written
    together, or nothing is. *)
Theorem finish_with_result_refines now key tid current target result_id payload s :
  reachable s →
  finish_with_result now key tid current target result_id payload s
  = finish_spec now key tid current target result_id payload s.
Proof. intros HI%reachable_Inv. by apply finish_refines. Qed.

(** A row of the inbox is never lost, keeps its payload, its digests and
    its key, and its state only moves along the transition table, save for the
    interruption of an unfinished task by recovery. *)
Theorem task_rows_evolve s s' r :
  reachable s → history s s' → r ∈ inbox_tasks s →
  ∃ r', r' ∈ inbox_tasks s' ∧ task_evolves r r'
        ∧ (∀ q, q ∈ inbox_tasks s' → it_task_id q = it_task_id r → q = r').
Proof.
  intros Hr Hh Hin. destruct (ev_tasks _ _ (history_evolves _ _ Hr Hh) r Hin) as (r' & Hr' & He).
  exists r'. split_and!; [done..|]. intros q Hq E.
  eapply (unique_key_inj it_task_id); [|done..|by rewrite (te_id _ _ He)].
  apply inv_tasks, reachable_Inv. by eapply history_reachable.
Qed.

(** C5: a terminal state is final: whatever is called afterwards, restarts and
    recovery included, the task still has that state. *)
Theorem terminal_state_final s s' r r' :
  reachable s → history s s' → r ∈ inbox_tasks s → r' ∈ inbox_tasks s' →
  it_task_id r' = it_task_id r → terminal (it_state r) = true → it_state r' = it_state r.
Proof.
  intros Hr Hh Hin Hin' E Ht. eapply life_step_final; [done|].
  by eapply te_state, follow_task.
Qed.

(** The first invocation of a plugin is recorded for good: its time never
    changes, and every later [mark_invoked] for that task raises and writes
    nothing. *)
Theorem invoked_once s s' a t now :
  reachable s → history s s' → a ∈ task_attempts s → ta_invoked_at a = Some t →
  (∃ a', a' ∈ task_attempts s' ∧ ta_attempt_id a' = ta_attempt_id a ∧ ta_invoked_at a' = Some t)
  ∧ mark_invoked now (ta_task_id a) s'
    = (Err (StateConflictError "plugin invocation was already recorded"), s').
Proof.
  intros Hr Hh Ha Ht.
  destruct (ev_attempts _ _ (history_evolves _ _ Hr Hh) a Ha) as (a' & Ha' & [E1 E2 _ E4]).
  split; [by eauto|].
  assert (Inv s') as HI by (eapply reachable_Inv, history_reachable; done).
  unfold mark_invoked. run_tx. rewrite (proj2 (rowcount_0 _ _)); [done|].
  intros b Hb. unfold attempt_is. destruct (key_is ta_task_id _ b) eqn:E; [|done].
  apply key_is_true in E. assert (b = a') as ->.
  { eapply unique_key_inj; [apply (inv_attempts s' HI)|..]; congruence || done. }
  by rewrite (E4 t Ht).
Qed.

(** C7: a stored result is durable and the only one of its task: its document
    stays, any result of that task is that one, and no later
    [finish_with_result] for the task succeeds. *)
Theorem result_once s s' o now key current target result_id payload :
  reachable s → history s s' → o ∈ outbox_results s →
  (∃ o', o' ∈ outbox_results s' ∧ result_evolves o o'
         ∧ ∀ q, q ∈ outbox_results s' → or_task_id q = or_task_id o → q = o')
  ∧ is_ok (finish_with_result now key (or_task_id o) current target result_id payload s').1 = false.
Proof.
  intros Hr Hh Ho.
  destruct (ev_results _ _ (history_evolves _ _ Hr Hh) o Ho) as (o' & Ho' & He).
  assert (Inv s') as HI by (eapply reachable_Inv, history_reachable; done). split.
  - exists o'. split_and!; [done..|]. intros q Hq E.
    eapply unique_key_inj; [apply (inv_results s' HI)|done..|]. by rewrite (re_task _ _ He).
  - rewrite finish_refines by done. unfold finish_spec.
    repeat (case_match; try done). exfalso.
    rename select (insert_result _ _ = _) into Ei. unfold insert_result in Ei. inserted Ei.
    bool_simp. simpl in *. rename select (has_key or_task_id _ _ = false) into Hk.
    rewrite has_key_false in Hk. apply (Hk o' Ho'). by rewrite (re_task _ _ He).
Qed.

(** C9: [recover_interrupted] interrupts exactly the unfinished tasks
    (preparing, running, cancel requested or cleaning up), closes their
    attempts with cleanup requested, keeps every time stamp already set,
    leaves all other rows alone, and returns how many there were. *)
Theorem recover_interrupted_exact now s :
  reachable s →
  let ids := map it_task_id (select (λ r, interruptible (it_state r)) (inbox_tasks s)) in
  recover_interrupted now s =
    (Ok (length ids),
     set_attempts (update_rows (among ta_task_id ids) (close_attempt now) (task_attempts s))
       (set_inbox (update_rows (λ r, interruptible (it_state r)) (interrupt now)
                     (inbox_tasks s)) s)).
Proof. intros HI%reachable_Inv. by apply recover_interrupted_closed, HI. Qed.

(** After recovery nothing is left to recover: a second restart interrupts
    no task and writes nothing. *)
Theorem recover_interrupted_idempotent now1 now2 s :
  reachable s →
  recover_interrupted now2 (recover_interrupted now1 s).2
  = (Ok 0%nat, (recover_interrupted now1 s).2).
Proof.
  intros Hr. pose proof (reachable_Inv _ Hr) as HI.
  assert (Inv (recover_interrupted now1 s).2) as HI2.
  { eapply reachable_Inv, store_step_reachable; [done | constructor]. }
  rewrite (recover_interrupted_closed now2) by apply HI2.
  assert (select (λ r, interruptible (it_state r)) (inbox_tasks (recover_interrupted now1 s).2)
          = []) as E.
  { rewrite recover_interrupted_closed by apply HI. simpl.
    apply length_zero_iff_nil, rowcount_0. intros r' (r & Hr' & ->)%elem_of_update_rows.
    by destruct (interruptible (it_state r)) eqn:Ei. }
  rewrite E. simpl. f_equal. rewrite (update_rows_id (among ta_task_id [])) by
    (by apply rowcount_0). rewrite update_rows_id; [|by unfold select, rowcount in *; rewrite E].
  by destruct (recover_interrupted now1 s).2.
Qed.

(** Reading the queue row by row: healthy rows are returned, the others leave
    the queue. *)
Lemma queued_row_run qid qnow now row s :
  has_key qr_quarantine_id qid (quarantine s) = false →
  ∃ s', queued_row qid qnow now row (Conn s s false) = (Ok (decode_row row), Conn s' s' false)
    ∧ (decode_row row ≠ None → s' = s)
    ∧ (decode_row row = None →
       inbox_tasks s' = update_rows
          (λ r, key_is it_task_id (it_task_id row) r && state_eqb (it_state r) QUEUED)
          (task_set_state_reason REJECTED (reason_json "corrupt_row") now) (inbox_tasks s)
       ∧ quarantine s' = quarantine s ++
          [MkQuarantine qid "inbox_tasks" (it_task_id row) "corrupt_task_row"
             (Some (it_payload row)) (sha256_hex (it_payload row)) qnow]).
Proof.
  intros Hq. unfold queued_row, quarantine_in_transaction, insert_quarantine, check.
  destruct (decode_row row); run_tx; [by exists s|]. simpl. rewrite Hq. simpl.
  eexists. split_and!; [reflexivity | done | done].
Qed.

(** The quarantine identifiers a run may use. *)
Definition fresh_ids (ids : nat → string) (n : nat) (s : Store) : Prop :=
  (∀ i j, ids i = ids j → i = j) ∧
  ∀ i, (n ≤ i)%nat → has_key qr_quarantine_id (ids i) (quarantine s) = false.

Lemma queued_rows_run ids clock rows n s :
  fresh_ids ids n s →
  ∃ s', queued_rows ids clock n rows (Conn s s false)
        = (Ok (omap decode_row rows), Conn s' s' false)
    ∧ (∃ new, quarantine s' = quarantine s ++ new
              ∧ map qr_source_key new = map it_task_id (select (λ r, opt_is_none (decode_row r)) rows))
    ∧ ((∀ r, r ∈ rows → decode_row r ≠ None) → s' = s).
Proof.
  revert n s. induction rows as [|row rows IH]; intros n s [Hinj Hf]; cbn [queued_rows].
  - exists s. split_and!; [done | exists []; by rewrite app_nil_r | done].
  - destruct (queued_row_run (ids n) (clock (2 * n)%nat) (clock (2 * n + 1)%nat) row s)
      as (s1 & E1 & Hok & Hbad); [by apply Hf|].
    destruct (IH (S n) s1) as (s2 & E2 & (new & Eq & Em) & Hkeep).
    { split; [done|]. intros i Hi. destruct (decode_row row) eqn:Ed.
      - rewrite Hok by done. apply Hf. lia.
      - destruct Hbad as [_ ->]; [done|]. unfold has_key. rewrite existsb_app. simpl.
        apply orb_false_iff. split; [apply Hf; lia|]. rewrite orb_false_r.
        apply String.eqb_neq. simpl. intros E%Hinj. lia. }
    exists s2. unfold mbind, SE_bind. rewrite E1. cbn [fst snd]. rewrite E2.
    split_and!.
    + simpl. by destruct (decode_row row).
    + unfold select in *. simpl. destruct (decode_row row) eqn:Ed; simpl.
      * rewrite Hok in Eq by done. by exists new.
      * destruct Hbad as [_ Hb]; [done|]. rewrite Hb, <-app_assoc in Eq. eexists.
        split; [exact Eq|]. simpl. by rewrite Em.
    + intros Hall. rewrite Hkeep; [apply Hok, Hall; set_solver | set_solver].
Qed.

(** With fresh quarantine identifiers [queued_tasks] always returns, in the
    order of arrival, the envelopes of those among the first [n] queued rows
    whose stored text parses, matches its digest and validates; it
    quarantines exactly the other ones, and writes nothing when all are
    healthy. *)
Theorem queued_tasks_reads ids clock n s :
  fresh_ids ids 0 s →
  let rows := limit n (order_by (λ a b, str_leb (it_received_at a) (it_received_at b))
                (select (λ r, state_eqb (it_state r) QUEUED) (inbox_tasks s))) in
  (queued_tasks ids clock n s).1 = Ok (omap decode_row rows)
  ∧ (∃ new, quarantine (queued_tasks ids clock n s).2 = quarantine s ++ new
            ∧ map qr_source_key new
              = map it_task_id (select (λ r, opt_is_none (decode_row r)) rows))
  ∧ ((∀ r, r ∈ rows → decode_row r ≠ None) → (queued_tasks ids clock n s).2 = s).
Proof.
  intros Hf rows. destruct (queued_rows_run ids clock rows 0 s Hf) as (s' & E & Hq & Hk).
  assert (queued_tasks ids clock n s = (Ok (omap decode_row rows), s')) as ->; [|by auto].
  unfold queued_tasks, with_connection, query. unfold mbind, SE_bind. cbn [working].
  fold rows. by rewrite E.
Qed.
End TaskTheorems.

(** ** The theorems on concrete histories *)

Lemma one_attempt_per_effect_witness :
  hd running_attempt (task_attempts store_finished) = finished_attempt.
Proof.
  destruct store_finished_rows as (H1 & H2 & H3 & _), the_task_finished as (H4 & H5 & _).
  refine (one_attempt_per_effect store_finished _ _ (the_task store_finished) (the_task store_finished)
    store_finished_reachable H1 H2 H4 H4 _ _ eq_refl); [congruence | by rewrite H5].
Defined.

Lemma ingest_task_refines_witness :
  ingest_task "n" "q" "m" (example_task "t2" "k1" "e1") store_finished
  = ingest_spec "n" "q" "m" (example_task "t2" "k1" "e1") store_finished.
Proof. apply ingest_task_refines, store_finished_reachable. Defined.

Lemma claim_task_refines_witness :
  (claim_task "n" "a" "t1" store_queued).1 = Ok (Some "a").
Proof. rewrite (claim_task_refines "n" "a" "t1" store_queued store_queued_reachable). reflexivity. Defined.

Lemma finish_with_result_refines_witness :
  is_ok (finish_with_result "n" "k" "t1" RUNNING COMPLETED "r" JNull store_running).1 = false.
Proof.
  rewrite (finish_with_result_refines "n" "k" "t1" RUNNING COMPLETED "r" JNull store_running
             store_running_reachable). reflexivity.
Defined.

Lemma task_rows_evolve_witness :
  ∃ r', r' ∈ inbox_tasks store_finished ∧ task_evolves (the_task store_running) r'
    ∧ (∀ q, q ∈ inbox_tasks store_finished → it_task_id q = it_task_id (the_task store_running) → q = r').
Proof.
  exact (task_rows_evolve store_running store_finished (the_task store_running)
    store_running_reachable store_finished_history (proj1 the_task_running)).
Defined.

Lemma terminal_state_final_witness : it_state (the_task store_restarted) = COMPLETED.
Proof.
  destruct the_task_finished as (Hin & E & Hst), the_task_restarted as (Hin' & E').
  rewrite <-Hst.
  refine (terminal_state_final store_finished store_restarted (the_task store_finished)
    (the_task store_restarted) store_finished_reachable store_restarted_history Hin Hin' _ _);
    [congruence | rewrite Hst; reflexivity].
Defined.

Lemma invoked_once_witness :
  mark_invoked "later" "t1" store_finished
  = (Err (StateConflictError "plugin invocation was already recorded"), store_finished).
Proof.
  exact (proj2 (invoked_once store_running store_finished running_attempt
    "2026-01-01T00:00:02Z" "later" store_running_reachable store_finished_history
    store_running_attempt eq_refl)).
Defined.

Lemma result_once_witness :
  is_ok (finish_with_result "n" "k" (or_task_id finished_result) CLEANING_UP FAILED "r2" JNull
           store_restarted).1 = false.
Proof.
  destruct store_finished_rows as (_ & _ & _ & Ho & _).
  apply (result_once store_finished store_restarted finished_result "n" "k" CLEANING_UP FAILED "r2" JNull
    store_finished_reachable store_restarted_history Ho).
Defined.

Lemma recover_interrupted_exact_witness :
  (recover_interrupted "n" store_running).1 = Ok 1%nat.
Proof. rewrite (recover_interrupted_exact "n" store_running store_running_reachable). reflexivity. Defined.

Lemma recover_interrupted_idempotent_witness :
  (recover_interrupted "m" (recover_interrupted "n" store_running).2).1 = Ok 0%nat.
Proof.
  by rewrite (recover_interrupted_idempotent "n" "m" store_running store_running_reachable).
Defined.

Lemma queued_tasks_reads_witness :
  (queued_tasks nth_id (λ _, "now") 10 store_queued).1 = Ok [example_task "t1" "k1" "e1"].
Proof.
  destruct (queued_tasks_reads nth_id (λ _, "now") 10 store_queued) as [E _].
  - split; [apply nth_id_inj | done].
  - rewrite E. vm_compute. reflexivity.
Defined.
