(* ===== verification/StateTheorems.v ===== *)
(** * What the store guarantees about heartbeats, manifests, uploads and
    Windows operations

    The agent's own tables: a persisted heartbeat stays until its own sequence
    is confirmed, an upload stays until it is confirmed, pruning never offers
    what must be kept, and an idempotency key of a Windows operation stands for
    one intent. *)

From S2P Require Export StoreFrame StoreSpecs.

(** ** Well-formed databases *)

Section WellFormed.
Context `{Sha256} `{EnvelopeCodec}.

(** C6: every database that any history of calls can reach is well formed: the four
    keys are unique, no row rests in [received], a queued task owns the unclaimed
    effect of its key, and every attempt, effect and result belongs to a task that
    fits it. *)
Theorem store_well_formed s : reachable s → Inv s.
Proof. apply reachable_Inv. Qed.
End WellFormed.
Lemma store_well_formed_witness : inbox_tasks store_finished ≠ [] ∧ outbox_results store_finished ≠ [] ∧ Inv store_finished.
Proof. split; [by vm_compute|]. split; [by vm_compute|]. apply store_well_formed, store_finished_reachable. Defined.

(** ** Heartbeats *)

Section Heartbeats.
Context `{Sha256} `{EnvelopeCodec}.

(** The pending heartbeat of a runtime row and the last acknowledged one. *)
Definition heartbeat_slot (s : Store) : option (option Z * option string * option string * Z) :=
  (λ r, (rs_heartbeat_pending_sequence r, rs_heartbeat_pending_payload r,
         rs_heartbeat_pending_hash r, rs_heartbeat_acked_sequence r)) <$> runtime_state s.

(** Once a heartbeat is persisted, nothing but the confirmation of its own
    sequence or the removal of the identity takes it away: not a restart, not
    another heartbeat, not any other call. *)
Theorem pending_heartbeat_durable s s' n text hash acked :
  heartbeat_slot s = Some (Some n, text, hash, acked) → store_step s s' →
  heartbeat_slot s' = Some (Some n, text, hash, acked)
  ∨ heartbeat_slot s' = Some (None, None, None, n)
  ∨ heartbeat_slot s' = None ∧ agent_identity s' = None.
Proof.
  intros Hs Hstep. destruct Hstep;
    try (left; revert Hs; by_frame).
  - right; right. done.
  - left. revert Hs. unfold start_runtime, heartbeat_slot. run_tx. simpl.
    by destruct (runtime_state s).
  - left. revert Hs. unfold stop_runtime, heartbeat_slot. run_tx. simpl.
    by destruct (runtime_state s).
  - left. revert Hs. unfold confirm_manifest, heartbeat_slot. run_tx.
    repeat (tx_case; try done); simplify_eq/=; by destruct (runtime_state s).
  - left. revert Hs. unfold persist_heartbeat, heartbeat_slot. run_tx.
    destruct (runtime_state s) as [r|] eqn:Er; simpl; [|done]. intros [= E1 E2 E3 E4].
    rewrite E1. simpl. by rewrite Er, <-E1, <-E2, <-E3, <-E4.
  - revert Hs. unfold confirm_heartbeat, heartbeat_slot. run_tx.
    destruct (runtime_state s) as [r|] eqn:Er; simpl; [|done]. intros [= E1 E2 E3 E4].
    rewrite E1. destruct (bool_decide _) eqn:Eb; simpl.
    + right; left. apply bool_decide_eq_true in Eb. by simplify_eq.
    + left. by rewrite Er, <-E1, <-E2, <-E3, <-E4.
Qed.

(** A heartbeat is accepted exactly when the runtime has started and none
    is pending; it is then pending with its digest, confirming its sequence
    empties the slot and acknowledges it, and confirming any other sequence
    raises and writes nothing. *)
Theorem heartbeat_protocol now now' n k p s acked text hash :
  heartbeat_slot s = Some (None, text, hash, acked) →
  let s1 := (persist_heartbeat now n p s).2 in
  persist_heartbeat now n p s = (Ok tt, s1)
  ∧ heartbeat_slot s1 = Some (Some n, Some (canonical_json p), Some (digest p), acked)
  ∧ is_ok (persist_heartbeat now' k p s1).1 = false
  ∧ (let s2 := confirm_heartbeat now' k s1 in
     if k =? n then s2.1 = Ok tt ∧ heartbeat_slot s2.2 = Some (None, None, None, n)
     else s2 = (Err (StateConflictError "heartbeat confirmation conflict"), s1)).
Proof.
  unfold heartbeat_slot. intros Hs. destruct (runtime_state s) as [r|] eqn:Er; [|done].
  simpl in Hs. injection Hs as E1 E2 E3 E4.
  unfold persist_heartbeat, confirm_heartbeat. run_tx. rewrite Er, E1. simpl. rewrite Er. subst acked. simpl. split_and!; try done. destruct (k =? n) eqn:E.
  - apply Z.eqb_eq in E as ->. rewrite bool_decide_eq_true_2 by done. done.
  - rewrite bool_decide_eq_false_2; [done|]. intros [= ->]. by rewrite Z.eqb_refl in E.
Qed.
End Heartbeats.

(** ** Uploads *)

(** What never changes of an upload. *)
Record upload_kept (u u' : UploadRow) : Prop := {
  uk_id : pu_upload_id u' = pu_upload_id u;
  uk_artifact : pu_artifact_id u' = pu_artifact_id u;
  uk_task : pu_task_id u' = pu_task_id u;
  uk_path : pu_relative_path u' = pu_relative_path u;
  uk_size : pu_size_bytes u' = pu_size_bytes u;
  uk_sha256 : pu_sha256 u' = pu_sha256 u;
  uk_payload : pu_payload u' = pu_payload u;
  uk_state : pu_state u' = pu_state u ∨ pu_state u' = D_CONFIRMED;
}.

Section Uploads.
Context `{Sha256} `{EnvelopeCodec}.

(** An upload that is not confirmed is never lost and never renamed: any
    call leaves it in the table with its artifact, path, size, digest and
    document, and changes its state only to confirmed. *)
Theorem unconfirmed_upload_survives s s' u :
  store_step s s' → u ∈ pending_uploads s → pu_state u ≠ D_CONFIRMED →
  ∃ u', u' ∈ pending_uploads s' ∧ upload_kept u u'.
Proof.
  intros Hstep Hu Hst.
  assert (∀ st, pending_uploads st = pending_uploads s →
          ∃ u', u' ∈ pending_uploads st ∧ upload_kept u u') as Hsame.
  { intros st ->. exists u. split; [done|]. constructor; auto. }
  assert (pending_uploads s = pending_uploads s) as Hs by done.
  destruct Hstep; try (apply Hsame; revert Hs; by_frame); clear Hs.
  - unfold confirm_outbox. run_tx. destruct (negb _); [by apply Hsame|]. simpl.
    destruct (String.eqb t _); [by apply Hsame|]. destruct (String.eqb t _); [by apply Hsame|].
    eexists. split; [simpl; by apply elem_of_update_fwd|].
    destruct (key_is _ _ u); constructor; auto.
  - unfold ensure_artifact_queued. run_tx. repeat (tx_case; try (by apply Hsame)).
    unfold insert_upload in *. inserted Heqr. exists u. simpl.
    split; [set_solver | constructor; auto].
  - unfold delete_confirmed_artifact. run_tx. simpl. exists u. split; [|constructor; auto].
    apply elem_of_delete_rows. split; [done|]. unfold delivery_eqb.
    by rewrite bool_decide_eq_false_2, andb_false_r.
  - unfold update_confirmed_artifact_path. run_tx. repeat (tx_case; try (by apply Hsame)).
    simplify_eq/=. exists u. split; [|constructor; auto]. apply elem_of_update_rows. exists u.
    split; [done|]. unfold delivery_eqb. by rewrite bool_decide_eq_false_2, andb_false_r.
Qed.
End Uploads.

(** ** Pruning *)

Lemma map_fst_ranked pos bytes rows : map (λ r, r.1.1) (ranked pos bytes rows) = rows.
Proof. revert pos bytes. induction rows as [|u rows IH]; intros; simpl; [done|]. by rewrite IH. Qed.

Lemma elem_of_ranked r pos bytes rows : r ∈ ranked pos bytes rows → r.1.1 ∈ rows.
Proof. intros Hr. rewrite <-(map_fst_ranked pos bytes rows). by apply (list_elem_of_fmap_2 (λ r, r.1.1)). Qed.

(** Whatever the limits, pruning only ever offers uploads that are confirmed
    and not already in prune quarantine. *)
Theorem pruned_are_confirmed before count bytes uploads u :
  u ∈ prune_candidates before count bytes uploads →
  u ∈ uploads ∧ pu_state u = D_CONFIRMED
  ∧ is_artifact_prune_quarantine_path (pu_relative_path u) = false.
Proof.
  unfold prune_candidates. rewrite elem_of_order_by, list_elem_of_In, in_map_iff.
  intros (r & <- & [Hr _]%filter_In). apply list_elem_of_In, elem_of_ranked in Hr.
  apply elem_of_order_by, elem_of_select in Hr as [Hin Hp]. unfold prunable in Hp. bool_simp.
  unfold delivery_eqb in *. split_and!; [done | by eapply bool_decide_eq_true |].
  by rewrite quarantine_path_iff_pattern, <-sql_quarantine_path_pattern.
Qed.

(** The uploads pruning considers, newest first. *)
Definition newest_first (uploads : list UploadRow) : list UploadRow :=
  order_by newer (select prunable uploads).

Definition total_bytes (rows : list UploadRow) : Z :=
  foldr (λ u n, pu_size_bytes u + n) 0 rows.

Lemma ranked_count n rows : ∀ pos bytes, 0 ≤ pos →
  map (λ r, r.1.1) (List.filter (expired None (Some n) None) (ranked pos bytes rows))
  = drop (Z.to_nat (n - pos)) rows.
Proof.
  induction rows as [|u rows IH]; intros pos bytes Hpos; simpl; [by rewrite drop_nil|].
  rewrite orb_false_r. destruct (n <? pos + 1) eqn:E; simpl; rewrite IH by lia.
  - apply Z.ltb_lt in E. by replace (Z.to_nat (n - pos)) with 0%nat by lia;
      replace (Z.to_nat (n - (pos + 1))) with 0%nat by lia.
  - apply Z.ltb_ge in E. by replace (Z.to_nat (n - pos)) with (S (Z.to_nat (n - (pos + 1)))) by lia.
Qed.

(** With a count limit alone, pruning offers exactly the uploads beyond the
    [n] newest: the [n] newest confirmed artifacts are always retained. *)
Theorem prune_retains_newest n uploads :
  0 ≤ n →
  prune_candidates None (Some n) None uploads ≡ₚ drop (Z.to_nat n) (newest_first uploads).
Proof.
  intros Hn. unfold prune_candidates. rewrite order_by_Permutation, ranked_count by lia.
  by replace (n - 0) with n by lia.
Qed.

Lemma total_bytes_nonneg rows : (∀ u, u ∈ rows → 0 ≤ pu_size_bytes u) → 0 ≤ total_bytes rows.
Proof.
  induction rows as [|u rows IH]; intros Hs; simpl; [lia|].
  pose proof (Hs u ltac:(left)). specialize (IH ltac:(set_solver)). lia.
Qed.

Lemma ranked_all_expired n rows : ∀ pos bytes,
  (∀ u, u ∈ rows → 0 ≤ pu_size_bytes u) → n < bytes →
  map (λ r, r.1.1) (List.filter (expired None None (Some n)) (ranked pos bytes rows)) = rows.
Proof.
  induction rows as [|u rows IH]; intros pos bytes Hs Hb; simpl; [done|].
  pose proof (Hs u ltac:(left)). replace (n <? bytes + pu_size_bytes u) with true by lia. simpl.
  rewrite IH; [done | set_solver | lia].
Qed.

Lemma ranked_bytes n rows : ∀ pos bytes,
  (∀ u, u ∈ rows → 0 ≤ pu_size_bytes u) → bytes ≤ n →
  ∃ k, map (λ r, r.1.1) (List.filter (expired None None (Some n)) (ranked pos bytes rows))
       = drop k rows
     ∧ bytes + total_bytes (take k rows) ≤ n
     ∧ ((k < length rows)%nat → n < bytes + total_bytes (take (S k) rows)).
Proof.
  induction rows as [|u rows IH]; intros pos bytes Hs Hb.
  - exists 0%nat. simpl. split_and!; [done | lia | lia].
  - assert (∀ v, v ∈ rows → 0 ≤ pu_size_bytes v) as Hs' by set_solver.
    simpl. destruct (n <? bytes + pu_size_bytes u) eqn:E; simpl.
    + apply Z.ltb_lt in E. exists 0%nat. simpl.
      rewrite ranked_all_expired by done. split_and!; [done | lia |]. intros _. simpl. lia.
    + apply Z.ltb_ge in E. destruct (IH (pos + 1) (bytes + pu_size_bytes u) Hs' E) as (k & E1 & E2 & E3).
      exists (S k). rewrite E1. simpl in *. split_and!; [done | lia |]. intros Hk.
      specialize (E3 ltac:(lia)). lia.
Qed.

(** With a byte limit alone, pruning keeps the longest run of newest uploads
    whose total size fits the limit and offers all the others. *)
Theorem prune_retains_bytes n uploads :
  0 ≤ n → (∀ u, u ∈ uploads → 0 ≤ pu_size_bytes u) →
  ∃ k, prune_candidates None None (Some n) uploads ≡ₚ drop k (newest_first uploads)
     ∧ total_bytes (take k (newest_first uploads)) ≤ n
     ∧ ((k < length (newest_first uploads))%nat →
        n < total_bytes (take (S k) (newest_first uploads))).
Proof.
  intros Hn Hs. destruct (ranked_bytes n (newest_first uploads) 0 0) as (k & E1 & E2 & E3).
  - intros u [Hu _]%elem_of_order_by%elem_of_select. by apply Hs.
  - done.
  - exists k. unfold prune_candidates. rewrite order_by_Permutation. unfold newest_first in E1.
    rewrite E1. done.
Qed.

(** C40: the rule that recognises quarantined artifacts is the same in SQL and in
    Python, on every text. *)
Theorem quarantine_rules_agree path :
  sql_quarantine_path path = is_artifact_prune_quarantine_path path.
Proof. by rewrite quarantine_path_iff_pattern, sql_quarantine_path_pattern. Qed.

(** ** Windows operations *)

Section WindowsOps.
Context `{Sha256} `{EnvelopeCodec}.

(** An idempotency key stands for one intent: once [begin] has returned an
    operation, repeating it returns the same operation and writes nothing,
    and beginning anything whose intent digest differs under that key raises
    and writes nothing. *)
Theorem begin_windows_operation_idempotent now oid key act guid tp pp s w :
  (begin_windows_operation now oid key act guid tp pp s).1 = Ok w →
  let s1 := (begin_windows_operation now oid key act guid tp pp s).2 in
  ∀ now' oid' act' guid' tp' pp',
    begin_windows_operation now' oid' key act' guid' tp' pp' s1 =
      (if String.eqb (intent_hash act guid tp) (intent_hash act' guid' tp') then Ok w
       else Err (DuplicateConflictError
              "Windows network idempotency key was reused for another intent"), s1).
Proof.
  unfold begin_windows_operation at 1 2, windows_operation. run_tx.
  destruct (select_one _ (windows_network_operations s)) as [e|] eqn:Ee.
  - destruct (String.eqb (wo_intent_hash e) _) eqn:Eh; simpl; [|done].
    intros [= ->] now' oid' act' guid' tp' pp'. apply String.eqb_eq in Eh.
    unfold begin_windows_operation. run_tx. rewrite Ee, Eh. by destruct (String.eqb _ _).
  - cbn [committed working in_tx]. match goal with |- context [insert_windows ?row s] =>
      destruct (insert_windows row s) as [[[] s1]|] eqn:Ei end; simpl; [|done].
    unfold insert_windows in Ei. inserted Ei. simpl.
    rewrite select_one_snoc; [|done|by unfold key_is; rewrite String.eqb_refl]. simpl.
    intros [= <-] now' oid' act' guid' tp' pp'. unfold begin_windows_operation. run_tx. simpl.
    rewrite select_one_snoc; [|done|by unfold key_is; rewrite String.eqb_refl]. simpl.
    by destruct (String.eqb _ _).
Qed.

Lemma windows_keys_unique s : reachable s → unique_key wo_idempotency_key (windows_network_operations s).
Proof.
  intros Hr. assert (∀ s1 s2, store_step s1 s2 →
    unique_key wo_idempotency_key (windows_network_operations s1) →
    unique_key wo_idempotency_key (windows_network_operations s2)) as Hstep.
  { intros s1 s2 Hs Hu.
    assert (windows_network_operations s1 = windows_network_operations s1) as E by done.
    assert (∀ st, windows_network_operations st = windows_network_operations s1 →
      unique_key wo_idempotency_key (windows_network_operations st)) as Hsame by (by intros st ->).
    destruct Hs; try (apply Hsame; revert E; by_frame); clear E.
    - unfold begin_windows_operation, windows_operation. run_tx.
      repeat (tx_case; try (by apply Hsame)); simplify_eq;
        rename select (insert_windows _ _ = _) into Ei; unfold insert_windows in Ei; inserted Ei;
        bool_simp; by apply unique_key_snoc.
    - unfold transition_windows_operation, windows_operation. run_tx.
      repeat (tx_case; try (by apply Hsame)); simplify_eq/=; by apply unique_key_update. }
  unfold reachable, history in Hr. remember empty_store as s0 eqn:E0.
  assert (unique_key wo_idempotency_key (windows_network_operations s0)) as H0u
    by (subst; apply unique_key_nil).
  clear E0. induction Hr; eauto.
Qed.

(** A transition of a Windows operation is a compare-and-set on its one
    row: it succeeds exactly when the operation exists in one of the expected
    states, returns the updated row, completes it at most once, and otherwise
    raises and writes nothing. *)
Theorem transition_windows_operation_cas now key current target rr le s :
  reachable s → current ≠ [] →
  transition_windows_operation now key current target rr le s =
    match select_one (key_is wo_idempotency_key key) (windows_network_operations s) with
    | Some w =>
        if bool_decide (wo_state w ∈ current) then
          (Ok (win_update target now rr le w),
           set_windows (update_rows (key_is wo_idempotency_key key) (win_update target now rr le)
                          (windows_network_operations s)) s)
        else (Err (StateConflictError "Windows network operation transition conflict"), s)
    | None => (Err (StateConflictError "Windows network operation transition conflict"), s)
    end.
Proof.
  intros Hu%windows_keys_unique Hc. unfold transition_windows_operation, windows_operation. run_tx.
  rewrite bool_decide_eq_false_2 by done.
  set (p := λ w, key_is wo_idempotency_key key w && bool_decide (wo_state w ∈ current)).
  destruct (select_one _ (windows_network_operations s)) as [w|] eqn:Ew.
  2:{ rewrite (proj2 (rowcount_0 p _)); [done|]. intros w Hw. unfold p.
      rewrite select_one_None in Ew. by rewrite (Ew w Hw). }
  apply select_one_Some in Ew as [Hw E%key_is_true]. subst key.
  destruct (bool_decide (wo_state w ∈ current)) eqn:Ed.
  2:{ rewrite (proj2 (rowcount_0 p _)); [done|]. intros w' Hw'. unfold p.
      destruct (key_is wo_idempotency_key (wo_idempotency_key w) w') eqn:E; [|done].
      apply key_is_true in E. by rewrite (unique_key_inj _ _ w' w Hu Hw' Hw E), Ed. }
  rewrite (rowcount_one wo_idempotency_key _ p w Hu); [|by intros w' [?%key_is_true _]%andb_true_iff
    |done|unfold p, key_is; by rewrite String.eqb_refl, Ed]. simpl.
  rewrite (update_rows_ext_in p (key_is wo_idempotency_key (wo_idempotency_key w)))
    by (by apply (key_and wo_idempotency_key (λ w, bool_decide (wo_state w ∈ current)))).
  erewrite (select_one_key wo_idempotency_key _ _ (win_update target now rr le w)); [done| | |done].
  - by apply unique_key_update.
  - apply elem_of_update_rows. exists w. unfold key_is. by rewrite String.eqb_refl.
Qed.
End WindowsOps.

(** ** The order of time stamps *)

(** The text order of [utc_now] is not the order of time: a task received on
    a whole second is queued after one received a microsecond later, because
    [isoformat] drops a zero fraction and the byte of Z is above the byte of the
    decimal point.  The queue is therefore not always first come, first served. *)
Theorem queue_order_at_whole_second :
  let at_us us := utc_now (DateTime (1767225600000000 + us) 0) in
  let s := (ingest_task (at_us 1) "q" "n" (example_task "t2" "k2" "e2")
             (ingest_task (at_us 0) "q" "n" (example_task "t1" "k1" "e1") empty_store).2).2 in
  map task_id <$> (match (queued_tasks nth_id (λ _, "n") 10 s).1 with Ok l => Some l | Err _ => None end)
  = Some ["t2"; "t1"].
Proof. vm_compute. reflexivity. Qed.

(** ** The theorems on concrete databases *)

Definition runtime_store : Store := (start_runtime "n" "boot" empty_store).2.
Definition heartbeat_store : Store := (persist_heartbeat "n" 0 (JObj []) runtime_store).2.

Lemma pending_heartbeat_durable_witness :
  heartbeat_slot (start_runtime "m" "boot2" heartbeat_store).2 = heartbeat_slot heartbeat_store.
Proof.
  destruct (pending_heartbeat_durable heartbeat_store (start_runtime "m" "boot2" heartbeat_store).2
    0 (Some "{}") (Some (pad64 "{}")) (-1)) as [E|[E|[E _]]].
  - vm_compute. reflexivity.
  - constructor.
  - rewrite E. vm_compute. reflexivity.
  - vm_compute in E. discriminate.
  - vm_compute in E. discriminate.
Defined.

Lemma heartbeat_protocol_witness : is_ok (persist_heartbeat "n" 1 JNull heartbeat_store).1 = false.
Proof.
  apply (heartbeat_protocol "n" "n" 0 1 (JObj []) runtime_store (-1) None None).
  vm_compute. reflexivity.
Defined.

Definition example_upload (uid aid path : string) (size : Z) (st : DeliveryState) (at_time : string)
    : UploadRow :=
  MkUpload uid aid "t1" path "text/plain" size (pad64 "s") "{}" (pad64 "{}") st at_time (Some at_time).
Definition uploads_example : list UploadRow :=
  [example_upload "u1" "a1" "outbox/a" 10 D_CONFIRMED "2026-01-01T00:00:00Z";
   example_upload "u2" "a2" "outbox/b" 20 D_CONFIRMED "2026-01-02T00:00:00Z";
   example_upload "u3" "a3" "outbox/c" 30 D_PENDING "2026-01-03T00:00:00Z"].

Lemma unconfirmed_upload_survives_witness :
  ∃ u', u' ∈ pending_uploads (delete_confirmed_artifact "u3" (set_uploads uploads_example empty_store)).2
    ∧ upload_kept (example_upload "u3" "a3" "outbox/c" 30 D_PENDING "2026-01-03T00:00:00Z") u'.
Proof.
  apply (unconfirmed_upload_survives (set_uploads uploads_example empty_store));
    [constructor | do 2 right; left | discriminate].
Defined.

Lemma pruned_are_confirmed_witness :
  pu_state (example_upload "u1" "a1" "outbox/a" 10 D_CONFIRMED "2026-01-01T00:00:00Z") = D_CONFIRMED.
Proof.
  apply (pruned_are_confirmed None (Some 1) None uploads_example). vm_compute. left.
Defined.

Lemma prune_retains_newest_witness :
  prune_candidates None (Some 1) None uploads_example ≡ₚ drop 1 (newest_first uploads_example).
Proof. apply (prune_retains_newest 1 uploads_example). lia. Defined.

Lemma prune_retains_bytes_witness :
  ∃ k, prune_candidates None None (Some 25) uploads_example ≡ₚ drop k (newest_first uploads_example)
     ∧ total_bytes (take k (newest_first uploads_example)) ≤ 25
     ∧ ((k < length (newest_first uploads_example))%nat →
        25 < total_bytes (take (S k) (newest_first uploads_example))).
Proof.
  apply (prune_retains_bytes 25 uploads_example); [lia|].
  intros u Hu. repeat (apply elem_of_cons in Hu as [->|Hu]; [simpl; lia|]).
  by apply elem_of_nil in Hu.
Defined.

Definition windows_store : Store :=
  (begin_windows_operation "n" "o1" "k" W_CONNECT "g" (Some "p") None empty_store).2.

Lemma begin_windows_operation_idempotent_witness :
  ∃ w, begin_windows_operation "m" "o2" "k" W_CONNECT "g" (Some "p") None windows_store
       = (Ok w, windows_store).
Proof.
  eexists. unfold windows_store.
  refine (begin_windows_operation_idempotent "n" "o1" "k" W_CONNECT "g" (Some "p") None empty_store
    _ eq_refl "m" "o2" W_CONNECT "g" (Some "p") None).
Defined.

Lemma transition_windows_operation_cas_witness :
  is_ok (transition_windows_operation "m" "k" [WS_RUNNING] WS_COMPLETED None None windows_store).1 = false.
Proof.
  rewrite (transition_windows_operation_cas "m" "k" [WS_RUNNING] WS_COMPLETED None None windows_store).
  - vm_compute. reflexivity.
  - eapply store_step_reachable; [apply rtc_refl | constructor].
  - discriminate.
Defined.
