(* ===== verification/Runner.v ===== *)
(** * Plugins and the task runner

    [plugins/registry.py], [ports/plugins.py] and [application/task_runner.py].
    Everything between two [await]s runs without interruption on the event
    loop, so [run] is one program with two suspension points: the plugin's
    [execute] and its [cleanup].  At each of them the rest of the agent runs;
    what it does is an argument, a function from the state at the suspension to
    the outcome and the state at the resumption. *)

From S2P Require Export StoreSpecs.

(** ** The plugin registry *)

(** [PluginDescriptor]; [parameter_model] is a pydantic class, of which the
    runner uses whether [model_validate] accepts. *)
Record PluginDescriptor := {
  pd_task_type : string;
  pd_task_type_version : string;
  provider_id : string;
  provider_version : string;
  plugin_method : string;
  parameter_model : list (string * json) → bool;
  required_commands : list string;
  max_timeout_seconds : Z;
}.

Definition plugin_key : Type := string * string.
Definition descriptor_key (d : PluginDescriptor) : plugin_key :=
  (pd_task_type d, pd_task_type_version d).

Record PluginRegistry := { registered : list (plugin_key * PluginDescriptor) }.

Definition lookup_plugin (k : plugin_key) (l : list (plugin_key * PluginDescriptor))
    : option PluginDescriptor :=
  snd <$> List.find (λ kv, bool_decide (kv.1 = k)) l.

Fixpoint compile_plugins (plugins : list PluginDescriptor)
    (compiled : list (plugin_key * PluginDescriptor))
    : result (list (plugin_key * PluginDescriptor)) :=
  match plugins with
  | [] => Ok compiled
  | p :: plugins' =>
      if opt_is_some (lookup_plugin (descriptor_key p) compiled)
      then Err (ValueError "duplicate compiled plugin")
      else compile_plugins plugins' (compiled ++ [(descriptor_key p, p)])
  end.

(** [PluginRegistry.__init__] *)
Definition make_registry (plugins : list PluginDescriptor) (configured_allowlist : list string)
    : result PluginRegistry :=
  compiled ← compile_plugins plugins [];
  if forallb (λ name, existsb (λ kv, String.eqb kv.1.1 name) compiled) configured_allowlist
  then Ok {| registered :=
               List.filter (λ kv, str_in kv.1.1 configured_allowlist) compiled |}
  else Err (ValueError "configuration cannot enable a plugin absent from the compiled registry").

Definition registry_get (reg : PluginRegistry) (task_type task_type_version : string)
    : result PluginDescriptor :=
  match lookup_plugin (task_type, task_type_version) (registered reg) with
  | Some p => Ok p
  | None => Err (PluginUnavailableError "plugin is unknown or not locally allowlisted")
  end.

(** The order of [sorted] by type, then version. *)
Definition descriptor_leb (a b : PluginDescriptor) : bool :=
  if String.eqb (pd_task_type a) (pd_task_type b)
  then str_leb (pd_task_type_version a) (pd_task_type_version b)
  else str_leb (pd_task_type a) (pd_task_type b).

Definition descriptors (reg : PluginRegistry) : list json :=
  map (λ d, JObj [("task_type", JStr (pd_task_type d));
                  ("task_type_version", JStr (pd_task_type_version d));
                  ("provider_id", JStr (provider_id d));
                  ("provider_version", JStr (provider_version d));
                  ("method", JStr (plugin_method d));
                  ("required_commands",
                    JList (map JStr (order_by str_leb (required_commands d))))])
    (order_by descriptor_leb (map snd (registered reg))).

(** [ContractCheckPlugin], the plugin [build_plugin_registry] compiles in; its
    parameter model forbids every parameter. *)
Definition ContractCheckPlugin : PluginDescriptor :=
  {| pd_task_type := "protocol.contract_check"; pd_task_type_version := "1.0.0";
     provider_id := "wto-agent-core"; provider_version := "0.1.0";
     plugin_method := "contract_check"; parameter_model := λ p, bool_decide (p = []);
     required_commands := []; max_timeout_seconds := 30 |}.
Definition build_plugin_registry (configured_allowlist : list string) : result PluginRegistry :=
  make_registry [ContractCheckPlugin] configured_allowlist.

(** ** Runner state *)

(** [CancellationToken] objects live in a heap, because the runner, the plugin
    and the table of cancellations share them. *)
Record Runner := MkRunner {
  store : Store;
  tokens : list bool;
  cancellations : gmap string nat;
}.

Definition with_store {A} (m : SE Store A) : SE Runner A := λ r,
  let '(x, s) := m (store r) in (x, MkRunner s (tokens r) (cancellations r)).
Definition new_token : SE Runner nat := λ r,
  (Ok (length (tokens r)), MkRunner (store r) (tokens r ++ [false]) (cancellations r)).
Definition token_cancel (t : nat) : SE Runner unit := λ r,
  (Ok tt, MkRunner (store r) (<[t := true]> (tokens r)) (cancellations r)).
Definition token_cancelled (t : nat) : SE Runner bool := λ r,
  (Ok (default false (tokens r !! t)), r).
Definition register_token (tid : string) (t : nat) : SE Runner unit := λ r,
  (Ok tt, MkRunner (store r) (tokens r) (<[tid := t]> (cancellations r))).
Definition pop_token (tid : string) : SE Runner unit := λ r,
  (Ok tt, MkRunner (store r) (tokens r) (delete tid (cancellations r))).

(** [TaskRunner.cancel] *)
Definition cancel (tid : string) : SE Runner unit := λ r,
  match cancellations r !! tid with
  | Some t => token_cancel t r
  | None => (Ok tt, r)
  end.

(** ** Outcomes of the two suspension points *)

Record PluginResult := {
  result_failed : bool;          (** [status == "failed"] *)
  outcome : string;
  metrics : list json;
}.

(** How [wait_for(plugin.execute(...))] ends. *)
Inductive ExecuteOutcome :=
  | Returned (result : PluginResult)
  | RaisedTimeout
  | RaisedCancelled
  | RaisedException.

(** How [wait_for(plugin.cleanup(...))] ends. *)
Inductive CleanupOutcome := CleanupDone | CleanupRaised | CleanupCancelled.

Definition suspended (A : Type) : Type := Runner → A * Runner.
Definition await {A} (w : suspended A) : SE Runner A := λ r, let '(a, r') := w r in (Ok a, r').

Section TaskRunner.
Context `{Sha256} `{EnvelopeCodec} (plugins : PluginRegistry).

(** The [progress] callback given to the plugin, with its counter. *)
Definition progress (now event_id key occurred_at : string) (task : LocalTaskEnvelope)
    (sequence : Z) (percent : string) : SE Runner Z :=
  let sequence' := sequence + 1 in
  with_store (queue_progress now (task_id task) event_id sequence'
    (JObj [("schema_version", JStr "1.0.0"); ("event_id", JStr event_id);
           ("task_id", JStr (task_id task)); ("execution_id", JStr (execution_id task));
           ("sequence", JInt sequence'); ("event_type", JStr "running");
           ("occurred_at", JStr occurred_at); ("progress_percent", JFloat percent);
           ("reason", JNull); ("idempotency_key", JStr key)])) ;;
  mret sequence'.

Definition result_payload (result_id finished_at : string) (task : LocalTaskEnvelope)
    (plugin : PluginDescriptor) (final_state : TaskState) (result : option PluginResult)
    (detail : option string) : json :=
  JObj [("schema_version", JStr "1.0.0"); ("result_id", JStr result_id);
        ("task_id", JStr (task_id task)); ("execution_id", JStr (execution_id task));
        ("local_state", JStr (value final_state));
        ("outcome", JStr match result with Some r => outcome r | None => "not_evaluated" end);
        ("provider", JObj [("provider_id", JStr (provider_id plugin));
                           ("provider_version", JStr (provider_version plugin));
                           ("method", JStr (plugin_method plugin))]);
        ("metrics", JList match result with Some r => metrics r | None => [] end);
        ("reason", match detail with Some d => JStr d | None => JNull end);
        ("finished_at", JStr finished_at)].

(** Clock readings and identifiers one call of [run] takes: [at_time] gives
    the store's [utc_now] texts in the order of the calls. *)
Record RunInputs := {
  started : datetime;
  at_time : nat → string;
  attempt_id : string;
  result_id : string;
  result_key : string;
  finished_at : string;
}.

(** The [try] around [execute]: final state, detail and result. *)
Definition settle (i : RunInputs) (tid : string) (token : nat) (out : ExecuteOutcome)
    : SE Runner (TaskState * option string * option PluginResult) :=
  match out with
  | Returned r => mret (if result_failed r then FAILED else COMPLETED, None, Some r)
  | RaisedTimeout =>
      token_cancel token ;;
      with_store (transition_task (at_time i 3) tid RUNNING CANCEL_REQUESTED) ;;
      mret (FAILED, Some "timeout", None)
  | RaisedCancelled =>
      token_cancel token ;;
      with_store (transition_task (at_time i 3) tid RUNNING CANCEL_REQUESTED) ;;
      mret (CANCELLED, Some "cancelled", None)
  | RaisedException => mret (FAILED, Some "plugin_failed", None)
  end.

(** The [try] around [cleanup]. *)
Definition settle_cleanup (i : RunInputs) (tid : string) (c : CleanupOutcome)
    (final_state : TaskState) (detail : option string) : SE Runner (TaskState * option string) :=
  match c with
  | CleanupDone =>
      with_store (complete_cleanup (at_time i 6) tid None) ;; mret (final_state, detail)
  | CleanupRaised =>
      with_store (complete_cleanup (at_time i 6) tid (Some "cleanup_failed")) ;;
      mret (FAILED, Some "cleanup_failed")
  | CleanupCancelled => raise CancelledError
  end.

(** From the return of [execute] to the end of [run]. *)
Definition conclude (i : RunInputs) (task : LocalTaskEnvelope) (plugin : PluginDescriptor)
    (token : nat) (cleanup : suspended CleanupOutcome) (out : ExecuteOutcome)
    : SE Runner TaskState :=
  let tid := task_id task in
  settled ← settle i tid token out;
  let '(final_state, detail, res) := settled in
  cancelled ← token_cancelled token;
  let current := if (cancelled : bool) then CANCEL_REQUESTED else RUNNING in
  with_store (transition_task (at_time i 4) tid current CLEANING_UP) ;;
  with_store (request_cleanup (at_time i 5) tid) ;;
  c ← await cleanup;
  cleaned ← settle_cleanup i tid c final_state detail;
  let '(final_state, detail) := cleaned in
  with_store (finish_with_result (at_time i 7) (result_key i) tid CLEANING_UP final_state
    (result_id i) (result_payload (result_id i) (finished_at i) task plugin final_state res detail)) ;;
  pop_token tid ;;
  mret final_state.

(** [TaskRunner.run] *)
Definition run (i : RunInputs) (execute : suspended ExecuteOutcome)
    (cleanup : suspended CleanupOutcome) (task : LocalTaskEnvelope) : SE Runner TaskState :=
  let tid := task_id task in
  if dt_leb (expires_at task) (started i) then
    with_store (transition_task (at_time i 0) tid QUEUED SKIPPED) ;; mret SKIPPED
  else match registry_get plugins (task_type task) (task_type_version task) with
  | Err (PluginUnavailableError _) =>
      with_store (transition_task (at_time i 0) tid QUEUED BLOCKED) ;; mret BLOCKED
  | Err e => raise e
  | Ok plugin =>
      if negb (parameter_model plugin (parameters task)) then
        with_store (transition_task (at_time i 0) tid QUEUED REJECTED) ;; mret REJECTED
      else
        claimed ← with_store (claim_task (at_time i 0) (attempt_id i) tid);
        match claimed with
        | None => mret INTERRUPTED
        | Some _ =>
            with_store (transition_task (at_time i 1) tid PREPARING RUNNING) ;;
            token ← new_token;
            register_token tid token ;;
            with_store (mark_invoked (at_time i 2) tid) ;;
            out ← await execute;
            conclude i task plugin token cleanup out
        end
  end.
End TaskRunner.
