(* ===== verification/RunnerTheorems.v ===== *)
(** * What the task runner guarantees

    A queued task that is allowed to run ends in a terminal state with exactly
    one result document; a task that is not allowed to run never reaches the
    plugin; and the one case in which [run] loses a task is stated. *)

From S2P Require Export StoreFrame Runner.

Section Phases.
Context `{Sha256} `{EnvelopeCodec} (i : RunInputs) (tid : string).

(** The row of the task rests in [st], without a result, and the identifiers
    of the result are unused. *)
Record At (st : TaskState) (s : Store) : Prop := MkAt {
  at_reachable : reachable s;
  at_row : it_state <$> select_one (key_is it_task_id tid) (inbox_tasks s) = Some st;
  at_no_result : has_key or_task_id tid (outbox_results s) = false;
  at_fresh_id : has_key or_result_id (result_id i) (outbox_results s) = false;
  at_fresh_key : has_key or_idempotency_key (result_key i) (outbox_results s) = false;
}.

(** While the runner is suspended the rest of the agent may do anything that
    leaves this task to its runner. *)
Record quiet (r r' : Runner) : Prop := {
  quiet_history : history (store r) (store r');
  quiet_row : select_one (key_is it_task_id tid) (inbox_tasks (store r'))
              = select_one (key_is it_task_id tid) (inbox_tasks (store r));
  quiet_result : has_key or_task_id tid (outbox_results (store r'))
                 = has_key or_task_id tid (outbox_results (store r));
  quiet_fresh_id : has_key or_result_id (result_id i) (outbox_results (store r'))
                   = has_key or_result_id (result_id i) (outbox_results (store r));
  quiet_fresh_key : has_key or_idempotency_key (result_key i) (outbox_results (store r'))
                    = has_key or_idempotency_key (result_key i) (outbox_results (store r));
}.

Lemma At_quiet st r r' : quiet r r' → At st (store r) → At st (store r').
Proof.
  intros [Q1 Q2 Q3 Q4 Q5] [A1 A2 A3 A4 A5]. constructor; try congruence.
  by eapply history_reachable.
Qed.

(** A step of the store that leaves the inbox row and the results alone. *)
Lemma At_step st st' s s' :
  store_step s s' → outbox_results s' = outbox_results s →
  it_state <$> select_one (key_is it_task_id tid) (inbox_tasks s') = Some st' →
  At st s → At st' s'.
Proof.
  intros Hs Hr Hrow [A1 A2 A3 A4 A5]. constructor; try congruence.
  by eapply store_step_reachable.
Qed.

Lemma At_transition now a b s :
  At a s → allowed a b = true →
  ∃ s', transition_task now tid a b s = (Ok tt, s') ∧ At b s'
        ∧ task_attempts s' = task_attempts s.
Proof.
  intros HA Ha.
  assert (store_step s (transition_task now tid a b s).2) as Hstep by constructor.
  rewrite transition_refines in * by apply reachable_Inv, HA. revert Hstep.
  unfold transition_spec. rewrite Ha. simpl. pose proof (at_row _ _ HA) as Hrow.
  destruct (select_one _ (inbox_tasks s)) as [row|] eqn:Er; simplify_eq/=.
  rewrite state_eqb_refl. simpl. intros Hstep. eexists. split_and!; [done| |done].
  eapply At_step; [exact Hstep | done | | exact HA].
  simpl. rewrite select_one_update by done. by rewrite Er.
Qed.

Lemma At_claim now s :
  At QUEUED s → has_key ta_attempt_id (attempt_id i) (task_attempts s) = false →
  ∃ s', claim_task now (attempt_id i) tid s = (Ok (Some (attempt_id i)), s') ∧ At PREPARING s'
    ∧ ∃ a, a ∈ task_attempts s' ∧ ta_task_id a = tid ∧ ta_invoked_at a = None.
Proof.
  intros HA Hf. assert (store_step s (claim_task now (attempt_id i) tid s).2) as Hstep by constructor.
  rewrite claim_refines in * by apply reachable_Inv, HA. revert Hstep.
  unfold claim_spec. pose proof (at_row _ _ HA) as Hrow.
  destruct (select_one _ (inbox_tasks s)) as [row|] eqn:Er; simplify_eq/=.
  rewrite Hrow, Hf. simpl. intros Hstep. eexists. split_and!; [done| |].
  - eapply At_step; [exact Hstep | done | | exact HA].
    simpl. rewrite select_one_update by done. by rewrite Er.
  - eexists. split; [simpl; apply elem_of_app; right; by apply list_elem_of_singleton | done].
Qed.

Lemma At_mark_invoked now st s a :
  At st s → a ∈ task_attempts s → ta_task_id a = tid → ta_invoked_at a = None →
  ∃ s', mark_invoked now tid s = (Ok tt, s') ∧ At st s'.
Proof.
  intros HA Ha E En. assert (store_step s (mark_invoked now tid s).2) as Hstep by constructor.
  revert Hstep. unfold mark_invoked. run_tx.
  rewrite (rowcount_one ta_task_id _ _ a (inv_attempts s (reachable_Inv _ (at_reachable _ _ HA))));
    [|by intros b [->%key_is_true _]%andb_true_iff | done
     |unfold attempt_is, key_is; by rewrite E, String.eqb_refl, En].
  simpl. intros Hstep. eexists. split; [done|].
  eapply At_step; [exact Hstep | done | apply HA | exact HA].
Qed.

Lemma At_request_cleanup now st s :
  At st s → ∃ s', request_cleanup now tid s = (Ok tt, s') ∧ At st s'.
Proof.
  intros HA. eexists. split; [reflexivity|].
  eapply At_step; [apply (step_request_cleanup s now tid) | done | apply HA | exact HA].
Qed.
Lemma At_complete_cleanup now e st s :
  At st s → ∃ s', complete_cleanup now tid e s = (Ok tt, s') ∧ At st s'.
Proof.
  intros HA. eexists. split; [reflexivity|].
  eapply At_step; [apply (step_complete_cleanup s now tid e) | done | apply HA | exact HA].
Qed.

Lemma At_finish now current target payload s :
  At current s → allowed current target = true →
  ∃ s', finish_with_result now (result_key i) tid current target (result_id i) payload s = (Ok tt, s')
    ∧ reachable s'
    ∧ it_state <$> select_one (key_is it_task_id tid) (inbox_tasks s') = Some target
    ∧ outbox_results s' = outbox_results s ++
        [MkResult (result_id i) tid (result_key i) (canonical_json payload) (digest payload)
           D_PENDING now None].
Proof.
  intros HA Ha.
  assert (store_step s (finish_with_result now (result_key i) tid current target (result_id i) payload s).2)
    as Hstep by constructor.
  rewrite finish_refines in * by apply reachable_Inv, HA. revert Hstep.
  unfold finish_spec. rewrite Ha. simpl. pose proof (at_row _ _ HA) as Hrow.
  destruct (select_one _ (inbox_tasks s)) as [row|] eqn:Er; [|done]. simpl in Hrow.
  injection Hrow as Hrow. rewrite Hrow, state_eqb_refl. simpl.
  assert (has_key it_task_id tid (inbox_tasks s) = true) as Hk.
  { apply select_one_Some in Er as [Hin E%key_is_true]. apply has_key_true. eauto. }
  assert (insert_result (MkResult (result_id i) tid (result_key i) (canonical_json payload)
            (digest payload) D_PENDING now None) s
          = Ok (tt, set_results (outbox_results s ++ [MkResult (result_id i) tid (result_key i)
              (canonical_json payload) (digest payload) D_PENDING now None]) s)) as ->.
  { unfold insert_result, check. simpl.
    by rewrite (at_fresh_id _ _ HA), (at_no_result _ _ HA), (at_fresh_key _ _ HA), len64_digest, Hk. }
  intros Hstep. eexists. split_and!; [done| | |done].
  - eapply store_step_reachable; [apply HA | exact Hstep].
  - simpl. rewrite select_one_update by done. by rewrite Er.
Qed.
End Phases.

(** ** From the plugin's return to the result *)

(** The outcomes after which the runner itself cancels the token. *)
Definition interrupted_outcome (out : ExecuteOutcome) : bool :=
  match out with RaisedTimeout | RaisedCancelled => true | _ => false end.

(** The terminal state a run is meant to reach. *)
Definition execute_state (out : ExecuteOutcome) : TaskState :=
  match out with
  | Returned r => if result_failed r then FAILED else COMPLETED
  | RaisedCancelled => CANCELLED
  | RaisedTimeout | RaisedException => FAILED
  end.
Definition final_state (out : ExecuteOutcome) (c : CleanupOutcome) : TaskState :=
  match c with CleanupRaised => FAILED | _ => execute_state out end.
(** The reason and the plugin's result that the document is meant to give. *)
Definition execute_detail (out : ExecuteOutcome) : option string :=
  match out with
  | Returned _ => None
  | RaisedTimeout => Some "timeout"
  | RaisedCancelled => Some "cancelled"
  | RaisedException => Some "plugin_failed"
  end.
Definition final_detail (out : ExecuteOutcome) (c : CleanupOutcome) : option string :=
  match c with CleanupRaised => Some "cleanup_failed" | _ => execute_detail out end.
Definition final_result (out : ExecuteOutcome) : option PluginResult :=
  match out with Returned res => Some res | _ => None end.

(** One statement of the store in a history. *)
Lemma history_step `{Sha256} `{EnvelopeCodec} {A} (m : SE Store A) s x s' : store_step s (m s).2 → m s = (x, s') → history s s'.
Proof. intros Hs E. rewrite E in Hs. by apply rtc_once. Qed.

Lemma with_store_run {A} (m : SE Store A) r x s :
  m (store r) = (x, s) → with_store m r = (x, MkRunner s (tokens r) (cancellations r)).
Proof. unfold with_store. by intros ->. Qed.

Lemma with_store_run' {A} (m : SE Store A) s t c x s' :
  m s = (x, s') → with_store m (MkRunner s t c) = (x, MkRunner s' t c).
Proof. unfold with_store. simpl. by intros ->. Qed.

(** Run the next statement of a runner program whose result is known. *)
Ltac step_with E :=
  unfold mbind at 1, SE_bind at 1; first [ rewrite E | rewrite (with_store_run _ _ _ _ E)
                                    | rewrite (with_store_run' _ _ _ _ _ _ E) ];
  cbn [store tokens cancellations].

Section Conclude.
Context `{Sha256} `{EnvelopeCodec} (i : RunInputs) (task : LocalTaskEnvelope)
  (plugin : PluginDescriptor) (token : nat).
Let tid := task_id task.

Lemma settle_ok out r b :
  At i tid RUNNING (store r) → tokens r !! token = Some b →
  (b = true → interrupted_outcome out = true) →
  ∃ r1,
    settle i tid token out r = (Ok (execute_state out, execute_detail out, final_result out), r1)
    ∧ tokens r1 !! token = Some (interrupted_outcome out)
    ∧ At i tid (if interrupted_outcome out then CANCEL_REQUESTED else RUNNING) (store r1)
    ∧ history (store r) (store r1) ∧ cancellations r1 = cancellations r.
Proof.
  intros HA Ht Hb.
  destruct (At_transition i tid (at_time i 3) RUNNING CANCEL_REQUESTED (store r) HA eq_refl)
    as (s' & E & HA' & _).
  assert (history (store r) s') as Hh by (eapply history_step, E; constructor).
  assert (∀ (f : TaskState) (d : option string), ∃ r1,
    (token_cancel token ;; with_store (transition_task (at_time i 3) tid RUNNING CANCEL_REQUESTED) ;;
       mret (f, d, @None PluginResult)) r = (Ok (f, d, None), r1)
    ∧ tokens r1 !! token = Some true ∧ At i tid CANCEL_REQUESTED (store r1)
    ∧ history (store r) (store r1) ∧ cancellations r1 = cancellations r) as Hint.
  { intros f d. unfold token_cancel, mbind, SE_bind, with_store. cbn [store tokens cancellations].
    rewrite E. cbn. eexists. split_and!; [reflexivity| |exact HA'|exact Hh|done].
    simpl. by apply list_lookup_insert_eq, (lookup_lt_Some _ _ b). }
  assert (interrupted_outcome out = false → tokens r !! token = Some false) as Hf.
  { destruct b; [intros E'; by rewrite Hb in E' | done]. }
  destruct out; simpl in *; [|by apply Hint..|];
    eexists; (split_and!; [reflexivity | by apply Hf | done | apply rtc_refl | done]).
Qed.

Context (cleanup : suspended CleanupOutcome)
  (Hquiet : ∀ r, reachable (store r) → quiet i tid r (cleanup r).2)
  (Hcancel : ∀ r, (cleanup r).1 ≠ CleanupCancelled).

Lemma settle_cleanup_ok c st out r :
  c ≠ CleanupCancelled → At i tid st (store r) →
  ∃ r1, settle_cleanup i tid c (execute_state out) (execute_detail out) r
        = (Ok (final_state out c, final_detail out c), r1)
    ∧ At i tid st (store r1) ∧ history (store r) (store r1).
Proof.
  intros Hc HA. destruct c; [| |done]; unfold settle_cleanup.
  - destruct (At_complete_cleanup i tid (at_time i 6) None st _ HA) as (s' & E & HA').
    step_with E. eexists. split_and!; [reflexivity|done|]. eapply history_step, E. constructor.
  - destruct (At_complete_cleanup i tid (at_time i 6) (Some "cleanup_failed") st _ HA) as (s' & E & HA').
    step_with E. eexists. split_and!; [reflexivity|done|]. eapply history_step, E. constructor.
Qed.

(** The document of the result, and that it is the one added to the outbox. *)
Definition published_as (out : ExecuteOutcome) (c : CleanupOutcome) (s : Store) : Prop :=
  ∃ o, o ∈ outbox_results s ∧ or_task_id o = tid
    ∧ or_payload o = canonical_json (result_payload (result_id i) (finished_at i) task plugin
                                       (final_state out c) (final_result out) (final_detail out c)).
Lemma conclude_completes out r b :
  At i tid RUNNING (store r) → tokens r !! token = Some b →
  (b = true → interrupted_outcome out = true) →
  ∃ q r', let c := (cleanup q).1 in
    history (store r) (store q) ∧ At i tid CLEANING_UP (store q)
    ∧ conclude i task plugin token cleanup out r = (Ok (final_state out c), r')
    ∧ history (store (cleanup q).2) (store r')
    ∧ it_state <$> select_one (key_is it_task_id tid) (inbox_tasks (store r')) = Some (final_state out c)
    ∧ published_as out c (store r')
    ∧ cancellations r' !! tid = None.
Proof.
  intros HA Ht Hb. destruct (settle_ok out r b HA Ht Hb) as (r1 & E1 & Ht1 & HA1 & Hh1 & _).
  unfold conclude. fold tid. step_with E1. unfold token_cancelled.
  unfold mbind at 1, SE_bind at 1. rewrite Ht1. cbn [from_option id].
  destruct (At_transition i tid (at_time i 4)
    (if interrupted_outcome out then CANCEL_REQUESTED else RUNNING) CLEANING_UP _ HA1)
    as (s2 & E2 & HA2 & _); [by destruct (interrupted_outcome out)|].
  assert (history (store r1) s2) as Hh2 by (eapply history_step, E2; constructor). step_with E2.
  destruct (At_request_cleanup i tid (at_time i 5) _ _ HA2) as (s3 & E3 & HA3).
  assert (history s2 s3) as Hh3 by (eapply history_step, E3; constructor).
  step_with E3. set (q := MkRunner s3 _ _).
  specialize (Hquiet q (at_reachable _ _ _ _ HA3)). specialize (Hcancel q). exists q.
  unfold await, mbind at 1, SE_bind at 1. destruct (cleanup q) as [c r4]. cbn [fst snd] in *.
  destruct (settle_cleanup_ok c CLEANING_UP out r4 Hcancel) as (r5 & E5 & HA5 & Hh5).
  { by apply (At_quiet i tid CLEANING_UP q). }
  step_with E5.
  destruct (At_finish i tid (at_time i 7) CLEANING_UP (final_state out c)
    (result_payload (result_id i) (finished_at i) task plugin (final_state out c) (final_result out)
       (final_detail out c)) _ HA5) as (s6 & E6 & _ & Hrow & Hres).
  { by destruct c, out as [[[] ? ?]| | |]. }
  assert (history (store r5) s6) as Hh6 by (eapply history_step, E6; constructor).
  step_with E6. eexists. split_and!.
  - etrans; [exact Hh1|]. by etrans.
  - exact HA3.
  - reflexivity.
  - cbn [store]. by etrans.
  - exact Hrow.
  - unfold published_as. simpl. rewrite Hres. eexists. split; [apply elem_of_app; right; by apply list_elem_of_singleton|done].
  - simpl. by rewrite lookup_delete_eq.
Qed.
End Conclude.

(** ** Whole runs *)

Section Runs.
Context `{Sha256} `{EnvelopeCodec} (plugins : PluginRegistry) (i : RunInputs)
  (task : LocalTaskEnvelope).
Let tid := task_id task.

(** Why [run] refuses a task before claiming it. *)
Definition refusal : option TaskState :=
  if dt_leb (expires_at task) (started i) then Some SKIPPED
  else match registry_get plugins (task_type task) (task_type_version task) with
       | Ok plugin => if parameter_model plugin (parameters task) then None else Some REJECTED
       | Err _ => Some BLOCKED
       end.

Lemma transition_moves now a b s row :
  Inv s → select_one (key_is it_task_id tid) (inbox_tasks s) = Some row → it_state row = a →
  allowed a b = true →
  transition_task now tid a b s =
    (Ok tt, set_inbox (update_rows (key_is it_task_id tid) (task_set_state b now) (inbox_tasks s)) s).
Proof.
  intros HI Hrow Hst Ha. rewrite transition_refines by done. unfold transition_spec.
  by rewrite Ha, Hrow, Hst, state_eqb_refl.
Qed.

(** A queued task that has expired, has no allowed plugin or has invalid
    parameters is moved to skipped, blocked or rejected; the plugin is not
    called, nothing is claimed and no token is created. *)
Theorem refused_task_never_runs execute cleanup r row st :
  reachable (store r) →
  select_one (key_is it_task_id tid) (inbox_tasks (store r)) = Some row →
  it_state row = QUEUED → refusal = Some st →
  run plugins i execute cleanup task r =
    (Ok st, MkRunner
      (set_inbox (update_rows (key_is it_task_id tid) (task_set_state st (at_time i 0))
                    (inbox_tasks (store r))) (store r))
      (tokens r) (cancellations r)).
Proof.
  intros HI%reachable_Inv Hrow HQ. unfold run, refusal, registry_get. fold tid.
  pose proof (λ st, transition_moves (at_time i 0) QUEUED st (store r) row HI Hrow HQ) as E.
  destruct (dt_leb _ _).
  { intros [= <-]. step_with (E SKIPPED eq_refl). done. }
  destruct (lookup_plugin _ _) as [plugin|].
  - destruct (parameter_model plugin _); [done|]. intros [= <-]. simpl.
    step_with (E REJECTED eq_refl). done.
  - intros [= <-]. step_with (E BLOCKED eq_refl). done.
Qed.

Context (plugin : PluginDescriptor) (execute : suspended ExecuteOutcome)
  (cleanup : suspended CleanupOutcome) (r : Runner).
Context (Hat : At i tid QUEUED (store r))
  (Hattempt : has_key ta_attempt_id (attempt_id i) (task_attempts (store r)) = false)
  (Hlive : dt_leb (expires_at task) (started i) = false)
  (Hplugin : registry_get plugins (task_type task) (task_type_version task) = Ok plugin)
  (Hparameters : parameter_model plugin (parameters task) = true).

(** The synchronous part up to the call of the plugin. *)
Lemma run_reaches_execute :
  ∃ r1, run plugins i execute cleanup task r
        = conclude i task plugin (length (tokens r)) cleanup (execute r1).1 (execute r1).2
    ∧ At i tid RUNNING (store r1) ∧ tokens r1 = tokens r ++ [false]
    ∧ cancellations r1 = <[tid := length (tokens r)]> (cancellations r)
    ∧ history (store r) (store r1).
Proof.
  unfold run. fold tid. rewrite Hlive, Hplugin, Hparameters. simpl.
  destruct (At_claim i tid (at_time i 0) _ Hat Hattempt) as (s1 & E1 & A1 & a & Ha & Ea & En).
  step_with E1.
  destruct (At_transition i tid (at_time i 1) PREPARING RUNNING s1 A1 eq_refl) as (s2 & E2 & A2 & Es).
  step_with E2. unfold new_token, register_token. do 2 unfold mbind at 1, SE_bind at 1.
  cbn [store tokens cancellations]. rewrite <-Es in Ha.
  destruct (At_mark_invoked i tid (at_time i 2) RUNNING s2 a A2 Ha Ea En) as (s3 & E3 & A3).
  assert (history (store r) s1) as H1' by (eapply history_step, E1; constructor).
  assert (history s1 s2) as H2' by (eapply history_step, E2; constructor).
  assert (history s2 s3) as H3' by (eapply history_step, E3; constructor).
  step_with E3. eexists. split_and!.
  - unfold await, mbind at 1, SE_bind at 1.
    match goal with |- context [execute ?x] => instantiate (1 := x); by destruct (execute x) end.
  - exact A3.
  - done.
  - done.
  - cbn [store]. etrans; [exact H1'|]. by etrans.
Qed.

(** C8: a queued task with an allowed plugin and valid parameters, whose
    execution and cleanup leave its rows to the runner and which nobody cancels
    while it runs normally, always ends.  The plugin is executed on a running row
    whose token is registered and not cancelled, and cleaned up on a row that is
    cleaning up; [run] returns the state that the outcomes of these two calls call
    for, the row has it, a result document with that state, the plugin's result and
    the reason is in the outbox, and the cancellation entry is gone. *)
Theorem run_completes :
  (∀ q, reachable (store q) → quiet i tid q (execute q).2) →
  (∀ q, reachable (store q) → quiet i tid q (cleanup q).2) →
  (∀ q t, tokens q !! t = Some false → interrupted_outcome (execute q).1 = false →
          tokens (execute q).2 !! t = Some false) →
  (∀ q, length (tokens q) ≤ length (tokens (execute q).2))%nat →
  (∀ q, (cleanup q).1 ≠ CleanupCancelled) →
  ∃ q1 q2 r', let out := (execute q1).1 in let c := (cleanup q2).1 in
    history (store r) (store q1) ∧ At i tid RUNNING (store q1)
    ∧ tokens q1 = tokens r ++ [false] ∧ cancellations q1 = <[tid := length (tokens r)]> (cancellations r)
    ∧ history (store (execute q1).2) (store q2) ∧ At i tid CLEANING_UP (store q2)
    ∧ history (store (cleanup q2).2) (store r')
    ∧ run plugins i execute cleanup task r = (Ok (final_state out c), r')
    ∧ terminal (final_state out c) = true
    ∧ it_state <$> select_one (key_is it_task_id tid) (inbox_tasks (store r')) = Some (final_state out c)
    ∧ published_as i task plugin out c (store r')
    ∧ cancellations r' !! tid = None.
Proof.
  intros Hex Hcl Htok Hlen Hnc. destruct run_reaches_execute as (q1 & -> & A1 & T1 & C1 & H1').
  assert (tokens q1 !! length (tokens r) = Some false) as Ht.
  { rewrite T1. by apply list_lookup_middle. }
  destruct (lookup_lt_is_Some_2 (tokens (execute q1).2) (length (tokens r))) as [b Hb].
  { specialize (Hlen q1). rewrite T1, length_app in Hlen. simpl in Hlen. lia. }
  destruct (conclude_completes i task plugin (length (tokens r)) cleanup Hcl Hnc
              (execute q1).1 (execute q1).2 b) as (q2 & r' & Hh2 & A2 & E & Hh3 & Hrow & Ho & Hc).
  - eapply At_quiet, A1. apply Hex, A1.
  - exact Hb.
  - intros ->. destruct (interrupted_outcome _) eqn:Ei; [done|].
    specialize (Htok q1 _ Ht Ei). congruence.
  - exists q1, q2, r'. split_and!; try done.
    by destruct (cleanup q2).1, (execute q1).1 as [[[] ? ?]| | |].
Qed.

(** C35: if the task is cancelled ([TaskRunner.cancel], as [Scheduler.shutdown]
    does) and its plugin then returns normally or raises an ordinary
    exception, [run] raises a state conflict: the plugin's cleanup is never
    called, no result is written, the row stays running and the cancellation
    entry is kept. *)
Theorem cancelled_token_loses_task :
  (∀ q, reachable (store q) → quiet i tid q (execute q).2) →
  (∀ q, interrupted_outcome (execute q).1 = false) →
  (∀ q t, cancellations q !! tid = Some t → (t < length (tokens q))%nat →
          tokens (execute q).2 !! t = Some true) →
  ∃ r', run plugins i execute cleanup task r
        = (Err (StateConflictError "task transition compare-and-set failed"), r')
    ∧ it_state <$> select_one (key_is it_task_id tid) (inbox_tasks (store r')) = Some RUNNING
    ∧ has_key or_task_id tid (outbox_results (store r')) = false.
Proof.
  intros Hex Hout Htok. destruct run_reaches_execute as (r1 & -> & A1 & T1 & C1 & _).
  assert (tokens (execute r1).2 !! length (tokens r) = Some true) as Ht.
  { apply Htok; [rewrite C1; by apply lookup_insert_eq|]. rewrite T1, length_app. simpl. lia. }
  clear Htok. specialize (Hout r1).
  assert (At i tid RUNNING (store (execute r1).2)) as A2 by (eapply At_quiet, A1; apply Hex, A1).
  destruct (execute r1) as [out r2]. simpl in *. exists r2.
  split_and!; [|apply A2|apply A2]. unfold conclude. fold tid.
  assert (∃ f d (res : option PluginResult), settle i tid (length (tokens r)) out r2 = (Ok (f, d, res), r2))
    as (f & d & res & E) by (destruct out; try done; do 3 eexists; reflexivity).
  step_with E. unfold token_cancelled. unfold mbind at 1, SE_bind at 1. rewrite Ht.
  cbn [from_option id].
  assert (transition_task (at_time i 4) tid CANCEL_REQUESTED CLEANING_UP (store r2)
          = (Err (StateConflictError "task transition compare-and-set failed"), store r2)) as Et.
  { rewrite transition_refines by apply reachable_Inv, A2. unfold transition_spec. simpl.
    pose proof (at_row _ _ _ _ A2) as Hrow. destruct (select_one _ _) as [row|]; [|done].
    simpl in Hrow. injection Hrow as Hrow. by rewrite Hrow. }
  unfold mbind at 1, SE_bind at 1. rewrite (with_store_run _ _ _ _ Et). by destruct r2.
Qed.
End Runs.

(** ** The registry *)

Lemma lookup_plugin_In k l p : lookup_plugin k l = Some p → (k, p) ∈ l.
Proof.
  unfold lookup_plugin. destruct (List.find _ l) as [[k' p']|] eqn:E; simpl; [|done].
  intros [= ->]. apply find_some in E as [Hin Hk]. apply bool_decide_eq_true in Hk. simpl in Hk.
  subst. by apply list_elem_of_In.
Qed.

Lemma compile_plugins_spec plugins compiled all :
  compile_plugins plugins compiled = Ok all →
  all = compiled ++ map (λ p, (descriptor_key p, p)) plugins
  ∧ (NoDup (map fst compiled) → NoDup (map fst all)).
Proof.
  revert compiled. induction plugins as [|p plugins IH]; intros compiled; simpl.
  - intros [= ->]. by rewrite app_nil_r.
  - destruct (lookup_plugin (descriptor_key p) compiled) as [q|] eqn:El; simpl; [done|].
    intros E. destruct (IH _ E) as [-> Hnd]. rewrite <-app_assoc. split; [done|].
    intros Hc. rewrite <-app_assoc in Hnd. apply Hnd. rewrite map_app. apply NoDup_app.
    split_and!; [done| |apply NoDup_singleton]. simpl. intros k Hk ->%list_elem_of_singleton.
    apply list_elem_of_In, in_map_iff in Hk as ((k', q) & Ek & Hin). simpl in Ek. subst k'.
    unfold lookup_plugin in El. apply fmap_None in El.
    apply (find_none _ _ El) in Hin. simpl in Hin. by rewrite bool_decide_eq_true_2 in Hin.
Qed.

(** A registry that was built holds every compiled plugin whose type is in
    the configured allowlist and no other, each under its own type and version,
    and at most one for each. *)
Theorem registry_only_allowlisted plugins allowlist reg ty version p :
  make_registry plugins allowlist = Ok reg →
  registry_get reg ty version = Ok p
  ↔ p ∈ plugins ∧ descriptor_key p = (ty, version) ∧ str_in ty allowlist = true.
Proof.
  unfold make_registry, registry_get. intros E. apply result_bind_Ok in E as (all & Ec & E).
  destruct (forallb _ _); simplify_eq/=. apply compile_plugins_spec in Ec as [-> Hnd].
  simpl in Hnd. specialize (Hnd (NoDup_nil_2)). simpl.
  set (l := List.filter _ _). split.
  - destruct (lookup_plugin (ty, version) l) as [q|] eqn:El; [|done]. intros [= ->].
    apply lookup_plugin_In in El. apply list_elem_of_In, filter_In in El as [Hin Ha].
    apply in_map_iff in Hin as (p' & E' & Hp'). simplify_eq/=.
    by rewrite list_elem_of_In.
  - intros (Hp & Ek & Ha).
    assert (((ty, version), p) ∈ l) as Hin.
    { apply list_elem_of_In, filter_In. split; [|done]. apply in_map_iff. exists p.
      by rewrite Ek, <-list_elem_of_In. }
    destruct (lookup_plugin (ty, version) l) as [q|] eqn:El.
    + apply lookup_plugin_In in El. f_equal.
      assert (∀ kv, kv ∈ l → kv ∈ map (λ p, (descriptor_key p, p)) plugins) as Hsub.
      { intros kv Hkv. apply list_elem_of_In in Hkv. apply filter_In in Hkv as [? _].
        by apply list_elem_of_In. }
      apply Hsub in El, Hin. clear -Hnd El Hin.
      apply list_elem_of_lookup in El as [a Ea]. apply list_elem_of_lookup in Hin as [b Eb].
      assert (a = b) as <-; [|by simplify_eq].
      assert (∀ n, map (λ p, (descriptor_key p, p)) plugins !! n = Some (ty, version, q) ∨
                   map (λ p, (descriptor_key p, p)) plugins !! n = Some (ty, version, p) →
                   map fst (map (λ p, (descriptor_key p, p)) plugins) !! n = Some (ty, version)) as Hl.
      { intros n Hn. change (map fst ?l) with (fst <$> l). rewrite list_lookup_fmap.
        destruct Hn as [E|E]; apply (f_equal (fmap fst)) in E; exact E. }
      eapply (NoDup_lookup _ a b (ty, version) Hnd); apply Hl; auto.
    + unfold lookup_plugin in El. apply fmap_None in El.
      apply list_elem_of_In in Hin. apply (find_none _ _ El) in Hin. simpl in Hin.
      by rewrite bool_decide_eq_true_2 in Hin.
Qed.

(** ** Concrete runs *)

Definition example_plugin : PluginDescriptor :=
  {| pd_task_type := "noop"; pd_task_type_version := "1"; provider_id := "p";
     provider_version := "1"; plugin_method := "m"; parameter_model := λ _, true;
     required_commands := []; max_timeout_seconds := 30 |}.
Definition example_registry : PluginRegistry :=
  {| registered := [(descriptor_key example_plugin, example_plugin)] |}.
Definition example_inputs : RunInputs :=
  {| started := DateTime 1 0; at_time := λ _, "now"; attempt_id := "a1"; result_id := "r1";
     result_key := "rk1"; finished_at := "end" |}.
Definition queued_runner : Runner := MkRunner store_queued [] ∅.
Definition good : PluginResult := {| result_failed := false; outcome := "pass"; metrics := [] |}.
Definition the_example : LocalTaskEnvelope := example_task "t1" "k1" "e1".

Lemma queued_runner_At : At example_inputs "t1" QUEUED (store queued_runner).
Proof.
  split; [apply store_queued_reachable | vm_compute; reflexivity..].
Qed.

Lemma cancel_quiet j tid tid' q : quiet j tid q (cancel tid' q).2.
Proof.
  unfold cancel. destruct (cancellations q !! tid'); constructor; simpl; done.
Qed.

Lemma refused_task_never_runs_witness :
  (run {| registered := [] |} example_inputs (λ q, (Returned good, q)) (λ q, (CleanupDone, q)) the_example
     queued_runner).1 = Ok BLOCKED.
Proof.
  pose proof (at_row _ _ _ _ queued_runner_At) as Hrow.
  destruct (select_one (key_is it_task_id "t1") (inbox_tasks (store queued_runner))) as [row|] eqn:E;
    [|discriminate].
  injection Hrow as Hrow.
  by rewrite (refused_task_never_runs {| registered := [] |} example_inputs the_example
    (λ q, (Returned good, q)) (λ q, (CleanupDone, q)) queued_runner row BLOCKED store_queued_reachable E Hrow eq_refl).
Defined.

(** A plugin that raises and a cleanup that succeeds. *)
Lemma run_completes_witness :
  ∃ r', run example_registry example_inputs (λ q, (RaisedException, q)) (λ q, (CleanupDone, q)) the_example
          queued_runner = (Ok FAILED, r')
    ∧ it_state <$> select_one (key_is it_task_id "t1") (inbox_tasks (store r')) = Some FAILED
    ∧ (∃ o, o ∈ outbox_results (store r') ∧ or_task_id o = "t1"
            ∧ or_payload o = canonical_json (result_payload "r1" "end" the_example example_plugin FAILED None
                                               (Some "plugin_failed")))
    ∧ cancellations r' !! "t1" = None.
Proof.
  destruct (run_completes example_registry example_inputs the_example example_plugin
    (λ q, (RaisedException, q)) (λ q, (CleanupDone, q)) queued_runner)
    as (q1 & q2 & r' & _ & _ & _ & _ & _ & _ & _ & E & _ & Hrow & Ho & Hc).
  - exact queued_runner_At.
  - vm_compute. reflexivity.
  - reflexivity.
  - reflexivity.
  - reflexivity.
  - intros q _. by constructor.
  - intros q _. by constructor.
  - done.
  - done.
  - done.
  - exists r'. split; [exact E|]. split; [exact Hrow|]. split; [exact Ho|exact Hc].
Defined.

Lemma cancelled_token_loses_task_witness :
  ∃ r', run example_registry example_inputs (λ q, (Returned good, (cancel "t1" q).2))
          (λ q, (CleanupDone, q)) the_example queued_runner
        = (Err (StateConflictError "task transition compare-and-set failed"), r')
    ∧ it_state <$> select_one (key_is it_task_id "t1") (inbox_tasks (store r')) = Some RUNNING
    ∧ has_key or_task_id "t1" (outbox_results (store r')) = false.
Proof.
  apply (cancelled_token_loses_task example_registry example_inputs the_example example_plugin).
  - exact queued_runner_At.
  - vm_compute. reflexivity.
  - reflexivity.
  - reflexivity.
  - reflexivity.
  - intros q _. apply cancel_quiet.
  - done.
  - intros q t Ht Hlen. unfold cancel. change (task_id the_example) with "t1" in Ht.
    rewrite Ht. simpl. by apply list_lookup_insert_eq.
Defined.

Lemma registry_only_allowlisted_witness :
  ∃ reg, build_plugin_registry ["protocol.contract_check"] = Ok reg
    ∧ registry_get reg "protocol.contract_check" "1.0.0" = Ok ContractCheckPlugin.
Proof.
  eexists. split; [reflexivity|].
  apply (registry_only_allowlisted [ContractCheckPlugin] ["protocol.contract_check"] _
    "protocol.contract_check" "1.0.0" ContractCheckPlugin eq_refl).
  split; [left | split; reflexivity].
Defined.
