(* ===== verification/Scheduler.v ===== *)
(** * The scheduler

    [application/scheduler.py]: one polling round fetches and ingests tasks,
    starts the queued ones up to the concurrency limit, waits for them and
    delivers the outboxes; shutdown cancels what runs.  The transport is a
    queue of fetched payloads and a function that says whether a publication
    succeeds.  The coroutines started in a round run concurrently until
    [gather] returns; what they do together is an argument. *)

From S2P Require Export StoreFrame Runner.

Record Scheduler := MkScheduler {
  sch_runner : Runner;
  running : list string;                (** keys of [_running], oldest first *)
  incoming : list (result json);        (** what [fetch_local_task] will return *)
  published : list (string * json);     (** acknowledged publications, by table *)
  stopping : bool;
}.

Definition sch_store (s : Scheduler) : Store := store (sch_runner s).

Definition with_runner {A} (m : SE Runner A) : SE Scheduler A := λ s,
  let '(x, r) := m (sch_runner s) in
  (x, MkScheduler r (running s) (incoming s) (published s) (stopping s)).
Definition on_store {A} (m : SE Store A) : SE Scheduler A := with_runner (with_store m).

Definition fetch_local_task : SE Scheduler (option json) := λ s,
  match incoming s with
  | [] => (Ok None, s)
  | x :: rest =>
      (match x with Ok p => Ok (Some p) | Err e => Err e end,
       MkScheduler (sch_runner s) (running s) rest (published s) (stopping s))
  end.

(** [dict[key] = ...] on the keys. *)
Definition add_key (k : string) (keys : list string) : list string :=
  if str_in k keys then keys else keys ++ [k].

Definition set_running (keys : list string → list string) : SE Scheduler unit := λ s,
  (Ok tt, MkScheduler (sch_runner s) (keys (running s)) (incoming s) (published s) (stopping s)).

Section Scheduler.
Context `{Sha256} `{EnvelopeCodec}.

(** Inputs of one round: time stamps and identifiers of the calls. *)
Record RoundInputs := {
  ingest_times : nat → string * string * string;
  queue_ids : nat → string;
  queue_times : nat → string;
  confirm_time : string;
}.

(** [while True: payload = await fetch...]; the queue of the transport is
    finite, so the loop ends. *)
Fixpoint ingest_loop (i : RoundInputs) (fuel n : nat) : SE Scheduler unit :=
  match fuel with
  | O => mret tt
  | S fuel' =>
      payload ← fetch_local_task;
      match payload with
      | None => mret tt
      | Some p =>
          match model_validate p with
          | None => raise (ValueError "ValidationError")
          | Some task =>
              let '(now, qid, qnow) := ingest_times i n in
              on_store (ingest_task now qid qnow task) ;;
              ingest_loop i fuel' (S n)
          end
      end
  end.

(** ** Outboxes *)

Context (publish_ok : string → json → list (string * json) → bool).

Definition publish (table : string) (document : json) : SE Scheduler unit := λ s,
  if publish_ok table document (published s) then
    (Ok tt, MkScheduler (sch_runner s) (running s) (incoming s)
              (published s ++ [(table, document)]) (stopping s))
  else (Err (TransportError "publication failed"), s).

Definition item_payload (x : OutboxItem) : string :=
  match x with
  | ProgressItem p => op_payload p | ResultItem r => or_payload r | UploadItem u => pu_payload u
  end.
Definition item_key (x : OutboxItem) : string :=
  match x with
  | ProgressItem p => op_event_id p | ResultItem r => or_result_id r | UploadItem u => pu_upload_id u
  end.

Definition deliver (now table key_name : string) (row : OutboxItem) : SE Scheduler unit :=
  document ← lift (of_option (ValueError "JSONDecodeError") (json_loads (item_payload row)));
  publish table document ;;
  on_store (confirm_outbox now table key_name (item_key row)).

Definition sync_table (now table key_name : string) : SE Scheduler unit :=
  rows ← on_store (pending_outbox table);
  for_each rows (deliver now table key_name).

Definition sync_outboxes (now : string) : SE Scheduler unit :=
  sync_table now "outbox_progress" "event_id" ;;
  sync_table now "outbox_results" "result_id" ;;
  sync_table now "pending_uploads" "upload_id".

(** ** Rounds *)

Context (max_concurrency : Z)
  (gather : list LocalTaskEnvelope → Runner → Runner).

Definition available (s : Scheduler) : Z :=
  Z.max 0 (max_concurrency - Z.of_nat (length (running s))).

(** [create_task] for each queued task, then [gather] when something runs;
    every coroutine's done callback has removed its key when it returns. *)
Definition start_queued (i : RoundInputs) : SE Scheduler (list LocalTaskEnvelope) :=
  n ← get available;
  tasks ← on_store (queued_tasks (queue_ids i) (queue_times i) n);
  for_each tasks (λ task, set_running (add_key (task_id task))) ;;
  mret tasks.

Definition wait_running (tasks : list LocalTaskEnvelope) : SE Scheduler unit :=
  keys ← get running;
  if bool_decide (keys = []) then mret tt
  else
    with_runner (λ r, (Ok tt, gather tasks r)) ;;
    set_running (λ _, []).

Definition run_once (i : RoundInputs) : SE Scheduler unit :=
  n ← get (λ s, length (incoming s));
  ingest_loop i (S n) 0 ;;
  tasks ← start_queued i;
  wait_running tasks ;;
  sync_outboxes (confirm_time i).

(** [shutdown]: the first wait leaves some tasks pending; these are cancelled
    and awaited. *)
Definition shutdown (wait : Runner → list string * Runner)
    (gather_cancelled : list string → Runner → Runner) : SE Scheduler unit :=
  (λ s, (Ok tt, MkScheduler (sch_runner s) (running s) (incoming s) (published s) true)) ;;
  keys ← get running;
  for_each keys (λ tid, with_runner (Runner.cancel tid)) ;;
  if bool_decide (keys = []) then mret tt
  else
    pending ← with_runner (λ r, let '(p, r') := wait r in (Ok p, r'));
    set_running (List.filter (λ k, str_in k pending)) ;;
    if bool_decide (pending = []) then mret tt
    else
      with_runner (λ r, (Ok tt, gather_cancelled pending r)) ;;
      set_running (List.filter (λ k, negb (str_in k pending))).
End Scheduler.
