(* ===== verification/SchedulerTheorems.v ===== *)
(** * What the scheduler guarantees

    Delivery from the outboxes is at least once: nothing is confirmed that was
    not published, and a synchronisation that ends normally leaves nothing to
    deliver.  A round never starts more tasks than the concurrency limit. *)

From S2P Require Export RunnerTheorems Scheduler.

Section Delivery.
Context `{Sha256} `{EnvelopeCodec} (publish_ok : string → json → list (string * json) → bool).

Lemma result_ids_unique s : reachable s → unique_key or_result_id (outbox_results s).
Proof.
  intros Hr. assert (∀ s1 s2, store_step s1 s2 →
    unique_key or_result_id (outbox_results s1) → unique_key or_result_id (outbox_results s2)) as Hstep.
  { intros s1 s2 Hs Hu. assert (outbox_results s1 = outbox_results s1) as E by done.
    assert (∀ st, outbox_results st = outbox_results s1 →
      unique_key or_result_id (outbox_results st)) as Hsame by (by intros st ->).
    destruct Hs; try (apply Hsame; revert E; by_frame); clear E.
    - unfold finish_with_result, ensure_transition.
      destruct (allowed a b); [|by apply Hsame]. cbv zeta. run_tx.
      repeat (tx_case; try (by apply Hsame)); simplify_eq;
        rename select (insert_result _ _ = _) into Ei; unfold insert_result in Ei; inserted Ei;
        bool_simp; simpl in *; by apply unique_key_snoc.
    - unfold confirm_outbox. run_tx. repeat (tx_case; try (by apply Hsame)).
      by apply unique_key_update. }
  unfold reachable, history in Hr. remember empty_store as s0 eqn:E0.
  assert (unique_key or_result_id (outbox_results s0)) as H0u by (subst; apply unique_key_nil).
  clear E0. induction Hr; eauto.
Qed.

Definition results_of (s : Scheduler) : list ResultRow := outbox_results (sch_store s).
Definition published_result (s : Scheduler) (payload : string) : Prop :=
  ∃ document, json_loads payload = Some document ∧ ("outbox_results", document) ∈ published s.

(** What every step of a synchronisation started with the results [base]
    keeps. *)
Definition honest (base : list ResultRow) (s : Scheduler) : Prop :=
  ∀ o, o ∈ results_of s → ∃ o0, o0 ∈ base ∧ or_result_id o0 = or_result_id o
    ∧ or_payload o0 = or_payload o
    ∧ (or_state o = D_CONFIRMED → or_state o0 = D_CONFIRMED ∨ published_result s (or_payload o)).

Lemma published_more s s' p :
  (∃ new, published s' = published s ++ new) → published_result s p → published_result s' p.
Proof. intros [new E] (d & Hd & Hin). exists d. split; [done|]. rewrite E. set_solver. Qed.

Lemma honest_more base s s' :
  results_of s' = results_of s → (∃ new, published s' = published s ++ new) →
  honest base s → honest base s'.
Proof.
  intros E Hp Hh o Ho. rewrite E in Ho. destruct (Hh o Ho) as (o0 & ? & ? & ? & Hc).
  exists o0. split_and!; [done..|]. intros Hs. destruct (Hc Hs); [by left|].
  right. by eapply published_more.
Qed.

(** One delivery: nothing happens, or the document is published and the rows
    with the key are confirmed. *)
Lemma deliver_cases now table key_name row s :
  (∃ e, deliver publish_ok now table key_name row s = (Err e, s))
  ∨ ∃ document s1,
      json_loads (item_payload row) = Some document
      ∧ s1 = MkScheduler (sch_runner s) (running s) (incoming s)
               (published s ++ [(table, document)]) (stopping s)
      ∧ deliver publish_ok now table key_name row s
        = on_store (confirm_outbox now table key_name (item_key row)) s1.
Proof.
  unfold deliver, publish. unfold mbind, SE_bind, lift.
  destruct (json_loads (item_payload row)) as [d|]; simpl; [|left; by eexists].
  destruct (publish_ok table d (published s)); [|left; by eexists].
  right. do 2 eexists. split_and!; [done|reflexivity|reflexivity].
Qed.

Lemma deliver_honest_other base now table key_name row :
  table ≠ "outbox_results" → preserves (honest base) (deliver publish_ok now table key_name row).
Proof.
  intros Ht s Hs. destruct (deliver_cases now table key_name row s) as [[e ->]|(d & s1 & _ & -> & ->)];
    [done|].
  eapply honest_more, Hs.
  - unfold results_of, sch_store, on_store, with_runner, with_store, confirm_outbox. run_tx. simpl.
    destruct (negb _); [done|]. simpl. destruct (String.eqb table "outbox_progress"); [done|].
    destruct (String.eqb_spec table "outbox_results"); done.
  - exists [(table, d)]. unfold on_store, with_runner, with_store. cbn [sch_runner].
    destruct (confirm_outbox _ _ _ _ _). done.
Qed.

Lemma deliver_honest_result base now row :
  unique_key or_result_id base →
  (∃ o0, o0 ∈ base ∧ or_result_id o0 = or_result_id row ∧ or_payload o0 = or_payload row) →
  preserves (honest base) (deliver publish_ok now "outbox_results" "result_id" (ResultItem row)).
Proof.
  intros Hu (o0 & Ho0 & E1 & E2) s Hs.
  destruct (deliver_cases now "outbox_results" "result_id" (ResultItem row) s)
    as [[e ->]|(d & s1 & Hd & -> & ->)]; [done|].
  unfold honest, results_of, sch_store, on_store, with_runner, with_store, confirm_outbox.
  run_tx. simpl. intros o (o1 & Ho1 & ->)%elem_of_update_rows.
  destruct (Hs o1 Ho1) as (b & Hb & B1 & B2 & B3).
  exists b. destruct (key_is or_result_id (or_result_id row) o1) eqn:Ek; simpl; split_and!; try done.
  - intros _. right. exists d. simpl in *. split; [|set_solver].
    apply key_is_true in Ek. assert (b = o0) as ->.
    { apply (unique_key_inj or_result_id base); congruence. }
    by rewrite <-B2, E2.
  - intros Hc. destruct (B3 Hc) as [?|(d' & ? & ?)]; [by left|].
    right. exists d'. simpl. split; [done | set_solver].
Qed.

Lemma for_each_ind {A} (P : Scheduler → Prop) (xs : list A) body :
  (∀ x, x ∈ xs → preserves P (body x)) → preserves P (for_each xs body).
Proof.
  induction xs as [|x xs IH]; intros Hb; simpl; [apply preserves_ret|].
  apply preserves_bind; [apply Hb; set_solver|]. intros _. apply IH. set_solver.
Qed.

Lemma pending_outbox_reads table s :
  str_in table ["outbox_progress"; "outbox_results"; "pending_uploads"] = true →
  ∃ rows, pending_outbox table s = (Ok rows, s).
Proof. intros E. unfold pending_outbox. run_tx. rewrite E. simpl. by eexists. Qed.

Lemma sync_honest base now :
  unique_key or_result_id base → preserves (honest base) (sync_outboxes publish_ok now).
Proof.
  intros Hu. unfold sync_outboxes.
  assert (∀ table key_name, str_in table ["outbox_progress"; "pending_uploads"] = true →
    preserves (honest base) (sync_table publish_ok now table key_name)) as Hother.
  { intros table key_name Ht. unfold sync_table. apply preserves_bind.
    - intros s Hs. destruct (pending_outbox_reads table (sch_store s)) as [rows E].
      { apply str_in_spec in Ht. apply str_in_spec. set_solver. }
      unfold on_store, with_runner, with_store. unfold sch_store in E. rewrite E.
      by destruct s as [[] ? ? ? ?].
    - intros rows. apply for_each_ind. intros row _. apply deliver_honest_other.
      intros ->. done. }
  apply preserves_bind; [by apply Hother|]. intros _.
  apply preserves_bind; [|intros _; by apply Hother].
  intros s Hs. unfold sync_table. unfold mbind, SE_bind.
  unfold on_store at 1, with_runner at 1, with_store at 1, pending_outbox. run_tx. simpl.
  assert (∀ st, sch_store st = sch_store s → published st = published s → honest base st) as Hst.
  { intros st E1 E2. eapply honest_more, Hs; [by unfold results_of; rewrite E1|].
    exists []. by rewrite E2, app_nil_r. }
  apply for_each_ind; [|by apply Hst].
  intros row Hrow. apply list_elem_of_In, in_map_iff in Hrow as (o & <- & Ho).
  apply list_elem_of_In, elem_of_order_by, elem_of_select in Ho as [Ho _].
  apply deliver_honest_result; [done|].
  destruct (Hs o Ho) as (o0 & ? & ? & ? & _). by exists o0.
Qed.

(** C10: delivery is at least once: whatever the transport does and wherever the
    synchronisation stops, a result that is confirmed afterwards either was
    confirmed before or its document has been published. *)
Theorem confirmed_results_were_published now s o :
  reachable (sch_store s) →
  let s' := (sync_outboxes publish_ok now s).2 in
  o ∈ outbox_results (sch_store s') → or_state o = D_CONFIRMED →
  (∃ o0, o0 ∈ outbox_results (sch_store s) ∧ or_result_id o0 = or_result_id o
         ∧ or_state o0 = D_CONFIRMED)
  ∨ ∃ document, json_loads (or_payload o) = Some document
                ∧ ("outbox_results", document) ∈ published s'.
Proof.
  intros Hr s' Ho Hc. pose proof (result_ids_unique _ Hr) as Hu.
  destruct (sync_honest (results_of s) now Hu s) with (o := o) as (o0 & H1 & H2 & _ & H3); [|done|].
  - intros o' Ho'. exists o'. split_and!; [done..|by left].
  - destruct (H3 Hc) as [?|?]; [left; by exists o0 | by right].
Qed.
End Delivery.

(** ** Complete synchronisations *)

Lemma among_same_key {R} (key : R → string) ids (r r' : R) :
  key r = key r' → among key ids r = among key ids r'.
Proof.
  intros E. unfold among. induction ids as [|k ids IH]; simpl; [done|].
  rewrite IH. unfold key_is. by rewrite E.
Qed.

Section OneTable.
Context `{Sha256} `{EnvelopeCodec} (publish_ok : string → json → list (string * json) → bool).
Context {R : Type} (proj : Store → list R) (key : R → string) (conf : R → R)
  (item : R → OutboxItem) (now table key_name : string).
Context (Hconf : ∀ k s, ∃ s', confirm_outbox now table key_name k s = (Ok tt, s')
                   ∧ proj s' = update_rows (key_is key k) conf (proj s))
  (Hitem : ∀ r, item_key (item r) = key r)
  (Hidem : ∀ r, conf (conf r) = conf r) (Hkey : ∀ r, key (conf r) = key r).

Lemma deliver_one r s s' :
  deliver publish_ok now table key_name (item r) s = (Ok tt, s') →
  proj (sch_store s') = update_rows (key_is key (key r)) conf (proj (sch_store s)).
Proof.
  destruct (deliver_cases publish_ok now table key_name (item r) s)
    as [[e ->]|(d & s1 & _ & -> & ->)]; [done|].
  unfold on_store, with_runner, with_store. cbn [sch_runner]. rewrite Hitem.
  destruct (Hconf (key r) (store (sch_runner s))) as (st & -> & E). by intros [= <-].
Qed.

Lemma deliver_all rows s s' :
  for_each (map item rows) (deliver publish_ok now table key_name) s = (Ok tt, s') →
  proj (sch_store s') = update_rows (among key (map key rows)) conf (proj (sch_store s)).
Proof.
  revert s. induction rows as [|r rows IH]; intros s; simpl.
  - intros [= <-]. unfold among. simpl. by rewrite update_rows_none.
  - intros E. apply SE_bind_Ok in E as ([] & s1 & E1 & E2).
    rewrite (IH _ E2), (deliver_one _ _ _ E1), update_rows_twice.
    + done.
    + intros q. by apply among_same_key.
    + done.
Qed.
End OneTable.

Section CompleteSync.
Context `{Sha256} `{EnvelopeCodec} (publish_ok : string → json → list (string * json) → bool).

Definition confirm_progress_row (now : string) (r : ProgressRow) : ProgressRow :=
  MkProgress (op_event_id r) (op_task_id r) (op_sequence r) (op_payload r)
    (op_payload_hash r) D_CONFIRMED (op_next_attempt_at r) (Some now).
Definition confirm_result_row (now : string) (r : ResultRow) : ResultRow :=
  MkResult (or_result_id r) (or_task_id r) (or_idempotency_key r) (or_payload r)
    (or_payload_hash r) D_CONFIRMED (or_next_attempt_at r) (Some now).
Definition confirm_upload_row (now : string) (r : UploadRow) : UploadRow :=
  MkUpload (pu_upload_id r) (pu_artifact_id r) (pu_task_id r) (pu_relative_path r)
    (pu_media_type r) (pu_size_bytes r) (pu_sha256 r) (pu_payload r)
    (pu_payload_hash r) D_CONFIRMED (pu_next_attempt_at r) (Some now).

(** Confirming the keys of all deliverable rows leaves none deliverable. *)
Lemma none_deliverable {R} (key : R → string) (state : R → DeliveryState) conf (le : R → R → bool) t :
  (∀ r, state (conf r) = D_CONFIRMED) →
  select (λ r, deliverable (state r))
    (update_rows (among key (map key (order_by le (select (λ r, deliverable (state r)) t)))) conf t)
  = [].
Proof.
  intros Hs. apply length_zero_iff_nil, (proj2 (rowcount_0 _ _)).
  intros r' (r & Hr & ->)%elem_of_update_rows.
  destruct (deliverable (state r)) eqn:Ed.
  - assert (among key (map key (order_by le (select (λ r, deliverable (state r)) t))) r = true) as ->.
    { unfold among. apply existsb_exists. exists (key r). split; [|by apply key_is_true].
      apply in_map, list_elem_of_In, elem_of_order_by, elem_of_select. done. }
    by rewrite Hs.
  - destruct (among _ _ r); [by rewrite Hs | done].
Qed.

(** The rest of a synchronisation leaves the other tables alone. *)
Lemma sync_table_frame {F} (f : Store → F) now table key_name s s' :
  (∀ k st, f (confirm_outbox now table key_name k st).2 = f st) →
  (∀ st, (pending_outbox table st).2 = st) →
  sync_table publish_ok now table key_name s = (Ok tt, s') → f (sch_store s') = f (sch_store s).
Proof.
  intros Hf Hp. assert (preserves (λ q, f (sch_store q) = f (sch_store s))
    (sync_table publish_ok now table key_name)) as HP.
  { unfold sync_table. apply preserves_bind.
    - intros q Hq. specialize (Hp (sch_store q)). unfold on_store, with_runner, with_store.
      unfold sch_store in *. destruct (pending_outbox table _) as [? st]. simpl in *. congruence.
    - intros rows. apply preserves_for_each. intros row q Hq.
      destruct (deliver_cases publish_ok now table key_name row q) as [[e ->]|(d & s1 & _ & -> & ->)];
        [done|].
      unfold on_store, with_runner, with_store, sch_store in *. cbn [sch_runner].
      specialize (Hf (item_key row) (store (sch_runner q))).
      destruct (confirm_outbox _ _ _ _ _) as [? st]. simpl in *. congruence. }
  intros E. specialize (HP s eq_refl). by rewrite E in HP.
Qed.

Lemma pending_outbox_pure table st : (pending_outbox table st).2 = st.
Proof. unfold pending_outbox. run_tx. by destruct (negb _). Qed.

(** C11: a synchronisation that ends without an exception leaves no progress
    event, no result and no upload to deliver. *)
Theorem complete_sync_delivers_all now s s' :
  sync_outboxes publish_ok now s = (Ok tt, s') →
  ∀ table, table ∈ ["outbox_progress"; "outbox_results"; "pending_uploads"] →
  pending_outbox table (sch_store s') = (Ok [], sch_store s').
Proof.
  unfold sync_outboxes. intros E. apply SE_bind_Ok in E as ([] & s1 & E1 & E).
  apply SE_bind_Ok in E as ([] & s2 & E2 & E3).
  assert (outbox_progress (sch_store s2) = outbox_progress (sch_store s1)) as F1
    by (revert E2; apply sync_table_frame; [done | apply pending_outbox_pure]).
  assert (outbox_progress (sch_store s') = outbox_progress (sch_store s2)) as F2
    by (revert E3; apply sync_table_frame; [done | apply pending_outbox_pure]).
  assert (outbox_results (sch_store s') = outbox_results (sch_store s2)) as F3
    by (revert E3; apply sync_table_frame; [done | apply pending_outbox_pure]).
  unfold sync_table in E1, E2, E3.
  apply SE_bind_Ok in E1 as (rows1 & q1 & P1 & L1).
  apply SE_bind_Ok in E2 as (rows2 & q2 & P2 & L2).
  apply SE_bind_Ok in E3 as (rows3 & q3 & P3 & L3).
  injection P1 as <- <-. injection P2 as <- <-. injection P3 as <- <-.
  apply (deliver_all publish_ok outbox_progress op_event_id (confirm_progress_row now)) in L1;
    [|intros k st; eexists; split; reflexivity | done..].
  apply (deliver_all publish_ok outbox_results or_result_id (confirm_result_row now)) in L2;
    [|intros k st; eexists; split; reflexivity | done..].
  apply (deliver_all publish_ok pending_uploads pu_upload_id (confirm_upload_row now)) in L3;
    [|intros k st; eexists; split; reflexivity | done..].
  intros table Ht. unfold pending_outbox. run_tx. simpl in L1, L2, L3.
  repeat (apply elem_of_cons in Ht as [->|Ht]); [| | |by apply elem_of_nil in Ht]; simpl.
  - rewrite F2, F1, L1, (none_deliverable op_event_id); done.
  - rewrite F3, L2, (none_deliverable or_result_id); done.
  - rewrite L3, (none_deliverable pu_upload_id); done.
Qed.
End CompleteSync.

(** ** Concurrency *)

Section Concurrency.
Context `{Sha256} `{EnvelopeCodec}.

Lemma queued_rows_length ids clock rows : ∀ n c ts c',
  queued_rows ids clock n rows c = (Ok ts, c') → (length ts ≤ length rows)%nat.
Proof.
  induction rows as [|row rows IH]; intros n c ts c' E; cbn [queued_rows] in E.
  - injection E as <- <-. done.
  - apply SE_bind_Ok in E as (t & c1 & _ & E). apply SE_bind_Ok in E as (rest & c2 & E2 & E).
    apply IH in E2. injection E as <- <-. destruct t; simpl; lia.
Qed.

Lemma limit_length {A} (n : Z) (rows : list A) : 0 ≤ n → Z.of_nat (length (limit n rows)) ≤ n.
Proof.
  intros Hn. unfold limit. replace (n <? 0) with false by lia. rewrite length_take. lia.
Qed.

Lemma queued_tasks_length ids clock n s ts s' :
  0 ≤ n → queued_tasks ids clock n s = (Ok ts, s') → Z.of_nat (length ts) ≤ n.
Proof.
  intros Hn. unfold queued_tasks, with_connection, query. unfold mbind, SE_bind. cbn [working].
  set (rows := limit n _). destruct (queued_rows ids clock 0 rows _) as [r c] eqn:E.
  intros [= -> <-]. apply queued_rows_length in E.
  pose proof (limit_length n (order_by (λ a b, str_leb (it_received_at a) (it_received_at b))
    (select (λ r, state_eqb (it_state r) QUEUED) (inbox_tasks s))) Hn) as Hl. fold rows in Hl. lia.
Qed.

Lemma start_keys tasks s :
  ∃ s', for_each tasks (λ task, set_running (add_key (task_id task))) s = (Ok tt, s')
    ∧ (length (running s') ≤ length (running s) + length tasks)%nat.
Proof.
  revert s. induction tasks as [|task tasks IH]; intros s; simpl.
  - eexists. split; [reflexivity | lia].
  - unfold mbind, SE_bind, set_running at 1. 
    destruct (IH (MkScheduler (sch_runner s) (add_key (task_id task) (running s)) (incoming s)
                    (published s) (stopping s))) as (s' & -> & Hl).
    eexists. split; [reflexivity|]. simpl in Hl.
    assert (length (add_key (task_id task) (running s)) ≤ S (length (running s)))%nat.
    { unfold add_key. destruct (str_in _ _); [lia|]. rewrite length_app. simpl. lia. }
    lia.
Qed.

(** Starting queued tasks never exceeds the concurrency limit: at most the
    free slots are filled, and the running table stays within the limit. *)
Theorem concurrency_bounded max_concurrency i s tasks s' :
  0 ≤ max_concurrency → Z.of_nat (length (running s)) ≤ max_concurrency →
  start_queued max_concurrency i s = (Ok tasks, s') →
  Z.of_nat (length tasks) ≤ max_concurrency - Z.of_nat (length (running s))
  ∧ Z.of_nat (length (running s')) ≤ max_concurrency.
Proof.
  intros Hmax Hrun E. unfold start_queued in E.
  apply SE_bind_Ok in E as (n & s0 & En & E). injection En as <- <-.
  apply SE_bind_Ok in E as (ts & s1 & Eq & E). apply SE_bind_Ok in E as ([] & s2 & Ef & E).
  injection E as <- <-. unfold on_store, with_runner, with_store in Eq.
  destruct (queued_tasks _ _ _ _) as [r st] eqn:Et. simplify_eq.
  apply queued_tasks_length in Et; [|unfold available; lia].
  unfold available in Et. split; [lia|].
  destruct (start_keys ts (MkScheduler (MkRunner st (tokens (sch_runner s)) (cancellations (sch_runner s)))
    (running s) (incoming s) (published s) (stopping s))) as (s3 & E3 & Hl).
  rewrite E3 in Ef. injection Ef as <-. simpl in Hl. lia.
Qed.
End Concurrency.

(** ** Concrete synchronisations *)

Definition finished_scheduler : Scheduler := MkScheduler (MkRunner store_finished [] ∅) [] [] [] false.
Definition always : string → json → list (string * json) → bool := λ _ _ _, true.

Lemma confirmed_results_were_published_witness :
  ∃ document, json_loads (canonical_json (JObj [("result_id", JStr "r1")])) = Some document
    ∧ ("outbox_results", document) ∈ published (sync_outboxes always "now" finished_scheduler).2.
Proof.
  destruct (confirmed_results_were_published always "now" finished_scheduler
    (MkResult "r1" "t1" "rk1" (canonical_json (JObj [("result_id", JStr "r1")]))
       (digest (JObj [("result_id", JStr "r1")])) D_CONFIRMED "2026-01-01T00:00:04Z" (Some "now"))
    store_finished_reachable) as [(o0 & Ho & _ & Hc)|Hp].
  - vm_compute. left.
  - reflexivity.
  - exfalso. vm_compute in Ho, Hc. apply list_elem_of_singleton in Ho. subst. discriminate.
  - exact Hp.
Defined.

Lemma complete_sync_delivers_all_witness :
  (pending_outbox "outbox_results" (sch_store (sync_outboxes always "now" finished_scheduler).2)).1 = Ok [].
Proof.
  rewrite (complete_sync_delivers_all always "now" finished_scheduler
    (sync_outboxes always "now" finished_scheduler).2); [reflexivity | vm_compute; reflexivity | right; left].
Defined.

Definition example_round : RoundInputs :=
  {| ingest_times := λ _, ("n", "q", "n"); queue_ids := nth_id; queue_times := λ _, "n";
     confirm_time := "n" |}.

Lemma concurrency_bounded_witness :
  ∃ tasks s', start_queued 2 example_round (MkScheduler queued_runner [] [] [] false) = (Ok tasks, s')
    ∧ Z.of_nat (length (running s')) ≤ 2.
Proof.
  destruct (start_queued 2 example_round (MkScheduler queued_runner [] [] [] false)) as [[tasks|e] s'] eqn:E.
  - exists tasks, s'. split; [reflexivity|].
    refine (proj2 (concurrency_bounded 2 example_round (MkScheduler queued_runner [] [] [] false) tasks s'
      _ _ E)); simpl; lia.
  - exfalso. apply (f_equal (λ x, is_ok x.1)) in E. vm_compute in E. discriminate.
Defined.
