(* ===== verification/BackendData.v ===== *)
(** * The backend's tables and transactions

    The agent half of [domain/models.py]: rows as records, each with the
    constraints PostgreSQL enforces on it, and the database session of one
    request.  Identifiers are the text of a UUID, times are instants in
    microseconds, binary columns are the text of their bytes.  Columns that no
    service reads ([version_id], [created_at], [updated_at] of the mixins) are
    left out.  The domain errors are those of [services/errors.py]. *)

From S2P Require Export StoreData.

(** ** Domain errors *)

Definition InvalidCredentialsError : exc := DomainError "InvalidCredentialsError".
Definition InvalidSessionError : exc := DomainError "InvalidSessionError".
Definition PermissionDeniedError : exc := DomainError "PermissionDeniedError".
Definition ResourceNotFoundError : exc := DomainError "ResourceNotFoundError".
Definition ConflictError : exc := DomainError "ConflictError".
Definition LastAdministratorError : exc := DomainError "LastAdministratorError".
Definition DependencyUnavailableError : exc := DomainError "DependencyUnavailableError".
Definition AgentAuthenticationError : exc := DomainError "AgentAuthenticationError".
Definition ProtocolVersionError : exc := DomainError "ProtocolVersionError".
Definition RequestClockSkewError : exc := DomainError "RequestClockSkewError".
Definition NonceReplayError : exc := DomainError "NonceReplayError".
Definition IdempotencyConflictError : exc := DomainError "IdempotencyConflictError".
Definition IdempotencyInProgressError : exc := DomainError "IdempotencyInProgressError".
Definition SecretReplayExpiredError : exc := DomainError "SecretReplayExpiredError".
Definition SequenceConflictError : exc := DomainError "SequenceConflictError".
Definition EnrollmentFailedError : exc := DomainError "EnrollmentFailedError".
Definition AgentRateLimitedDomainError : exc := DomainError "AgentRateLimitedDomainError".
Definition ContractValidationError : exc := DomainError "ContractValidationError".

(** ** Rows *)

Record AgentRecord := MkAgent {
  ag_id : string; ag_device_id : option string; ag_display_name : string;
  ag_installation_id : option string; ag_protocol_min_version : option string;
  ag_protocol_max_version : option string; ag_protocol_version : option string;
  ag_is_active : bool; ag_disabled_at : option Z; ag_revoked_at : option Z;
  ag_revoked_by_user_id : option string; ag_revocation_reason : option string;
  ag_last_seen_at : option Z;
}.

Record DeviceRecord := MkDevice {
  dv_id : string; dv_display_name : string; dv_platform : string; dv_platform_version : string;
}.

Inductive TokenScope := AGENT_ENROLL | AGENT_RECOVER.
#[global] Instance TokenScope_eq_dec : EqDecision TokenScope.
Proof. solve_decision. Defined.

Record EnrollmentToken := MkEnrollmentToken {
  et_id : string; et_token_digest : string; et_digest_key_version : Z; et_scope : TokenScope;
  et_max_uses : Z; et_uses_consumed : Z; et_allowed_platforms : list string;
  et_bound_agent_id : option string; et_created_by_user_id : option string; et_created_at : Z;
  et_expires_at : Z; et_consumed_at : option Z; et_revoked_at : option Z;
  et_revoked_by_user_id : option string; et_revocation_reason : option string;
}.

Inductive CredentialState := CS_PENDING | CS_ACTIVE | CS_REVOKED | CS_EXPIRED.
#[global] Instance CredentialState_eq_dec : EqDecision CredentialState.
Proof. solve_decision. Defined.

Record AgentCredential := MkCredential {
  ac_id : string; ac_agent_id : string; ac_credential_version : Z; ac_secret_digest : string;
  ac_state : CredentialState; ac_issued_at : Z; ac_activated_at : option Z; ac_expires_at : Z;
  ac_revoked_at : option Z; ac_revoked_by_user_id : option string;
  ac_revocation_reason : option string;
}.

Inductive RotationState := RS_PENDING | RS_ACTIVATED | RS_EXPIRED | RS_REVOKED.
#[global] Instance RotationState_eq_dec : EqDecision RotationState.
Proof. solve_decision. Defined.

Record CredentialRotation := MkRotation {
  cr_id : string; cr_agent_id : string; cr_previous_credential_id : string;
  cr_pending_credential_id : string; cr_state : RotationState; cr_created_at : Z;
  cr_expires_at : Z; cr_activated_at : option Z;
}.

Inductive RecordState := IR_PENDING | IR_COMPLETED | IR_FAILED.
#[global] Instance RecordState_eq_dec : EqDecision RecordState.
Proof. solve_decision. Defined.

Record IdempotencyRecord := MkIdempotency {
  ir_id : string; ir_principal_type : string; ir_principal_id : string;
  ir_operation_id : string; ir_idempotency_key : string; ir_request_fingerprint : string;
  ir_state : RecordState; ir_response_status : option Z; ir_response_body : option json;
  ir_created_at : Z; ir_updated_at : Z; ir_expires_at : Z;
}.

Record SecretReplay := MkReplay {
  sr_id : string; sr_idempotency_record_id : string; sr_ciphertext : string; sr_nonce : string;
  sr_encryption_key_version : Z; sr_expires_at : Z;
}.

Record CapabilityManifest := MkCapability {
  mf_id : string; mf_agent_id : string; mf_sequence : Z; mf_schema_version : string;
  mf_catalog_version : string; mf_server_received_at : Z; mf_document_digest : string;
  mf_document : json;
}.

Inductive PresenceKind := KIND_DESKTOP | KIND_MOBILE.
#[global] Instance PresenceKind_eq_dec : EqDecision PresenceKind.
Proof. solve_decision. Defined.

Record AgentPresence := MkPresence {
  ap_agent_id : string; ap_kind : PresenceKind; ap_boot_id : string; ap_sequence : Z;
  ap_payload_digest : string; ap_agent_reported_at : Z; ap_server_received_at : Z;
  ap_presence_expires_at : Z; ap_manifest_id : string;
}.

(** The audit trail; [metadata] is what [sanitize_metadata] let through. *)
Record AuditRecord := MkAudit {
  au_actor_type : string; au_actor_id : option string; au_actor_agent_id : option string;
  au_action : string; au_resource_type : string; au_resource_id : option string;
  au_outcome : string; au_occurred_at : Z; au_metadata : list (string * json);
}.

Record AgentDb := MkAgentDb {
  agents : list AgentRecord;
  devices : list DeviceRecord;
  enrollment_tokens : list EnrollmentToken;
  agent_credentials : list AgentCredential;
  rotations : list CredentialRotation;
  idempotency_records : list IdempotencyRecord;
  secret_replays : list SecretReplay;
  manifests : list CapabilityManifest;
  presences : list AgentPresence;
  audit_logs : list AuditRecord;
}.

Definition empty_db : AgentDb := MkAgentDb [] [] [] [] [] [] [] [] [] [].

Definition put_agents v d := MkAgentDb v (devices d) (enrollment_tokens d) (agent_credentials d)
  (rotations d) (idempotency_records d) (secret_replays d) (manifests d) (presences d) (audit_logs d).
Definition put_devices v d := MkAgentDb (agents d) v (enrollment_tokens d) (agent_credentials d)
  (rotations d) (idempotency_records d) (secret_replays d) (manifests d) (presences d) (audit_logs d).
Definition put_tokens v d := MkAgentDb (agents d) (devices d) v (agent_credentials d)
  (rotations d) (idempotency_records d) (secret_replays d) (manifests d) (presences d) (audit_logs d).
Definition put_credentials v d := MkAgentDb (agents d) (devices d) (enrollment_tokens d) v
  (rotations d) (idempotency_records d) (secret_replays d) (manifests d) (presences d) (audit_logs d).
Definition put_rotations v d := MkAgentDb (agents d) (devices d) (enrollment_tokens d)
  (agent_credentials d) v (idempotency_records d) (secret_replays d) (manifests d) (presences d)
  (audit_logs d).
Definition put_idempotency v d := MkAgentDb (agents d) (devices d) (enrollment_tokens d)
  (agent_credentials d) (rotations d) v (secret_replays d) (manifests d) (presences d) (audit_logs d).
Definition put_replays v d := MkAgentDb (agents d) (devices d) (enrollment_tokens d)
  (agent_credentials d) (rotations d) (idempotency_records d) v (manifests d) (presences d)
  (audit_logs d).
Definition put_manifests v d := MkAgentDb (agents d) (devices d) (enrollment_tokens d)
  (agent_credentials d) (rotations d) (idempotency_records d) (secret_replays d) v (presences d)
  (audit_logs d).
Definition put_presences v d := MkAgentDb (agents d) (devices d) (enrollment_tokens d)
  (agent_credentials d) (rotations d) (idempotency_records d) (secret_replays d) (manifests d) v
  (audit_logs d).
Definition put_audit v d := MkAgentDb (agents d) (devices d) (enrollment_tokens d)
  (agent_credentials d) (rotations d) (idempotency_records d) (secret_replays d) (manifests d)
  (presences d) v.

(** ** Uniqueness *)

(** No two rows with the same values of [same]: a unique index, partial when
    [same] also tests the predicate of the index. *)
Fixpoint all_distinct {R} (same : R → R → bool) (t : list R) : bool :=
  match t with
  | [] => true
  | r :: t' => negb (existsb (same r) t') && all_distinct same t'
  end.

Definition is_state (st : CredentialState) (c : AgentCredential) : bool :=
  bool_decide (ac_state c = st).
Definition rotation_is (st : RotationState) (r : CredentialRotation) : bool :=
  bool_decide (cr_state r = st).

Definition same_text (a b : string) : bool := String.eqb a b.

(** Primary key, [uq_agent_credentials_agent_version], [..._one_active] and
    [..._one_pending]. *)
Definition credentials_valid (t : list AgentCredential) : bool :=
  all_distinct (λ a b, same_text (ac_id a) (ac_id b)) t
  && all_distinct (λ a b, same_text (ac_agent_id a) (ac_agent_id b)
                          && (ac_credential_version a =? ac_credential_version b)) t
  && all_distinct (λ a b, same_text (ac_agent_id a) (ac_agent_id b)
                          && is_state CS_ACTIVE a && is_state CS_ACTIVE b) t
  && all_distinct (λ a b, same_text (ac_agent_id a) (ac_agent_id b)
                          && is_state CS_PENDING a && is_state CS_PENDING b) t.

Definition rotations_valid (t : list CredentialRotation) : bool :=
  all_distinct (λ a b, same_text (cr_id a) (cr_id b)) t
  && all_distinct (λ a b, same_text (cr_pending_credential_id a) (cr_pending_credential_id b)) t
  && all_distinct (λ a b, same_text (cr_agent_id a) (cr_agent_id b)
                          && rotation_is RS_PENDING a && rotation_is RS_PENDING b) t.

Definition same_scope (a b : IdempotencyRecord) : bool :=
  same_text (ir_principal_type a) (ir_principal_type b)
  && same_text (ir_principal_id a) (ir_principal_id b)
  && same_text (ir_operation_id a) (ir_operation_id b)
  && same_text (ir_idempotency_key a) (ir_idempotency_key b).
Definition idempotency_valid (t : list IdempotencyRecord) : bool :=
  all_distinct (λ a b, same_text (ir_id a) (ir_id b)) t && all_distinct same_scope t.

Definition replays_valid (t : list SecretReplay) : bool :=
  all_distinct (λ a b, same_text (sr_idempotency_record_id a) (sr_idempotency_record_id b)) t.

Definition tokens_valid (t : list EnrollmentToken) : bool :=
  all_distinct (λ a b, same_text (et_id a) (et_id b)) t
  && all_distinct (λ a b, same_text (et_token_digest a) (et_token_digest b)) t
  && forallb (λ a, et_created_at a <? et_expires_at a) t.

Definition agents_valid (t : list AgentRecord) : bool :=
  all_distinct (λ a b, same_text (ag_id a) (ag_id b)) t
  && all_distinct (λ a b, match ag_installation_id a, ag_installation_id b with
                          | Some x, Some y => same_text x y | _, _ => false end) t.

Definition manifests_valid (t : list CapabilityManifest) : bool :=
  all_distinct (λ a b, same_text (mf_id a) (mf_id b)) t
  && all_distinct (λ a b, same_text (mf_agent_id a) (mf_agent_id b)
                          && (mf_sequence a =? mf_sequence b)) t.

Definition presences_valid (t : list AgentPresence) : bool :=
  all_distinct (λ a b, same_text (ap_agent_id a) (ap_agent_id b)) t.

(** ** Sessions *)

Section Session.
Context {DB : Type}.

(** A session opens a transaction by itself; [commit] ends it and the next
    statement opens another.  What is not committed when the request ends is
    rolled back. *)
Definition session_commit : SE (conn DB) unit := λ c,
  (Ok tt, Conn (working c) (working c) true).
Definition with_session {A} (m : SE (conn DB) A) : SE DB A := λ d,
  let '(r, c) := m (Conn d d true) in (r, committed c).

(** Write a table and let the database check its constraints. *)
Definition store_table {T} (put : list T → DB → DB) (valid : list T → bool)
    (name : string) (rows : DB → list T) : SE (conn DB) unit :=
  exec (λ d, if valid (rows d) then Ok (tt, put (rows d) d) else Err (IntegrityError name)).
End Session.

Definition write_credentials (f : list AgentCredential → list AgentCredential)
    : SE (conn AgentDb) unit :=
  store_table put_credentials credentials_valid "agent_credentials" (λ d, f (agent_credentials d)).
Definition write_rotations (f : list CredentialRotation → list CredentialRotation)
    : SE (conn AgentDb) unit :=
  store_table put_rotations rotations_valid "agent_credential_rotations" (λ d, f (rotations d)).
Definition write_idempotency (f : list IdempotencyRecord → list IdempotencyRecord)
    : SE (conn AgentDb) unit :=
  store_table put_idempotency idempotency_valid "idempotency_records"
    (λ d, f (idempotency_records d)).
Definition write_replays (f : list SecretReplay → list SecretReplay) : SE (conn AgentDb) unit :=
  store_table put_replays replays_valid "secret_replays" (λ d, f (secret_replays d)).
Definition write_tokens (f : list EnrollmentToken → list EnrollmentToken)
    : SE (conn AgentDb) unit :=
  store_table put_tokens tokens_valid "enrollment_tokens" (λ d, f (enrollment_tokens d)).
Definition write_agents (f : list AgentRecord → list AgentRecord) : SE (conn AgentDb) unit :=
  store_table put_agents agents_valid "agents" (λ d, f (agents d)).
Definition write_devices (f : list DeviceRecord → list DeviceRecord) : SE (conn AgentDb) unit :=
  store_table put_devices (λ _, true) "devices" (λ d, f (devices d)).
Definition write_manifests (f : list CapabilityManifest → list CapabilityManifest)
    : SE (conn AgentDb) unit :=
  store_table put_manifests manifests_valid "capability_manifests" (λ d, f (manifests d)).
Definition write_presences (f : list AgentPresence → list AgentPresence) : SE (conn AgentDb) unit :=
  store_table put_presences presences_valid "agent_presence" (λ d, f (presences d)).
