(* ===== verification/AuditTrail.v ===== *)
(** * The audit trail

    [audit.py] of the backend: metadata is filtered before it is written, and
    an event is added to the session with the change it records.  Python's
    [len] and slices count characters: a character is a byte that does not
    continue a UTF-8 sequence, with the bytes that continue it. *)

From Stdlib Require Import Ascii.
From S2P Require Export BackendData.

Definition SAFE_METADATA_KEYS : list string :=
  ["identifier_fingerprint"; "ip_fingerprint"; "session_id"; "role_key"; "reason_code";
   "changed_fields"; "created_count"; "updated_count"; "already_exists"; "agent_id";
   "credential_id"; "credential_version"; "enrollment_token_id"; "installation_id";
   "manifest_id"; "operation_id"; "protocol_version"; "rotation_id"; "scope"].

Definition FORBIDDEN_FRAGMENTS : list string :=
  ["password"; "token"; "cookie"; "authorization"; "secret"; "hash"; "digest"; "dsn"].

Definition lower_char (c : ascii) : ascii :=
  let n := N_of_ascii c in
  if ((65 <=? n) && (n <=? 90))%N then ascii_of_N (n + 32) else c.
Fixpoint lower (s : string) : string :=
  match s with
  | EmptyString => EmptyString
  | String c s' => String (lower_char c) (lower s')
  end.

(** [fragment in s] *)
Definition contains (fragment s : string) : bool :=
  match String.index 0 fragment s with Some _ => true | None => false end.

Definition continues (c : ascii) : bool :=
  let n := N_of_ascii c in ((128 <=? n) && (n <? 192))%N.

(** [s[:n]] *)
Fixpoint take_chars (n : nat) (s : string) : string :=
  match s with
  | EmptyString => EmptyString
  | String c s' =>
      if continues c then String c (take_chars n s')
      else match n with
           | O => EmptyString
           | S n' => String c (take_chars n' s')
           end
  end.

(** Length of a text in [json.dumps] with [ensure_ascii]: a character outside
    ASCII is one escape of six characters per UTF-16 unit. *)
Fixpoint ascii_length (s : string) : nat :=
  match s with
  | EmptyString => 0
  | String c s' =>
      let n := N_of_ascii c in
      ((if (n <? 128)%N then String.length (escape_char c)
        else if continues c then 0
        else if (n <? 240)%N then 6 else 12) + ascii_length s')%nat
  end.

Section Audit.
(** [str(item)] of a list item that is neither a text nor an integer. *)
Context (py_str : json → string).

Definition item_text (j : json) : string :=
  match j with
  | JStr s => s
  | JInt z => str_of_Z z
  | other => py_str other
  end.

(** The value kept for a key, if any. *)
Definition safe_value (key : string) (v : json) : option json :=
  match v with
  | JStr s => Some (JStr (take_chars 256 s))
  | JInt _ | JBool _ | JNull => Some v
  | JList items =>
      if String.eqb key "changed_fields"
      then Some (JList (map (λ i, JStr (take_chars 64 (item_text i))) (take 20 items)))
      else None
  | _ => None
  end.

Definition safe_key (key : string) : bool :=
  let contains_forbidden_fragment :=
    existsb (λ fragment, contains fragment (lower key)) FORBIDDEN_FRAGMENTS in
  str_in key SAFE_METADATA_KEYS
  && negb (contains_forbidden_fragment && negb (String.eqb key "enrollment_token_id")).

Definition safe_items (metadata : list (string * json)) : list (string * json) :=
  omap (λ kv, if safe_key kv.1 then pair kv.1 <$> safe_value kv.1 kv.2 else None) metadata.

(** Length of [json.dumps(value, separators=(",", ":"))] for what
    [safe_value] lets through. *)
Definition dumps_length (j : json) : nat :=
  match j with
  | JStr s => 2 + ascii_length s
  | JInt z => String.length (str_of_Z z)
  | JBool b => if b then 4 else 5
  | JList items =>
      (2 + (length items - 1)
       + foldr (λ i n, match i with JStr s => 2 + ascii_length s | _ => 4 end + n) 0 items)%nat
  | _ => 4
  end%nat.
Definition document_length (d : list (string * json)) : nat :=
  (2 + (length d - 1)
   + foldr (λ kv n, 2 + ascii_length kv.1 + 1 + dumps_length kv.2 + n) 0 d)%nat.

Definition sanitize_metadata (metadata : option (list (string * json)))
    : list (string * json) :=
  match metadata with
  | None => []
  | Some m =>
      let safe := safe_items m in
      if 12000 <? Z.of_nat (document_length safe) then [] else safe
  end.

Definition audit_event (now : Z) (actor_type : string) (actor_id actor_agent_id : option string)
    (action resource_type : string) (resource_id : option string) (outcome : string)
    (metadata : option (list (string * json))) : AuditRecord :=
  MkAudit actor_type actor_id actor_agent_id action resource_type resource_id outcome now
    (sanitize_metadata metadata).

(** [write_audit] on the agent half of the schema. *)
Definition write_audit (now : Z) (actor_type : string) (actor_id actor_agent_id : option string)
    (action resource_type : string) (resource_id : option string) (outcome : string)
    (metadata : option (list (string * json))) : SE (conn AgentDb) unit :=
  exec (λ d, Ok (tt, put_audit (audit_logs d ++
    [audit_event now actor_type actor_id actor_agent_id action resource_type resource_id
       outcome metadata]) d)).

(** Whatever a service passes as metadata, the audit trail stores only
    known keys, none of which names a secret but the enrollment token's
    identifier, no nested document, and at most 12000 characters. *)
Theorem sanitized_metadata_is_safe metadata key v :
  (key, v) ∈ sanitize_metadata metadata →
  str_in key SAFE_METADATA_KEYS = true
  ∧ (key = "enrollment_token_id"
     ∨ ∀ fragment, fragment ∈ FORBIDDEN_FRAGMENTS → contains fragment (lower key) = false)
  ∧ match v with JObj _ | JFloat _ => False
               | JList items => key = "changed_fields" ∧ (length items ≤ 20)%nat
               | _ => True end
  ∧ Z.of_nat (document_length (sanitize_metadata metadata)) ≤ 12000.
Proof.
  unfold sanitize_metadata. destruct metadata as [m|]; [|by intros H%elem_of_nil].
  destruct (12000 <? _) eqn:El; [by intros H%elem_of_nil|]. apply Z.ltb_ge in El.
  intros Hin. unfold safe_items in Hin.
  apply list_elem_of_omap in Hin as ((k & v0) & _ & E). simpl in E.
  destruct (safe_key k) eqn:Ek; [|done].
  destruct (safe_value k v0) as [v1|] eqn:Ev; simplify_eq/=.
  unfold safe_key in Ek. apply andb_true_iff in Ek as [Ek1 Ek2]. split_and!; [done| | |done].
  - destruct (String.eqb_spec key "enrollment_token_id") as [->|Hne]; [by left|]. right.
    apply negb_true_iff in Ek2. rewrite andb_true_r in Ek2. intros fragment Hf.
    apply not_true_iff_false. intros Hc. apply not_true_iff_false in Ek2. apply Ek2.
    apply existsb_exists. exists fragment. by rewrite <-list_elem_of_In.
  - destruct v0; simplify_eq/=; try done. destruct (String.eqb_spec key "changed_fields"); [|done].
    simplify_eq. split; [done|]. rewrite length_map, length_take. lia.
Qed.
End Audit.

Lemma sanitized_metadata_is_safe_witness :
  str_in "enrollment_token_id" SAFE_METADATA_KEYS = true.
Proof.
  apply (sanitized_metadata_is_safe (λ _, "x")
    (Some [("enrollment_token_id", JStr "1"); ("password", JStr "p"); ("scope", JObj [])])
    "enrollment_token_id" (JStr "1")).
  vm_compute. left.
Defined.
