(* ===== verification/MachineSecret.v ===== *)
(** * Machine secrets

    [security/agent_credentials.py]: enrollment tokens and agent credentials
    have the form [prefix.locator.secret], with the text of a UUID as locator
    and 43 URL-safe characters as secret; only an HMAC of the secret is stored.
    A text is split into characters, each the bytes of one UTF-8 sequence, so
    that [len] and [isalnum] are those of Python. *)

From Stdlib Require Import Ascii.
From S2P Require Export AuditTrail.

(** HMAC-SHA256, and [str.isalnum] on a character outside ASCII. *)
Class Hmac := { hmac_sha256 : string → string → string }.
Class WideAlnum := { wide_alnum : string → bool }.

(** ** Characters *)

Fixpoint take_while (p : ascii → bool) (s : string) : string * string :=
  match s with
  | EmptyString => (EmptyString, EmptyString)
  | String c s' =>
      if p c then let '(a, b) := take_while p s' in (String c a, b) else (EmptyString, s)
  end.

Fixpoint chars_fuel (fuel : nat) (s : string) : list string :=
  match fuel, s with
  | S fuel', String c s' =>
      let '(tail, rest) := take_while continues s' in String c tail :: chars_fuel fuel' rest
  | _, _ => []
  end.
Definition chars (s : string) : list string := chars_fuel (String.length s) s.

(** [s.split(".")] *)
Fixpoint split_on (sep : ascii) (s : string) : list string :=
  match s with
  | EmptyString => [EmptyString]
  | String c s' =>
      if Ascii.eqb c sep then EmptyString :: split_on sep s'
      else match split_on sep s' with
           | [] => [String c EmptyString]
           | w :: ws => String c w :: ws
           end
  end.

Definition is_ascii_alnum (c : ascii) : bool :=
  let n := N_of_ascii c in
  (((48 <=? n) && (n <=? 57)) || ((65 <=? n) && (n <=? 90)) || ((97 <=? n) && (n <=? 122)))%N.
Definition is_ascii (c : ascii) : bool := (N_of_ascii c <? 128)%N.

(** ** UUID texts *)

(** [str(UUID(text)) == text]: 8-4-4-4-12 lower-case hexadecimal digits. *)
Definition uuid_positions : list nat := [8; 4; 4; 4; 12]%nat.
Definition is_uuid_text (s : string) : bool :=
  let parts := split_on "-"%char s in
  bool_decide (map String.length parts = uuid_positions)
  && forallb (all_chars is_lower_hex) parts.

Record ParsedMachineSecret := { locator : string; secret : string }.

Section MachineSecrets.
Context `{WideAlnum} `{Hmac}.

Definition InvalidMachineSecretError : exc := ValueError "InvalidMachineSecretError".

(** [f"{prefix}.{locator}.{secret}"] *)
Definition new_secret (prefix loc sec : string) : string := prefix +:+ "." +:+ loc +:+ "." +:+ sec.
Definition new_enrollment_token (loc sec : string) : string := new_secret "wto_enr_1" loc sec.
Definition new_agent_credential (loc sec : string) : string := new_secret "wto_ac_1" loc sec.

Definition secret_char (c : string) : bool :=
  match c with
  | String a EmptyString =>
      if is_ascii a then is_ascii_alnum a || Ascii.eqb a "-"%char || Ascii.eqb a "_"%char
      else wide_alnum c
  | _ => wide_alnum c
  end.

Definition parse_machine_secret (value prefix : string) : result ParsedMachineSecret :=
  match split_on "."%char value with
  | [p; loc; sec] =>
      if String.eqb p prefix && (length (chars sec) =? 43)%nat
         && is_uuid_text loc && forallb secret_char (chars sec)
      then Ok {| locator := loc; secret := sec |}
      else Err InvalidMachineSecretError
  | _ => Err InvalidMachineSecretError
  end.

(** [secret.encode("ascii")] refuses any other character. *)
Definition secret_digest (key sec : string) : result string :=
  if all_chars is_ascii sec then Ok (hmac_sha256 key sec)
  else Err (ValueError "UnicodeEncodeError").
Definition verify_secret (key sec expected : string) : result bool :=
  d ← secret_digest key sec; mret (String.eqb d expected).

(** ** Properties *)

Lemma split_on_none sep s :
  all_chars (λ c, negb (Ascii.eqb c sep)) s = true → split_on sep s = [s].
Proof.
  induction s as [|c s IH]; simpl; [done|]. intros [Hc Hs]%andb_true_iff.
  apply negb_true_iff in Hc. by rewrite Hc, IH.
Qed.
Lemma split_on_cons sep a s :
  all_chars (λ c, negb (Ascii.eqb c sep)) a = true →
  split_on sep (a +:+ String sep s) = a :: split_on sep s.
Proof.
  induction a as [|c a IH]; intros Ha.
  - rewrite append_nil. simpl. by rewrite Ascii.eqb_refl.
  - rewrite append_cons. simpl in *. apply andb_true_iff in Ha as [Hc Ha].
    apply negb_true_iff in Hc. by rewrite Hc, IH.
Qed.

Definition urlsafe (c : ascii) : bool :=
  is_ascii_alnum c || Ascii.eqb c "-"%char || Ascii.eqb c "_"%char.

Lemma byte_cases (p : ascii → bool) :
  forallb (λ n, p (ascii_of_nat n)) (seq 0 256) = true → ∀ c, p c = true.
Proof.
  intros Hall c. rewrite <-(ascii_nat_embedding c).
  rewrite forallb_forall in Hall. apply Hall. apply in_seq. split; [lia|].
  apply nat_ascii_bounded.
Qed.

Lemma urlsafe_facts c :
  urlsafe c = true → is_ascii c = true ∧ continues c = false ∧ Ascii.eqb c "."%char = false.
Proof.
  intros Hc. pose proof (byte_cases (λ c, implb (urlsafe c)
    (is_ascii c && negb (continues c) && negb (Ascii.eqb c "."%char)))) as B.
  specialize (B ltac:(vm_compute; reflexivity) c). cbv beta in B. rewrite Hc in B. simpl in B.
  apply andb_true_iff in B as [[B1 B2]%andb_true_iff B3].
  by rewrite negb_true_iff in B2, B3.
Qed.

Lemma chars_ascii s :
  all_chars urlsafe s = true →
  ∀ fuel, (String.length s ≤ fuel)%nat →
  length (chars_fuel fuel s) = String.length s ∧ forallb secret_char (chars_fuel fuel s) = true.
Proof.
  induction s as [|c s IH]; simpl; intros Hs fuel Hf; [by destruct fuel|].
  destruct fuel as [|fuel]; [lia|]. apply andb_true_iff in Hs as [Hc Hs]. simpl.
  assert (take_while continues s = (EmptyString, s)) as ->.
  { destruct s as [|c' s']; [done|]. simpl in Hs. apply andb_true_iff in Hs as [Hc' _].
    apply urlsafe_facts in Hc' as (_ & Hn & _). simpl. by rewrite Hn. }
  destruct (IH Hs fuel) as [IH1 IH2]; [lia|]. simpl. rewrite IH1, IH2. split; [done|].
  apply urlsafe_facts in Hc as Hf'. destruct Hf' as (Ha & _ & _). rewrite Ha.
  unfold urlsafe in Hc. by rewrite Hc.
Qed.

Lemma all_chars_weaken (p q : ascii → bool) s :
  (∀ c, p c = true → q c = true) → all_chars p s = true → all_chars q s = true.
Proof. intros Hpq. apply all_chars_impl. apply Hpq. Qed.

(** What the server issues is what it reads back: a token built from a
    prefix, a UUID text and 43 URL-safe characters parses to exactly that
    locator and secret under its own prefix and under no other, and the
    stored digest verifies the secret. *)
Theorem machine_secret_round_trip prefix loc sec key :
  all_chars (λ c, negb (Ascii.eqb c "."%char)) prefix = true →
  all_chars (λ c, negb (Ascii.eqb c "."%char)) loc = true → is_uuid_text loc = true →
  all_chars urlsafe sec = true → String.length sec = 43%nat →
  (∀ other, parse_machine_secret (new_secret prefix loc sec) other =
     if String.eqb prefix other then Ok {| locator := loc; secret := sec |}
     else Err InvalidMachineSecretError)
  ∧ (d ← secret_digest key sec; verify_secret key sec d) = Ok true.
Proof.
  intros Hp Hl Hu Hs Hlen.
  assert (all_chars (λ c, negb (Ascii.eqb c "."%char)) sec = true) as Hd.
  { eapply all_chars_weaken, Hs. intros c Hc. apply urlsafe_facts in Hc as (_ & _ & ->). done. }
  assert (all_chars is_ascii sec = true) as Ha.
  { eapply all_chars_weaken, Hs. intros c Hc. by apply urlsafe_facts in Hc as (-> & _ & _). }
  split.
  - intros other. unfold parse_machine_secret, new_secret.
    change ("." +:+ loc +:+ "." +:+ sec) with (String "."%char (EmptyString +:+ (loc +:+ String "."%char (EmptyString +:+ sec)))).
    rewrite split_on_cons by done. rewrite append_nil, split_on_cons by done.
    rewrite append_nil, split_on_none by done.
    destruct (chars_ascii sec Hs (String.length sec)) as [E1 E2]; [lia|]. unfold chars.
    rewrite E1, E2, Hlen, Hu, Nat.eqb_refl, !andb_true_r. done.
  - unfold verify_secret, secret_digest. rewrite Ha. simpl. by rewrite String.eqb_refl.
Qed.
End MachineSecrets.

#[global] Instance example_wide : WideAlnum := {| wide_alnum := λ c, negb (String.eqb c EmptyString) |}.
#[global] Instance example_hmac : Hmac := {| hmac_sha256 := λ k m, pad64 (k +:+ m) |}.
Definition example_locator : string := "0123abcd-0123-0123-0123-0123456789ab".
Definition example_secret : string := "AAAAAAAAAAAAAAAAAAAAAAAAAAAAAAAAAAAAAAAAAAA".

Lemma machine_secret_round_trip_witness :
  parse_machine_secret (new_agent_credential example_locator example_secret) "wto_enr_1"
  = Err InvalidMachineSecretError.
Proof.
  apply (machine_secret_round_trip "wto_ac_1" example_locator example_secret "k"); reflexivity.
Defined.

(** The parser accepts letters outside ASCII, which the digest then refuses to
    encode: the exception is not the one callers expect of a bad secret. *)
Definition e_acute : string := String (ascii_of_nat 195) (String (ascii_of_nat 169) EmptyString).
Definition wide_secret : string := String.concat EmptyString (repeat e_acute 43).

Lemma parsed_secret_may_not_encode `{WideAlnum} `{Hmac} key :
  wide_alnum e_acute = true →
  parse_machine_secret (new_agent_credential example_locator wide_secret) "wto_ac_1"
  = Ok {| locator := example_locator; secret := wide_secret |}
  ∧ secret_digest key wide_secret = Err (ValueError "UnicodeEncodeError").
Proof.
  intros Hw. split; [|reflexivity]. unfold parse_machine_secret.
  change (split_on "."%char (new_agent_credential example_locator wide_secret))
    with ["wto_ac_1"; example_locator; wide_secret]. cbv iota beta.
  change (chars wide_secret) with (repeat e_acute 43).
  assert (forallb secret_char (repeat e_acute 43) = true) as ->.
  { apply forallb_forall. intros c ->%repeat_spec. exact Hw. }
  reflexivity.
Qed.
