(* ===== verification/Idempotency.v ===== *)
(** * Idempotent operations of the backend

    [services/idempotency.py], with the queries of [repositories/agents.py] it
    uses.  A record is found by its scope and guarded by the fingerprint of the
    request; a completed response is replayed, a secret one from its encrypted
    copy and only within the replay window.  Advisory and row locks make the
    transactions of one scope run one after the other, which is how they are
    modelled. *)

From S2P Require Export AuditTrail.

Definition seconds (n : Z) : Z := n * 1000000.
Definition minutes (n : Z) : Z := seconds (60 * n).
Definition days (n : Z) : Z := minutes (24 * 60 * n).

Definition pending_window : Z := minutes 15.
Definition terminal_retention : Z := days 7.
Definition secret_window : Z := minutes 15.

(** [SecretReplayCipher]: AES-GCM over the compact JSON of a response. *)
Class SecretReplayCipher := {
  encrypt : json → string → string → string;           (** body, nonce, associated data *)
  decrypt : string → string → string → option json;    (** ciphertext, nonce, associated data *)
  decrypt_encrypt : ∀ body nonce ad, decrypt (encrypt body nonce ad) nonce ad = Some body;
}.

Record IdempotencyStart := {
  start_record : IdempotencyRecord;
  replay_body : option json;
  replay_status : option Z;
  is_new : bool;
}.

(** ** Queries *)

Definition scope_is (ptype pid op key : string) (r : IdempotencyRecord) : bool :=
  same_text (ir_principal_type r) ptype && same_text (ir_principal_id r) pid
  && same_text (ir_operation_id r) op && same_text (ir_idempotency_key r) key.

Definition repo_idempotency (ptype pid op key : string)
    : SE (conn AgentDb) (option IdempotencyRecord) :=
  query (λ d, select_one (scope_is ptype pid op key) (idempotency_records d)).
Definition repo_secret_replay (record_id : string) : SE (conn AgentDb) (option SecretReplay) :=
  query (λ d, select_one (λ r, same_text (sr_idempotency_record_id r) record_id)
                (secret_replays d)).

(** ** The service *)

Definition record_with (state : RecordState) (status : option Z) (body : option json)
    (updated expires : Z) (r : IdempotencyRecord) : IdempotencyRecord :=
  MkIdempotency (ir_id r) (ir_principal_type r) (ir_principal_id r) (ir_operation_id r)
    (ir_idempotency_key r) (ir_request_fingerprint r) state status body (ir_created_at r)
    updated expires.

Section Idempotency.
Context `{Sha256} `{SecretReplayCipher}.

(** [fingerprint]: the digest of the canonical request. *)
Definition fingerprint (payload : json) : string := sha256_hex (canonical_json payload).

Definition begin (now : Z) (record_id : string) (ptype pid op key request_fingerprint : string)
    (secret_response : bool) : SE (conn AgentDb) IdempotencyStart :=
  found ← repo_idempotency ptype pid op key;
  match found with
  | None =>
      let record := MkIdempotency record_id ptype pid op key request_fingerprint IR_PENDING
                      None None now now (now + terminal_retention) in
      write_idempotency (λ t, t ++ [record]) ;;
      mret {| start_record := record; replay_body := None; replay_status := None;
              is_new := true |}
  | Some record =>
      raise_if (negb (String.eqb (ir_request_fingerprint record) request_fingerprint))
        IdempotencyConflictError ;;
      (if bool_decide (ir_state record = IR_PENDING) then
         if ir_updated_at record + pending_window <=? now then
           write_idempotency (update_rows (λ r, same_text (ir_id r) (ir_id record))
             (λ r, record_with IR_FAILED (ir_response_status r) (ir_response_body r) now
                     (ir_expires_at r) r))
         else raise IdempotencyInProgressError
       else mret tt) ;;
      if secret_response then
        replay ← repo_secret_replay (ir_id record);
        match replay with
        | None => raise SecretReplayExpiredError
        | Some p =>
            raise_if (sr_expires_at p <=? now) SecretReplayExpiredError ;;
            match decrypt (sr_ciphertext p) (sr_nonce p) (ir_id record) with
            | Some body =>
                mret {| start_record := record; replay_body := Some body;
                        replay_status := ir_response_status record; is_new := false |}
            | None => raise (ValueError "InvalidTag")
            end
        end
      else
        match ir_response_body record, ir_response_status record with
        | Some body, Some status =>
            mret {| start_record := record; replay_body := Some body;
                    replay_status := Some status; is_new := false |}
        | _, _ => raise IdempotencyInProgressError
        end
  end.

Definition complete_public (now : Z) (record : IdempotencyRecord) (body : json) (status : Z)
    : SE (conn AgentDb) unit :=
  write_idempotency (update_rows (λ r, same_text (ir_id r) (ir_id record))
    (record_with IR_COMPLETED (Some status) (Some body) now (now + terminal_retention))).

Definition complete_secret (now : Z) (replay_id nonce : string) (record : IdempotencyRecord)
    (body : json) (status : Z) : SE (conn AgentDb) unit :=
  write_idempotency (update_rows (λ r, same_text (ir_id r) (ir_id record))
    (record_with IR_COMPLETED (Some status)
       (Some (JObj [("secret_response", JBool true)])) now (now + terminal_retention))) ;;
  write_replays (λ t, t ++
    [MkReplay replay_id (ir_id record) (encrypt body nonce (ir_id record)) nonce 1
       (now + secret_window)]).
End Idempotency.
