(* ===== verification/Credentials.v ===== *)
(** * Agent credentials and their rotation

    [services/agent_credentials.py] with the queries of [repositories/agents.py]
    it uses.  Each method is one transaction of the session; the clock reading,
    the identifiers and the random secret it takes are inputs. *)

From S2P Require Export Idempotency MachineSecret.

(** ** Queries *)

Definition repo_agent (id : string) : SE (conn AgentDb) (option AgentRecord) :=
  query (λ d, select_one (λ a, same_text (ag_id a) id) (agents d)).
Definition repo_agent_by_installation (id : string) : SE (conn AgentDb) (option AgentRecord) :=
  query (λ d, select_one (λ a, bool_decide (ag_installation_id a = Some id)) (agents d)).
Definition repo_enrollment_token (id : string) : SE (conn AgentDb) (option EnrollmentToken) :=
  query (λ d, select_one (λ t, same_text (et_id t) id) (enrollment_tokens d)).
Definition repo_credential (id : string) : SE (conn AgentDb) (option AgentCredential) :=
  query (λ d, select_one (λ c, same_text (ac_id c) id) (agent_credentials d)).
Definition repo_active_credential (agent_id : string) : SE (conn AgentDb) (option AgentCredential) :=
  query (λ d, select_one (λ c, same_text (ac_agent_id c) agent_id && is_state CS_ACTIVE c)
                (agent_credentials d)).
Definition repo_pending_rotation (agent_id : string)
    : SE (conn AgentDb) (option CredentialRotation) :=
  query (λ d, select_one (λ r, same_text (cr_agent_id r) agent_id && rotation_is RS_PENDING r)
                (rotations d)).
Definition repo_rotation (id : string) : SE (conn AgentDb) (option CredentialRotation) :=
  query (λ d, select_one (λ r, same_text (cr_id r) id) (rotations d)).
(** [max(credential_version)] of the agent, 0 when it has none. *)
Definition highest_version (agent_id : string) : SE (conn AgentDb) Z :=
  query (λ d, foldr (λ c n, Z.max (ac_credential_version c) n) 0
    (select (λ c, same_text (ac_agent_id c) agent_id) (agent_credentials d))).

(** ** Row changes *)

Definition credential_revoked (now : Z) (by_user : option string) (reason : string)
    (c : AgentCredential) : AgentCredential :=
  MkCredential (ac_id c) (ac_agent_id c) (ac_credential_version c) (ac_secret_digest c) CS_REVOKED
    (ac_issued_at c) (ac_activated_at c) (ac_expires_at c) (Some now) by_user (Some reason).
(** Revocation by a service leaves [revoked_by_user_id] alone. *)
Definition credential_retired (now : Z) (reason : string) (c : AgentCredential) : AgentCredential :=
  credential_revoked now (ac_revoked_by_user_id c) reason c.
Definition credential_expired (now : Z) (c : AgentCredential) : AgentCredential :=
  MkCredential (ac_id c) (ac_agent_id c) (ac_credential_version c) (ac_secret_digest c) CS_EXPIRED
    (ac_issued_at c) (ac_activated_at c) (ac_expires_at c) (Some now) (ac_revoked_by_user_id c)
    (Some "rotation_expired").
Definition credential_activated (now expires : Z) (c : AgentCredential) : AgentCredential :=
  MkCredential (ac_id c) (ac_agent_id c) (ac_credential_version c) (ac_secret_digest c) CS_ACTIVE
    (ac_issued_at c) (Some now) expires (ac_revoked_at c) (ac_revoked_by_user_id c)
    (ac_revocation_reason c).
Definition rotation_to (st : RotationState) (activated : option Z) (r : CredentialRotation)
    : CredentialRotation :=
  MkRotation (cr_id r) (cr_agent_id r) (cr_previous_credential_id r) (cr_pending_credential_id r)
    st (cr_created_at r) (cr_expires_at r) activated.
Definition agent_revoked (now : Z) (by_user reason : string) (a : AgentRecord) : AgentRecord :=
  MkAgent (ag_id a) (ag_device_id a) (ag_display_name a) (ag_installation_id a)
    (ag_protocol_min_version a) (ag_protocol_max_version a) (ag_protocol_version a)
    false (Some now) (Some now) (Some by_user) (Some reason) (ag_last_seen_at a).

Definition credential_with (id : string) (c : AgentCredential) : bool := same_text (ac_id c) id.
Definition rotation_with (id : string) (r : CredentialRotation) : bool := same_text (cr_id r) id.

Definition usable (a : option AgentRecord) : bool :=
  match a with
  | Some r => ag_is_active r && opt_is_none (ag_revoked_at r)
  | None => false
  end.

(** ** Response documents *)

Definition time_json (t : Z) : json := JStr (utc_text t).

Definition credential_response (id : string) (version : Z) (value : string)
    (issued expires : Z) (state : string) : json :=
  JObj [("schema_version", JStr "1.0.0"); ("credential_id", JStr id);
        ("credential_version", JInt version); ("credential", JStr value);
        ("issued_at", time_json issued); ("expires_at", time_json expires); ("state", JStr state)].
Definition rotation_create_response (rotation_id : string) (expires : Z) (pending : json) : json :=
  JObj [("schema_version", JStr "1.0.0"); ("rotation_id", JStr rotation_id);
        ("expires_at", time_json expires); ("pending_credential", pending)].
Definition rotation_activate_response (rotation_id credential_id : string) (version activated : Z)
    : json :=
  JObj [("schema_version", JStr "1.0.0"); ("rotation_id", JStr rotation_id);
        ("credential_id", JStr credential_id); ("credential_version", JInt version);
        ("activated_at", time_json activated)].

(** The [rotation_id] of a replayed response; a body without one does not
    validate. *)
Definition response_field (name : string) (body : json) : result string :=
  match body with
  | JObj kvs => match dict_get kvs name with
                | Some (JStr s) => Ok s
                | _ => Err (ValueError "ValidationError")
                end
  | _ => Err (ValueError "ValidationError")
  end.

(** ** The service *)

Record Settings := {
  enrollment_token_hmac_key : string;
  agent_credential_hmac_key : string;
  agent_credential_days : Z;
  agent_clock_skew_seconds : Z;
}.

(** Identifiers and random values one call generates. *)
Record Fresh := {
  fresh_record : string; fresh_replay : string; fresh_nonce : string;
  fresh_credential : string; fresh_secret : string; fresh_rotation : string;
  fresh_device : string; fresh_agent : string; fresh_token : string;
}.

Section AgentCredentials.
Context `{Sha256} `{SecretReplayCipher} `{Hmac} (py_str : json → string) (settings : Settings).
Let write_audit := write_audit py_str.

Definition audit_agent (now : Z) (agent_id action resource_type : string) (resource_id : string)
    (metadata : list (string * json)) : SE (conn AgentDb) unit :=
  write_audit now "agent" None (Some agent_id) action resource_type (Some resource_id)
    "success" (Some metadata).
Definition audit_user (now : Z) (user_id action resource_type : string) (resource_id : string)
    (metadata : list (string * json)) : SE (conn AgentDb) unit :=
  write_audit now "user" (Some user_id) None action resource_type (Some resource_id)
    "success" (Some metadata).

(** [_expire_pending] *)
Definition expire_pending (now : Z) (agent_id : string) : SE (conn AgentDb) unit :=
  rotation ← repo_pending_rotation agent_id;
  match rotation with
  | None => mret tt
  | Some r =>
      if now <? cr_expires_at r then mret tt
      else
        pending ← repo_credential (cr_pending_credential_id r);
        write_rotations (update_rows (rotation_with (cr_id r)) (λ r, rotation_to RS_EXPIRED (cr_activated_at r) r)) ;;
        match pending with
        | Some p => if is_state CS_PENDING p then
                      write_credentials (update_rows (credential_with (ac_id p)) (credential_expired now))
                    else mret tt
        | None => mret tt
        end
  end.

(** [except SecretReplayExpiredError: self._expire_pending(...); commit; raise] *)
Definition on_replay_expired {A} (now : Z) (agent_id : string) (e : exc) : SE (conn AgentDb) A :=
  if bool_decide (e = SecretReplayExpiredError) then
    expire_pending now agent_id ;; session_commit ;; raise e
  else raise e.

Definition create_rotation (now : Z) (f : Fresh) (agent_id active_credential_id : string)
    (schema_version key : string) : SE AgentDb json :=
  with_session (
    start ← catch
      (begin now (fresh_record f) "agent" agent_id "agent.credential.rotate" key
         (fingerprint (JObj [("schema_version", JStr schema_version)])) true)
      (on_replay_expired now agent_id);
    if negb (is_new start) then
      match replay_body start with
      | None => raise AssertionError
      | Some body =>
          rotation_id ← lift (response_field "rotation_id" body);
          audit_agent now agent_id "idempotency.replay" "agent_credential_rotation" rotation_id
            [("operation_id", JStr "agent.credential.rotate"); ("agent_id", JStr agent_id);
             ("rotation_id", JStr rotation_id)] ;;
          session_commit ;; mret body
      end
    else
      agent ← repo_agent agent_id;
      raise_if (negb (usable agent)) AgentAuthenticationError ;;
      expire_pending now agent_id ;;
      other ← repo_pending_rotation agent_id;
      raise_if (opt_is_some other) ConflictError ;;
      active ← repo_credential active_credential_id;
      match active with
      | None => raise AgentAuthenticationError
      | Some act =>
          raise_if (negb (is_state CS_ACTIVE act)) AgentAuthenticationError ;;
          highest ← highest_version agent_id;
          digest ← lift (secret_digest (agent_credential_hmac_key settings) (fresh_secret f));
          let expires := now + minutes 15 in
          let version := highest + 1 in
          write_credentials (λ t, t ++
            [MkCredential (fresh_credential f) agent_id version digest CS_PENDING now None expires
               None None None]) ;;
          write_rotations (λ t, t ++
            [MkRotation (fresh_rotation f) agent_id (ac_id act) (fresh_credential f) RS_PENDING
               now expires None]) ;;
          let response := rotation_create_response (fresh_rotation f) expires
            (credential_response (fresh_credential f) version
               (new_agent_credential (fresh_credential f) (fresh_secret f)) now expires "pending") in
          complete_secret now (fresh_replay f) (fresh_nonce f) (start_record start) response 201 ;;
          audit_agent now agent_id "agent_credential.rotation_create" "agent_credential_rotation"
            (fresh_rotation f)
            [("agent_id", JStr agent_id); ("credential_id", JStr (fresh_credential f));
             ("credential_version", JInt version); ("rotation_id", JStr (fresh_rotation f))] ;;
          session_commit ;; mret response
      end).

Definition activate_rotation (now : Z) (f : Fresh) (agent_id supplied_credential_id rotation_id : string)
    (schema_version key : string) : SE AgentDb json :=
  with_session (
    start ← begin now (fresh_record f) "agent" agent_id
      ("agent.credential.activate:" +:+ rotation_id) key
      (fingerprint (JObj [("schema_version", JStr schema_version);
                          ("rotation_id", JStr rotation_id)])) false;
    if negb (is_new start) then
      match replay_body start with
      | None => raise AssertionError
      | Some body =>
          replayed ← lift (response_field "rotation_id" body);
          audit_agent now agent_id "idempotency.replay" "agent_credential_rotation" replayed
            [("operation_id", JStr "agent.credential.activate"); ("agent_id", JStr agent_id);
             ("rotation_id", JStr replayed)] ;;
          session_commit ;; mret body
      end
    else
      agent ← repo_agent agent_id;
      rotation ← repo_rotation rotation_id;
      match rotation with
      | None => raise AgentAuthenticationError
      | Some r =>
          raise_if (negb (usable agent) || negb (same_text (cr_agent_id r) agent_id)
                    || negb (same_text (cr_pending_credential_id r) supplied_credential_id))
            AgentAuthenticationError ;;
          raise_if (negb (rotation_is RS_PENDING r) || (cr_expires_at r <=? now)) ConflictError ;;
          pending ← repo_credential (cr_pending_credential_id r);
          previous ← repo_credential (cr_previous_credential_id r);
          match pending, previous with
          | Some p, Some q =>
              raise_if (negb (is_state CS_PENDING p)) ConflictError ;;
              write_credentials (update_rows (credential_with (ac_id q))
                (credential_retired now "credential_rotated")) ;;
              write_credentials (update_rows (credential_with (ac_id p))
                (credential_activated now (now + days (agent_credential_days settings)))) ;;
              write_rotations (update_rows (rotation_with rotation_id)
                (rotation_to RS_ACTIVATED (Some now))) ;;
              let response := rotation_activate_response rotation_id (ac_id p)
                                (ac_credential_version p) now in
              complete_public now (start_record start) response 200 ;;
              audit_agent now agent_id "agent_credential.rotation_activate"
                "agent_credential_rotation" rotation_id
                [("agent_id", JStr agent_id); ("credential_id", JStr (ac_id p));
                 ("credential_version", JInt (ac_credential_version p));
                 ("rotation_id", JStr rotation_id)] ;;
              session_commit ;; mret response
          | _, _ => raise ConflictError
          end
      end).

Definition version_leb (a b : AgentCredential) : bool :=
  ac_credential_version a <=? ac_credential_version b.

Definition credentials (agent_id : string) : SE AgentDb (list AgentCredential) :=
  with_session (
    agent ← repo_agent agent_id;
    raise_if (opt_is_none agent) ResourceNotFoundError ;;
    query (λ d, order_by version_leb
      (select (λ c, same_text (ac_agent_id c) agent_id) (agent_credentials d)))).

Definition revoke_credential (now : Z) (agent_id credential_id actor_id : string)
    : SE AgentDb unit :=
  with_session (
    credential ← repo_credential credential_id;
    match credential with
    | None => raise ResourceNotFoundError
    | Some c =>
        raise_if (negb (same_text (ac_agent_id c) agent_id)) ResourceNotFoundError ;;
        write_credentials (update_rows (credential_with credential_id)
          (credential_revoked now (Some actor_id) "administrator_revocation")) ;;
        audit_user now actor_id "agent_credential.revoke" "agent_credential" credential_id
          [("agent_id", JStr agent_id); ("credential_id", JStr credential_id)] ;;
        session_commit
    end).

Definition revoke_agent (now : Z) (agent_id actor_id : string) : SE AgentDb unit :=
  with_session (
    agent ← repo_agent agent_id;
    raise_if (opt_is_none agent) ResourceNotFoundError ;;
    write_agents (update_rows (λ a, same_text (ag_id a) agent_id)
      (agent_revoked now actor_id "administrator_revocation")) ;;
    write_credentials (update_rows
      (λ c, same_text (ac_agent_id c) agent_id && (is_state CS_ACTIVE c || is_state CS_PENDING c))
      (credential_revoked now (Some actor_id) "agent_revoked")) ;;
    write_rotations (update_rows
      (λ r, same_text (cr_agent_id r) agent_id && rotation_is RS_PENDING r)
      (λ r, rotation_to RS_REVOKED (cr_activated_at r) r)) ;;
    audit_user now actor_id "agent.revoke" "agent" agent_id [("agent_id", JStr agent_id)] ;;
    session_commit).
End AgentCredentials.
