(* ===== verification/Enrollment.v ===== *)
(** * Enrollment

    [services/enrollment.py]: administrators issue and revoke enrollment
    tokens; an agent spends one to register, or to recover its identity. *)

From S2P Require Export Credentials.

Definition scope_value (s : TokenScope) : string :=
  match s with AGENT_ENROLL => "agent.enroll" | AGENT_RECOVER => "agent.recover" end.

Record TokenRequest := {
  rq_scope : TokenScope;
  rq_expires_in_minutes : Z;
  rq_allowed_platforms : list string;
  rq_bound_agent_id : option string;
}.

Record RegistrationRequest := {
  rg_idempotency_key : string;
  rg_enrollment_token : string;
  rg_installation_id : string;
  rg_display_name : string;
  rg_platform : string;
  rg_platform_version : string;
  rg_agent_version : string;
  rg_protocol_min_version : string;
  rg_protocol_max_version : string;
  rg_agent_reported_at : Z;
}.

Definition token_revoked (now : Z) (by_user : string) (t : EnrollmentToken) : EnrollmentToken :=
  MkEnrollmentToken (et_id t) (et_token_digest t) (et_digest_key_version t) (et_scope t)
    (et_max_uses t) (et_uses_consumed t) (et_allowed_platforms t) (et_bound_agent_id t)
    (et_created_by_user_id t) (et_created_at t) (et_expires_at t) (et_consumed_at t)
    (Some now) (Some by_user) (Some "administrator_revocation").
Definition token_consumed (now : Z) (t : EnrollmentToken) : EnrollmentToken :=
  MkEnrollmentToken (et_id t) (et_token_digest t) (et_digest_key_version t) (et_scope t)
    (et_max_uses t) (et_uses_consumed t + 1) (et_allowed_platforms t) (et_bound_agent_id t)
    (et_created_by_user_id t) (et_created_at t) (et_expires_at t) (Some now)
    (et_revoked_at t) (et_revoked_by_user_id t) (et_revocation_reason t).
Definition token_with (id : string) (t : EnrollmentToken) : bool := same_text (et_id t) id.

Definition agent_recovered (installation_id display_name : string) (a : AgentRecord) : AgentRecord :=
  MkAgent (ag_id a) (ag_device_id a) display_name (Some installation_id)
    (ag_protocol_min_version a) (ag_protocol_max_version a) (ag_protocol_version a)
    true None None None None (ag_last_seen_at a).

(** What makes a token unusable at [now]. *)
Definition spent (now : Z) (t : EnrollmentToken) : bool :=
  opt_is_some (et_revoked_at t) || (et_expires_at t <=? now) || (et_max_uses t <=? et_uses_consumed t).

Section Enrollment.
Context `{Sha256} `{SecretReplayCipher} `{Hmac} `{WideAlnum} (py_str : json → string)
  (settings : Settings) (validate_contract : string → json → bool).
Let write_audit := write_audit py_str.

Definition token_response (id value : string) (scope : TokenScope) (expires : Z) : json :=
  JObj [("schema_version", JStr "1.0.0"); ("enrollment_token_id", JStr id);
        ("enrollment_token", JStr value); ("scope", JStr (scope_value scope));
        ("expires_at", time_json expires); ("max_uses", JInt 1)].

Definition create_token (now : Z) (f : Fresh) (rq : TokenRequest) (actor_id : string)
    : SE AgentDb json :=
  with_session (
    raise_if (bool_decide (rq_scope rq = AGENT_RECOVER) && opt_is_none (rq_bound_agent_id rq))
      ConflictError ;;
    raise_if (bool_decide (rq_scope rq = AGENT_ENROLL) && opt_is_some (rq_bound_agent_id rq))
      ConflictError ;;
    match rq_bound_agent_id rq with
    | Some id => bound ← repo_agent id; raise_if (opt_is_none bound) ConflictError
    | None => mret tt
    end ;;
    digest ← lift (secret_digest (enrollment_token_hmac_key settings) (fresh_secret f));
    let expires := now + minutes (rq_expires_in_minutes rq) in
    write_tokens (λ t, t ++
      [MkEnrollmentToken (fresh_token f) digest 1 (rq_scope rq) 1 0 (rq_allowed_platforms rq)
         (rq_bound_agent_id rq) (Some actor_id) now expires None None None None]) ;;
    audit_user py_str now actor_id "enrollment_token.create" "enrollment_token" (fresh_token f)
      [("enrollment_token_id", JStr (fresh_token f)); ("scope", JStr (scope_value (rq_scope rq)))] ;;
    session_commit ;;
    mret (token_response (fresh_token f) (new_enrollment_token (fresh_token f) (fresh_secret f))
            (rq_scope rq) expires)).

Definition revoke_token (now : Z) (token_id actor_id : string) : SE AgentDb unit :=
  with_session (
    record ← repo_enrollment_token token_id;
    match record with
    | None => raise ConflictError
    | Some t =>
        (if opt_is_none (et_revoked_at t) then
           write_tokens (update_rows (token_with token_id) (token_revoked now actor_id))
         else mret tt) ;;
        audit_user py_str now actor_id "enrollment_token.revoke" "enrollment_token" token_id
          [("enrollment_token_id", JStr token_id)] ;;
        session_commit
    end).

(** ** Registration *)

Definition registration_fingerprint (rg : RegistrationRequest) : json :=
  JObj [("schema_version", JStr "1.0.0"); ("installation_id", JStr (rg_installation_id rg));
        ("display_name", JStr (rg_display_name rg)); ("platform", JStr (rg_platform rg));
        ("platform_version", JStr (rg_platform_version rg));
        ("agent_version", JStr (rg_agent_version rg));
        ("protocol_min_version", JStr (rg_protocol_min_version rg));
        ("protocol_max_version", JStr (rg_protocol_max_version rg));
        ("agent_reported_at", time_json (rg_agent_reported_at rg))].
Definition registration_document (rg : RegistrationRequest) : json :=
  match registration_fingerprint rg with
  | JObj kvs => JObj (kvs ++ [("idempotency_key", JStr (rg_idempotency_key rg));
                              ("enrollment_token", JStr (rg_enrollment_token rg))])
  | j => j
  end.

Definition registration_response (device_id agent_id : string) (now : Z) (credential : json) : json :=
  JObj [("schema_version", JStr "1.0.0"); ("device_id", JStr device_id);
        ("agent_id", JStr agent_id); ("protocol_version", JStr "1.0.0");
        ("server_received_at", time_json now); ("credential", credential)].

(** The agent and the device the token gives: the bound agent brought back,
    or new rows. *)
Definition enrolled_agent (f : Fresh) (rg : RegistrationRequest) (t : EnrollmentToken)
    : SE (conn AgentDb) (string * string) :=
  match et_scope t with
  | AGENT_RECOVER =>
      match et_bound_agent_id t with
      | None => raise EnrollmentFailedError
      | Some bound =>
          agent ← repo_agent bound;
          match agent with
          | None => raise EnrollmentFailedError
          | Some a =>
              write_agents (update_rows (λ a, same_text (ag_id a) bound)
                (agent_recovered (rg_installation_id rg) (rg_display_name rg))) ;;
              match ag_device_id a with
              | None => raise EnrollmentFailedError
              | Some device_id => mret (device_id, bound)
              end
          end
      end
  | AGENT_ENROLL =>
      other ← repo_agent_by_installation (rg_installation_id rg);
      raise_if (opt_is_some other) EnrollmentFailedError ;;
      write_devices (λ t, t ++ [MkDevice (fresh_device f) (rg_display_name rg) (rg_platform rg)
                                  (rg_platform_version rg)]) ;;
      write_agents (λ t, t ++
        [MkAgent (fresh_agent f) (Some (fresh_device f)) (rg_display_name rg)
           (Some (rg_installation_id rg)) (Some (rg_protocol_min_version rg))
           (Some (rg_protocol_max_version rg)) (Some "1.0.0") true None None None None None]) ;;
      mret (fresh_device f, fresh_agent f)
  end.

(** Retire the agent's active credential and issue the next version. *)
Definition issue_credential (now : Z) (f : Fresh) (agent_id : string) : SE (conn AgentDb) (Z * Z) :=
  existing ← repo_active_credential agent_id;
  match existing with
  | Some c => write_credentials (update_rows (credential_with (ac_id c))
                (credential_retired now "agent_recovery"))
  | None => mret tt
  end ;;
  highest ← highest_version agent_id;
  digest ← lift (secret_digest (agent_credential_hmac_key settings) (fresh_secret f));
  let version := highest + 1 in
  let expires := now + days (agent_credential_days settings) in
  write_credentials (λ t, t ++
    [MkCredential (fresh_credential f) agent_id version digest CS_ACTIVE now (Some now) expires
       None None None]) ;;
  mret (version, expires).

(** The token of a registration, or [EnrollmentFailedError]. *)
Definition presented_token (text : string) : SE (conn AgentDb) EnrollmentToken :=
  parsed ← lift (match parse_machine_secret text "wto_enr_1" with
                 | Ok p => Ok p | Err _ => Err EnrollmentFailedError end);
  token ← repo_enrollment_token (locator parsed);
  match token with
  | None => raise EnrollmentFailedError
  | Some t =>
      ok ← lift (verify_secret (enrollment_token_hmac_key settings) (secret parsed)
                   (et_token_digest t));
      raise_if (negb ok) EnrollmentFailedError ;;
      mret t
  end.

Definition register (now : Z) (f : Fresh) (rg : RegistrationRequest) : SE AgentDb json :=
  with_session (
    raise_if (negb (validate_contract "agent-registration-request.schema.json"
                      (registration_document rg))) ContractValidationError ;;
    raise_if (seconds (agent_clock_skew_seconds settings)
              <? Z.abs (now - rg_agent_reported_at rg)) RequestClockSkewError ;;
    token ← presented_token (rg_enrollment_token rg);
    let operation_id := "agent.register:" +:+ rg_installation_id rg in
    start ← begin now (fresh_record f) "enrollment_token" (et_id token) operation_id
      (rg_idempotency_key rg) (fingerprint (registration_fingerprint rg)) true;
    if negb (is_new start) then
      match replay_body start with
      | None => raise AssertionError
      | Some body =>
          agent_id ← lift (response_field "agent_id" body);
          audit_agent py_str now agent_id "idempotency.replay" "agent" agent_id
            [("operation_id", JStr operation_id); ("agent_id", JStr agent_id)] ;;
          session_commit ;; mret body
      end
    else
      raise_if (spent now token) EnrollmentFailedError ;;
      raise_if (negb (bool_decide (et_allowed_platforms token = []))
                && negb (str_in (rg_platform rg) (et_allowed_platforms token)))
        EnrollmentFailedError ;;
      ids ← enrolled_agent f rg token;
      let '(device_id, agent_id) := ids in
      issued ← issue_credential now f agent_id;
      let '(version, expires) := issued in
      write_tokens (update_rows (token_with (et_id token)) (token_consumed now)) ;;
      let response := registration_response device_id agent_id now
        (credential_response (fresh_credential f) version
           (new_agent_credential (fresh_credential f) (fresh_secret f)) now expires "active") in
      complete_secret now (fresh_replay f) (fresh_nonce f) (start_record start) response 201 ;;
      audit_agent py_str now agent_id
        (if bool_decide (et_scope token = AGENT_ENROLL) then "agent.enroll" else "agent.recover")
        "agent" agent_id
        [("agent_id", JStr agent_id); ("credential_id", JStr (fresh_credential f));
         ("credential_version", JInt version); ("installation_id", JStr (rg_installation_id rg))] ;;
      session_commit ;; mret response).
End Enrollment.
