(* ===== verification/AgentAuth.v ===== *)
(** * Agent authentication

    [api/agent_dependencies.py] and [security/agent_replay.py]: every agent
    request carries a fresh time stamp, a nonce and a credential; a nonce is
    reserved once per credential in Redis, which also counts requests per
    minute. *)

From S2P Require Export Enrollment.

(** ** The replay guard *)

(** Keys of Redis with the last instant at which they are live: Redis drops a
    key once the clock is past its expiry. *)
Record Redis := MkRedis {
  nonce_keys : list (string * Z);
  rate_keys : list (string * (Z * Z));
}.

Definition live_nonce (now : Z) (key : string) (r : Redis) : bool :=
  existsb (λ kv, String.eqb kv.1 key && (now <=? kv.2)) (nonce_keys r).
Definition live_count (now : Z) (key : string) (r : Redis) : option (Z * Z) :=
  snd <$> List.find (λ kv, String.eqb kv.1 key && (now <=? kv.2.2)) (rate_keys r).
Definition drop_key {A} (key : string) (l : list (string * A)) : list (string * A) :=
  List.filter (λ kv, negb (String.eqb kv.1 key)) l.

(** [_RESERVE_SCRIPT]: atomic on the server. *)
Definition reserve_script (now nonce_ttl window : Z) (nonce_key rate_key : string) (r : Redis)
    : (Z * Z) * Redis :=
  if live_nonce now nonce_key r then ((0, 0), r)
  else
    let nonces := (nonce_key, now + seconds nonce_ttl) :: drop_key nonce_key (nonce_keys r) in
    match live_count now rate_key r with
    | Some (n, expires) =>
        ((1, n + 1), MkRedis nonces ((rate_key, (n + 1, expires)) :: drop_key rate_key (rate_keys r)))
    | None =>
        ((1, 1), MkRedis nonces
           ((rate_key, (1, now + seconds window)) :: drop_key rate_key (rate_keys r)))
    end.

Definition nonce_key (credential_id nonce : string) : string :=
  "wto:agent:nonce:" +:+ credential_id +:+ ":" +:+ nonce.
Definition rate_key (credential_id : string) : string := "wto:agent:rate:" +:+ credential_id.

(** [AgentReplayGuard.reserve]; [available] says whether Redis answers. *)
Definition reserve (available : bool) (now nonce_ttl request_limit : Z)
    (credential_id nonce : string) : SE Redis unit := λ r,
  if negb available then (Err DependencyUnavailableError, r)
  else
    let '((reserved, count), r') :=
      reserve_script now nonce_ttl 60 (nonce_key credential_id nonce) (rate_key credential_id) r in
    if negb (reserved =? 1) then (Err NonceReplayError, r')
    else if request_limit <? count then (Err AgentRateLimitedDomainError, r')
    else (Ok tt, r').

(** ** Requests *)

Record AgentRequest := {
  hd_authorization : string;             (** empty when absent *)
  hd_timestamp : option string;
  hd_nonce : option string;
  hd_protocol : option string;
  hd_correlation : option string;
}.

Inductive AcceptedState := ACCEPT_ACTIVE | ACCEPT_PENDING_OR_ACTIVATED.
#[global] Instance AcceptedState_eq_dec : EqDecision AcceptedState.
Proof. solve_decision. Defined.

(** [^[A-Za-z0-9_-]{22}$] with [fullmatch] *)
Definition nonce_pattern (s : string) : bool :=
  (String.length s =? 22)%nat && all_chars urlsafe s.

Definition ends_with_Z (s : string) : bool :=
  match String.length s with
  | O => false
  | S n => String.eqb (String.substring n 1 s) "Z"
  end.

Record AgentPrincipal := { principal_agent : AgentRecord; principal_credential : AgentCredential }.

Record Api := MkApi { db : AgentDb; redis : Redis }.
Definition on_db {A} (m : SE AgentDb A) : SE Api A := λ a,
  let '(x, d) := m (db a) in (x, MkApi d (redis a)).
Definition on_redis {A} (m : SE Redis A) : SE Api A := λ a,
  let '(x, r) := m (redis a) in (x, MkApi (db a) r).

Section Authenticate.
Context `{Hmac} `{WideAlnum} (py_str : json → string) (settings : Settings)
  (agent_nonce_ttl_seconds agent_request_limit : Z).
(** [datetime.fromisoformat(text.replace("Z", "+00:00")).astimezone(UTC)] *)
Context (read_timestamp : string → option Z).

(** The header checks, in order; the result is the parsed credential and the
    nonce. *)
Definition check_headers (now : Z) (q : AgentRequest) : result (ParsedMachineSecret * string) :=
  match after_prefix "Bearer " (hd_authorization q) with
  | None => Err AgentAuthenticationError
  | Some bearer =>
      if negb (bool_decide (hd_protocol q = Some "1.0.0")) then Err ProtocolVersionError
      else if opt_is_none (hd_correlation q) then Err AgentAuthenticationError
      else match hd_timestamp q with
      | None => Err RequestClockSkewError
      | Some text =>
          if negb (ends_with_Z text) then Err RequestClockSkewError
          else match read_timestamp text with
          | None => Err RequestClockSkewError
          | Some timestamp =>
              if seconds (agent_clock_skew_seconds settings) <? Z.abs (now - timestamp)
              then Err RequestClockSkewError
              else match hd_nonce q with
              | None => Err AgentAuthenticationError
              | Some nonce =>
                  if negb (nonce_pattern nonce) then Err AgentAuthenticationError
                  else match parse_machine_secret bearer "wto_ac_1" with
                  | Ok parsed => Ok (parsed, nonce)
                  | Err _ => Err AgentAuthenticationError
                  end
              end
          end
      end
  end.

Definition state_accepted (accepted : AcceptedState) (c : AgentCredential) : bool :=
  is_state CS_ACTIVE c
  || (bool_decide (accepted = ACCEPT_PENDING_OR_ACTIVATED) && is_state CS_PENDING c).

(** The database part: the credential, its secret, its agent and its state.
    The refusal of a revoked agent is audited. *)
Definition check_credential (now : Z) (accepted : AcceptedState) (parsed : ParsedMachineSecret)
    : SE AgentDb AgentPrincipal :=
  with_session (
    credential ← repo_credential (locator parsed);
    match credential with
    | None => raise AgentAuthenticationError
    | Some c =>
        ok ← lift (verify_secret (agent_credential_hmac_key settings) (secret parsed)
                     (ac_secret_digest c));
        raise_if (negb ok) AgentAuthenticationError ;;
        agent ← repo_agent (ac_agent_id c);
        match agent with
        | None => raise AgentAuthenticationError
        | Some a =>
            if negb (ag_is_active a) || opt_is_some (ag_revoked_at a) then
              write_audit py_str now "agent" None (Some (ag_id a)) "agent_auth.rejected" "agent"
                (Some (ag_id a)) "denied"
                (Some [("agent_id", JStr (ag_id a)); ("reason_code", JStr "agent_revoked")]) ;;
              session_commit ;;
              raise AgentAuthenticationError
            else
              raise_if (negb (state_accepted accepted c) || (ac_expires_at c <=? now))
                AgentAuthenticationError ;;
              mret {| principal_agent := a; principal_credential := c |}
        end
    end).

(** [_authenticate] *)
Definition authenticate (redis_available : bool) (now : Z) (accepted : AcceptedState)
    (q : AgentRequest) : SE Api AgentPrincipal :=
  checked ← lift (check_headers now q);
  let '(parsed, nonce) := checked in
  principal ← on_db (check_credential now accepted parsed);
  on_redis (reserve redis_available now agent_nonce_ttl_seconds agent_request_limit
              (ac_id (principal_credential principal)) nonce) ;;
  mret principal.
End Authenticate.
