(* ===== verification/Protocol.v ===== *)
(** * The agent protocol: manifests and presence

    [services/agent_protocol.py]: a capability manifest is accepted once per
    sequence number, and presence advances a sequence per boot.  JSON schema
    validation is a parameter. *)

From S2P Require Export Credentials.

Record PresenceRow := {
  pr_agent_id : string;
  pr_boot_id : string;
  pr_sequence : Z;
  pr_reported_at : Z;
  pr_manifest_id : string;
  pr_manifest_digest : string;
  pr_payload : json;             (** [payload.model_dump(mode="json")] *)
}.

Record PresenceResponse := {
  accepted_sequence : Z;
  server_received_at : Z;
  presence_expires_at : Z;
  poll_after_seconds : Z;
}.

Section Protocol.
Context `{Sha256} (py_str : json → string) (settings : Settings)
  (validate_contract : string → json → bool).

Definition field (name : string) (document : json) : option json :=
  match document with JObj kvs => dict_get kvs name | _ => None end.
(** [document.get(name) == text] *)
Definition field_is (name text : string) (document : json) : bool :=
  match field name document with Some (JStr s) => String.eqb s text | _ => false end.
Definition text_field (name : string) (document : json) : result string :=
  match field name document with
  | Some (JStr s) => Ok s
  | _ => Err (KeyError name)
  end.
Definition int_field (name : string) (document : json) : result Z :=
  match field name document with
  | Some (JInt z) => Ok z
  | _ => Err (KeyError name)
  end.

(** [_audit_incompatibility] commits before the caller raises. *)
Definition audit_incompatibility (now : Z) (agent_id reason : string) : SE (conn AgentDb) unit :=
  write_audit py_str now "agent" None (Some agent_id) "agent_protocol.incompatible" "agent"
    (Some agent_id) "denied" (Some [("agent_id", JStr agent_id); ("reason_code", JStr reason)]) ;;
  session_commit.

Definition manifest_response (m : CapabilityManifest) : json :=
  JObj [("schema_version", JStr "1.0.0"); ("manifest_id", JStr (mf_id m));
        ("manifest_digest", JStr (mf_document_digest m));
        ("server_received_at", JStr (utc_text (mf_server_received_at m)))].

Definition publish_manifest (now : Z) (agent_id : string) (document : json) : SE AgentDb json :=
  with_session (
    (if validate_contract "capability-manifest.schema.json" document then mret tt
     else audit_incompatibility now agent_id "manifest_schema_invalid" ;;
          raise ContractValidationError) ;;
    raise_if (negb (field_is "agent_id" agent_id document))
      AgentAuthenticationError ;;
    (if field_is "capability_catalog_version" "1.0.0" document then mret tt
     else audit_incompatibility now agent_id "capability_catalog_incompatible" ;;
          raise ProtocolVersionError) ;;
    manifest_id ← lift (text_field "manifest_id" document);
    sequence ← lift (int_field "manifest_sequence" document);
    let digest := sha256_hex (canonical_json document) in
    existing ← query (λ d, select_one
      (λ m, same_text (mf_agent_id m) agent_id && (mf_sequence m =? sequence)) (manifests d));
    match existing with
    | Some m =>
        raise_if (negb (String.eqb (mf_document_digest m) digest)
                  || negb (String.eqb (mf_id m) manifest_id)) SequenceConflictError ;;
        mret (manifest_response m)
    | None =>
        schema ← lift (text_field "schema_version" document);
        catalog ← lift (text_field "capability_catalog_version" document);
        let m := MkCapability manifest_id agent_id sequence schema catalog now digest document in
        write_manifests (λ t, t ++ [m]) ;;
        session_commit ;;
        mret (manifest_response m)
    end).

(** ** Presence *)

Definition repo_manifest (agent_id manifest_id : string)
    : SE (conn AgentDb) (option CapabilityManifest) :=
  query (λ d, select_one (λ m, same_text (mf_agent_id m) agent_id && same_text (mf_id m) manifest_id)
                (manifests d)).
Definition repo_presence (agent_id : string) : SE (conn AgentDb) (option AgentPresence) :=
  query (λ d, select_one (λ p, same_text (ap_agent_id p) agent_id) (presences d)).

Definition seen (now : Z) (a : AgentRecord) : AgentRecord :=
  MkAgent (ag_id a) (ag_device_id a) (ag_display_name a) (ag_installation_id a)
    (ag_protocol_min_version a) (ag_protocol_max_version a) (ag_protocol_version a)
    (ag_is_active a) (ag_disabled_at a) (ag_revoked_at a) (ag_revoked_by_user_id a)
    (ag_revocation_reason a) (Some now).

(** [presence.boot_id == boot_id] and what follows from the sequence. *)
Inductive SequenceVerdict := Advance | Replay (p : AgentPresence) | Stale.

Definition sequence_verdict (digest : string) (q : PresenceRow) (presence : option AgentPresence)
    : SequenceVerdict :=
  match presence with
  | Some p =>
      if String.eqb (ap_boot_id p) (pr_boot_id q) then
        if pr_sequence q <? ap_sequence p then Stale
        else if pr_sequence q =? ap_sequence p then
          if String.eqb digest (ap_payload_digest p) then Replay p else Stale
        else Advance
      else Advance
  | None => Advance
  end.

(** [_presence]; [model_dump] writes the request's [agent_id]. *)
Definition presence (now : Z) (agent_id : string) (kind : PresenceKind) (q : PresenceRow)
    (ttl poll_after : Z) : SE AgentDb PresenceResponse :=
  with_session (
    raise_if (negb (String.eqb (pr_agent_id q) agent_id)) AgentAuthenticationError ;;
    raise_if (seconds (agent_clock_skew_seconds settings) <? Z.abs (now - pr_reported_at q))
      RequestClockSkewError ;;
    manifest ← repo_manifest agent_id (pr_manifest_id q);
    raise_if (match manifest with
              | Some m => negb (String.eqb (mf_document_digest m) (pr_manifest_digest q))
              | None => true end) ConflictError ;;
    let digest := sha256_hex (canonical_json (pr_payload q)) in
    current ← repo_presence agent_id;
    match sequence_verdict digest q current with
    | Stale => raise SequenceConflictError
    | Replay p =>
        mret {| accepted_sequence := ap_sequence p; server_received_at := ap_server_received_at p;
                presence_expires_at := ap_presence_expires_at p; poll_after_seconds := poll_after |}
    | Advance =>
        let expires := now + seconds ttl in
        let row := MkPresence agent_id kind (pr_boot_id q) (pr_sequence q) digest
                     (pr_reported_at q) now expires (pr_manifest_id q) in
        write_presences (λ t, match current with
          | None => t ++ [row]
          | Some _ => update_rows (λ p, same_text (ap_agent_id p) agent_id) (λ _, row) t
          end) ;;
        agent ← repo_agent agent_id;
        raise_if (negb (usable agent)) AgentAuthenticationError ;;
        write_agents (update_rows (λ a, same_text (ag_id a) agent_id) (seen now)) ;;
        session_commit ;;
        mret {| accepted_sequence := pr_sequence q; server_received_at := now;
                presence_expires_at := expires; poll_after_seconds := poll_after |}
    end).

Definition heartbeat (now : Z) (agent_id : string) (q : PresenceRow) : SE AgentDb PresenceResponse :=
  raise_if (negb (validate_contract "desktop-heartbeat.schema.json" (pr_payload q)))
    ContractValidationError ;;
  presence now agent_id KIND_DESKTOP q 90 30.

Definition mobile_presence (now : Z) (agent_id : string) (q : PresenceRow)
    : SE AgentDb PresenceResponse :=
  raise_if (negb (validate_contract "mobile-presence.schema.json" (pr_payload q)))
    ContractValidationError ;;
  presence now agent_id KIND_MOBILE q 120 60.
End Protocol.

(** ** Nesting of documents *)

(** [ensure_json_depth] of [contracts.py]: [visit] descends with the depth. *)
Fixpoint visit (maximum : Z) (value : json) (depth : Z) : bool :=
  if maximum <? depth then false
  else match value with
  | JObj kvs =>
      (Z.of_nat (length kvs) <=? 128)
      && (fix items (l : list (string * json)) : bool :=
            match l with [] => true | kv :: l' => visit maximum kv.2 (depth + 1) && items l' end) kvs
  | JList xs =>
      (Z.of_nat (length xs) <=? 128)
      && (fix items (l : list json) : bool :=
            match l with [] => true | x :: l' => visit maximum x (depth + 1) && items l' end) xs
  | _ => true
  end.
Definition ensure_json_depth (payload : json) (maximum : Z) : result unit :=
  if visit maximum payload 1 then Ok tt else Err ContractValidationError.
