(* ===== verification/BackendExamples.v ===== *)
(** * Concrete instances for the backend

    A reversible stand-in for the authenticated encryption of stored responses,
    settings, and small databases on which the theorems of the backend are
    instantiated. *)

From Stdlib Require Import Ascii.
From stdpp Require Import countable.
From S2P Require Export AgentAuth Protocol.

(** ** JSON documents as texts, reversibly *)

Fixpoint to_tree (j : json) : gen_tree (string + (Z + bool)) :=
  match j with
  | JNull => GenNode 0 []
  | JBool b => GenNode 1 [GenLeaf (inr (inr b))]
  | JInt z => GenNode 2 [GenLeaf (inr (inl z))]
  | JFloat r => GenNode 3 [GenLeaf (inl r)]
  | JStr s => GenNode 4 [GenLeaf (inl s)]
  | JList xs => GenNode 5 (map to_tree xs)
  | JObj kvs => GenNode 6 (map (λ kv, GenNode 7 [GenLeaf (inl kv.1); to_tree kv.2]) kvs)
  end.

Fixpoint of_tree (t : gen_tree (string + (Z + bool))) : json :=
  match t with
  | GenNode 1 [GenLeaf (inr (inr b))] => JBool b
  | GenNode 2 [GenLeaf (inr (inl z))] => JInt z
  | GenNode 3 [GenLeaf (inl r)] => JFloat r
  | GenNode 4 [GenLeaf (inl s)] => JStr s
  | GenNode 5 xs => JList (map of_tree xs)
  | GenNode 6 kvs =>
      JObj (map (λ t, match t with
                      | GenNode _ [GenLeaf (inl k); v] => (k, of_tree v)
                      | _ => (EmptyString, JNull)
                      end) kvs)
  | _ => JNull
  end.

Lemma of_to_tree j : of_tree (to_tree j) = j.
Proof.
  induction j as [|b|z|r|s|xs IH|kvs IH] using json_nested_ind; simpl; try done.
  - f_equal. rewrite map_map. induction IH; simpl; congruence.
  - f_equal. rewrite map_map. induction IH as [|[k v] kvs E _ IH]; simpl in *; congruence.
Qed.

#[global] Existing Instance example_sha256.

#[global] Instance json_eq_dec : EqDecision json.
Proof.
  refine (λ x y, cast_if (decide (to_tree x = to_tree y))).
  - by rewrite <-(of_to_tree x), <-(of_to_tree y), e.
  - by intros ->.
Defined.
#[global] Instance json_countable : Countable json := inj_countable' to_tree of_tree of_to_tree.

Fixpoint bits (p : positive) : string :=
  match p with
  | xH => EmptyString
  | xO p' => String "0"%char (bits p')
  | xI p' => String "1"%char (bits p')
  end.
Fixpoint of_bits (s : string) : positive :=
  match s with
  | EmptyString => xH
  | String c s' => if Ascii.eqb c "1"%char then xI (of_bits s') else xO (of_bits s')
  end.
Lemma of_bits_bits p : of_bits (bits p) = p.
Proof. induction p; simpl; congruence. Qed.

Lemma decode_bits (body : json) : decode (of_bits (bits (encode body))) = Some body.
Proof. by rewrite of_bits_bits, decode_encode. Qed.

#[global] Instance example_cipher : SecretReplayCipher :=
  {| encrypt := λ body _ _, bits (encode body);
     decrypt := λ text _ _, decode (of_bits text);
     decrypt_encrypt := λ body _ _, decode_bits body |}.

(** ** Settings and requests *)

Definition example_settings : Settings :=
  {| enrollment_token_hmac_key := "e"; agent_credential_hmac_key := "c";
     agent_credential_days := 90; agent_clock_skew_seconds := 300 |}.
Definition no_str : json → string := λ _, "?".
Definition valid_contract : string → json → bool := λ _ _, true.
Definition at_zero : string → option Z := λ _, Some 0.

Definition the_agent : AgentRecord :=
  MkAgent "agent" (Some "device") "desk" (Some "install") (Some "1.0.0") (Some "1.0.0")
    (Some "1.0.0") true None None None None None.
Definition second_locator : string := "0123abcd-0123-0123-0123-0123456789ac".
Definition digest_of (key : string) : string := hmac_sha256 key example_secret.
Definition the_credential : AgentCredential :=
  MkCredential example_locator "agent" 1 (digest_of "c") CS_ACTIVE 0 (Some 0) (days 90) None None None.
Definition agent_db : AgentDb :=
  MkAgentDb [the_agent] [MkDevice "device" "desk" "linux" "1"] [] [the_credential] [] [] [] [] [] [].

Definition the_request : AgentRequest :=
  {| hd_authorization := "Bearer " +:+ new_agent_credential example_locator example_secret;
     hd_timestamp := Some "Z"; hd_nonce := Some "AAAAAAAAAAAAAAAAAAAAAA";
     hd_protocol := Some "1.0.0"; hd_correlation := Some "c" |}.
Definition fresh_values (sfx : string) : Fresh :=
  {| fresh_record := "rec" +:+ sfx; fresh_replay := "rep" +:+ sfx; fresh_nonce := "n";
     fresh_credential := second_locator; fresh_secret := example_secret;
     fresh_rotation := "rot" +:+ sfx; fresh_device := "dev" +:+ sfx; fresh_agent := "agent" +:+ sfx;
     fresh_token := "tok" +:+ sfx |}.
