(* ===== verification/ProtocolTheorems.v ===== *)
(** * What the agent protocol guarantees

    Presence never goes back within a boot, a manifest sequence number stands
    for one document, and a captured request cannot be replayed. *)

From S2P Require Export BackendExamples.

(** Run a request's transaction, keeping the case analysis on its guards. *)
Ltac run_session :=
  cbv [with_session session_commit store_table write_credentials write_rotations
       write_idempotency write_replays write_tokens write_agents write_devices write_manifests
       write_presences write_audit query exec raise raise_if mbind SE_bind mret SE_ret lift] in *;
  cbn [committed working in_tx] in *.

Section Presence.
Context `{Sha256} (settings : Settings).

Definition current_presence (agent_id : string) (d : AgentDb) : option AgentPresence :=
  select_one (λ p, same_text (ap_agent_id p) agent_id) (presences d).

Lemma select_one_replaced {R} (p : R → bool) f t r :
  select_one p t = Some r → (∀ x, p x = true → p (f x) = true) →
  ∃ x, select_one p (update_rows p f t) = Some (f x).
Proof.
  unfold select_one, update_rows. intros E Hf. induction t as [|y t IH]; simpl in *; [done|].
  destruct (p y) eqn:Ey; simpl.
  - rewrite Hf by done. by exists y.
  - rewrite Ey. by apply IH.
Qed.

(** What one presence report does: nothing when it is refused. *)
Lemma presence_outcome now agent_id kind q ttl poll d :
  let '(r, d') := presence settings now agent_id kind q ttl poll d in
  match r with
  | Err _ => d' = d
  | Ok response =>
      accepted_sequence response = pr_sequence q
      ∧ (∃ p', current_presence agent_id d' = Some p' ∧ ap_boot_id p' = pr_boot_id q
           ∧ ap_sequence p' = pr_sequence q
           ∧ ap_payload_digest p' = sha256_hex (canonical_json (pr_payload q))
           ∧ ap_server_received_at p' = server_received_at response)
      ∧ (∀ p, current_presence agent_id d = Some p → ap_boot_id p = pr_boot_id q →
           ap_sequence p ≤ pr_sequence q ∧ (ap_sequence p = pr_sequence q → d' = d))
  end.
Proof.
  unfold presence, repo_manifest, repo_presence, repo_agent, current_presence. run_session.
  destruct (negb (String.eqb (pr_agent_id q) agent_id)); [done|].
  destruct (_ <? Z.abs _); [done|]. cbn [committed working in_tx].
  destruct (match select_one _ (manifests d) with Some _ => _ | None => true end); [done|].
  destruct (sequence_verdict _ q _) as [|p|] eqn:Ev; [|..|done].
  2:{ unfold sequence_verdict in Ev. cbn [committed working in_tx] in *.
      destruct (select_one _ (presences d)) as [p0|]; [|done].
      destruct (String.eqb (ap_boot_id p0) (pr_boot_id q)) eqn:Eb; [|done].
      apply String.eqb_eq in Eb.
      destruct (pr_sequence q <? ap_sequence p0) eqn:El; [done|].
      destruct (pr_sequence q =? ap_sequence p0) eqn:Eq; [|done].
      apply Z.eqb_eq in Eq. destruct (String.eqb _ (ap_payload_digest p0)) eqn:Ed; simplify_eq.
      apply String.eqb_eq in Ed. simpl. split_and!; [done|by exists p|].
      intros p1 [= <-] _. split; [lia | done]. }
  cbn [committed working in_tx] in *.
  set (row := MkPresence _ _ _ _ _ _ _ _ _).
  set (t := match select_one _ (presences d) with None => _ | Some _ => _ end).
  destruct (presences_valid t); [|done]. simpl.
  destruct (usable _); [|done]. simpl. destruct (agents_valid _); [|done]. simpl.
  split_and!; [done| |].
  - exists row. split; [|done]. unfold t.
    destruct (select_one _ (presences d)) as [p0|] eqn:Ep.
    + destruct (select_one_replaced (λ p, same_text (ap_agent_id p) agent_id) (λ _, row)
        (presences d) p0 Ep) as (x & ->); [|done].
      intros x _. apply String.eqb_refl.
    + apply select_one_snoc; [done|]. apply String.eqb_refl.
  - intros p Ep Eb. unfold sequence_verdict in Ev. rewrite Ep, Eb, String.eqb_refl in Ev.
    destruct (pr_sequence q <? ap_sequence p) eqn:El; [done|].
    destruct (pr_sequence q =? ap_sequence p) eqn:Eq; [by destruct (String.eqb _ _)|]. split; lia.
Qed.

(** An accepted presence report either repeats the last one of its boot
    exactly, in which case nothing is written and the stored times come back,
    or advances it: within a boot the sequence never decreases and one number
    never stands for two payloads.  A refused report writes nothing. *)
Theorem presence_monotone now agent_id kind q ttl poll d :
  let '(r, d') := presence settings now agent_id kind q ttl poll d in
  match r with
  | Err _ => d' = d
  | Ok response =>
      accepted_sequence response = pr_sequence q
      ∧ (∃ p', current_presence agent_id d' = Some p' ∧ ap_boot_id p' = pr_boot_id q
           ∧ ap_sequence p' = pr_sequence q
           ∧ ap_payload_digest p' = sha256_hex (canonical_json (pr_payload q))
           ∧ ap_server_received_at p' = server_received_at response)
      ∧ (∀ p, current_presence agent_id d = Some p → ap_boot_id p = pr_boot_id q →
           ap_sequence p ≤ pr_sequence q ∧ (ap_sequence p = pr_sequence q → d' = d))
  end.
Proof. apply presence_outcome. Qed.
End Presence.

Section Manifests.
Context `{Sha256} (py_str : json → string) (validate_contract : string → json → bool).

(** Publishing a capability manifest is idempotent and final: once a
    document has been accepted for a sequence number, publishing it again
    returns the same acknowledgement and writes nothing, and publishing any
    document of another digest under that number is refused. *)
Theorem manifest_published_once now agent_id document d r d' :
  publish_manifest py_str validate_contract now agent_id document d = (Ok r, d') →
  ∀ now' other,
    text_field "manifest_id" other = text_field "manifest_id" document →
    int_field "manifest_sequence" other = int_field "manifest_sequence" document →
    field_is "agent_id" agent_id other = true →
    field_is "capability_catalog_version" "1.0.0" other = true →
    validate_contract "capability-manifest.schema.json" other = true →
    publish_manifest py_str validate_contract now' agent_id other d' =
      (if String.eqb (sha256_hex (canonical_json document)) (sha256_hex (canonical_json other))
       then Ok r else Err SequenceConflictError, d').
Proof.
  unfold publish_manifest at 1, audit_incompatibility. run_session.
  destruct (validate_contract _ document); [|done].
  destruct (negb (field_is "agent_id" _ document)); [done|].
  destruct (field_is "capability_catalog_version" _ document); [|done].
  destruct (text_field "manifest_id" document) as [mid|] eqn:Em; [|done].
  destruct (int_field "manifest_sequence" document) as [n|] eqn:En; [|done].
  cbn [committed working in_tx].
  assert (∀ (st : AgentDb) m now' other,
    select_one (λ m, same_text (mf_agent_id m) agent_id && (mf_sequence m =? n)) (manifests st) = Some m →
    mf_id m = mid → mf_document_digest m = sha256_hex (canonical_json document) →
    text_field "manifest_id" other = Ok mid → int_field "manifest_sequence" other = Ok n →
    field_is "agent_id" agent_id other = true →
    field_is "capability_catalog_version" "1.0.0" other = true →
    validate_contract "capability-manifest.schema.json" other = true →
    publish_manifest py_str validate_contract now' agent_id other st =
      (if String.eqb (sha256_hex (canonical_json document)) (sha256_hex (canonical_json other))
       then Ok (manifest_response m) else Err SequenceConflictError, st)) as Hagain.
  { intros st m now' other Es E1 E2 Em' En' Ha Hc Hv. unfold publish_manifest. run_session.
    rewrite Hv, Ha, Hc, Em', En'. cbn [committed working in_tx negb]. rewrite Es, E1, E2.
    rewrite String.eqb_refl. by destruct (String.eqb _ _). }
  destruct (select_one _ (manifests d)) as [m|] eqn:Es.
  - destruct (String.eqb (mf_document_digest m) _) eqn:Ed; simpl; [|done].
    destruct (String.eqb (mf_id m) mid) eqn:Ei; simpl; [|done]. intros [= <- <-] now' other.
    apply String.eqb_eq in Ed, Ei. by eapply Hagain.
  - destruct (text_field "schema_version" document) as [schema|]; [|done].
    destruct (text_field "capability_catalog_version" document) as [catalog|]; [|done].
    destruct (manifests_valid _); simpl; [|done]. intros [= <- <-] now' other.
    eapply Hagain; [|done..]. simpl. apply select_one_snoc; [done|].
    simpl. unfold same_text. by rewrite String.eqb_refl, Z.eqb_refl.
Qed.
End Manifests.

(** ** Captured requests *)

Section Captured.
Context `{Hmac} `{WideAlnum} (py_str : json → string) (settings : Settings)
  (agent_nonce_ttl_seconds agent_request_limit : Z) (read_timestamp : string → option Z).
Let authenticate := authenticate py_str settings agent_nonce_ttl_seconds agent_request_limit
  read_timestamp.

Lemma check_headers_Ok now q parsed nonce :
  check_headers settings read_timestamp now q = Ok (parsed, nonce) →
  hd_nonce q = Some nonce
  ∧ ∃ text timestamp, hd_timestamp q = Some text ∧ read_timestamp text = Some timestamp
      ∧ Z.abs (now - timestamp) ≤ seconds (agent_clock_skew_seconds settings).
Proof.
  unfold check_headers. intros E. repeat (case_match; try done).
  all: simplify_eq; split; [done|]; do 2 eexists; split_and!; [done..|lia].
Qed.

Lemma check_headers_bearer now q parsed nonce :
  check_headers settings read_timestamp now q = Ok (parsed, nonce) →
  hd_protocol q = Some "1.0.0"
  ∧ ∃ bearer, hd_authorization q = "Bearer " +:+ bearer ∧ parse_machine_secret bearer "wto_ac_1" = Ok parsed.
Proof.
  unfold check_headers. destruct (after_prefix "Bearer " _) as [bearer|] eqn:Eb; [|done]. apply after_prefix_Some in Eb as ->.
  destruct (bool_decide (hd_protocol q = Some "1.0.0")) eqn:Ep; cbn [negb]; [|done]. apply bool_decide_eq_true in Ep.
  intros E. split; [exact Ep|]. exists bearer. split; [done|].
  destruct (parse_machine_secret bearer "wto_ac_1") as [x|]; repeat (case_match; try done). by injection E as -> _.
Qed.
Lemma verify_secret_Ok key sec expected : verify_secret key sec expected = Ok true → secret_digest key sec = Ok expected.
Proof. unfold verify_secret. destruct (secret_digest key sec) as [x|]; [|done]. cbn. by intros [= ->%String.eqb_eq]. Qed.
(** The counter of the minute after the request. *)
Lemma live_count_head now key n e l nonces : now ≤ e → live_count now key (MkRedis nonces ((key, (n, e)) :: l)) = Some (n, e).
Proof. intros He. unfold live_count. simpl. by rewrite String.eqb_refl, (proj2 (Z.leb_le now e) He). Qed.
Lemma live_count_live now key n e rd : live_count now key rd = Some (n, e) → now ≤ e.
Proof.
  unfold live_count. destruct (List.find _ _) as [[k [n' e']]|] eqn:Ef; [|done]. intros [= -> ->].
  apply find_some in Ef as [_ Ef]. simpl in Ef. bool_simp. lia.
Qed.

Lemma reserve_Ok available now ttl limit id nonce rd u rd' :
  reserve available now ttl limit id nonce rd = (Ok u, rd') →
  live_nonce now (nonce_key id nonce) rd = false
  ∧ (nonce_key id nonce, now + seconds ttl) ∈ nonce_keys rd'
  ∧ ∃ count expires, live_count now (rate_key id) rd' = Some (count, expires) ∧ count ≤ limit.
Proof.
  unfold reserve, reserve_script. destruct (negb available); simpl; [done|]. destruct (live_nonce _ _ _); [done|].
  destruct (live_count now (rate_key id) rd) as [[n e]|] eqn:Ec; simpl;
    match goal with |- context [limit <? ?k] => destruct (Z.ltb_spec limit k); [done|] end;
    intros [= _ <-]; (split; [done|]); (split; [by left|]); do 2 eexists; (split; [apply live_count_head|done]).
  - by eapply live_count_live.
  - unfold seconds. lia.
Qed.

(** Two accepted headers of one request name the same credential. *)
Lemma check_headers_same now now' q x y :
  check_headers settings read_timestamp now q = Ok x →
  check_headers settings read_timestamp now' q = Ok y → x = y.
Proof. unfold check_headers. intros E1 E2. repeat (case_match; simplify_eq; try done). Qed.

Lemma check_credential_id now accepted parsed d p d' :
  check_credential py_str settings now accepted parsed d = (Ok p, d') →
  ac_id (principal_credential p) = locator parsed ∧ d' = d
  ∧ principal_agent p ∈ agents d ∧ principal_credential p ∈ agent_credentials d
  ∧ ac_agent_id (principal_credential p) = ag_id (principal_agent p)
  ∧ ag_is_active (principal_agent p) = true ∧ ag_revoked_at (principal_agent p) = None
  ∧ state_accepted accepted (principal_credential p) = true
  ∧ now < ac_expires_at (principal_credential p)
  ∧ verify_secret (agent_credential_hmac_key settings) (secret parsed)
      (ac_secret_digest (principal_credential p)) = Ok true.
Proof.
  unfold check_credential, repo_credential, repo_agent. run_session.
  destruct (select_one _ (agent_credentials d)) as [c|] eqn:Ec; [|done].
  destruct (verify_secret _ _ _) as [[]|] eqn:Ev; simpl; [|done|done].
  destruct (select_one _ (agents d)) as [a|] eqn:Ea; [|done].
  destruct (negb (ag_is_active a) || opt_is_some (ag_revoked_at a)) eqn:Er; [done|].
  destruct (negb (state_accepted accepted c) || (ac_expires_at c <=? now)) eqn:Es; simpl; [done|].
  intros [= <- <-]. simpl. bool_simp.
  apply select_one_Some in Ec as [Hc Eid%String.eqb_eq].
  apply select_one_Some in Ea as [Ha Eag%String.eqb_eq].
  destruct (ag_revoked_at a) eqn:Era; [done|]. split_and!; try done; lia.
Qed.

(** C37: an accepted agent request is genuine and fresh: it presents a credential
    that exists, whose stored digest is that of the presented secret, that is in an
    accepted state and has not expired; its agent is active and not revoked; its
    time stamp is within the clock skew, its nonce is not live before and is
    reserved after, it is within the limit of the minute, and the database is
    not written. *)
Theorem authenticated_request available now accepted q api p api' :
  authenticate available now accepted q api = (Ok p, api') →
  db api' = db api
  ∧ principal_agent p ∈ agents (db api) ∧ principal_credential p ∈ agent_credentials (db api)
  ∧ ac_agent_id (principal_credential p) = ag_id (principal_agent p)
  ∧ ag_is_active (principal_agent p) = true ∧ ag_revoked_at (principal_agent p) = None
  ∧ state_accepted accepted (principal_credential p) = true
  ∧ now < ac_expires_at (principal_credential p)
  ∧ (∃ bearer presented, hd_authorization q = "Bearer " +:+ bearer
       ∧ parse_machine_secret bearer "wto_ac_1" = Ok presented
       ∧ locator presented = ac_id (principal_credential p)
       ∧ secret_digest (agent_credential_hmac_key settings) (secret presented)
         = Ok (ac_secret_digest (principal_credential p)))
  ∧ hd_protocol q = Some "1.0.0"
  ∧ (∃ text timestamp, hd_timestamp q = Some text ∧ read_timestamp text = Some timestamp
       ∧ Z.abs (now - timestamp) ≤ seconds (agent_clock_skew_seconds settings))
  ∧ (∃ nonce, hd_nonce q = Some nonce
      ∧ live_nonce now (nonce_key (ac_id (principal_credential p)) nonce) (redis api) = false
      ∧ (nonce_key (ac_id (principal_credential p)) nonce, now + seconds agent_nonce_ttl_seconds)
        ∈ nonce_keys (redis api'))
  ∧ ∃ count expires, live_count now (rate_key (ac_id (principal_credential p))) (redis api') = Some (count, expires)
      ∧ count ≤ agent_request_limit.
Proof.
  unfold authenticate, AgentAuth.authenticate, lift, on_db, on_redis. unfold mbind, SE_bind.
  destruct (check_headers settings read_timestamp now q) as [[parsed nonce]|] eqn:Eh; [|done].
  simpl. destruct (check_credential _ _ _ _ _ (db api)) as [[p0|] d1] eqn:Ec; simpl; [|done].
  apply check_credential_id in Ec as (Hid & -> & H1 & H2 & H3 & H4 & H5 & H6 & H7 & Hv%verify_secret_Ok).
  pose proof (check_headers_bearer _ _ _ _ Eh) as (Hproto & bearer & Hb & Hp).
  apply check_headers_Ok in Eh as [Hn Hts].
  destruct (reserve _ _ _ _ _ _ _) as [[u|e] rd'] eqn:Er; [|done]. intros [= <- <-].
  apply reserve_Ok in Er as (Hl & Hin & Hc). split_and!; try done.
  - exists bearer, parsed. by split_and!.
  - by exists nonce.
Qed.

(** C30: a captured request is worthless: once it has been accepted, the same
    headers are refused at every later time, whatever has happened to the
    database, as long as Redis still holds the nonce for its lifetime and that
    lifetime covers twice the accepted clock skew. *)
Theorem captured_request_refused available available' now now' accepted accepted' q api p api1 api2 :
  2 * agent_clock_skew_seconds settings ≤ agent_nonce_ttl_seconds → now ≤ now' →
  authenticate available now accepted q api = (Ok p, api1) →
  (∀ k e, (k, e) ∈ nonce_keys (redis api1) → now' ≤ e → (k, e) ∈ nonce_keys (redis api2)) →
  is_ok (authenticate available' now' accepted' q api2).1 = false.
Proof.
  intros Httl Hnow E Hkept. revert E.
  unfold authenticate, AgentAuth.authenticate, lift, on_db, on_redis. unfold mbind, SE_bind.
  destruct (check_headers settings read_timestamp now q) as [[parsed nonce]|] eqn:Eh; [|done].
  destruct (check_headers settings read_timestamp now' q) as [[parsed' nonce']|] eqn:Eh'; [|done].
  pose proof (check_headers_same _ _ _ _ _ Eh Eh') as [= <- <-].
  apply check_headers_Ok in Eh as [Hn (text & ts & Et & Er & Hs)].
  apply check_headers_Ok in Eh' as [_ (text' & ts' & Et' & Er' & Hs')]. simplify_eq. simpl.
  destruct (check_credential _ _ now _ _ (db api)) as [[p0|] d1] eqn:Ec; simpl; [|done].
  destruct (check_credential _ _ now' _ _ (db api2)) as [[p1|] d2] eqn:Ec'; simpl; [|done].
  apply check_credential_id in Ec as (Eid & _). apply check_credential_id in Ec' as (Eid' & _).
  rewrite Eid, Eid'. unfold reserve, reserve_script.
  destruct (negb available); simpl; [done|]. destruct (negb available'); simpl; [done|].
  set (key := nonce_key _ _) in *.
  destruct (live_nonce now key (redis api)) eqn:El; simpl; [done|].
  intros E. assert ((key, now + seconds agent_nonce_ttl_seconds) ∈ nonce_keys (redis api1)) as Hin.
  { destruct (live_count now _ _) as [[n e]|]; cbn in E;
      (destruct (_ <? _) in E; [discriminate|]); injection E as <- <-; cbn; left. }
  assert (live_nonce now' key (redis api2) = true) as ->; [|done].
  unfold live_nonce. apply existsb_exists. eexists. split.
  - apply list_elem_of_In, Hkept; [exact Hin|]. unfold seconds in *. lia.
  - simpl. rewrite String.eqb_refl. simpl. unfold seconds in *. lia.
Qed.
End Captured.

(** ** Concrete requests *)

Definition accepted_once : Api :=
  (authenticate no_str example_settings 600 120 at_zero true 0 ACCEPT_ACTIVE the_request
     (MkApi agent_db (MkRedis [] []))).2.

Lemma authenticated_request_witness :
  ∃ p, (authenticate no_str example_settings 600 120 at_zero true 0 ACCEPT_ACTIVE the_request
     (MkApi agent_db (MkRedis [] []))).1 = Ok p ∧ ag_is_active (principal_agent p) = true
    ∧ secret_digest (agent_credential_hmac_key example_settings) example_secret
      = Ok (ac_secret_digest (principal_credential p)).
Proof.
  destruct (authenticate no_str example_settings 600 120 at_zero true 0 ACCEPT_ACTIVE the_request
     (MkApi agent_db (MkRedis [] []))) as [[p|e] api] eqn:E.
  - exists p. split; [reflexivity|].
    apply (authenticated_request no_str example_settings 600 120 at_zero) in E
      as (_ & _ & _ & _ & Hact & _ & _ & _ & (bearer & presented & Hb & Hp & _ & Hd) & _).
    split; [exact Hact|]. 
    assert (Some (new_agent_credential example_locator example_secret) = Some bearer) as [= <-]
      by exact (f_equal (after_prefix "Bearer ") Hb).
    assert (parse_machine_secret (new_agent_credential example_locator example_secret) "wto_ac_1"
            = Ok {| locator := example_locator; secret := example_secret |}) as Hx by reflexivity.
    rewrite Hx in Hp. injection Hp as <-. exact Hd.
  - exfalso. apply (f_equal (λ x, is_ok x.1)) in E. vm_compute in E. discriminate.
Defined.

Lemma captured_request_refused_witness :
  is_ok (authenticate no_str example_settings 600 120 at_zero true (seconds 299) ACCEPT_ACTIVE
           the_request accepted_once).1 = false.
Proof.
  destruct (authenticate no_str example_settings 600 120 at_zero true 0 ACCEPT_ACTIVE the_request
     (MkApi agent_db (MkRedis [] []))) as [[p|e] api] eqn:E.
  - apply (captured_request_refused no_str example_settings 600 120 at_zero true true 0 (seconds 299)
      ACCEPT_ACTIVE ACCEPT_ACTIVE the_request (MkApi agent_db (MkRedis [] [])) p api accepted_once).
    + simpl. lia.
    + unfold seconds. lia.
    + exact E.
    + intros k e0 Hin _. unfold accepted_once. rewrite E. exact Hin.
  - exfalso. apply (f_equal (λ x, is_ok x.1)) in E. vm_compute in E. discriminate.
Defined.

Definition example_manifest (mid schema : string) : json :=
  JObj [("manifest_id", JStr mid); ("manifest_sequence", JInt 0); ("agent_id", JStr "agent");
        ("capability_catalog_version", JStr "1.0.0"); ("schema_version", JStr schema)].

Lemma manifest_published_once_witness :
  ∃ d r, publish_manifest no_str valid_contract 5 "agent" (example_manifest "m" "1") d = (Ok r, d).
Proof.
  destruct (publish_manifest no_str valid_contract 0 "agent" (example_manifest "m" "1") agent_db)
    as [[r|e] d] eqn:E.
  - exists d, r.
    rewrite (manifest_published_once no_str valid_contract 0 "agent" (example_manifest "m" "1")
      agent_db r d E 5 (example_manifest "m" "1") eq_refl eq_refl eq_refl eq_refl eq_refl).
    rewrite String.eqb_refl. reflexivity.
  - exfalso. apply (f_equal (λ x, is_ok x.1)) in E. vm_compute in E. discriminate.
Defined.
