(* ===== verification/CredentialTheorems.v ===== *)
(** * What the backend guarantees about credentials

    A rotation replaces the one active credential of an agent, a one-time
    response can be fetched again with the same key, and a spent enrollment
    token issues nothing. *)

From S2P Require Export ProtocolTheorems.

(** ** Following a session *)

Lemma with_session_Ok {DB A} (m : SE (conn DB) A) d a d' :
  with_session m d = (Ok a, d') ↔ ∃ c, m (Conn d d true) = (Ok a, c) ∧ committed c = d'.
Proof.
  unfold with_session. destruct (m _) as [r c]. split.
  - intros [= -> <-]. by exists c.
  - by intros (c' & [= -> ->] & ->).
Qed.

Lemma SE_bind_Err {S A B} (m : SE S A) (f : A → SE S B) s e s' :
  (m ≫= f) s = (Err e, s') → m s = (Err e, s') ∨ ∃ a s1, m s = (Ok a, s1) ∧ f a s1 = (Err e, s').
Proof.
  rewrite bind_state. destruct (m s) as [[a|e1] s1]; [intros E; right; by exists a, s1|].
  intros [= -> ->]. by left.
Qed.
Lemma raise_if_Err {S} b e (s : S) e' s' : raise_if b e s = (Err e', s') → s' = s.
Proof. unfold raise_if. destruct b; [|done]. by intros [= _ <-]. Qed.
Lemma raise_if_Ok {S} b e (s : S) u s' :
  raise_if b e s = (Ok u, s') → b = false ∧ s' = s.
Proof. unfold raise_if. destruct b; [done|]. by intros [= <- <-]. Qed.
Lemma lift_Ok {S A} (r : result A) (s : S) a s' : lift r s = (Ok a, s') → r = Ok a ∧ s' = s.
Proof. by intros [= -> ->]. Qed.
Lemma query_Ok {DB A} (f : DB → A) c a c' : query f c = (Ok a, c') → a = f (working c) ∧ c' = c.
Proof. by intros [= <- <-]. Qed.
Lemma store_table_Ok {DB T} (put : list T → DB → DB) valid name rows (c : conn DB) u c' :
  store_table put valid name rows c = (Ok u, c') →
  in_tx c = true →
  valid (rows (working c)) = true
  ∧ c' = Conn (committed c) (put (rows (working c)) (working c)) true.
Proof.
  unfold store_table, exec. destruct (valid _) eqn:E; [|done]. intros [= <- <-] Ht.
  by rewrite Ht.
Qed.
Lemma store_table_Err {DB T} (put : list T → DB → DB) valid name rows (c : conn DB) e c' :
  store_table put valid name rows c = (Err e, c') → c' = c.
Proof. unfold store_table, exec. destruct (valid _); [by destruct (in_tx c)|]. by intros [= _ <-]. Qed.
Lemma write_audit_Ok py_str now at_ aid agid act rt rid out md c u c' :
  write_audit py_str now at_ aid agid act rt rid out md c = (Ok u, c') → in_tx c = true →
  ∃ logs, c' = Conn (committed c) (put_audit logs (working c)) true.
Proof. unfold write_audit, exec. intros [= <- <-] Ht. rewrite Ht. by eexists. Qed.

(** Take the next statement of a successful program apart. *)
Ltac next E :=
  let a := fresh "a" in let c := fresh "c" in let E1 := fresh "E1" in
  apply SE_bind_Ok in E as (a & c & E1 & E).

(** ** Unique indexes *)

Lemma all_distinct_spec {R} (same : R → R → bool) t a b :
  all_distinct same t = true → a ∈ t → b ∈ t → same a b = true → same b a = true → a = b.
Proof.
  induction t as [|x t IH]; simpl; intros Hd Ha Hb E1 E2; [by apply elem_of_nil in Ha|].
  apply andb_true_iff in Hd as [Hx Hd]. apply negb_true_iff in Hx.
  assert (∀ y, y ∈ t → same x y = true → False) as Hno.
  { intros y Hy E. apply not_true_iff_false in Hx. apply Hx. apply existsb_exists.
    exists y. by rewrite <-list_elem_of_In. }
  rewrite elem_of_cons in Ha, Hb. destruct Ha as [->|Ha], Hb as [->|Hb].
  - done.
  - by destruct (Hno b Hb E1).
  - by destruct (Hno a Ha E2).
  - by apply IH.
Qed.

Lemma one_active t a b :
  credentials_valid t = true → a ∈ t → b ∈ t → ac_agent_id a = ac_agent_id b →
  ac_state a = CS_ACTIVE → ac_state b = CS_ACTIVE → a = b.
Proof.
  unfold credentials_valid. intros Hv Ha Hb E Sa Sb. bool_simp.
  eapply (all_distinct_spec (λ a b, same_text (ac_agent_id a) (ac_agent_id b)
    && is_state CS_ACTIVE a && is_state CS_ACTIVE b)); [done..| |];
    unfold same_text, is_state; rewrite E, String.eqb_refl, Sa, Sb; done.
Qed.

Lemma one_id t a b :
  credentials_valid t = true → a ∈ t → b ∈ t → ac_id a = ac_id b → a = b.
Proof.
  unfold credentials_valid. intros Hv Ha Hb E. bool_simp.
  eapply (all_distinct_spec (λ a b, same_text (ac_id a) (ac_id b))); [done..| |];
    unfold same_text; rewrite E; apply String.eqb_refl.
Qed.

(** An update that keeps a column keeps what is unique in it, both ways. *)
Lemma all_distinct_updated_keys {R} (key : R → string) p f t :
  (∀ x, key (f x) = key x) →
  all_distinct (λ a b, same_text (key a) (key b)) (update_rows p f t) = all_distinct (λ a b, same_text (key a) (key b)) t.
Proof.
  intros Hf. unfold update_rows. assert (∀ x, key (if p x then f x else x) = key x) as Hk by (intros x; by destruct (p x)).
  induction t as [|x t IH]; [done|]. cbn [map all_distinct]. rewrite IH. f_equal. f_equal.
  clear IH. induction t as [|y t IH]; [done|]. cbn [map existsb]. by rewrite IH, !Hk.
Qed.
(** The rows of a unique identifier that were changed are the row that was found. *)
Lemma updated_one {R} (key : R → string) f t r :
  (∀ x, key (f x) = key x) → r ∈ t →
  all_distinct (λ a b, same_text (key a) (key b)) (update_rows (λ x, same_text (key x) (key r)) f t) = true →
  Forall2 (λ x x', x' = x ∨ x = r ∧ x' = f x) t (update_rows (λ x, same_text (key x) (key r)) f t).
Proof.
  intros Hf Hr Hd. rewrite (all_distinct_updated_keys key) in Hd by exact Hf. unfold update_rows. apply Forall2_fmap_r, Forall_Forall2_diag, Forall_forall.
  intros x Hx. unfold compose. destruct (same_text (key x) (key r)) eqn:E; [right|by left]. split; [|done].
  eapply all_distinct_spec; [exact Hd|exact Hx|exact Hr|exact E|]. unfold same_text in *. by rewrite String.eqb_sym.
Qed.

(** The last row of a table with a unique column is found by that column. *)
Lemma all_distinct_last {R} (key : R → string) t r :
  all_distinct (λ a b, same_text (key a) (key b)) (t ++ [r]) = true →
  select_one (λ x, same_text (key x) (key r)) (t ++ [r]) = Some r.
Proof.
  intros Hd. apply select_one_snoc; [|apply String.eqb_refl].
  apply select_one_None. intros x Hx. apply not_true_iff_false. intros E.
  induction t as [|y t IH]; [by apply elem_of_nil in Hx|]. simpl in Hd.
  apply andb_true_iff in Hd as [Hy Hd]. apply elem_of_cons in Hx as [->|Hx]; [|by apply IH].
  apply negb_true_iff, not_true_iff_false in Hy. apply Hy, existsb_exists. exists r.
  split; [apply in_or_app; right; by left|done].
Qed.

(** ** Activation *)

Section Activation.
Context `{Sha256} `{SecretReplayCipher} (py_str : json → string) (settings : Settings).

(** What [begin] does when it starts a new record, or replays one. *)
Lemma begin_Ok now rid pt pid op key fp sec c st c' :
  begin now rid pt pid op key fp sec c = (Ok st, c') → in_tx c = true →
  (is_new st = true
   ∧ select_one (scope_is pt pid op key) (idempotency_records (working c)) = None
   ∧ start_record st = MkIdempotency rid pt pid op key fp IR_PENDING None None now now
                         (now + terminal_retention)
   ∧ idempotency_valid (idempotency_records (working c) ++ [start_record st]) = true
   ∧ c' = Conn (committed c) (put_idempotency (idempotency_records (working c) ++ [start_record st])
            (working c)) true)
  ∨ (is_new st = false
     ∧ select_one (scope_is pt pid op key) (idempotency_records (working c)) = Some (start_record st)
     ∧ (sec = false → replay_body st = ir_response_body (start_record st))
     ∧ agent_credentials (working c') = agent_credentials (working c)
     ∧ rotations (working c') = rotations (working c)
     ∧ agents (working c') = agents (working c)
     ∧ enrollment_tokens (working c') = enrollment_tokens (working c)
     ∧ in_tx c' = true).
Proof.
  intros E Ht. unfold begin, repo_idempotency in E. next E. apply query_Ok in E1 as [-> ->].
  destruct (select_one _ (idempotency_records (working c))) as [record|] eqn:Es.
  - right. next E. apply raise_if_Ok in E1 as [_ ->]. next E.
    assert (agent_credentials (working c0) = agent_credentials (working c)
            ∧ rotations (working c0) = rotations (working c)
            ∧ agents (working c0) = agents (working c)
            ∧ enrollment_tokens (working c0) = enrollment_tokens (working c)
            ∧ in_tx c0 = true) as Hc0.
    { destruct (bool_decide _); [|by injection E1 as _ <-].
      destruct (_ <=? now); [|done]. apply store_table_Ok in E1 as [_ ->]; done. }
    clear E1.
    destruct sec.
    + next E. apply query_Ok in E1 as [-> ->]. destruct (select_one _ (secret_replays _)); [|done].
      next E. apply raise_if_Ok in E1 as [_ ->]. destruct (decrypt _ _ _); [|done].
      injection E as <- <-. done.
    + destruct (ir_response_body record) eqn:Eb, (ir_response_status record); try done.
      injection E as <- <-. cbn [start_record replay_body]. by rewrite Eb.
  - left. next E. apply store_table_Ok in E1 as [Hv ->]; [|done]. injection E as <- <-.
    simpl. done.
Qed.

Lemma audit_agent_Ok now id action rt rid md c u c' :
  audit_agent py_str now id action rt rid md c = (Ok u, c') → in_tx c = true →
  ∃ logs, c' = Conn (committed c) (put_audit logs (working c)) true.
Proof. apply write_audit_Ok. Qed.

(** A replay writes an audit event and nothing else of the credentials. *)
Lemma replay_branch now id action rt field md (st : IdempotencyStart) c body c' :
  match replay_body st with
  | None => raise AssertionError
  | Some b =>
      x ← lift (response_field field b);
      audit_agent py_str now id action rt x (md x) ;; session_commit ;; mret b
  end c = (Ok body, c') → in_tx c = true →
  replay_body st = Some body
  ∧ agent_credentials (committed c') = agent_credentials (working c)
  ∧ rotations (committed c') = rotations (working c)
  ∧ idempotency_records (committed c') = idempotency_records (working c)
  ∧ secret_replays (committed c') = secret_replays (working c)
  ∧ agents (committed c') = agents (working c)
  ∧ enrollment_tokens (committed c') = enrollment_tokens (working c).
Proof.
  intros E Ht. destruct (replay_body st) as [b|]; [|done]. next E. apply lift_Ok in E1 as [_ ->].
  next E. apply audit_agent_Ok in E1 as [logs ->]; [|done]. next E.
  injection E1 as _ <-. by injection E as <- <-.
Qed.

(** What a successful activation that is not a replay has read and written. *)
Lemma activation_writes now f agent_id supplied rotation_id schema key d body d' :
  activate_rotation py_str settings now f agent_id supplied rotation_id schema key d = (Ok body, d') →
  (agent_credentials d' = agent_credentials d ∧ rotations d' = rotations d
   ∧ ∃ record, record ∈ idempotency_records d ∧ ir_response_body record = Some body
      ∧ scope_is "agent" agent_id ("agent.credential.activate:" +:+ rotation_id) key record = true)
  ∨ (∃ r p, r ∈ rotations d ∧ cr_id r = rotation_id ∧ cr_agent_id r = agent_id ∧ cr_pending_credential_id r = supplied
      ∧ cr_state r = RS_PENDING ∧ now < cr_expires_at r
      ∧ p ∈ agent_credentials d ∧ ac_id p = supplied ∧ ac_state p = CS_PENDING
      ∧ agent_credentials d' =
          update_rows (credential_with supplied)
            (credential_activated now (now + days (agent_credential_days settings)))
            (update_rows (credential_with (cr_previous_credential_id r))
               (credential_retired now "credential_rotated") (agent_credentials d))
      ∧ credentials_valid (agent_credentials d') = true
      ∧ rotations d' = update_rows (rotation_with rotation_id) (rotation_to RS_ACTIVATED (Some now)) (rotations d)).
Proof.
  intros E. unfold activate_rotation in E. apply with_session_Ok in E as (c9 & E & <-).
  next E. apply begin_Ok in E1; [|done].
  destruct E1 as [(Hnew & _ & _ & _ & ->)|(Hnew & Hs & Hbody & Hc & Hr & _ & _ & Ht)].
  2:{ left. rewrite Hnew in E. simpl in E. apply replay_branch in E as (Hb & -> & -> & _); [|done].
      rewrite Hc, Hr. apply select_one_Some in Hs as [Hin Hsc]. split_and!; [done..|].
      exists (start_record a). rewrite <-Hbody by done. done. }
  right. rewrite Hnew in E. simpl in E. next E. apply query_Ok in E1 as [-> ->]. next E.
  apply query_Ok in E1 as [-> ->]. simpl in E.
  destruct (select_one _ (rotations d)) as [r|] eqn:Er; [|done].
  apply select_one_Some in Er as [Hrin Hrid%String.eqb_eq].
  next E. apply raise_if_Ok in E1 as [Hg ->]. next E. apply raise_if_Ok in E1 as [Hg2 ->].
  next E. apply query_Ok in E1 as [-> ->]. next E. apply query_Ok in E1 as [-> ->]. simpl in E.
  destruct (select_one _ (agent_credentials d)) as [p|] eqn:Ep; [|done].
  destruct (select_one (λ c, same_text (ac_id c) (cr_previous_credential_id r)) (agent_credentials d))
    as [q|] eqn:Eq; [|done].
  apply select_one_Some in Ep as [Hp Epid%String.eqb_eq].
  apply select_one_Some in Eq as [Hq Eqid%String.eqb_eq].
  next E. apply raise_if_Ok in E1 as [Hg3%negb_false_iff%bool_decide_eq_true_1 ->].
  next E. apply store_table_Ok in E1 as [_ ->]; [|done]. next E.
  apply store_table_Ok in E1 as [Hv ->]; [|done]. next E.
  apply store_table_Ok in E1 as [_ ->]; [|done]. next E.
  apply store_table_Ok in E1 as [_ ->]; [|done]. next E.
  apply audit_agent_Ok in E1 as [logs ->]; [|done]. next E. injection E1 as _ <-.
  injection E as _ <-. simpl in *. bool_simp.
  match goal with H : same_text (cr_pending_credential_id r) supplied = true |- _ =>
    apply String.eqb_eq in H as Hsup end.
  match goal with H : same_text (cr_agent_id r) agent_id = true |- _ =>
    apply String.eqb_eq in H as Hag end.
  exists r, p. rewrite Epid, Eqid, Hsup in *. unfold rotation_is in *.
  split_and!; try done; [by eapply bool_decide_eq_true_1|lia].
Qed.

Lemma activated_row now expires reason supplied previous t p :
  p ∈ t → ac_id p = supplied →
  ∃ p1, ac_id p1 = supplied ∧ ac_agent_id p1 = ac_agent_id p
    ∧ credential_activated now expires p1
        ∈ update_rows (credential_with supplied) (credential_activated now expires)
            (update_rows (credential_with previous) (credential_retired now reason) t).
Proof.
  intros Hp Hid.
  exists (if credential_with previous p then credential_retired now reason p else p).
  split_and!; [by destruct (credential_with _ p)..|].
  apply elem_of_update_rows.
  exists (if credential_with previous p then credential_retired now reason p else p). split.
  - apply elem_of_update_rows. by exists p.
  - unfold credential_with at 2. destruct (credential_with previous p); simpl;
      unfold same_text; by rewrite Hid, String.eqb_refl.
Qed.

(** C29: activating a rotation succeeds either as the replay of the answer that an
    earlier activation of it stored under the same key, and then no credential and
    no rotation changes, or by demonstrating the pending credential of a pending
    rotation of the agent that has not expired: that credential becomes the agent's
    only active one, the previous one is revoked, and the rotation is closed. *)
Theorem activation_swaps_credentials now f agent_id supplied rotation_id schema key d body d' :
  activate_rotation py_str settings now f agent_id supplied rotation_id schema key d = (Ok body, d') →
  (∀ c, c ∈ agent_credentials d → ac_id c = supplied → ac_agent_id c = agent_id) →
  (agent_credentials d' = agent_credentials d ∧ rotations d' = rotations d
   ∧ ∃ record, record ∈ idempotency_records d ∧ ir_response_body record = Some body
      ∧ scope_is "agent" agent_id ("agent.credential.activate:" +:+ rotation_id) key record = true)
  ∨ (∃ r, r ∈ rotations d ∧ cr_id r = rotation_id ∧ cr_agent_id r = agent_id ∧ cr_pending_credential_id r = supplied
      ∧ cr_state r = RS_PENDING ∧ now < cr_expires_at r
      ∧ (∃ old, old ∈ agent_credentials d ∧ ac_id old = supplied)
      ∧ (∀ c, c ∈ agent_credentials d → ac_id c = supplied → ac_state c = CS_PENDING)
      ∧ (∃ new, new ∈ agent_credentials d' ∧ ac_id new = supplied ∧ ac_state new = CS_ACTIVE
           ∧ ac_expires_at new = now + days (agent_credential_days settings))
      ∧ (∀ c, c ∈ agent_credentials d' → ac_agent_id c = agent_id → ac_state c = CS_ACTIVE →
           ac_id c = supplied)
      ∧ (∀ c, c ∈ agent_credentials d' → ac_id c = cr_previous_credential_id r →
           ac_id c ≠ supplied → ac_state c = CS_REVOKED)
      ∧ (∀ r', r' ∈ rotations d' → cr_id r' = rotation_id → cr_state r' = RS_ACTIVATED ∧ cr_activated_at r' = Some now)).
Proof.
  intros E Hown. apply activation_writes in E
    as [?|(r & p & Hr & Hrid & Hrag & Hrp & Hst & Hex & Hp & Hpid & Hps & E & Hv & Er)];
    [by left|right]. exists r. split_and!; [done..| | | | | |].
  - by exists p.
  - intros c Hc Hcid. rewrite <-Hps. f_equal. rewrite E in Hv. unfold credentials_valid in Hv. bool_simp.
    match goal with Hd : all_distinct (λ a b, same_text (ac_id a) (ac_id b)) _ = true |- _ =>
      rewrite !(all_distinct_updated_keys ac_id) in Hd by done;
      eapply (all_distinct_spec _ _ _ _ Hd); [done|done|..]; unfold same_text; rewrite Hcid, Hpid; apply String.eqb_refl end.
  - destruct (activated_row now (now + days (agent_credential_days settings)) "credential_rotated"
      supplied (cr_previous_credential_id r) _ p Hp Hpid) as (p1 & Ei & Ea & Hin); rewrite <-E in Hin. by eexists.
  - destruct (activated_row now (now + days (agent_credential_days settings)) "credential_rotated"
      supplied (cr_previous_credential_id r) _ p Hp Hpid) as (p1 & Ei & Ea & Hin); rewrite <-E in Hin.
    intros c Hc Hag Hact. rewrite <-Ei. change (ac_id p1)
      with (ac_id (credential_activated now (now + days (agent_credential_days settings)) p1)).
    f_equal. eapply one_active; [exact Hv|done|done| |done|done].
    simpl. by rewrite Hag, Ea, (Hown p).
  - intros c Hc Eid Hne. rewrite E in Hc. apply elem_of_update_rows in Hc as (c1 & Hc1 & ->).
    destruct (credential_with supplied c1) eqn:Ew.
    { apply String.eqb_eq in Ew. by destruct Hne. }
    apply elem_of_update_rows in Hc1 as (c0 & Hc0 & ->).
    destruct (credential_with (cr_previous_credential_id r) c0) eqn:Ew0; [done|].
    unfold credential_with, same_text in Ew0. by rewrite Eid, String.eqb_refl in Ew0.
  - intros r' Hr' Hid. rewrite Er in Hr'. apply elem_of_update_rows in Hr' as (r0 & _ & ->).
    destruct (rotation_with rotation_id r0) eqn:Ew; [done|]. unfold rotation_with, same_text in Ew.
    by rewrite Hid, String.eqb_refl in Ew.
Qed.
End Activation.

(** ** One-time responses *)

Section Replay.
Context `{Sha256} `{SecretReplayCipher} `{Hmac} (py_str : json → string) (settings : Settings).

(** The row an operation left for its scope is the one the next one finds. *)
Lemma begin_replays now rid pt pid op key fp c record p body :
  select_one (scope_is pt pid op key) (idempotency_records (working c)) = Some record →
  ir_request_fingerprint record = fp → ir_state record ≠ IR_PENDING →
  select_one (λ r, same_text (sr_idempotency_record_id r) (ir_id record))
    (secret_replays (working c)) = Some p →
  now < sr_expires_at p → decrypt (sr_ciphertext p) (sr_nonce p) (ir_id record) = Some body →
  begin now rid pt pid op key fp true c =
    (Ok {| start_record := record; replay_body := Some body;
           replay_status := ir_response_status record; is_new := false |}, c).
Proof.
  intros E1 E2 E3 E4 E5 E6. unfold begin, repo_idempotency, repo_secret_replay.
  unfold mbind, SE_bind, query, raise_if, mret, SE_ret. rewrite E1, E2, String.eqb_refl. simpl.
  rewrite bool_decide_eq_false_2 by done. rewrite E4.
  destruct (sr_expires_at p <=? now) eqn:El; [lia|]. simpl. by rewrite E6.
Qed.

(** [complete_secret] makes the record of a new operation replayable. *)
Lemma completed_secret_replays now replay_id nonce record body status c u c' pt pid op key :
  complete_secret now replay_id nonce record body status c = (Ok u, c') → in_tx c = true →
  select_one (scope_is pt pid op key) (idempotency_records (working c)) = Some record →
  in_tx c' = true ∧ committed c' = committed c
  ∧ agent_credentials (working c') = agent_credentials (working c)
  ∧ rotations (working c') = rotations (working c)
  ∧ (∃ record', select_one (scope_is pt pid op key) (idempotency_records (working c')) = Some record'
      ∧ ir_id record' = ir_id record ∧ ir_state record' = IR_COMPLETED
      ∧ ir_request_fingerprint record' = ir_request_fingerprint record)
  ∧ ∃ p, select_one (λ r, same_text (sr_idempotency_record_id r) (ir_id record))
           (secret_replays (working c')) = Some p
      ∧ sr_expires_at p = now + secret_window
      ∧ decrypt (sr_ciphertext p) (sr_nonce p) (ir_id record) = Some body.
Proof.
  unfold complete_secret. intros E Ht Es. next E. apply store_table_Ok in E1 as [_ ->]; [|done].
  apply store_table_Ok in E as [Hv ->]; [|done]. simpl in *. split_and!; [done..| |].
  - assert (∀ x, scope_is pt pid op key x = true →
      scope_is pt pid op key (record_with IR_COMPLETED (Some status)
        (Some (JObj [("secret_response", JBool true)])) now (now + terminal_retention) x) = true) as Hx
      by done.
    rewrite select_one_updated, Es by done. simpl. unfold same_text. rewrite String.eqb_refl.
    by eexists.
  - apply (all_distinct_last sr_idempotency_record_id) in Hv. eexists. split; [exact Hv|]. split; [done|]. apply decrypt_encrypt.
Qed.
Lemma expire_pending_Ok now agent_id c u c' :
  expire_pending now agent_id c = (Ok u, c') → in_tx c = true →
  in_tx c' = true ∧ committed c' = committed c
  ∧ idempotency_records (working c') = idempotency_records (working c)
  ∧ secret_replays (working c') = secret_replays (working c).
Proof.
  unfold expire_pending. intros E Ht. next E. apply query_Ok in E1 as [-> ->].
  destruct (select_one _ (rotations _)) as [r|]; [|by injection E as _ <-].
  destruct (now <? cr_expires_at r); [by injection E as _ <-|].
  next E. apply query_Ok in E1 as [-> ->]. next E. apply store_table_Ok in E1 as [_ ->]; [|done].
  destruct (select_one _ (agent_credentials _)) as [p|]; [|by injection E as _ <-].
  destruct (is_state CS_PENDING p); [|by injection E as _ <-].
  by apply store_table_Ok in E as [_ ->].
Qed.

(** The handler of an expired replay always raises. *)
Lemma catch_on_replay_expired {A} (m : SE (conn AgentDb) A) now agent_id c a c' :
  catch m (on_replay_expired now agent_id) c = (Ok a, c') → m c = (Ok a, c').
Proof.
  unfold catch. destruct (m c) as [[x|e] s]; [done|]. unfold on_replay_expired.
  destruct (bool_decide _); [|done]. intros E. next E. next E. done.
Qed.

(** What the first request of a rotation leaves for its repetitions. *)
Lemma create_rotation_leaves now f agent_id active schema key d body d' :
  create_rotation py_str settings now f agent_id active schema key d = (Ok body, d') →
  select_one (scope_is "agent" agent_id "agent.credential.rotate" key) (idempotency_records d) = None →
  ∃ record p,
    select_one (scope_is "agent" agent_id "agent.credential.rotate" key) (idempotency_records d')
      = Some record
    ∧ ir_request_fingerprint record = fingerprint (JObj [("schema_version", JStr schema)])
    ∧ ir_state record = IR_COMPLETED
    ∧ select_one (λ r, same_text (sr_idempotency_record_id r) (ir_id record)) (secret_replays d') = Some p
    ∧ sr_expires_at p = now + secret_window
    ∧ decrypt (sr_ciphertext p) (sr_nonce p) (ir_id record) = Some body
    ∧ response_field "rotation_id" body = Ok (fresh_rotation f).
Proof.
  intros E Hs. unfold create_rotation in E. apply with_session_Ok in E as (c9 & E & <-).
  next E. apply catch_on_replay_expired in E1. apply begin_Ok in E1; [|done].
  destruct E1 as [(Hnew & _ & Hrec & _ & ->)|(_ & Hs' & _)]; [|simpl in Hs'; congruence].
  rewrite Hnew in E. simpl in E. next E. apply query_Ok in E1 as [-> ->].
  next E. apply raise_if_Ok in E1 as [_ ->]. next E.
  apply expire_pending_Ok in E1 as (Ht & _ & Ei & Er); [|done]. simpl in Ei, Er.
  next E. apply query_Ok in E1 as [-> ->]. next E. apply raise_if_Ok in E1 as [_ ->].
  next E. apply query_Ok in E1 as [-> ->]. destruct (select_one _ (agent_credentials _)) as [act|]; [|done].
  next E. apply raise_if_Ok in E1 as [_ ->]. next E. apply query_Ok in E1 as [-> ->].
  next E. apply lift_Ok in E1 as [_ ->]. next E. apply store_table_Ok in E1 as [_ ->]; [|done].
  next E. apply store_table_Ok in E1 as [_ ->]; [|done]. next E.
  eapply (completed_secret_replays _ _ _ _ _ _ _ _ _ "agent" agent_id "agent.credential.rotate" key)
    in E1 as (Ht' & _ & _ & _ & (record' & Hr1 & Hr2 & Hr3 & Hr4) & p & Hp1 & Hp2 & Hp3); [|done|].
  2:{ simpl. rewrite Ei. apply select_one_snoc; [done|]. rewrite Hrec. unfold scope_is, same_text. simpl.
      by rewrite !String.eqb_refl. }
  next E. apply audit_agent_Ok in E1 as [logs ->]; [|done]. next E. injection E1 as _ <-.
  injection E as <- <-. simpl in *. exists record', p. rewrite Hr2, Hr4. split_and!; try done.
  by rewrite Hrec.
Qed.

(** A lost answer to the creation of a rotation can be fetched again: for
    fifteen minutes the same request with the same key returns the very same
    document, the pending credential included, and issues no second
    credential. *)
Theorem rotation_reply_replays now f agent_id active schema key d body d' :
  create_rotation py_str settings now f agent_id active schema key d = (Ok body, d') →
  select_one (scope_is "agent" agent_id "agent.credential.rotate" key) (idempotency_records d) = None →
  ∀ now' f' active', now' < now + minutes 15 →
    ∃ d'', create_rotation py_str settings now' f' agent_id active' schema key d' = (Ok body, d'')
      ∧ agent_credentials d'' = agent_credentials d' ∧ rotations d'' = rotations d'
      ∧ idempotency_records d'' = idempotency_records d' ∧ secret_replays d'' = secret_replays d'.
Proof.
  intros E Hs now' f' active' Hnow.
  apply create_rotation_leaves in E as (record & p & H1' & H2' & H3' & H4' & H5' & H6' & H7'); [|done].
  unfold create_rotation at 1, with_session. unfold mbind at 1, SE_bind at 1. unfold catch.
  erewrite (begin_replays now' _ _ _ _ _ _ (Conn d' d' true) record p body);
    [|done|done|congruence|done|rewrite H5'; done|done].
  cbn [is_new negb replay_body]. unfold mbind, SE_bind, lift. rewrite H7'.
  eexists. split; [reflexivity|]. done.
Qed.
End Replay.

(** ** Refused requests *)

(** A session whose transaction is open and has committed nothing over [d]. *)
Definition opened {DB} (d : DB) (c : conn DB) : Prop := committed c = d ∧ in_tx c = true.

(** A program that commits only when nothing can fail any more. *)
Definition commits_last {DB A} (m : SE (conn DB) A) : Prop :=
  ∀ d c e c', opened d c → m c = (Err e, c') → committed c' = d.

Create HintDb sessions.

Section CommitsLast.
Context {DB : Type}.

Lemma commits_last_session {A} (m : SE (conn DB) A) d e d' :
  commits_last m → with_session m d = (Err e, d') → d' = d.
Proof.
  unfold with_session. intros Hm E. destruct (m _) as [r c] eqn:Em. injection E as -> <-.
  eapply Hm; [|exact Em]. by split.
Qed.
Lemma commits_last_bind {A B} (m : SE (conn DB) A) (f : A → SE (conn DB) B) :
  (∀ d, preserves (opened d) m) → (∀ a, commits_last (f a)) → commits_last (m ≫= f).
Proof.
  intros Hm Hf d c e c' Ho E. specialize (Hm d c Ho). unfold mbind, SE_bind in E.
  destruct (m c) as [[a|e1] c1]; [exact (Hf a d c1 e c' Hm E)|]. injection E as -> ->. apply Hm.
Qed.
Lemma commits_last_commit {A} (a : A) : commits_last (session_commit ;; mret a : SE (conn DB) A).
Proof. intros d c e c' _ E. discriminate E. Qed.
Lemma commits_last_commit_tt : commits_last (session_commit : SE (conn DB) unit).
Proof. intros d c e c' _ E. discriminate E. Qed.
Lemma commits_last_raise {A} e : commits_last (raise e : SE (conn DB) A).
Proof. intros d c e' c' [Ho _] E. by injection E as _ <-. Qed.
Lemma commits_last_query {A} (f : DB → A) : commits_last (query f).
Proof. intros d c e c' _ E. discriminate E. Qed.

Lemma opened_query {A} (d : DB) (f : DB → A) : preserves (opened d) (query f).
Proof. intros c Hc. exact Hc. Qed.
Lemma opened_exec {A} (d : DB) (f : DB → result (A * DB)) : preserves (opened d) (exec f).
Proof.
  intros c [H1 H2]. unfold exec. destruct (f (working c)) as [[a w]|e]; [|done].
  by rewrite H2.
Qed.
End CommitsLast.

#[export] Hint Resolve opened_query opened_exec : preserves.
#[export] Hint Resolve commits_last_commit commits_last_commit_tt commits_last_raise
  commits_last_query : sessions.

(** Follow a program down to its [commit]. *)
Ltac opened_tac :=
  repeat first
    [ apply preserves_bind; [|intros ?] | apply opened_exec | apply opened_query
    | apply preserves_raise_if | apply preserves_raise | apply preserves_lift | apply preserves_ret
    | match goal with |- preserves _ (match ?x with _ => _ end) => destruct x end
    | progress cbv beta zeta ].
Ltac commits_tac :=
  repeat first
    [ solve [auto with sessions]
    | apply commits_last_bind; [intros ?; opened_tac|intros ?]
    | match goal with |- commits_last (match ?x with _ => _ end) => destruct x end
    | progress cbv beta zeta ].

Section Refused.
Context `{Sha256} `{SecretReplayCipher} `{Hmac} `{WideAlnum} (py_str : json → string)
  (settings : Settings) (validate_contract : string → json → bool).

Lemma opened_begin d now rid pt pid op key fp sec :
  preserves (opened d) (begin now rid pt pid op key fp sec).
Proof. unfold begin, repo_idempotency, write_idempotency, store_table. opened_tac. Qed.

Ltac follow_request :=
  apply commits_last_session;
  unfold presented_token, enrolled_agent, issue_credential, complete_secret, complete_public,
    audit_agent, audit_user;
  commits_tac.

Lemma register_Err now f rg d e d' :
  register py_str settings validate_contract now f rg d = (Err e, d') → d' = d.
Proof. follow_request. Qed.

(** What the creation of a rotation may have changed when it is refused because the
    one-time answer of its key has expired: the record of the key, had it stayed
    pending too long, and the agent's pending rotation, once it expired, with its
    credential. *)
Record swept (now : Z) (agent_id key : string) (d d' : AgentDb) : Prop := {
  sw_rest : d' = put_idempotency (idempotency_records d')
                   (put_rotations (rotations d') (put_credentials (agent_credentials d') d));
  sw_records : Forall2 (λ r r', r' = r ∨ scope_is "agent" agent_id "agent.credential.rotate" key r = true
      ∧ ir_state r = IR_PENDING ∧ ir_updated_at r + pending_window ≤ now
      ∧ r' = record_with IR_FAILED (ir_response_status r) (ir_response_body r) now (ir_expires_at r) r)
    (idempotency_records d) (idempotency_records d');
  sw_rotations : Forall2 (λ r r', r' = r ∨ cr_agent_id r = agent_id ∧ cr_state r = RS_PENDING ∧ cr_expires_at r ≤ now
      ∧ r' = rotation_to RS_EXPIRED (cr_activated_at r) r) (rotations d) (rotations d');
  sw_credentials : Forall2 (λ c c', c' = c ∨ ac_state c = CS_PENDING ∧ c' = credential_expired now c
      ∧ ∃ r, r ∈ rotations d ∧ cr_agent_id r = agent_id ∧ cr_state r = RS_PENDING ∧ cr_expires_at r ≤ now
           ∧ cr_pending_credential_id r = ac_id c) (agent_credentials d) (agent_credentials d');
}.
Lemma unchanged {A} (Q : A → A → Prop) (l : list A) : Forall2 (λ x x', x' = x ∨ Q x x') l l.
Proof. induction l; constructor; auto. Qed.

Lemma expire_pending_sweeps now agent_id c u c' :
  expire_pending now agent_id c = (Ok u, c') → in_tx c = true →
  working c' = put_rotations (rotations (working c')) (put_credentials (agent_credentials (working c')) (working c))
  ∧ Forall2 (λ r r', r' = r ∨ cr_agent_id r = agent_id ∧ cr_state r = RS_PENDING ∧ cr_expires_at r ≤ now
      ∧ r' = rotation_to RS_EXPIRED (cr_activated_at r) r) (rotations (working c)) (rotations (working c'))
  ∧ Forall2 (λ x x', x' = x ∨ ac_state x = CS_PENDING ∧ x' = credential_expired now x
      ∧ ∃ r, r ∈ rotations (working c) ∧ cr_agent_id r = agent_id ∧ cr_state r = RS_PENDING ∧ cr_expires_at r ≤ now
           ∧ cr_pending_credential_id r = ac_id x) (agent_credentials (working c)) (agent_credentials (working c')).
Proof.
  intros E Ht. unfold expire_pending in E. next E. apply query_Ok in E1 as [-> ->].
  assert (∀ w : AgentDb, w = put_rotations (rotations w) (put_credentials (agent_credentials w) w)) as Hsame by by intros [].
  destruct (select_one _ (rotations _)) as [r|] eqn:Er; [|injection E as _ <-; split_and!; [apply Hsame|apply unchanged..]].
  destruct (Z.ltb_spec now (cr_expires_at r)); [injection E as _ <-; split_and!; [apply Hsame|apply unchanged..]|].
  apply select_one_Some in Er as [Hr [Hag%String.eqb_eq Hst%bool_decide_eq_true_1]%andb_true_iff].
  next E. apply query_Ok in E1 as [-> ->]. next E. apply store_table_Ok in E1 as [Hv ->]; [|done].
  cbn [working] in *. unfold rotations_valid in Hv. bool_simp.
  assert (Forall2 (λ r r', r' = r ∨ cr_agent_id r = agent_id ∧ cr_state r = RS_PENDING ∧ cr_expires_at r ≤ now
      ∧ r' = rotation_to RS_EXPIRED (cr_activated_at r) r) (rotations (working c))
      (update_rows (rotation_with (cr_id r)) (λ r, rotation_to RS_EXPIRED (cr_activated_at r) r) (rotations (working c)))) as Hrot.
  { eapply Forall2_impl; [by apply (updated_one cr_id)|]. intros x x' [->|[-> ->]]; [by left|by right]. }
  destruct (select_one _ (agent_credentials _)) as [p|] eqn:Ep; [|injection E as _ <-; split_and!; [done|exact Hrot|apply unchanged]].
  destruct (is_state CS_PENDING p) eqn:Eps; [|injection E as _ <-; split_and!; [done|exact Hrot|apply unchanged]].
  apply store_table_Ok in E as [Hc ->]; [|done]. split_and!; [done|exact Hrot|]. cbn [working].
  apply select_one_Some in Ep as [Hp Hid%String.eqb_eq]. apply bool_decide_eq_true_1 in Eps.
  unfold credentials_valid in Hc. bool_simp. eapply Forall2_impl; [by apply (updated_one ac_id)|].
  intros x x' [->|[-> ->]]; [by left|right]. split_and!; [done|done|]. by exists r.
Qed.
Lemma begin_sweeps d now rid agent_id key fp r c' :
  begin now rid "agent" agent_id "agent.credential.rotate" key fp true (Conn d d true) = (Err r, c') →
  committed c' = d ∧ in_tx c' = true ∧ working c' = put_idempotency (idempotency_records (working c')) d
  ∧ Forall2 (λ r r', r' = r ∨ scope_is "agent" agent_id "agent.credential.rotate" key r = true
      ∧ ir_state r = IR_PENDING ∧ ir_updated_at r + pending_window ≤ now
      ∧ r' = record_with IR_FAILED (ir_response_status r) (ir_response_body r) now (ir_expires_at r) r)
    (idempotency_records d) (idempotency_records (working c')).
Proof.
  intros E. assert (d = put_idempotency (idempotency_records d) d) as Hsame by by destruct d.
  pose proof (opened_begin d now rid "agent" agent_id "agent.credential.rotate" key fp true (Conn d d true) (conj eq_refl eq_refl)) as [Hc Ht].
  rewrite E in Hc, Ht. split; [exact Hc|]. split; [exact Ht|]. clear Hc Ht.
  assert (∀ c, c = Conn d d true → working c = put_idempotency (idempotency_records (working c)) d ∧
    Forall2 (λ r r', r' = r ∨ scope_is "agent" agent_id "agent.credential.rotate" key r = true
      ∧ ir_state r = IR_PENDING ∧ ir_updated_at r + pending_window ≤ now
      ∧ r' = record_with IR_FAILED (ir_response_status r) (ir_response_body r) now (ir_expires_at r) r)
    (idempotency_records d) (idempotency_records (working c))) as Hnone.
  { intros c ->. split; [exact Hsame|apply unchanged]. }
  unfold begin, repo_idempotency in E. apply SE_bind_Err in E as [[=]|(found & c0 & [-> ->]%query_Ok & E)]. cbn [working] in E.
  destruct (select_one _ (idempotency_records d)) as [record|] eqn:Es.
  2:{ apply SE_bind_Err in E as [E|(? & ? & _ & [=])]. apply Hnone. by apply store_table_Err in E. }
  apply select_one_Some in Es as [Hin Hscope].
  apply SE_bind_Err in E as [E|(? & ? & [_ ->]%raise_if_Ok & E)]; [apply Hnone; by apply raise_if_Err in E|].
  apply SE_bind_Err in E as [E|(? & c1 & E1 & E)].
  { apply Hnone. destruct (bool_decide _); [|done]. destruct (_ <=? now); [by apply store_table_Err in E|by injection E]. }
  assert (c' = c1) as ->.
  { apply SE_bind_Err in E as [[=]|(replay & ? & [-> ->]%query_Ok & E)]. destruct (select_one _ _) as [stored|]; [|by injection E].
    apply SE_bind_Err in E as [E|(? & ? & [_ ->]%raise_if_Ok & E)]; [by apply raise_if_Err in E|].
    destruct (decrypt _ _ _); [done|]. by injection E. }
  destruct (bool_decide_reflect (ir_state record = IR_PENDING)) as [Hst|]; [|apply Hnone; by injection E1].
  destruct (Z.leb_spec (ir_updated_at record + pending_window) now) as [Hold|]; [|done].
  apply store_table_Ok in E1 as [Hv ->]; [|done]. cbn [working] in *. split; [done|]. unfold idempotency_valid in Hv. bool_simp.
  eapply Forall2_impl; [by apply (updated_one ir_id)|]. intros y y' [->|[-> ->]]; [by left|by right].
Qed.

(** The creation of a rotation that fails. *)
Lemma create_rotation_Err now f agent_id active schema key d e d' :
  create_rotation py_str settings now f agent_id active schema key d = (Err e, d') →
  d' = d ∨ e = SecretReplayExpiredError ∧ swept now agent_id key d d'.
Proof.
  unfold create_rotation, with_session. destruct ((_ : SE _ _) (Conn d d true)) as [r c9] eqn:E. intros [= -> <-].
  apply SE_bind_Err in E as [E|(start & c1 & E1 & E)].
  - unfold catch in E. destruct (begin _ _ _ _ _ _ _ _ _) as [[x|e1] c1] eqn:Eb; [done|].
    apply begin_sweeps in Eb as (Hc & Ht & Hw & Hrec). unfold on_replay_expired in E.
    destruct (bool_decide_reflect (e1 = SecretReplayExpiredError)) as [->|]; [|left; by injection E as _ <-].
    apply SE_bind_Err in E as [E|(u & c2 & E1 & E)].
    { left. assert (preserves (opened d) (expire_pending now agent_id)) as Hp.
      { unfold expire_pending, repo_pending_rotation, repo_credential, write_rotations, write_credentials, store_table. opened_tac. }
      specialize (Hp c1 (conj Hc Ht)). rewrite E in Hp. apply Hp. }
    apply SE_bind_Err in E as [[=]|(? & c3 & [= _ <-] & [= <- <-])]. right. split; [done|].
    apply expire_pending_sweeps in E1 as (Hw2 & Hrot & Hcred); [|done]. cbn [committed].
    rewrite Hw in Hrot, Hcred. cbn in Hrot, Hcred. rewrite Hw in Hw2.
    assert (idempotency_records (working c2) = idempotency_records (working c1)) as Hi by (rewrite Hw2; reflexivity).
    constructor; [|rewrite Hi; exact Hrec|exact Hrot|exact Hcred]. rewrite Hi. etransitivity; [exact Hw2|reflexivity].
  - left. apply catch_on_replay_expired in E1.
    pose proof (opened_begin d now (fresh_record f) "agent" agent_id "agent.credential.rotate" key
      (fingerprint (JObj [("schema_version", JStr schema)])) true (Conn d d true) (conj eq_refl eq_refl)) as Hop.
    rewrite E1 in Hop. match type of E with ?m c1 = _ => assert (commits_last m) as Hlast end; [|exact (Hlast d c1 e c9 Hop E)].
    unfold expire_pending, repo_pending_rotation, repo_credential, repo_agent, highest_version, complete_secret, audit_agent.
    commits_tac.
Qed.

(** C36: a refused request changes nothing: when creating or revoking an
    enrollment token, registering, creating or activating a rotation, or revoking a
    credential or an agent fails, at whatever point, the database is the one
    before the request.  The one exception is the creation of a rotation whose
    one-time answer has expired: it is refused for that reason, and the database
    then differs in nothing but what had expired: the record of the key, the
    agent's pending rotation and its credential. *)
Theorem refused_requests_roll_back now f d e d' :
  (∀ rq actor, create_token py_str settings now f rq actor d = (Err e, d') → d' = d)
  ∧ (∀ id actor, revoke_token py_str now id actor d = (Err e, d') → d' = d)
  ∧ (∀ rg, register py_str settings validate_contract now f rg d = (Err e, d') → d' = d)
  ∧ (∀ agent active schema key,
      create_rotation py_str settings now f agent active schema key d = (Err e, d') →
      d' = d ∨ e = SecretReplayExpiredError ∧ swept now agent key d d')
  ∧ (∀ agent supplied rotation schema key,
      activate_rotation py_str settings now f agent supplied rotation schema key d = (Err e, d') → d' = d)
  ∧ (∀ agent id actor, revoke_credential py_str now agent id actor d = (Err e, d') → d' = d)
  ∧ (∀ agent actor, revoke_agent py_str now agent actor d = (Err e, d') → d' = d).
Proof.
  split_and!; [intros ??; follow_request..|intros ?; follow_request|intros ????; apply create_rotation_Err
    |intros ?????; follow_request|intros ???; follow_request|intros ??; follow_request].
Qed.
End Refused.

(** ** Enrollment tokens *)

Section SingleUse.
Context `{Sha256} `{SecretReplayCipher} `{Hmac} `{WideAlnum} (py_str : json → string)
  (settings : Settings) (validate_contract : string → json → bool).

(** A lookup by identifier after the row was rewritten. *)
Lemma token_found_updated id (t : EnrollmentToken) f ts :
  (∀ x, et_id (f x) = et_id x) →
  select_one (λ t, same_text (et_id t) id) ts = Some t →
  select_one (λ t, same_text (et_id t) id) (update_rows (token_with (et_id t)) f ts) = Some (f t).
Proof.
  intros Hf Es. rewrite select_one_updated by (intros; by rewrite Hf). rewrite Es. simpl.
  unfold token_with, same_text. by rewrite String.eqb_refl.
Qed.

Lemma presented_token_Ok text c t c' :
  presented_token settings text c = (Ok t, c') →
  c' = c ∧ ∃ p, parse_machine_secret text "wto_enr_1" = Ok p
    ∧ select_one (λ t, same_text (et_id t) (locator p)) (enrollment_tokens (working c)) = Some t
    ∧ verify_secret (enrollment_token_hmac_key settings) (secret p) (et_token_digest t) = Ok true.
Proof.
  unfold presented_token. intros E. next E. apply lift_Ok in E1 as [E1 ->].
  destruct (parse_machine_secret text _) as [p|] eqn:Ep; [|done]. injection E1 as <-.
  next E. apply query_Ok in E1 as [-> ->].
  destruct (select_one _ _) as [t0|] eqn:Es; [|done].
  next E. apply lift_Ok in E1 as [Hv ->]. next E. apply raise_if_Ok in E1 as [Hb ->].
  injection E as <- <-. split; [done|]. exists p. split_and!; [done|done|].
  by apply negb_false_iff in Hb as ->.
Qed.

(** Creating the agent and its credential leaves the tokens alone. *)
Lemma enrolled_agent_Ok f rg t c ids c' :
  enrolled_agent f rg t c = (Ok ids, c') → in_tx c = true →
  in_tx c' = true ∧ enrollment_tokens (working c') = enrollment_tokens (working c)
  ∧ idempotency_records (working c') = idempotency_records (working c).
Proof.
  unfold enrolled_agent. intros E Ht. destruct (et_scope t).
  - next E. apply query_Ok in E1 as [-> ->]. next E. apply raise_if_Ok in E1 as [_ ->].
    next E. unfold write_devices in E1. apply store_table_Ok in E1 as [_ ->]; [|done]. next E.
    apply store_table_Ok in E1 as [_ ->]; [|done]. by injection E as _ <-.
  - destruct (et_bound_agent_id t); [|done]. next E. apply query_Ok in E1 as [-> ->].
    destruct (select_one _ (agents _)) as [ag|]; [|done]. next E.
    apply store_table_Ok in E1 as [_ ->]; [|done].
    destruct (ag_device_id ag); [|done]. by injection E as _ <-.
Qed.
Lemma issue_credential_Ok now f agent_id c r c' :
  issue_credential settings now f agent_id c = (Ok r, c') → in_tx c = true →
  in_tx c' = true ∧ enrollment_tokens (working c') = enrollment_tokens (working c)
  ∧ idempotency_records (working c') = idempotency_records (working c).
Proof.
  unfold issue_credential. intros E Ht. next E. apply query_Ok in E1 as [-> ->]. next E.
  assert (in_tx c0 = true ∧ enrollment_tokens (working c0) = enrollment_tokens (working c)
    ∧ idempotency_records (working c0) = idempotency_records (working c)) as (H1' & H2' & H3').
  { destruct (select_one _ (agent_credentials _)); [|by injection E1 as _ <-].
    by apply store_table_Ok in E1 as [_ ->]. }
  clear E1. next E. apply query_Ok in E1 as [-> ->]. next E. apply lift_Ok in E1 as [_ ->].
  next E. apply store_table_Ok in E1 as [_ ->]; [|done]. injection E as _ <-. done.
Qed.

(** A first registration consumes one use of its token. *)
Lemma register_consumes now f rg d body d' p t :
  register py_str settings validate_contract now f rg d = (Ok body, d') →
  parse_machine_secret (rg_enrollment_token rg) "wto_enr_1" = Ok p →
  select_one (λ t, same_text (et_id t) (locator p)) (enrollment_tokens d) = Some t →
  select_one (scope_is "enrollment_token" (et_id t) ("agent.register:" +:+ rg_installation_id rg)
    (rg_idempotency_key rg)) (idempotency_records d) = None →
  spent now t = false
  ∧ select_one (λ t, same_text (et_id t) (locator p)) (enrollment_tokens d')
      = Some (token_consumed now t).
Proof.
  intros E Hp Ht Hs. unfold register in E. apply with_session_Ok in E as (c9 & E & <-).
  next E. apply raise_if_Ok in E1 as [_ ->]. next E. apply raise_if_Ok in E1 as [_ ->].
  next E. apply presented_token_Ok in E1 as (-> & p' & Hp' & Ht' & _). simpl in Ht'.
  rewrite Hp in Hp'. injection Hp' as <-. rewrite Ht in Ht'. injection Ht' as <-.
  next E. apply begin_Ok in E1; [|done].
  destruct E1 as [(Hnew & _ & Hrec & _ & ->)|(_ & Hs' & _)]; [|simpl in Hs'; congruence].
  rewrite Hnew in E. cbn [negb] in E. next E. apply raise_if_Ok in E1 as [Hsp ->].
  next E. apply raise_if_Ok in E1 as [_ ->].
  apply SE_bind_Ok in E as ([device_id agent_id] & c1 & E1 & E).
  apply enrolled_agent_Ok in E1 as (Htx & Htok & _); [|done]. simpl in Htok.
  apply SE_bind_Ok in E as ([version expires] & c2 & E1 & E).
  apply issue_credential_Ok in E1 as (Htx' & Htok' & _); [|done].
  next E. apply store_table_Ok in E1 as [_ ->]; [|done]. next E.
  unfold complete_secret in E1. next E1. apply store_table_Ok in E0 as [_ ->]; [|done].
  apply store_table_Ok in E1 as [_ ->]; [|done]. next E.
  apply audit_agent_Ok in E1 as [logs ->]; [|done]. next E. injection E1 as _ <-.
  injection E as _ <-. simpl. rewrite Htok', Htok. split; [done|].
  by apply token_found_updated.
Qed.

(** C31: an enrollment token enrolls once: after a registration with it, any
    other registration that presents it (another installation or another
    key) is refused and changes nothing. *)
Theorem enrollment_single_use now f rg d body d' p t :
  register py_str settings validate_contract now f rg d = (Ok body, d') →
  parse_machine_secret (rg_enrollment_token rg) "wto_enr_1" = Ok p →
  select_one (λ t, same_text (et_id t) (locator p)) (enrollment_tokens d) = Some t →
  et_max_uses t = 1 → 0 ≤ et_uses_consumed t →
  select_one (scope_is "enrollment_token" (et_id t) ("agent.register:" +:+ rg_installation_id rg)
    (rg_idempotency_key rg)) (idempotency_records d) = None →
  ∀ now' f' rg', rg_enrollment_token rg' = rg_enrollment_token rg →
    select_one (scope_is "enrollment_token" (et_id t) ("agent.register:" +:+ rg_installation_id rg')
      (rg_idempotency_key rg')) (idempotency_records d') = None →
    ∃ e, register py_str settings validate_contract now' f' rg' d' = (Err e, d').
Proof.
  intros E Hp Ht Hm Hu Hs now' f' rg' Hsame Hs'.
  eapply register_consumes in E as [_ Ht']; [|done..].
  destruct (register _ _ _ now' f' rg' d') as [[b|e] d''] eqn:E'.
  - exfalso. rewrite <-Hsame in Hp. eapply register_consumes in E' as [Hsp _]; [|done..].
    unfold spent in Hsp. simpl in Hsp. bool_simp. lia.
  - exists e. f_equal. by eapply register_Err.
Qed.
End SingleUse.

(** ** Concrete runs *)

Local Abbreviation rotate_example now key d :=
  (create_rotation no_str example_settings now (fresh_values "1") "agent" example_locator "1.0.0" key d).
Local Abbreviation activate_example now key d :=
  (activate_rotation no_str example_settings now (fresh_values "2") "agent" second_locator "rot1"
    "1.0.0" key d).
Definition rotated_db : AgentDb := (rotate_example 0 "k1" agent_db).2.

Lemma rotated_keys : ir_idempotency_key <$> idempotency_records rotated_db = ["k1"].
Proof. vm_compute. reflexivity. Qed.
Lemma rotated_owners :
  (λ c, (ac_id c, ac_agent_id c)) <$> agent_credentials rotated_db
  = [(example_locator, "agent"); (second_locator, "agent")].
Proof. vm_compute. reflexivity. Qed.
Lemma activate_example_Ok : is_ok (activate_example 1000 "k2" rotated_db).1 = true.
Proof. vm_compute. reflexivity. Qed.

Lemma activation_swaps_credentials_witness :
  ∃ r new, r ∈ rotations rotated_db ∧ cr_id r = "rot1" ∧ cr_state r = RS_PENDING
    ∧ (∀ c, c ∈ agent_credentials rotated_db → ac_id c = second_locator → ac_state c = CS_PENDING)
    ∧ new ∈ agent_credentials (activate_example 1000 "k2" rotated_db).2 ∧ ac_id new = second_locator
    ∧ ac_state new = CS_ACTIVE.
Proof.
  pose proof activate_example_Ok as Hok.
  destruct (activate_example 1000 "k2" rotated_db) as [[body|e] d'] eqn:E; [|clear E; discriminate Hok].
  apply (activation_swaps_credentials no_str example_settings) in E
    as [(_ & _ & record & Hin & _ & Hkey)
       |(r & H1 & H2 & _ & _ & H3 & _ & _ & H4 & (new & H5 & H6 & H7 & _) & _)].
  - exfalso. apply (list_elem_of_fmap_2 ir_idempotency_key) in Hin.
    apply andb_true_iff in Hkey as [_ Hkey%String.eqb_eq].
    rewrite rotated_keys, Hkey in Hin. apply list_elem_of_singleton in Hin. discriminate Hin.
  - exists r, new. split; [exact H1|]. split; [exact H2|]. split; [exact H3|]. split; [exact H4|].
    split; [exact H5|]. split; [exact H6|exact H7].
  - intros c Hc _. apply (list_elem_of_fmap_2 (λ c, (ac_id c, ac_agent_id c))) in Hc.
    rewrite rotated_owners in Hc.
    apply elem_of_cons in Hc as [Hc|Hc]; [by injection Hc|].
    apply list_elem_of_singleton in Hc. by injection Hc.
Defined.

Lemma rotation_reply_replays_witness :
  ∃ body d1 d2, rotate_example 0 "k1" agent_db = (Ok body, d1)
    ∧ create_rotation no_str example_settings 5000 (fresh_values "9") "agent" example_locator "1.0.0"
        "k1" d1 = (Ok body, d2) ∧ agent_credentials d2 = agent_credentials d1.
Proof.
  destruct (rotate_example 0 "k1" agent_db) as [[body|e] d1] eqn:E.
  - destruct (rotation_reply_replays no_str example_settings 0 (fresh_values "1") "agent"
      example_locator "1.0.0" "k1" agent_db body d1 E eq_refl 5000 (fresh_values "9") example_locator)
      as (d2 & H1 & H2 & _); [reflexivity|].
    exists body, d1, d2. split; [reflexivity|]. split; [exact H1|exact H2].
  - exfalso. apply (f_equal (λ x, is_ok x.1)) in E. vm_compute in E. discriminate.
Defined.

(** An open token and a registration with it. *)
Definition the_token : EnrollmentToken :=
  MkEnrollmentToken example_locator (digest_of "e") 1 AGENT_ENROLL 1 0 [] None None 0 (minutes 10)
    None None None None.
Definition token_db : AgentDb := MkAgentDb [] [] [the_token] [] [] [] [] [] [] [].
Definition registration (key install : string) : RegistrationRequest :=
  {| rg_idempotency_key := key;
     rg_enrollment_token := new_enrollment_token example_locator example_secret;
     rg_installation_id := install; rg_display_name := "desk"; rg_platform := "linux";
     rg_platform_version := "6"; rg_agent_version := "1"; rg_protocol_min_version := "1.0.0";
     rg_protocol_max_version := "1.0.0"; rg_agent_reported_at := 0 |}.
Local Abbreviation register_example key install sfx d :=
  (register no_str example_settings valid_contract 0 (fresh_values sfx) (registration key install) d).

Lemma register_example_Ok :
  is_ok (register_example "k1" "i1" "1" token_db).1 = true
  ∧ select_one (scope_is "enrollment_token" example_locator "agent.register:i2" "k2")
      (idempotency_records (register_example "k1" "i1" "1" token_db).2) = None.
Proof. vm_compute. done. Qed.

Lemma enrollment_single_use_witness :
  ∃ e, register_example "k2" "i2" "2" (register_example "k1" "i1" "1" token_db).2
       = (Err e, (register_example "k1" "i1" "1" token_db).2).
Proof.
  destruct register_example_Ok as [Hok Hnone].
  destruct (register_example "k1" "i1" "1" token_db) as [[body|e] d'] eqn:E; [|discriminate Hok].
  exact (enrollment_single_use no_str example_settings valid_contract 0 (fresh_values "1")
    (registration "k1" "i1") token_db body d'
    {| locator := example_locator; secret := example_secret |} the_token E eq_refl eq_refl eq_refl
    (Z.le_refl 0) eq_refl 0 (fresh_values "2") (registration "k2" "i2") eq_refl Hnone).
Defined.

(** The key of a rotation is used again after its answer has expired. *)
Local Abbreviation late_rotation := (rotate_example (minutes 20) "k1" rotated_db).
Lemma late_rotation_expires :
  late_rotation.1 = Err SecretReplayExpiredError ∧ map cr_state (rotations late_rotation.2) = [RS_EXPIRED]
  ∧ map cr_state (rotations rotated_db) = [RS_PENDING].
Proof. vm_compute. done. Qed.
Lemma refused_requests_roll_back_witness :
  revoke_credential no_str 0 "agent" "nobody" "admin" agent_db = (Err ResourceNotFoundError, agent_db)
  ∧ late_rotation.2 ≠ rotated_db ∧ swept (minutes 20) "agent" "k1" rotated_db late_rotation.2.
Proof.
  split.
  - destruct (revoke_credential no_str 0 "agent" "nobody" "admin" agent_db) as [r d'] eqn:E.
    assert (r = Err ResourceNotFoundError) as ->
      by (change r with (fst (r, d')); rewrite <-E; reflexivity).
    f_equal.
    destruct (refused_requests_roll_back no_str example_settings valid_contract 0 (fresh_values "1")
      agent_db ResourceNotFoundError d') as (_ & _ & _ & _ & _ & Hrevoke & _).
    exact (Hrevoke _ _ _ E).
  - destruct late_rotation_expires as (He & Hnew & Hold).
    assert (late_rotation.2 ≠ rotated_db) as Hne by (intros Hd; rewrite Hd, Hold in Hnew; discriminate Hnew).
    split; [exact Hne|]. destruct late_rotation as [r d'] eqn:E. cbn [fst snd] in *. subst r.
    destruct (refused_requests_roll_back no_str example_settings valid_contract (minutes 20) (fresh_values "1")
      rotated_db SecretReplayExpiredError d') as (_ & _ & _ & Hcreate & _).
    destruct (Hcreate _ _ _ _ E) as [Hd|[_ Hs]]; [destruct (Hne Hd)|exact Hs].
Defined.
