(* ===== verification/IdentityData.v ===== *)
(** * The backend's human identities

    The user half of [domain/models.py]: users, roles, permissions, sessions and
    refresh tokens with the constraints PostgreSQL enforces on them, and the
    queries of [repositories/identity.py].  The conventions are those of
    [BackendData]; the session of one request is the one defined there. *)

From Stdlib Require Import Ascii.
From S2P Require Export MachineSecret Idempotency.

(** ** Rows *)

Record User := MkUser {
  us_id : string; us_username : string; us_email : option string; us_password_hash : string;
  us_is_active : bool; us_must_change_password : bool; us_auth_version : Z;
  us_disabled_at : option Z; us_last_login_at : option Z;
}.

Record Role := MkRole {
  ro_id : string; ro_key : string; ro_display_name : string; ro_description : string;
}.

Record Permission := MkPermission { pe_id : string; pe_key : string; pe_description : string }.

Record UserRole := MkUserRole {
  ur_user_id : string; ur_role_id : string; ur_assigned_by : option string;
}.

Record RolePermission := MkRolePermission { rp_role_id : string; rp_permission_id : string }.

Record AuthSession := MkSession {
  se_id : string; se_user_id : string; se_auth_version : Z; se_issued_at : Z;
  se_absolute_expires_at : Z; se_inactivity_expires_at : Z; se_last_used_at : option Z;
  se_revoked_at : option Z; se_revocation_reason : option string;
  se_client_metadata : list (string * json);
}.

Record RefreshToken := MkRefresh {
  rt_id : string; rt_session_id : string; rt_token_digest : string;
  rt_parent_token_id : option string; rt_replacement_token_id : option string;
  rt_issued_at : Z; rt_expires_at : Z; rt_consumed_at : option Z; rt_revoked_at : option Z;
  rt_revocation_reason : option string;
}.

Record Capability := MkCapabilityRow { cb_id : string; cb_key : string; cb_version : string }.

Record IdentityDb := MkIdentityDb {
  users : list User;
  roles : list Role;
  permission_rows : list Permission;
  user_roles : list UserRole;
  role_permissions : list RolePermission;
  sessions : list AuthSession;
  refresh_tokens : list RefreshToken;
  capabilities : list Capability;
  identity_audit : list AuditRecord;
}.

Definition empty_identity : IdentityDb := MkIdentityDb [] [] [] [] [] [] [] [] [].

Definition put_users v d := MkIdentityDb v (roles d) (permission_rows d) (user_roles d)
  (role_permissions d) (sessions d) (refresh_tokens d) (capabilities d) (identity_audit d).
Definition put_roles v d := MkIdentityDb (users d) v (permission_rows d) (user_roles d)
  (role_permissions d) (sessions d) (refresh_tokens d) (capabilities d) (identity_audit d).
Definition put_permissions v d := MkIdentityDb (users d) (roles d) v (user_roles d)
  (role_permissions d) (sessions d) (refresh_tokens d) (capabilities d) (identity_audit d).
Definition put_user_roles v d := MkIdentityDb (users d) (roles d) (permission_rows d) v
  (role_permissions d) (sessions d) (refresh_tokens d) (capabilities d) (identity_audit d).
Definition put_role_permissions v d := MkIdentityDb (users d) (roles d) (permission_rows d)
  (user_roles d) v (sessions d) (refresh_tokens d) (capabilities d) (identity_audit d).
Definition put_sessions v d := MkIdentityDb (users d) (roles d) (permission_rows d) (user_roles d)
  (role_permissions d) v (refresh_tokens d) (capabilities d) (identity_audit d).
Definition put_refresh_tokens v d := MkIdentityDb (users d) (roles d) (permission_rows d)
  (user_roles d) (role_permissions d) (sessions d) v (capabilities d) (identity_audit d).
Definition put_capabilities v d := MkIdentityDb (users d) (roles d) (permission_rows d)
  (user_roles d) (role_permissions d) (sessions d) (refresh_tokens d) v (identity_audit d).
Definition put_identity_audit v d := MkIdentityDb (users d) (roles d) (permission_rows d)
  (user_roles d) (role_permissions d) (sessions d) (refresh_tokens d) (capabilities d) v.

(** ** Constraints *)

Definition is_lower_alpha (c : ascii) : bool :=
  let n := N_of_ascii c in ((97 <=? n) && (n <=? 122))%N.
Definition is_username_head (c : ascii) : bool := is_lower_alpha c || is_digit c.
Definition is_username_tail (c : ascii) : bool :=
  is_username_head c || Ascii.eqb c "."%char || Ascii.eqb c "_"%char || Ascii.eqb c "-"%char.
Definition is_key_tail (c : ascii) : bool :=
  is_username_head c || Ascii.eqb c "_"%char.

(** [^head tail{2,63}$] *)
Definition short_name (head tail : ascii → bool) (s : string) : bool :=
  match s with
  | EmptyString => false
  | String c s' => head c && all_chars tail s' && (2 <=? String.length s')%nat
                   && (String.length s' <=? 63)%nat
  end.

Definition both_present (a b : option string) : bool :=
  match a, b with Some x, Some y => same_text x y | _, _ => false end.

(** Primary key, unique user name and e-mail, [username_format] and
    [password_hash_length]. *)
Definition users_valid (t : list User) : bool :=
  all_distinct (λ a b, same_text (us_id a) (us_id b)) t
  && all_distinct (λ a b, same_text (us_username a) (us_username b)) t
  && all_distinct (λ a b, both_present (us_email a) (us_email b)) t
  && forallb (λ u, short_name is_username_head is_username_tail (us_username u)
                   && (length (chars (us_password_hash u)) <=? 512)%nat) t.
Definition roles_valid (t : list Role) : bool :=
  all_distinct (λ a b, same_text (ro_id a) (ro_id b)) t
  && all_distinct (λ a b, same_text (ro_key a) (ro_key b)) t
  && forallb (λ r, short_name is_lower_alpha is_key_tail (ro_key r)) t.
Definition permissions_valid (t : list Permission) : bool :=
  all_distinct (λ a b, same_text (pe_id a) (pe_id b)) t
  && all_distinct (λ a b, same_text (pe_key a) (pe_key b)) t.
Definition user_roles_valid (t : list UserRole) : bool :=
  all_distinct (λ a b, same_text (ur_user_id a) (ur_user_id b)
                       && same_text (ur_role_id a) (ur_role_id b)) t.
Definition role_permissions_valid (t : list RolePermission) : bool :=
  all_distinct (λ a b, same_text (rp_role_id a) (rp_role_id b)
                       && same_text (rp_permission_id a) (rp_permission_id b)) t.
(** [absolute_expiry_after_issue] and [inactivity_before_absolute] *)
Definition sessions_valid (t : list AuthSession) : bool :=
  all_distinct (λ a b, same_text (se_id a) (se_id b)) t
  && forallb (λ s, (se_issued_at s <? se_absolute_expires_at s)
                   && (se_inactivity_expires_at s <=? se_absolute_expires_at s)) t.
Definition refresh_tokens_valid (t : list RefreshToken) : bool :=
  all_distinct (λ a b, same_text (rt_id a) (rt_id b)) t
  && all_distinct (λ a b, same_text (rt_token_digest a) (rt_token_digest b)) t
  && all_distinct (λ a b, both_present (rt_parent_token_id a) (rt_parent_token_id b)) t
  && all_distinct (λ a b, both_present (rt_replacement_token_id a) (rt_replacement_token_id b)) t
  && forallb (λ r, rt_issued_at r <? rt_expires_at r) t.

Definition write_users (f : list User → list User) : SE (conn IdentityDb) unit :=
  store_table put_users users_valid "users" (λ d, f (users d)).
Definition write_roles (f : list Role → list Role) : SE (conn IdentityDb) unit :=
  store_table put_roles roles_valid "roles" (λ d, f (roles d)).
Definition write_permissions (f : list Permission → list Permission) : SE (conn IdentityDb) unit :=
  store_table put_permissions permissions_valid "permissions" (λ d, f (permission_rows d)).
Definition write_user_roles (f : list UserRole → list UserRole) : SE (conn IdentityDb) unit :=
  store_table put_user_roles user_roles_valid "user_roles" (λ d, f (user_roles d)).
Definition write_role_permissions (f : list RolePermission → list RolePermission)
    : SE (conn IdentityDb) unit :=
  store_table put_role_permissions role_permissions_valid "role_permissions"
    (λ d, f (role_permissions d)).
Definition write_sessions (f : list AuthSession → list AuthSession) : SE (conn IdentityDb) unit :=
  store_table put_sessions sessions_valid "sessions" (λ d, f (sessions d)).
Definition write_refresh_tokens (f : list RefreshToken → list RefreshToken)
    : SE (conn IdentityDb) unit :=
  store_table put_refresh_tokens refresh_tokens_valid "refresh_tokens" (λ d, f (refresh_tokens d)).

(** ** Queries *)

Definition user_with (id : string) (u : User) : bool := same_text (us_id u) id.
Definition session_with (id : string) (s : AuthSession) : bool := same_text (se_id s) id.
Definition refresh_with (id : string) (r : RefreshToken) : bool := same_text (rt_id r) id.

Definition user_by_username (username : string) : SE (conn IdentityDb) (option User) :=
  query (λ d, select_one (λ u, same_text (us_username u) username) (users d)).
Definition user_by_id (user_id : string) : SE (conn IdentityDb) (option User) :=
  query (λ d, select_one (user_with user_id) (users d)).
Definition role_by_key (key : string) : SE (conn IdentityDb) (option Role) :=
  query (λ d, select_one (λ r, same_text (ro_key r) key) (roles d)).
Definition session_by_id (session_id : string) : SE (conn IdentityDb) (option AuthSession) :=
  query (λ d, select_one (session_with session_id) (sessions d)).
Definition refresh_by_digest (token_digest : string) : SE (conn IdentityDb) (option RefreshToken) :=
  query (λ d, select_one (λ r, same_text (rt_token_digest r) token_digest) (refresh_tokens d)).

(** [user.roles] and [role.permissions] through their association tables. *)
Definition roles_of (user_id : string) (d : IdentityDb) : list Role :=
  select (λ r, existsb (λ ur, same_text (ur_user_id ur) user_id && same_text (ur_role_id ur) (ro_id r))
                 (user_roles d)) (roles d).
Definition permissions_of (role_id : string) (d : IdentityDb) : list Permission :=
  select (λ p, existsb (λ rp, same_text (rp_role_id rp) role_id
                              && same_text (rp_permission_id rp) (pe_id p)) (role_permissions d))
    (permission_rows d).

(** [write_audit] on this half of the schema. *)
Definition audit_identity (py_str : json → string) (now : Z) (actor_type : string)
    (actor_id : option string) (action resource_type : string) (resource_id : option string)
    (outcome : string) (metadata : option (list (string * json))) : SE (conn IdentityDb) unit :=
  exec (λ d, Ok (tt, put_identity_audit (identity_audit d ++
    [audit_event py_str now actor_type actor_id None action resource_type resource_id outcome
       metadata]) d)).
