(* ===== verification/Auth.v ===== *)
(** * Login, sessions and refresh tokens

    [services/auth.py] with what it uses of [security/passwords.py] and
    [security/tokens.py].  A session is a family of refresh tokens: each is
    consumed by the refresh that replaces it, and presenting a consumed one
    revokes the whole family.  Argon2, the signing of access tokens and the
    case mapping of characters outside ASCII are parameters; the clock reading,
    identifiers, salts and random tokens of a call are inputs. *)

From Stdlib Require Import Ascii.
From S2P Require Export IdentityData.

(** Argon2id: an encoded hash, its verification, and whether its cost
    parameters are out of date. *)
Class PasswordHasher := {
  pw_hash : string → string → string;          (** salt, password *)
  pw_verify : string → string → bool;          (** encoded hash, password *)
  pw_needs_rehash : string → bool;
  pw_verify_hash : ∀ salt password, pw_verify (pw_hash salt password) password = true;
}.

(** [jwt.encode] with the signing key and its headers. *)
Class AccessTokens := { sign_access : json → string }.

(** [text.strip().lower()] and [text.lower()] of a text that is not ASCII. *)
Class UnicodeText := { wide_normalize : string → string; wide_lower : string → string }.

(** ** Normalised names *)

Fixpoint lstrip (s : string) : string :=
  match s with
  | String c s' => let n := N_of_ascii c in
                   if (((9 <=? n) && (n <=? 13)) || ((28 <=? n) && (n <=? 32)))%N then lstrip s' else s
  | EmptyString => EmptyString
  end.
Fixpoint reverse (s acc : string) : string :=
  match s with
  | EmptyString => acc
  | String c s' => reverse s' (String c acc)
  end.
Definition strip (s : string) : string :=
  reverse (lstrip (reverse (lstrip s) EmptyString)) EmptyString.

Section Normalize.
Context `{UnicodeText}.
Definition normalize (username : string) : string :=
  if all_chars is_ascii username then lower (strip username) else wide_normalize username.
Definition lower_text (s : string) : string :=
  if all_chars is_ascii s then lower s else wide_lower s.
End Normalize.

(** ** Passwords and tokens *)

Section Passwords.
Context `{PasswordHasher}.

(** [PasswordManager.validate_password] *)
Definition validate_password (password : string) : result unit :=
  if (length (chars password) <? 12)%nat || (1024 <? String.length password)%nat
  then Err (ValueError "password must contain at least 12 characters and at most 1024 UTF-8 bytes")
  else Ok tt.
(** [PasswordManager.hash] *)
Definition hash_password (salt password : string) : result string :=
  validate_password password ;; mret (pw_hash salt password).
(** [PasswordManager.verify] *)
Definition verify_password (salt password encoded : string) : bool * option string :=
  if pw_verify encoded password
  then (true, if pw_needs_rehash encoded then Some (pw_hash salt password) else None)
  else (false, None).
End Passwords.

Record AccessClaims := {
  cl_user_id : string; cl_session_id : string; cl_auth_version : Z; cl_jti : string;
}.

Record TokenSettings := {
  tk_issuer : string; tk_audience : string; tk_ttl_minutes : Z;
  absolute_days : Z; inactivity_days : Z;
}.

(** The random values and the salt one login or refresh draws. *)
Record Drawn := {
  dr_session : string; dr_refresh : string; dr_token : string; dr_jti : string; dr_salt : string;
}.

(** ** Row changes *)

Definition user_password (encoded : string) (u : User) : User :=
  MkUser (us_id u) (us_username u) (us_email u) encoded (us_is_active u)
    (us_must_change_password u) (us_auth_version u) (us_disabled_at u) (us_last_login_at u).
Definition user_logged_in (now : Z) (u : User) : User :=
  MkUser (us_id u) (us_username u) (us_email u) (us_password_hash u) (us_is_active u)
    (us_must_change_password u) (us_auth_version u) (us_disabled_at u) (Some now).
Definition user_bumped (u : User) : User :=
  MkUser (us_id u) (us_username u) (us_email u) (us_password_hash u) (us_is_active u)
    (us_must_change_password u) (us_auth_version u + 1) (us_disabled_at u) (us_last_login_at u).
Definition user_changed_password (encoded : string) (u : User) : User :=
  MkUser (us_id u) (us_username u) (us_email u) encoded (us_is_active u) false
    (us_auth_version u) (us_disabled_at u) (us_last_login_at u).

(** [revoked_at or now] *)
Definition session_revoked (now : Z) (reason : string) (s : AuthSession) : AuthSession :=
  MkSession (se_id s) (se_user_id s) (se_auth_version s) (se_issued_at s) (se_absolute_expires_at s)
    (se_inactivity_expires_at s) (se_last_used_at s) (Some (coalesce (se_revoked_at s) now))
    (Some (coalesce (se_revocation_reason s) reason)) (se_client_metadata s).
Definition session_closed (now : Z) (reason : string) (s : AuthSession) : AuthSession :=
  MkSession (se_id s) (se_user_id s) (se_auth_version s) (se_issued_at s) (se_absolute_expires_at s)
    (se_inactivity_expires_at s) (se_last_used_at s) (Some now) (Some reason) (se_client_metadata s).
Definition session_used (now inactivity : Z) (s : AuthSession) : AuthSession :=
  MkSession (se_id s) (se_user_id s) (se_auth_version s) (se_issued_at s) (se_absolute_expires_at s)
    inactivity (Some now) (se_revoked_at s) (se_revocation_reason s) (se_client_metadata s).
Definition refresh_revoked (now : Z) (reason : string) (r : RefreshToken) : RefreshToken :=
  MkRefresh (rt_id r) (rt_session_id r) (rt_token_digest r) (rt_parent_token_id r)
    (rt_replacement_token_id r) (rt_issued_at r) (rt_expires_at r) (rt_consumed_at r)
    (Some now) (Some reason).
Definition refresh_consumed (now : Z) (r : RefreshToken) : RefreshToken :=
  MkRefresh (rt_id r) (rt_session_id r) (rt_token_digest r) (rt_parent_token_id r)
    (rt_replacement_token_id r) (rt_issued_at r) (rt_expires_at r) (Some now) (rt_revoked_at r)
    (rt_revocation_reason r).
Definition refresh_replaced (by_token : string) (r : RefreshToken) : RefreshToken :=
  MkRefresh (rt_id r) (rt_session_id r) (rt_token_digest r) (rt_parent_token_id r)
    (Some by_token) (rt_issued_at r) (rt_expires_at r) (rt_consumed_at r) (rt_revoked_at r)
    (rt_revocation_reason r).

(** ** The service *)

Section Auth.
Context `{Sha256} `{PasswordHasher} `{AccessTokens} `{UnicodeText}
  (py_str : json → string) (settings : TokenSettings).

(** [TokenManager.issue_access]; the JWT library writes times in seconds. *)
Definition issue_access (now : Z) (jti user_id session_id : string) (auth_version : Z) : string :=
  let second t := JInt (t / 1000000) in
  sign_access (JObj [("iss", JStr (tk_issuer settings)); ("aud", JStr (tk_audience settings));
    ("sub", JStr user_id); ("iat", second now); ("nbf", second now);
    ("exp", second (now + minutes (tk_ttl_minutes settings))); ("jti", JStr jti);
    ("token_type", JStr "access"); ("sid", JStr session_id); ("auth_version", JInt auth_version)]).

Definition refresh_digest (token : string) : string := sha256_hex token.

Definition audit_login (now : Z) (identifier_fingerprint ip_fingerprint : string)
    : SE (conn IdentityDb) unit :=
  audit_identity py_str now "anonymous" None "auth.login" "session" None "failure"
    (Some [("identifier_fingerprint", JStr identifier_fingerprint);
           ("ip_fingerprint", JStr ip_fingerprint)]).

Definition login (now : Z) (w : Drawn) (username password : string)
    (identifier_fingerprint ip_fingerprint : string) (client_metadata : list (string * json))
    : SE IdentityDb (string * string * User) :=
  with_session (
    found ← user_by_username (normalize username);
    match found with
    | None =>
        audit_login now identifier_fingerprint ip_fingerprint ;; session_commit ;;
        raise InvalidCredentialsError
    | Some user =>
        let '(verified, replacement) := verify_password (dr_salt w) password (us_password_hash user) in
        if negb verified || negb (us_is_active user) then
          audit_login now identifier_fingerprint ip_fingerprint ;; session_commit ;;
          raise InvalidCredentialsError
        else
          let changes := λ u, user_logged_in now
            (match replacement with Some h => user_password h u | None => u end) in
          let absolute := now + days (absolute_days settings) in
          let inactivity := Z.min absolute (now + days (inactivity_days settings)) in
          write_sessions (λ t, t ++
            [MkSession (dr_session w) (us_id user) (us_auth_version user) now absolute inactivity
               (Some now) None None client_metadata]) ;;
          write_refresh_tokens (λ t, t ++
            [MkRefresh (dr_refresh w) (dr_session w) (sha256_hex (dr_token w)) None None now inactivity
               None None None]) ;;
          write_users (update_rows (user_with (us_id user)) changes) ;;
          audit_identity py_str now "user" (Some (us_id user)) "auth.login" "session"
            (Some (dr_session w)) "success"
            (Some [("session_id", JStr (dr_session w)); ("ip_fingerprint", JStr ip_fingerprint)]) ;;
          session_commit ;;
          mret (issue_access now (dr_jti w) (us_id user) (dr_session w) (us_auth_version user),
                dr_token w, changes user)
    end).

(** [_revoke_family] *)
Definition revoke_family (now : Z) (session_id reason : string) : SE (conn IdentityDb) unit :=
  write_sessions (update_rows (session_with session_id) (session_revoked now reason)) ;;
  write_refresh_tokens (update_rows
    (λ r, same_text (rt_session_id r) session_id && opt_is_none (rt_revoked_at r))
    (refresh_revoked now reason)).

(** What makes a family unusable at [now]. *)
Definition invalid_family (now : Z) (family : AuthSession) (user : User) : bool :=
  opt_is_some (se_revoked_at family)
  || (se_absolute_expires_at family <=? now)
  || (se_inactivity_expires_at family <=? now)
  || negb (us_is_active user)
  || negb (se_auth_version family =? us_auth_version user).

Definition refresh (now : Z) (w : Drawn) (token : string)
    : SE IdentityDb (string * string * User) :=
  with_session (
    found ← refresh_by_digest (refresh_digest token);
    match found with
    | None => raise InvalidSessionError
    | Some record =>
        owner ← session_by_id (rt_session_id record);
        match owner with
        | None => raise AssertionError
        | Some family =>
            account ← user_by_id (se_user_id family);
            match account with
            | None => raise AssertionError
            | Some user =>
                if opt_is_some (rt_consumed_at record) then
                  revoke_family now (se_id family) "refresh_reuse" ;;
                  audit_identity py_str now "user" (Some (us_id user)) "auth.refresh_reuse" "session"
                    (Some (se_id family)) "denied"
                    (Some [("session_id", JStr (se_id family)); ("reason_code", JStr "refresh_reuse")]) ;;
                  session_commit ;; raise InvalidSessionError
                else if invalid_family now family user || opt_is_some (rt_revoked_at record)
                        || (rt_expires_at record <=? now) then
                  revoke_family now (se_id family) "session_invalid" ;;
                  session_commit ;; raise InvalidSessionError
                else
                  let inactivity := Z.min (se_absolute_expires_at family)
                                          (now + days (inactivity_days settings)) in
                  write_refresh_tokens (λ t,
                    update_rows (refresh_with (rt_id record)) (refresh_consumed now) t ++
                    [MkRefresh (dr_refresh w) (se_id family) (sha256_hex (dr_token w))
                       (Some (rt_id record)) None now inactivity None None None]) ;;
                  write_refresh_tokens (update_rows (refresh_with (rt_id record))
                    (refresh_replaced (dr_refresh w))) ;;
                  write_sessions (update_rows (session_with (se_id family)) (session_used now inactivity)) ;;
                  audit_identity py_str now "user" (Some (us_id user)) "auth.refresh" "session"
                    (Some (se_id family)) "success" (Some [("session_id", JStr (se_id family))]) ;;
                  session_commit ;;
                  mret (issue_access now (dr_jti w) (us_id user) (se_id family) (us_auth_version user),
                        dr_token w, user)
            end
        end
    end).

Definition authenticate_access (now : Z) (claims : AccessClaims) : SE IdentityDb User :=
  with_session (
    account ← user_by_id (cl_user_id claims);
    owner ← session_by_id (cl_session_id claims);
    match account, owner with
    | Some user, Some s =>
        raise_if (negb (same_text (se_user_id s) (cl_user_id claims)) || negb (us_is_active user)
                  || opt_is_some (se_revoked_at s) || (se_absolute_expires_at s <=? now)
                  || (se_inactivity_expires_at s <=? now)
                  || negb (us_auth_version user =? cl_auth_version claims)
                  || negb (se_auth_version s =? cl_auth_version claims)) InvalidSessionError ;;
        mret user
    | _, _ => raise InvalidSessionError
    end).

Definition logout (now : Z) (user_id session_id : string) : SE IdentityDb unit :=
  with_session (
    owner ← session_by_id session_id;
    match owner with
    | Some s =>
        if same_text (se_user_id s) user_id then
          revoke_family now session_id "logout" ;;
          audit_identity py_str now "user" (Some user_id) "auth.logout" "session" (Some session_id)
            "success" (Some [("session_id", JStr session_id)]) ;;
          session_commit
        else mret tt
    | None => mret tt
    end).

(** [update(AuthSession).where(user_id, revoked_at IS NULL)] *)
Definition close_sessions (now : Z) (user_id reason : string) : SE (conn IdentityDb) unit :=
  write_sessions (update_rows
    (λ s, same_text (se_user_id s) user_id && opt_is_none (se_revoked_at s))
    (session_closed now reason)).

(** [logout_all], in the session of its caller *)
Definition logout_all_in (now : Z) (user_id action : string) : SE (conn IdentityDb) unit :=
  locked ← user_by_id user_id;
  match locked with
  | None => raise InvalidSessionError
  | Some user =>
      write_users (update_rows (user_with user_id) user_bumped) ;;
      close_sessions now user_id action ;;
      audit_identity py_str now "user" (Some user_id) action "user" (Some user_id) "success" None ;;
      session_commit
  end.
Definition logout_all (now : Z) (user_id : string) : SE IdentityDb unit :=
  with_session (logout_all_in now user_id "auth.logout_all").

Definition change_password (now : Z) (salt user_id current new : string) : SE IdentityDb unit :=
  with_session (
    locked ← user_by_id user_id;
    match locked with
    | None => raise InvalidSessionError
    | Some user =>
        raise_if (negb (verify_password salt current (us_password_hash user)).1)
          InvalidCredentialsError ;;
        encoded ← lift (hash_password salt new);
        write_users (update_rows (user_with user_id) (user_changed_password encoded)) ;;
        logout_all_in now user_id "auth.password_change"
    end).

(** [permission_keys] and the dependency built by [require_permissions]. *)
Definition permission_keys (user_id : string) (d : IdentityDb) : list string :=
  flat_map (λ r, map pe_key (permissions_of (ro_id r) d)) (roles_of user_id d).
Definition require_permissions (now : Z) (required : list string) (claims : AccessClaims)
    : SE IdentityDb User :=
  user ← authenticate_access now claims;
  held ← get (permission_keys (us_id user));
  raise_if (negb (forallb (λ k, str_in k held) required)) PermissionDeniedError ;;
  mret user.
End Auth.
