(* ===== verification/Rbac.v ===== *)
(** * Roles and the administration of users

    [services/rbac.py], [services/bootstrap.py] and [services/seeds.py].  The
    advisory lock that serialises changes to the administrators is what makes
    one transaction at a time a faithful picture of them. *)

From S2P Require Export Auth.

(** ** Row changes *)

Definition user_disabled (now : Z) (u : User) : User :=
  MkUser (us_id u) (us_username u) (us_email u) (us_password_hash u) false
    (us_must_change_password u) (us_auth_version u + 1) (Some now) (us_last_login_at u).

Definition user_role_is (user_id role_id : string) (ur : UserRole) : bool :=
  same_text (ur_user_id ur) user_id && same_text (ur_role_id ur) role_id.

(** ** Administrators *)

Definition active_user (d : IdentityDb) (id : string) : bool :=
  existsb (λ u, user_with id u && us_is_active u) (users d).
Definition administrator_role (d : IdentityDb) (id : string) : bool :=
  existsb (λ r, same_text (ro_id r) id && same_text (ro_key r) "administrator") (roles d).

(** [_active_administrator_count]: the rows of the association that join an
    active user with the role; identifiers are primary keys, so each row joins
    at most once. *)
Definition active_administrator_count (d : IdentityDb) : Z :=
  Z.of_nat (rowcount (λ ur, active_user d (ur_user_id ur) && administrator_role d (ur_role_id ur))
              (user_roles d)).

(** [_is_administrator] *)
Definition is_administrator (user_id : string) (d : IdentityDb) : bool :=
  existsb (λ r, same_text (ro_key r) "administrator") (roles_of user_id d).

(** ** Users *)

Section Rbac.
Context `{PasswordHasher} `{UnicodeText} (py_str : json → string).

Definition audit_admin (now : Z) (actor_id action user_id : string)
    (metadata : option (list (string * json))) : SE (conn IdentityDb) unit :=
  audit_identity py_str now "user" (Some actor_id) action "user" (Some user_id) "success" metadata.

Definition create_user (now : Z) (fresh_id salt username : string) (email : option string)
    (password actor_id : string) : SE IdentityDb User :=
  with_session (
    let normalized := normalize username in
    found ← user_by_username normalized;
    raise_if (opt_is_some found) ConflictError ;;
    encoded ← lift (hash_password salt password);
    let address := match email with
                   | Some EmptyString | None => None
                   | Some e => Some (lower_text e)
                   end in
    let user := MkUser fresh_id normalized address encoded true true 1 None None in
    write_users (λ t, t ++ [user]) ;;
    audit_admin now actor_id "user.create" fresh_id None ;;
    session_commit ;; mret user).

Definition disable_user (now : Z) (user_id actor_id : string) : SE IdentityDb User :=
  with_session (
    found ← user_by_id user_id;
    match found with
    | None => raise ResourceNotFoundError
    | Some user =>
        administrator ← query (is_administrator user_id);
        count ← query active_administrator_count;
        raise_if (administrator && (count <=? 1)) LastAdministratorError ;;
        write_users (update_rows (user_with user_id) (user_disabled now)) ;;
        close_sessions now user_id "user_disabled" ;;
        audit_admin now actor_id "user.disable" user_id None ;;
        session_commit ;; mret (user_disabled now user)
    end).

Definition assign_role (now : Z) (user_id role_key actor_id : string) : SE IdentityDb unit :=
  with_session (
    account ← user_by_id user_id;
    found ← role_by_key role_key;
    match account, found with
    | Some user, Some role =>
        held ← query (λ d, select_one (user_role_is user_id (ro_id role)) (user_roles d));
        (if opt_is_none held then
           write_user_roles (λ t, t ++ [MkUserRole user_id (ro_id role) (Some actor_id)]) ;;
           audit_admin now actor_id "user.role_assign" user_id
             (Some [("role_key", JStr (ro_key role))])
         else mret tt) ;;
        session_commit
    | _, _ => raise ResourceNotFoundError
    end).

Definition revoke_sessions (now : Z) (user_id actor_id : string) : SE IdentityDb unit :=
  with_session (
    found ← user_by_id user_id;
    match found with
    | None => raise ResourceNotFoundError
    | Some _ =>
        write_users (update_rows (user_with user_id) user_bumped) ;;
        close_sessions now user_id "administrator_revocation" ;;
        audit_admin now actor_id "session.revoke" user_id
          (Some [("reason_code", JStr "administrator_revocation")]) ;;
        session_commit
    end).

Definition remove_role (now : Z) (user_id role_key actor_id : string) : SE IdentityDb unit :=
  with_session (
    account ← user_by_id user_id;
    found ← role_by_key role_key;
    match account, found with
    | Some user, Some role =>
        count ← query active_administrator_count;
        raise_if (String.eqb role_key "administrator" && us_is_active user && (count <=? 1))
          LastAdministratorError ;;
        removed ← query (λ d, rowcount (user_role_is user_id (ro_id role)) (user_roles d));
        write_user_roles (delete_rows (user_role_is user_id (ro_id role))) ;;
        (if (0 <? removed)%nat then
           audit_admin now actor_id "user.role_remove" user_id
             (Some [("role_key", JStr (ro_key role))])
         else mret tt) ;;
        session_commit
    | _, _ => raise ResourceNotFoundError
    end).

(** ** Bootstrap *)

Definition bootstrap_conflict (message : string) : exc := ConflictError.

Definition bootstrap_administrator (now : Z) (fresh_id salt username password : string)
    : SE IdentityDb (User * bool) :=
  with_session (
    let normalized := normalize username in
    found ← role_by_key "administrator";
    match found with
    | None => raise (bootstrap_conflict "RBAC seeds must be applied before bootstrap")
    | Some administrator =>
        existing ← user_by_username normalized;
        match existing with
        | Some user =>
            has_admin ← query (λ d, select_one (user_role_is (us_id user) (ro_id administrator))
                                      (user_roles d));
            if us_is_active user && opt_is_some has_admin then
              audit_identity py_str now "system" None "admin.bootstrap" "user" (Some (us_id user))
                "success" (Some [("already_exists", JBool true)]) ;;
              session_commit ;; mret (user, false)
            else raise (bootstrap_conflict "bootstrap username already exists in an incompatible state")
        | None =>
            count ← query active_administrator_count;
            raise_if (negb (count =? 0))
              (bootstrap_conflict "an active administrator already exists") ;;
            raise_if (str_in (lower_text password) ["administrator"; "password"; "change-me"; normalized])
              (ValueError "default or username-derived credentials are forbidden") ;;
            encoded ← lift (hash_password salt password);
            let user := MkUser fresh_id normalized None encoded true true 1 None None in
            write_users (λ t, t ++ [user]) ;;
            write_user_roles (λ t, t ++ [MkUserRole fresh_id (ro_id administrator) None]) ;;
            audit_identity py_str now "system" None "admin.bootstrap" "user" (Some fresh_id) "success"
              (Some [("already_exists", JBool false)]) ;;
            session_commit ;; mret (user, true)
        end
    end).
End Rbac.
