(* ===== verification/Seeds.v ===== *)
(** * Seeds

    [services/seeds.py]: the permissions, roles and capabilities every
    installation has, and the idempotent procedure that creates or corrects
    them.  The order of a Python set of permissions is that of the list here. *)

From S2P Require Export Rbac.

(** [uuid5] *)
Class NamedUuid := { uuid5 : string → string → string }.

Definition SEED_NAMESPACE : string := "f90b764c-e086-4a47-a1f8-c2d996310001".

Definition PERMISSIONS : list (string * string) :=
  [("users.read", "Read human users."); ("users.create", "Create human users.");
   ("users.update", "Update or disable human users.");
   ("users.roles_manage", "Assign or remove human roles.");
   ("sessions.revoke", "Revoke user sessions."); ("roles.read", "Read human roles.");
   ("permissions.read", "Read explicit permissions.");
   ("audit.read", "Read the bounded audit trail.");
   ("admin.protected_read", "Use the protected administrative demonstration endpoint.");
   ("enrollment_tokens.create", "Create bounded agent enrollment tokens.");
   ("enrollment_tokens.read", "Read enrollment token metadata.");
   ("enrollment_tokens.revoke", "Revoke agent enrollment tokens.");
   ("agents.read", "Read agent identity and status.");
   ("agents.revoke", "Revoke an agent and all of its credentials.");
   ("agents.recover", "Issue recovery enrollment tokens for an agent.");
   ("agent_credentials.read", "Read non-secret agent credential metadata.");
   ("agent_credentials.revoke", "Revoke an individual agent credential.");
   ("capability_manifests.read", "Read validated capability manifests.");
   ("agent_protocol.read", "Inspect agent protocol compatibility.")].

Definition ROLES : list (string * (string * string)) :=
  [("administrator", ("Administrator", "Full explicit human administration permissions."));
   ("test_manager", ("Test Manager", "Read users, RBAC, and audit information."));
   ("operator", ("Operator", "Read RBAC reference information."));
   ("viewer", ("Viewer", "Read RBAC reference information."))].

Definition ROLE_PERMISSIONS : list (string * list string) :=
  [("administrator", map fst PERMISSIONS);
   ("test_manager", ["users.read"; "roles.read"; "permissions.read"; "audit.read";
      "enrollment_tokens.create"; "enrollment_tokens.read"; "enrollment_tokens.revoke";
      "agents.read"; "agents.recover"; "agent_credentials.read"; "capability_manifests.read";
      "agent_protocol.read"]);
   ("operator", ["roles.read"; "permissions.read"; "agents.read"; "agent_credentials.read";
      "capability_manifests.read"; "agent_protocol.read"]);
   ("viewer", ["roles.read"; "permissions.read"; "agents.read"; "capability_manifests.read";
      "agent_protocol.read"])].

Definition CAPABILITY_IDS : list string :=
  ["wifi.connection.read"; "wifi.scan"; "wifi.rssi.read"; "network.icmp.ping";
   "network.tcp.probe"; "network.http.probe"; "traffic.tcp.throughput";
   "traffic.udp.throughput"; "traffic.http.download"; "traffic.http.upload";
   "traffic.latency_under_load"; "capture.ip"; "capture.ieee80211.monitor";
   "traffic.pcap.replay"; "execution.background.continuous"].

(** A loop that threads the counters. *)
Fixpoint count_loop {S A} (f : Z * Z → A → SE S (Z * Z)) (n : Z * Z) (xs : list A) : SE S (Z * Z) :=
  match xs with
  | [] => mret n
  | x :: xs' => n' ← f n x; count_loop f n' xs'
  end.
Definition one_created (n : Z * Z) : Z * Z := (n.1 + 1, n.2).
Definition one_updated (n : Z * Z) : Z * Z := (n.1, n.2 + 1).

Section Seeds.
Context `{NamedUuid} (py_str : json → string).

Definition stable_id (kind key : string) : string := uuid5 SEED_NAMESPACE (kind +:+ ":" +:+ key).

Definition seed_permission (n : Z * Z) (item : string * string) : SE (conn IdentityDb) (Z * Z) :=
  let '(key, description) := item in
  found ← query (λ d, select_one (λ p, same_text (pe_key p) key) (permission_rows d));
  match found with
  | None =>
      write_permissions (λ t, t ++ [MkPermission (stable_id "permission" key) key description]) ;;
      mret (one_created n)
  | Some p =>
      if String.eqb (pe_description p) description then mret n
      else write_permissions (update_rows (λ p, same_text (pe_key p) key)
             (λ p, MkPermission (pe_id p) (pe_key p) description)) ;;
           mret (one_updated n)
  end.

Definition seed_role (n : Z * Z) (item : string * (string * string)) : SE (conn IdentityDb) (Z * Z) :=
  let '(key, (display_name, description)) := item in
  found ← role_by_key key;
  match found with
  | None =>
      write_roles (λ t, t ++ [MkRole (stable_id "role" key) key display_name description]) ;;
      mret (one_created n)
  | Some r =>
      if String.eqb (ro_display_name r) display_name && String.eqb (ro_description r) description
      then mret n
      else write_roles (update_rows (λ r, same_text (ro_key r) key)
             (λ r, MkRole (ro_id r) (ro_key r) display_name description)) ;;
           mret (one_updated n)
  end.

(** [role_by_key[role_key]] and [permission_by_key[permission_key]] are the rows
    found or created just before. *)
Definition seed_grant (role_key : string) (n : Z * Z) (permission_key : string)
    : SE (conn IdentityDb) (Z * Z) :=
  role ← role_by_key role_key;
  permission ← query (λ d, select_one (λ p, same_text (pe_key p) permission_key) (permission_rows d));
  match role, permission with
  | Some r, Some p =>
      held ← query (λ d, select_one (λ rp, same_text (rp_role_id rp) (ro_id r)
                                         && same_text (rp_permission_id rp) (pe_id p))
                           (role_permissions d));
      if opt_is_none held then
        write_role_permissions (λ t, t ++ [MkRolePermission (ro_id r) (pe_id p)]) ;;
        mret (one_created n)
      else mret n
  | _, _ => raise (KeyError permission_key)
  end.
Definition seed_grants (n : Z * Z) (item : string * list string) : SE (conn IdentityDb) (Z * Z) :=
  count_loop (seed_grant item.1) n item.2.

Definition seed_capability (n : Z * Z) (key : string) : SE (conn IdentityDb) (Z * Z) :=
  found ← query (λ d, select_one (λ c, same_text (cb_key c) key && same_text (cb_version c) "1.0.0")
                        (capabilities d));
  if opt_is_none found then
    exec (λ d, Ok (tt, put_capabilities (capabilities d ++
      [MkCapabilityRow (stable_id "capability" (key +:+ ":1.0.0")) key "1.0.0"]) d)) ;;
    mret (one_created n)
  else mret n.

Definition seed_rbac (now : Z) : SE IdentityDb (Z * Z) :=
  with_session (
    n1 ← count_loop seed_permission (0, 0) PERMISSIONS;
    n2 ← count_loop seed_role n1 ROLES;
    n3 ← count_loop seed_grants n2 ROLE_PERMISSIONS;
    n4 ← count_loop seed_capability n3 CAPABILITY_IDS;
    audit_identity py_str now "system" None "rbac.seed" "rbac" None "success"
      (Some [("created_count", JInt n4.1); ("updated_count", JInt n4.2)]) ;;
    session_commit ;; mret n4).
End Seeds.
