(* ===== verification/IdentityTheorems.v ===== *)
(** * What the backend guarantees about people

    The steps of the identity services with their clock, and what no sequence of
    them can do: bring back an access that was lost, use a refresh token of a
    family in which one was replayed, or leave the installation without an
    active administrator. *)

From S2P Require Export Seeds CredentialTheorems.

(** ** Steps *)

Section Steps.
Context `{Sha256} `{PasswordHasher} `{AccessTokens} `{UnicodeText} `{NamedUuid}
  (py_str : json → string) (settings : TokenSettings).

(** One call of a service at the instant [now]. *)
Inductive identity_step (now : Z) (d : IdentityDb) : IdentityDb → Prop :=
| step_login w name password a b m :
    identity_step now d (login py_str settings now w name password a b m d).2
| step_refresh w token : identity_step now d (refresh py_str settings now w token d).2
| step_logout user s : identity_step now d (logout py_str now user s d).2
| step_logout_all user : identity_step now d (logout_all py_str now user d).2
| step_change_password salt user old new :
    identity_step now d (change_password py_str now salt user old new d).2
| step_create_user id salt name mail password actor :
    identity_step now d (create_user py_str now id salt name mail password actor d).2
| step_disable_user user actor : identity_step now d (disable_user py_str now user actor d).2
| step_assign_role user role actor : identity_step now d (assign_role py_str now user role actor d).2
| step_revoke_sessions user actor : identity_step now d (revoke_sessions py_str now user actor d).2
| step_remove_role user role actor : identity_step now d (remove_role py_str now user role actor d).2
| step_bootstrap id salt name password :
    identity_step now d (bootstrap_administrator py_str now id salt name password d).2
| step_seed : identity_step now d (seed_rbac py_str now d).2.

(** Calls one after the other, the clock never going back. *)
Inductive later (t : Z) (d : IdentityDb) : Z → IdentityDb → Prop :=
| later_refl t' : t ≤ t' → later t d t' d
| later_step t1 d1 t2 d2 : later t d t1 d1 → t1 ≤ t2 → identity_step t2 d1 d2 → later t d t2 d2.
End Steps.

Lemma later_one `{Sha256} `{PasswordHasher} `{AccessTokens} `{UnicodeText} `{NamedUuid} py_str settings
    t d now d' : t ≤ now → identity_step py_str settings now d d' → later py_str settings t d now d'.
Proof. intros Ht Hs. eapply later_step; [apply (later_refl _ _ t d t); lia|exact Ht|exact Hs]. Qed.

(** ** Tables that a property does not read *)

(** A property of the database, before and after the commit. *)
Definition Both (P : IdentityDb → Prop) (c : conn IdentityDb) : Prop := P (committed c) ∧ P (working c).

Section Both.
Context (P : IdentityDb → Prop).

Lemma both_session {A} (m : SE (conn IdentityDb) A) d :
  preserves (Both P) m → P d → P (with_session m d).2.
Proof.
  intros Hm Hd. specialize (Hm (Conn d d true) (conj Hd Hd)). unfold with_session.
  destruct (m _) as [r c]. apply Hm.
Qed.
Lemma both_commit : preserves (Both P) (session_commit : SE (conn IdentityDb) unit).
Proof. intros c [_ Hw]. by split. Qed.
Lemma both_query {A} (f : IdentityDb → A) : preserves (Both P) (query f).
Proof. intros c Hc. exact Hc. Qed.
Lemma both_exec {A} (f : IdentityDb → result (A * IdentityDb)) :
  (∀ d a d', P d → f d = Ok (a, d') → P d') → preserves (Both P) (exec f).
Proof.
  intros Hf c [H1 H2]. unfold exec. destruct (f (working c)) as [[a d']|e] eqn:E; [|by split].
  apply Hf in E; [|done]. destruct (in_tx c); by split.
Qed.
Lemma both_table {T} (put : list T → IdentityDb → IdentityDb) valid name rows :
  (∀ d, P d → valid (rows d) = true → P (put (rows d) d)) →
  preserves (Both P) (store_table put valid name rows).
Proof.
  intros Hp. apply both_exec. intros d a d' Hd. destruct (valid (rows d)) eqn:E; [|done].
  intros [= _ <-]. by apply Hp.
Qed.
End Both.

(** Split a program into its statements. *)
Ltac statements :=
  repeat first
    [ apply preserves_bind; [|intros ?] | apply both_query | apply both_commit
    | apply preserves_raise_if | apply preserves_raise | apply preserves_lift | apply preserves_ret
    | match goal with |- preserves _ (match ?x with _ => _ end) => destruct x eqn:? end
    | progress cbv beta zeta ].

(** ** The last administrator *)

Record Administered (d : IdentityDb) : Prop := {
  ad_users : users_valid (users d) = true;
  ad_roles : roles_valid (roles d) = true;
  ad_grants : user_roles_valid (user_roles d) = true;
  ad_one : 1 ≤ active_administrator_count d;
}.

Lemma rowcount_mono {R} (p q : R → bool) t :
  (∀ r, r ∈ t → p r = true → q r = true) → (rowcount p t ≤ rowcount q t)%nat.
Proof.
  unfold rowcount. induction t as [|x t IH]; simpl; [done|]. intros Hpq.
  assert (length (List.filter p t) ≤ length (List.filter q t))%nat as IH'
    by (apply IH; intros r Hr; apply Hpq; by right).
  destruct (p x) eqn:Ep; [rewrite (Hpq x) by (done || by left); simpl; lia|].
  destruct (q x); simpl; lia.
Qed.
Lemma rowcount_app {R} (p : R → bool) t u : rowcount p (t ++ u) = (rowcount p t + rowcount p u)%nat.
Proof. unfold rowcount. by rewrite List.filter_app, length_app. Qed.
Lemma rowcount_split {R} (p q : R → bool) t :
  (rowcount p t ≤ rowcount (λ r, p r && negb (q r)) t + rowcount q t)%nat.
Proof.
  unfold rowcount. induction t as [|x t IH]; simpl; [done|].
  destruct (p x), (q x); simpl; lia.
Qed.
Lemma rowcount_distinct {R} (same : R → R → bool) (p : R → bool) t :
  all_distinct same t = true → (∀ a b, p a = true → p b = true → same a b = true) →
  (rowcount p t ≤ 1)%nat.
Proof.
  intros Hd Hp. unfold rowcount. induction t as [|x t IH]; simpl; [lia|].
  simpl in Hd. apply andb_true_iff in Hd as [Hx Hd]. specialize (IH Hd).
  destruct (p x) eqn:Ex; [|done]. simpl.
  destruct (List.filter p t) as [|y l] eqn:El; [simpl; lia|]. exfalso.
  assert (In y t ∧ p y = true) as [Hy Ey].
  { apply List.filter_In. rewrite El. by left. }
  apply negb_true_iff, not_true_iff_false in Hx. apply Hx, existsb_exists. exists y. auto.
Qed.

Lemma administrators_mono d d' l :
  (∀ id, active_user d id = true → active_user d' id = true) →
  (∀ id, administrator_role d id = true → administrator_role d' id = true) →
  user_roles d' = user_roles d ++ l →
  active_administrator_count d ≤ active_administrator_count d'.
Proof.
  intros Hu Hr El. unfold active_administrator_count. rewrite El, rowcount_app.
  apply Nat2Z.inj_le. etrans; [|apply Nat.le_add_r]. apply rowcount_mono.
  intros r _ [E1 E2]%andb_true_iff. by rewrite Hu, Hr.
Qed.

Lemma existsb_weaken {A} (p q : A → bool) l l' :
  (∀ x, x ∈ l → p x = true → ∃ y, y ∈ l' ∧ q y = true) → existsb p l = true → existsb q l' = true.
Proof.
  intros Hw (x & Hx & Ep)%existsb_exists. apply list_elem_of_In in Hx.
  destruct (Hw x Hx Ep) as (y & Hy & Eq). apply existsb_exists. exists y.
  by rewrite <-list_elem_of_In.
Qed.

(** Statements that keep the administrators. *)
Lemma administered_same d d' :
  Administered d → users d' = users d → roles d' = roles d → user_roles d' = user_roles d →
  Administered d'.
Proof.
  intros [H1 H2 H3 H4] Eu Er Eg. constructor; rewrite ?Eu, ?Er, ?Eg; try done.
  etrans; [exact H4|]. apply (administrators_mono d d' []).
  - intros id. unfold active_user. by rewrite Eu.
  - intros id. unfold administrator_role. by rewrite Er.
  - by rewrite Eg, app_nil_r.
Qed.

Lemma administered_update_users id g :
  (∀ u, us_id u = id → us_id (g u) = id ∧ (us_is_active u = true → us_is_active (g u) = true)) →
  preserves (Both Administered) (write_users (update_rows (user_with id) g)).
Proof.
  intros Hg. apply both_table. intros d [H1 H2 H3 H4] Hv. constructor; try done.
  etrans; [exact H4|]. apply (administrators_mono d _ []); [|done|by rewrite app_nil_r].
  intros k. unfold active_user. apply existsb_weaken. intros u Hu [Ek Ea]%andb_true_iff.
  exists (if user_with id u then g u else u). split; [apply elem_of_update_rows; by exists u|].
  destruct (user_with id u) eqn:Ei; [|by rewrite Ek, Ea].
  unfold user_with, same_text in *. apply String.eqb_eq in Ei, Ek.
  destruct (Hg u Ei) as [E1 E2]. rewrite E1, E2 by done. by rewrite <-Ei, Ek, String.eqb_refl.
Qed.

Lemma administered_insert_user u :
  preserves (Both Administered) (write_users (λ t, t ++ [u])).
Proof.
  apply both_table. intros d [H1 H2 H3 H4] Hv. constructor; try done.
  etrans; [exact H4|]. apply (administrators_mono d _ []); [|done|by rewrite app_nil_r].
  intros k. unfold active_user. apply existsb_weaken. intros x Hx E. exists x.
  split; [apply elem_of_app; by left|done].
Qed.

Lemma administered_insert_grant ur :
  preserves (Both Administered) (write_user_roles (λ t, t ++ [ur])).
Proof.
  apply both_table. intros d [H1 H2 H3 H4] Hv. constructor; try done.
  etrans; [exact H4|]. by apply (administrators_mono d _ [ur]).
Qed.

Lemma administered_insert_role r :
  preserves (Both Administered) (write_roles (λ t, t ++ [r])).
Proof.
  apply both_table. intros d [H1 H2 H3 H4] Hv. constructor; try done.
  etrans; [exact H4|]. apply (administrators_mono d _ []); [done| |by rewrite app_nil_r].
  intros k. unfold administrator_role. apply existsb_weaken. intros x Hx E. exists x.
  split; [apply elem_of_app; by left|done].
Qed.

Lemma administered_update_roles p g :
  (∀ r, ro_id (g r) = ro_id r ∧ ro_key (g r) = ro_key r) →
  preserves (Both Administered) (write_roles (update_rows p g)).
Proof.
  intros Hg. apply both_table. intros d [H1 H2 H3 H4] Hv. constructor; try done.
  etrans; [exact H4|]. apply (administrators_mono d _ []); [done| |by rewrite app_nil_r].
  intros k. unfold administrator_role. apply existsb_weaken. intros x Hx E.
  exists (if p x then g x else x). split; [apply elem_of_update_rows; by exists x|].
  destruct (p x); [|done]. destruct (Hg x) as [-> ->]. done.
Qed.

Create HintDb administered.
#[export] Hint Resolve administered_insert_user administered_insert_grant administered_insert_role
  : administered.
#[export] Hint Extern 3 (preserves (Both Administered) (store_table _ _ _ _)) =>
  (apply both_table; intros; by eapply administered_same) : administered.
#[export] Hint Extern 3 (preserves (Both Administered) (exec _)) =>
  (apply both_exec; intros ? ? ? ? [= _ <-]; by eapply administered_same) : administered.
#[export] Hint Extern 2 (preserves (Both Administered) (write_users (update_rows (user_with _) _))) =>
  (apply administered_update_users; done) : administered.

Lemma preserves_run {DB A B} (P : conn DB → Prop) (m : SE (conn DB) A) (k : A → SE (conn DB) B) c :
  P (m c).2 → (∀ a, (m c).1 = Ok a → P (k a (m c).2).2) → P ((m ≫= k) c).2.
Proof.
  unfold mbind, SE_bind. destruct (m c) as [[a|e] c']; simpl; [|done]. intros _ Hk. by apply Hk.
Qed.
Lemma preserves_guard {DB B} (P : conn DB → Prop) b e (k : unit → SE (conn DB) B) c :
  P c → (b = false → P (k tt c).2) → P ((raise_if b e ≫= k) c).2.
Proof. unfold mbind, SE_bind, raise_if. destruct b; simpl; auto. Qed.

(** One write whose effect depends on what was read before. *)
Lemma both_write {T B} (P : IdentityDb → Prop) (put : list T → IdentityDb → IdentityDb) valid name rows
    (k : unit → SE (conn IdentityDb) B) c :
  Both P c → (valid (rows (working c)) = true → P (put (rows (working c)) (working c))) →
  (∀ a, preserves (Both P) (k a)) → Both P ((store_table put valid name rows ≫= k) c).2.
Proof.
  intros [H1 H2] Hw Hk. assert (Both P (store_table put valid name rows c).2) as Hs.
  { unfold store_table, exec. destruct (valid _); simpl; [|by split].
    specialize (Hw eq_refl). destruct (in_tx c); by split. }
  apply preserves_run; [exact Hs|]. intros a _. by apply Hk.
Qed.

Lemma both_write_then {T B} (P : IdentityDb → Prop) (put : list T → IdentityDb → IdentityDb) valid name
    rows (k : unit → SE (conn IdentityDb) B) c :
  Both P c → (valid (rows (working c)) = true → P (put (rows (working c)) (working c))) →
  (∀ c', working c' = put (rows (working c)) (working c) → Both P c' → Both P (k tt c').2) →
  Both P ((store_table put valid name rows ≫= k) c).2.
Proof.
  intros [H1 H2] Hw Hk. unfold mbind, SE_bind, store_table, exec.
  destruct (valid _); simpl; [|by split]. specialize (Hw eq_refl).
  destruct (in_tx c); apply Hk; by split.
Qed.

(** Rows that stop counting when a user is disabled. *)
Lemma administrators_without d user :
  Administered d →
  (rowcount (λ ur, same_text (ur_user_id ur) user && administrator_role d (ur_role_id ur)) (user_roles d)
   ≤ if is_administrator user d then 1 else 0)%nat.
Proof.
  intros [_ Hr Hg _]. destruct (is_administrator user d) eqn:E.
  - unfold user_roles_valid in Hg. eapply rowcount_distinct; [exact Hg|].
    intros a b [Ea Aa]%andb_true_iff [Eb Ab]%andb_true_iff.
    unfold same_text in Ea, Eb. apply String.eqb_eq in Ea, Eb. unfold same_text.
    rewrite Ea, Eb, String.eqb_refl. simpl.
    unfold administrator_role in Aa, Ab. apply existsb_exists in Aa as (x & Hx & [X1 X2]%andb_true_iff).
    apply existsb_exists in Ab as (y & Hy & [Y1 Y2]%andb_true_iff).
    unfold same_text in *. apply String.eqb_eq in X1, X2, Y1, Y2.
    unfold roles_valid in Hr. apply andb_true_iff in Hr as [[_ Hk]%andb_true_iff _].
    assert (x = y) as ->.
    { eapply (all_distinct_spec _ _ x y Hk); try (by apply list_elem_of_In);
        unfold same_text; rewrite X2, Y2; done. }
    rewrite <-X1, <-Y1. apply String.eqb_refl.
  - apply Nat.le_0_r, rowcount_0. intros ur Hur. apply not_true_iff_false. intros [Eu Ea]%andb_true_iff.
    apply not_true_iff_false in E. apply E. unfold is_administrator, administrator_role in *.
    apply existsb_exists in Ea as (r & Hr' & [R1 R2]%andb_true_iff). apply existsb_exists. exists r.
    split; [|done]. unfold roles_of, select. apply List.filter_In. split; [done|].
    apply existsb_exists. exists ur. rewrite <-list_elem_of_In. split; [done|].
    rewrite Eu. simpl. unfold same_text in *. by rewrite String.eqb_sym.
Qed.

Lemma administered_disable d user now :
  Administered d → (is_administrator user d && (active_administrator_count d <=? 1)) = false →
  users_valid (update_rows (user_with user) (user_disabled now) (users d)) = true →
  Administered (put_users (update_rows (user_with user) (user_disabled now) (users d)) d).
Proof.
  intros Ha Hguard Hv. pose proof (administrators_without d user Ha) as Hw.
  destruct Ha as [H1 H2 H3 H4]. constructor; [done..|]. unfold active_administrator_count in *. simpl in *.
  set (p := λ ur, active_user d (ur_user_id ur) && administrator_role d (ur_role_id ur)) in *.
  match goal with |- 1 ≤ Z.of_nat (rowcount ?f _) => set (p' := f) end.
  set (q := λ ur, same_text (ur_user_id ur) user && administrator_role d (ur_role_id ur)) in *.
  pose proof (rowcount_split p q (user_roles d)) as Hs.
  assert (rowcount (λ r, p r && negb (q r)) (user_roles d) ≤ rowcount p' (user_roles d))%nat as Hm.
  { apply rowcount_mono. unfold p'.
    intros ur _ [[A1 A2]%andb_true_iff Hq]%andb_true_iff. unfold q in Hq.
    rewrite A2 in Hq. apply andb_true_iff. split; [|exact A2]. rewrite andb_true_r in Hq. apply negb_true_iff in Hq.
    unfold active_user in *. simpl. revert A1. apply existsb_weaken. intros u Hu [U1 U2]%andb_true_iff.
    exists u. rewrite U1, U2. split; [|done]. apply elem_of_update_rows. exists u. split; [done|].
    destruct (user_with user u) eqn:E; [|done]. exfalso. unfold user_with, same_text in *.
    apply String.eqb_eq in U1, E. apply String.eqb_neq in Hq. by rewrite <-U1, E in Hq. }
  destruct (is_administrator user d); simpl in Hguard; lia.
Qed.

Lemma administered_remove d user role key u :
  Administered d → u ∈ users d → us_id u = user → role ∈ roles d → ro_key role = key →
  (String.eqb key "administrator" && us_is_active u && (active_administrator_count d <=? 1)) = false →
  user_roles_valid (delete_rows (user_role_is user (ro_id role)) (user_roles d)) = true →
  Administered (put_user_roles (delete_rows (user_role_is user (ro_id role)) (user_roles d)) d).
Proof.
  intros [H1 H2 H3 H4] Hu Hid Hrole Hkey Hguard Hv. constructor; [done..|].
  unfold active_administrator_count in *. simpl in *.
  set (p := λ ur, active_user d (ur_user_id ur) && administrator_role d (ur_role_id ur)) in *.
  set (q := user_role_is user (ro_id role)) in *.
  assert (rowcount p (delete_rows q (user_roles d)) = rowcount (λ r, p r && negb (q r)) (user_roles d)) as Er.
  { unfold rowcount, delete_rows. generalize (user_roles d). intros t.
    induction t as [|x t IH]; simpl; [done|]. destruct (p x) eqn:Ep, (q x) eqn:Eq; simpl;
      rewrite ?Ep; simpl; congruence. }
  change (1 ≤ Z.of_nat (rowcount p (delete_rows q (user_roles d)))). rewrite Er.
  pose proof (rowcount_split p q (user_roles d)) as Hs.
  assert (rowcount q (user_roles d) ≤ 1)%nat as Hq1.
  { eapply rowcount_distinct; [exact H3|]. intros a b [A1 A2]%andb_true_iff [B1 B2]%andb_true_iff.
    unfold same_text in *. apply String.eqb_eq in A1, A2, B1, B2.
    by rewrite A1, A2, B1, B2, !String.eqb_refl. }
  destruct (String.eqb key "administrator" && us_is_active u) eqn:Eg; [simpl in Hguard; lia|].
  enough (rowcount p (user_roles d) ≤ rowcount (λ r, p r && negb (q r)) (user_roles d))%nat by lia.
  apply rowcount_mono. intros ur _ Hp. rewrite Hp. simpl. apply negb_true_iff, not_true_iff_false.
  intros [E1 E2]%andb_true_iff. apply andb_true_iff in Hp as [P1 P2].
  unfold same_text in E1, E2. apply String.eqb_eq in E1, E2.
  assert (us_is_active u = true) as Hact.
  { unfold active_user in P1. apply existsb_exists in P1 as (x & Hx & [X1 X2]%andb_true_iff).
    unfold user_with, same_text in X1. apply String.eqb_eq in X1.
    assert (x = u) as <-; [|done]. unfold users_valid in H1.
    apply andb_true_iff in H1 as [[[H1 _]%andb_true_iff _]%andb_true_iff _].
    eapply (all_distinct_spec _ _ x u H1); [by apply list_elem_of_In|done|..];
      unfold same_text; rewrite X1, E1, Hid; apply String.eqb_refl. }
  unfold administrator_role in P2. apply existsb_exists in P2 as (x & Hx & [X1 X2]%andb_true_iff).
  unfold same_text in X1, X2. apply String.eqb_eq in X1.
  assert (x = role) as ->.
  { unfold roles_valid in H2. apply andb_true_iff in H2 as [[H2 _]%andb_true_iff _].
    eapply (all_distinct_spec _ _ x role H2); [by apply list_elem_of_In|done|..];
      unfold same_text; rewrite X1, E2; apply String.eqb_refl. }
  by rewrite <-Hkey, X2, Hact in Eg.
Qed.

Ltac administered :=
  unfold write_sessions, write_refresh_tokens, write_permissions, write_role_permissions,
    audit_identity in *;
  statements; eauto with administered.

Section Administrators.
Context `{Sha256} `{PasswordHasher} `{AccessTokens} `{UnicodeText} `{NamedUuid}
  (py_str : json → string) (settings : TokenSettings).

Lemma administered_loop {A} (f : Z * Z → A → SE (conn IdentityDb) (Z * Z)) xs n :
  (∀ n x, preserves (Both Administered) (f n x)) → preserves (Both Administered) (count_loop f n xs).
Proof.
  intros Hf. revert n. induction xs as [|x xs IH]; intros n; simpl.
  - apply preserves_ret.
  - apply preserves_bind; [apply Hf|exact IH].
Qed.

Lemma administered_logout_all now user action :
  preserves (Both Administered) (logout_all_in py_str now user action).
Proof. unfold logout_all_in, close_sessions, user_by_id. administered. Qed.

Lemma administered_disable_user now user actor d :
  Administered d → Administered (disable_user py_str now user actor d).2.
Proof.
  intros Hd. unfold disable_user, user_by_id. apply (both_session Administered); [|done]. intros c Hc.
  apply preserves_run; [exact Hc|]. intros found [= <-]. simpl.
  destruct (select_one (user_with user) (users (working c))) as [u|]; [|exact Hc].
  apply preserves_run; [exact Hc|]. intros a [= <-].
  apply preserves_run; [exact Hc|]. intros n [= <-]. apply preserves_guard; [exact Hc|]. intros Hguard.
  apply both_write; [exact Hc| |].
  - intros Hv. apply administered_disable; [apply Hc|exact Hguard|exact Hv].
  - intros a. unfold close_sessions, audit_admin. administered.
Qed.

Lemma administered_remove_role now user role actor d :
  Administered d → Administered (remove_role py_str now user role actor d).2.
Proof.
  intros Hd. unfold remove_role, user_by_id, role_by_key. apply (both_session Administered); [|done]. intros c Hc.
  apply preserves_run; [exact Hc|]. intros found [= <-].
  apply preserves_run; [exact Hc|]. intros r [= <-]. simpl.
  destruct (select_one (user_with user) (users (working c))) as [u|] eqn:Eu; [|exact Hc].
  destruct (select_one _ (roles (working c))) as [r|] eqn:Er; [|exact Hc].
  apply select_one_Some in Eu as [Hu Eu%String.eqb_eq]. apply select_one_Some in Er as [Hr Er%String.eqb_eq].
  apply preserves_run; [exact Hc|]. intros n [= <-]. apply preserves_guard; [exact Hc|]. intros Hguard.
  apply preserves_run; [exact Hc|]. intros k [= <-]. apply both_write; [exact Hc| |].
  - intros Hv. eapply administered_remove; [apply Hc|exact Hu|exact Eu|exact Hr|exact Er|exact Hguard|exact Hv].
  - intros a. unfold audit_admin. administered.
Qed.

(** C34: once there is an active administrator there always is one: no sequence
    of logins, password changes, role changes, disabled users or seeds takes the
    last one away. *)
Theorem last_administrator_remains t d t' d' :
  later py_str settings t d t' d' → Administered d → 1 ≤ active_administrator_count d'.
Proof.
  intros Hl Hd. apply ad_one. induction Hl as [|t1 d1 t2 d2 _ IH _ Hs]; [done|].
  destruct Hs; [| | | | | |by apply administered_disable_user| | |by apply administered_remove_role| |];
    (apply (both_session Administered); [|exact IH]).
  - unfold login, user_by_username, audit_login. administered.
    all: apply administered_update_users; intros x Hx; simpl; destruct o; by split.
  - unfold refresh_by_digest, session_by_id, user_by_id, revoke_family. administered.
  - unfold session_by_id, revoke_family. administered.
  - apply administered_logout_all.
  - unfold change_password, logout_all_in, close_sessions, user_by_id. administered.
  - unfold user_by_username, audit_admin. administered.
  - unfold user_by_id, role_by_key, audit_admin. administered.
  - unfold user_by_id, close_sessions, audit_admin. administered.
  - unfold role_by_key, user_by_username. administered.
  - unfold seed_rbac. apply preserves_bind; [|intros ?; apply preserves_bind; [|intros ?;
      apply preserves_bind; [|intros ?; apply preserves_bind; [|intros ?; administered]]]].
    all: apply administered_loop; intros n x.
    + destruct x. unfold seed_permission. administered.
    + destruct x as [key [display description]]. unfold seed_role, role_by_key. administered.
      by apply administered_update_roles.
    + apply administered_loop. intros n' k. unfold seed_grant, role_by_key. administered.
    + unfold seed_capability. administered.
Qed.
End Administrators.

(** ** Lost access *)

(** What a user and a session keep during a call at the instant [now]. *)
Definition user_kept (u u' : User) : Prop :=
  us_auth_version u ≤ us_auth_version u' ∧ (us_is_active u = false → us_is_active u' = false).
Definition session_kept (now : Z) (s s' : AuthSession) : Prop :=
  se_user_id s' = se_user_id s ∧ se_auth_version s' = se_auth_version s
  ∧ se_absolute_expires_at s' = se_absolute_expires_at s
  ∧ (opt_is_some (se_revoked_at s) = true → opt_is_some (se_revoked_at s') = true)
  ∧ (se_inactivity_expires_at s ≤ now → se_inactivity_expires_at s' = se_inactivity_expires_at s).

Record Continues (now : Z) (d d' : IdentityDb) : Prop := {
  co_users : ∀ id u, select_one (user_with id) (users d) = Some u →
    ∃ u', select_one (user_with id) (users d') = Some u' ∧ user_kept u u';
  co_sessions : ∀ id s, select_one (session_with id) (sessions d) = Some s →
    ∃ s', select_one (session_with id) (sessions d') = Some s' ∧ session_kept now s s';
}.

Lemma user_kept_refl u : user_kept u u.
Proof. by split. Qed.
Lemma user_kept_trans u1 u2 u3 : user_kept u1 u2 → user_kept u2 u3 → user_kept u1 u3.
Proof. intros [A1 A2] [B1 B2]. split; [lia|auto]. Qed.
Lemma session_kept_refl now s : session_kept now s s.
Proof. by split_and!. Qed.
Lemma session_kept_trans now s1 s2 s3 : session_kept now s1 s2 → session_kept now s2 s3 → session_kept now s1 s3.
Proof.
  intros (A1 & A2 & A3 & A4 & A5) (B1 & B2 & B3 & B4 & B5). split_and!; try congruence; [auto|].
  intros Hn. rewrite B5; [by apply A5|]. by rewrite A5.
Qed.
#[global] Instance Continues_preorder now : PreOrder (Continues now).
Proof.
  split.
  - intros d. split; intros id x Hx; exists x; split; auto using user_kept_refl, session_kept_refl.
  - intros d1 d2 d3 [A1 A2] [B1 B2]. split; intros id x Hx.
    + destruct (A1 id x Hx) as (y & Hy & K1). destruct (B1 id y Hy) as (z & Hz & K2).
      exists z. eauto using user_kept_trans.
    + destruct (A2 id x Hx) as (y & Hy & K1). destruct (B2 id y Hy) as (z & Hz & K2).
      exists z. eauto using session_kept_trans.
Qed.

Lemma select_one_app {R} (p : R → bool) t u r :
  select_one p t = Some r → select_one p (t ++ u) = Some r.
Proof. unfold select_one. induction t as [|x t IH]; simpl; [done|]. by destruct (p x). Qed.

(** Statements that keep what is above, over the database a call started from. *)
Section Continuing.
Context (now : Z) (d0 : IdentityDb).

Lemma continues_table {T} (put : list T → IdentityDb → IdentityDb) valid name rows :
  (∀ d, Continues now d (put (rows d) d)) →
  preserves (Both (Continues now d0)) (store_table put valid name rows).
Proof. intros Hp. apply both_table. intros d Hd _. by etrans. Qed.

Lemma continues_same d d' : users d' = users d → sessions d' = sessions d → Continues now d d'.
Proof.
  intros Eu Es. split; intros id x Hx; exists x; rewrite ?Eu, ?Es;
    auto using user_kept_refl, session_kept_refl.
Qed.

Lemma continues_users p g d :
  (∀ u, us_id (g u) = us_id u ∧ user_kept u (g u)) →
  Continues now d (put_users (update_rows p g (users d)) d).
Proof.
  intros Hg. split; [|intros id s Hs; exists s; auto using session_kept_refl].
  intros id u Hu. simpl. exists (if p u then g u else u). split.
  - rewrite select_one_updated, Hu; [done|]. intros x. unfold user_with. by destruct (Hg x) as [-> _].
  - destruct (p u); [apply Hg|apply user_kept_refl].
Qed.
Lemma continues_insert_user u d : Continues now d (put_users (users d ++ [u]) d).
Proof.
  split; intros id x Hx; exists x; simpl;
    auto using select_one_app, user_kept_refl, session_kept_refl.
Qed.
Lemma continues_sessions p g d :
  (∀ s, se_id (g s) = se_id s ∧ session_kept now s (g s)) →
  Continues now d (put_sessions (update_rows p g (sessions d)) d).
Proof.
  intros Hg. split; [intros id u Hu; exists u; auto using user_kept_refl|].
  intros id s Hs. simpl. exists (if p s then g s else s). split.
  - rewrite select_one_updated, Hs; [done|]. intros x. unfold session_with. by destruct (Hg x) as [-> _].
  - destruct (p s); [apply Hg|apply session_kept_refl].
Qed.
Lemma continues_insert_session s d : Continues now d (put_sessions (sessions d ++ [s]) d).
Proof.
  split; intros id x Hx; exists x; simpl;
    auto using select_one_app, user_kept_refl, session_kept_refl.
Qed.
End Continuing.

Create HintDb continues.
#[export] Hint Extern 4 (preserves (Both (Continues _ _)) (store_table _ _ _ _)) =>
  (apply continues_table; intros; by apply continues_same) : continues.
#[export] Hint Extern 4 (preserves (Both (Continues _ _)) (exec _)) =>
  (apply both_exec; intros ? ? ? ? [= _ <-]; etrans; [eassumption|by apply continues_same]) : continues.
#[export] Hint Extern 3 (preserves (Both (Continues _ _)) (store_table put_users _ _ _)) =>
  (apply continues_table; intros; first
    [ apply continues_insert_user
    | apply continues_users; intros ?; split; [done|split; simpl; [lia|done]] ]) : continues.
#[export] Hint Extern 3 (preserves (Both (Continues _ _)) (store_table put_sessions _ _ _)) =>
  (apply continues_table; intros; first
    [ apply continues_insert_session
    | apply continues_sessions; intros ?; split; [done|by split_and!] ]) : continues.

Ltac continues :=
  unfold write_users, write_user_roles, write_roles, write_sessions, write_refresh_tokens,
    write_permissions, write_role_permissions, audit_identity in *;
  statements; eauto with continues.

Section Access.
Context `{Sha256} `{PasswordHasher} `{AccessTokens} `{UnicodeText} `{NamedUuid}
  (py_str : json → string) (settings : TokenSettings).

Lemma continues_loop {A} now d (f : Z * Z → A → SE (conn IdentityDb) (Z * Z)) xs n :
  (∀ n x, preserves (Both (Continues now d)) (f n x)) →
  preserves (Both (Continues now d)) (count_loop f n xs).
Proof.
  intros Hf. revert n. induction xs as [|x xs IH]; intros n; simpl.
  - apply preserves_ret.
  - apply preserves_bind; [apply Hf|exact IH].
Qed.

Lemma continues_refresh now w token d : Continues now d (refresh py_str settings now w token d).2.
Proof.
  unfold refresh, refresh_by_digest, session_by_id, user_by_id.
  apply (both_session (Continues now d)); [|reflexivity]. intros c Hc.
  apply preserves_run; [exact Hc|]. intros found [= <-]. simpl.
  destruct (select_one _ (refresh_tokens (working c))) as [record|]; [|exact Hc].
  apply preserves_run; [exact Hc|]. intros s [= <-]. simpl.
  destruct (select_one _ (sessions (working c))) as [family|] eqn:Es; [|exact Hc].
  apply preserves_run; [exact Hc|]. intros u [= <-]. simpl.
  destruct (select_one _ (users (working c))) as [user|]; [|exact Hc].
  destruct (opt_is_some _).
  { revert c Hc Es. intros c Hc _. revert c Hc. unfold revoke_family. continues. }
  destruct (invalid_family now family user || _ || _) eqn:Eg.
  { revert c Hc Es. intros c Hc _. revert c Hc. unfold revoke_family. continues. }
  apply both_write_then; [exact Hc|intros _; etrans; [apply Hc|by apply continues_same]|].
  intros c1 E1 Hc1. apply both_write_then; [exact Hc1|intros _; etrans; [apply Hc1|by apply continues_same]|].
  intros c2 E2 Hc2. apply both_write; [exact Hc2| |intros a; continues].
  intros _. etrans; [apply Hc2|].
  assert (sessions (working c2) = sessions (working c)) as Esame by (by rewrite E2, E1).
  assert (se_id family = rt_session_id record) as Eid.
  { apply select_one_Some in Es as [_ E]. by apply String.eqb_eq in E. }
  rewrite Esame. split; [intros id x Hx; exists x; auto using user_kept_refl|].
  intros id x Hx. rewrite Esame in Hx. simpl.
  rewrite select_one_updated by done. rewrite Hx. eexists. split; [reflexivity|].
  destruct (session_with (se_id family) x) eqn:Ex; [|apply session_kept_refl].
  assert (x = family) as ->.
  { apply String.eqb_eq in Ex. apply select_one_Some in Hx as Hx'. destruct Hx' as [_ Hid%String.eqb_eq].
    rewrite Ex, Eid in Hid. rewrite <-Hid in Hx. congruence. }
  unfold invalid_family in Eg. bool_simp. split_and!; simpl; try done. lia.
Qed.

Lemma step_continues now d d' : identity_step py_str settings now d d' → Continues now d d'.
Proof.
  intros Hs. destruct Hs; [|apply continues_refresh|..];
    (apply (both_session (Continues now d)); [|reflexivity]).
  - unfold login, user_by_username, audit_login. continues.
    all: apply continues_table; intros; apply continues_users; intros x; destruct o; by split; [|split].
  - unfold logout, session_by_id, revoke_family. continues.
  - unfold logout_all_in, close_sessions, user_by_id. continues.
  - unfold change_password, logout_all_in, close_sessions, user_by_id. continues.
  - unfold create_user, user_by_username, audit_admin. continues.
  - unfold disable_user, user_by_id, close_sessions, audit_admin. continues.
  - unfold assign_role, user_by_id, role_by_key, audit_admin. continues.
  - unfold revoke_sessions, user_by_id, close_sessions, audit_admin. continues.
  - unfold remove_role, user_by_id, role_by_key, audit_admin. continues.
  - unfold bootstrap_administrator, role_by_key, user_by_username. continues.
  - unfold seed_rbac. apply preserves_bind; [|intros ?; apply preserves_bind; [|intros ?;
      apply preserves_bind; [|intros ?; apply preserves_bind; [|intros ?; continues]]]].
    all: apply continues_loop; intros n x.
    + destruct x. unfold seed_permission. continues.
    + destruct x as [key [display description]]. unfold seed_role, role_by_key. continues.
    + apply continues_loop. intros n' k. unfold seed_grant, role_by_key. continues.
    + unfold seed_capability. continues.
Qed.

(** *** What an access token needs *)

Definition holder (claims : AccessClaims) (d : IdentityDb) : option (User * AuthSession) :=
  match select_one (user_with (cl_user_id claims)) (users d),
        select_one (session_with (cl_session_id claims)) (sessions d) with
  | Some u, Some s => Some (u, s)
  | _, _ => None
  end.
Definition barred (now : Z) (claims : AccessClaims) (u : User) (s : AuthSession) : bool :=
  negb (same_text (se_user_id s) (cl_user_id claims)) || negb (us_is_active u)
  || opt_is_some (se_revoked_at s) || (se_absolute_expires_at s <=? now)
  || (se_inactivity_expires_at s <=? now)
  || negb (us_auth_version u =? cl_auth_version claims)
  || negb (se_auth_version s =? cl_auth_version claims).

Lemma authenticate_access_spec now claims d :
  authenticate_access now claims d =
    (match holder claims d with
     | Some (u, s) => if barred now claims u s then Err InvalidSessionError else Ok u
     | None => Err InvalidSessionError
     end, d).
Proof.
  unfold authenticate_access, with_session, user_by_id, session_by_id, holder, query, mbind, SE_bind.
  simpl. destruct (select_one _ (users d)) as [u|]; [|done].
  destruct (select_one _ (sessions d)) as [s|]; [|done]. unfold barred, raise_if.
  by destruct (_ || _).
Qed.

(** The holder of a token the server issued: the version in the token is not
    ahead of the user's. *)
Definition known (claims : AccessClaims) (d : IdentityDb) : Prop :=
  ∃ u s, holder claims d = Some (u, s) ∧ cl_auth_version claims ≤ us_auth_version u.
Definition dead (t : Z) (claims : AccessClaims) (d : IdentityDb) : Prop :=
  ∃ u s, holder claims d = Some (u, s) ∧ cl_auth_version claims ≤ us_auth_version u
         ∧ barred t claims u s = true.

Lemma holder_continues now claims d d' u s :
  Continues now d d' → holder claims d = Some (u, s) →
  ∃ u' s', holder claims d' = Some (u', s') ∧ user_kept u u' ∧ session_kept now s s'.
Proof.
  unfold holder. intros [Hu Hs] E.
  destruct (select_one _ (users d)) as [u0|] eqn:Eu; [|done].
  destruct (select_one _ (sessions d)) as [s0|] eqn:Es; [|done]. injection E as -> ->.
  destruct (Hu _ _ Eu) as (u' & -> & Ku). destruct (Hs _ _ Es) as (s' & -> & Ks). by exists u', s'.
Qed.

Lemma barred_kept t now claims u u' s s' :
  t ≤ now → cl_auth_version claims ≤ us_auth_version u → user_kept u u' → session_kept now s s' →
  barred t claims u s = true → barred now claims u' s' = true.
Proof.
  intros Ht Hc [Kv Ka] (Ku & Ks & Kabs & Kr & Ki). unfold barred. rewrite Ku, Ks, Kabs.
  destruct (negb (same_text _ _)); [done|]. simpl.
  destruct (us_is_active u); [|by rewrite Ka].
  destruct (opt_is_some (se_revoked_at s)); [intros _; rewrite Kr by done; by destruct (us_is_active u')|].
  simpl. intros E. apply not_false_iff_true. intros E'. bool_simp.
  repeat match goal with Hb : _ || _ = true |- _ => apply orb_true_iff in Hb as [Hb|Hb] end; try lia;
    rewrite Ki in * by lia; bool_simp; lia.
Qed.

Lemma known_later t d t' d' claims :
  later py_str settings t d t' d' → known claims d → known claims d'.
Proof.
  intros Hl Hk. induction Hl as [|t1 d1 t2 d2 _ IH _ Hs]; [done|].
  destruct IH as (u & s & E & Hv). apply step_continues in Hs.
  destruct (holder_continues _ _ _ _ _ _ Hs E) as (u' & s' & E' & [Kv _] & _).
  exists u', s'. split; [done|lia].
Qed.
Lemma dead_later t d t' d' claims :
  later py_str settings t d t' d' → dead t claims d → dead t' claims d'.
Proof.
  intros Hl Hk. induction Hl as [t' Ht|t1 d1 t2 d2 _ IH Ht Hs].
  - destruct Hk as (u & s & E & Hv & Hb). exists u, s. split_and!; [done..|].
    eapply barred_kept; eauto using user_kept_refl, session_kept_refl.
  - destruct IH as (u & s & E & Hv & Hb). apply step_continues in Hs.
    destruct (holder_continues _ _ _ _ _ _ Hs E) as (u' & s' & E' & Ku & Ks).
    exists u', s'. split_and!; [done|destruct Ku; lia|]. by eapply barred_kept.
Qed.
Lemma dead_refused t claims d : dead t claims d → authenticate_access t claims d = (Err InvalidSessionError, d).
Proof. intros (u & s & E & _ & Hb). by rewrite authenticate_access_spec, E, Hb. Qed.

(** C32: access once lost never returns: a token that was accepted and is later
    refused (because the session was revoked or expired, the user was disabled,
    or the password or the sessions were reset) is refused for good, whatever
    is called afterwards. *)
Theorem lost_access_never_returns t0 d0 t1 d1 t2 d2 claims u e :
  authenticate_access t0 claims d0 = (Ok u, d0) → later py_str settings t0 d0 t1 d1 →
  (authenticate_access t1 claims d1).1 = Err e → later py_str settings t1 d1 t2 d2 →
  authenticate_access t2 claims d2 = (Err InvalidSessionError, d2).
Proof.
  intros E0 H01 E1 H12. apply dead_refused. apply (dead_later _ _ _ _ _ H12).
  assert (known claims d1) as (u1 & s1 & Eh & Hv).
  { apply (known_later _ _ _ _ _ H01). rewrite authenticate_access_spec in E0. injection E0 as E0.
    destruct (holder claims d0) as [[u0 s0]|] eqn:Eh; [|done].
    exists u0, s0. split; [done|]. destruct (barred t0 claims u0 s0) eqn:Eb; [done|].
    unfold barred in Eb. bool_simp. lia. }
  exists u1, s1. split_and!; [done..|]. rewrite authenticate_access_spec, Eh in E1. simpl in E1.
  by destruct (barred t1 claims u1 s1).
Qed.

(** *** Replayed refresh tokens *)

Lemma all_distinct_update {R} (same : R → R → bool) (p : R → bool) (g : R → R) t :
  (∀ a b, same (if p a then g a else a) (if p b then g b else b) = same a b) →
  all_distinct same (update_rows p g t) = all_distinct same t.
Proof.
  intros Hs. unfold update_rows. induction t as [|x t IH]; simpl; [done|]. rewrite IH. f_equal. f_equal.
  clear IH. induction t as [|y t IH]; simpl; [done|]. by rewrite Hs, IH.
Qed.
Lemma forallb_update {R} (q p : R → bool) (g : R → R) t :
  (∀ a, q (if p a then g a else a) = q a) → forallb q (update_rows p g t) = forallb q t.
Proof. intros Hq. unfold update_rows. induction t as [|x t IH]; simpl; [done|]. by rewrite Hq, IH. Qed.

Lemma sessions_valid_update p g t :
  (∀ s, se_id (g s) = se_id s ∧ se_issued_at (g s) = se_issued_at s
        ∧ se_absolute_expires_at (g s) = se_absolute_expires_at s
        ∧ se_inactivity_expires_at (g s) = se_inactivity_expires_at s) →
  sessions_valid (update_rows p g t) = sessions_valid t.
Proof.
  intros Hg. unfold sessions_valid. rewrite all_distinct_update, forallb_update; [done|..].
  - intros a. destruct (p a); [|done]. by destruct (Hg a) as (_ & -> & -> & ->).
  - intros a b. destruct (p a), (p b); by rewrite ?(proj1 (Hg a)), ?(proj1 (Hg b)).
Qed.
Lemma refresh_valid_revoke p now reason t :
  refresh_tokens_valid (update_rows p (refresh_revoked now reason) t) = refresh_tokens_valid t.
Proof.
  unfold refresh_tokens_valid. rewrite !all_distinct_update, forallb_update; [done|..].
  - intros a. by destruct (p a).
  - intros a b. by destruct (p a), (p b).
  - intros a b. by destruct (p a), (p b).
  - intros a b. by destruct (p a), (p b).
  - intros a b. by destruct (p a), (p b).
Qed.

Lemma bind_query {DB A B} (f : DB → A) (k : A → SE (conn DB) B) c :
  (query f ≫= k) c = k (f (working c)) c.
Proof. done. Qed.

Definition session_gone (id : string) (d : IdentityDb) : Prop :=
  ∃ s, select_one (session_with id) (sessions d) = Some s ∧ opt_is_some (se_revoked_at s) = true.

Lemma session_gone_later id t d t' d' :
  later py_str settings t d t' d' → session_gone id d → session_gone id d'.
Proof.
  intros Hl Hk. induction Hl as [|t1 d1 t2 d2 _ IH _ Hs]; [done|].
  destruct IH as (s & E & Hr). apply step_continues in Hs.
  destruct (co_sessions _ _ _ Hs id s E) as (s' & E' & _ & _ & _ & Kr & _). exists s'. auto.
Qed.

Lemma gone_no_access t claims d :
  session_gone (cl_session_id claims) d → authenticate_access t claims d = (Err InvalidSessionError, d).
Proof.
  intros (s & E & Hr). rewrite authenticate_access_spec. unfold holder. rewrite E.
  destruct (select_one _ (users d)) as [u|]; [|done]. unfold barred. rewrite Hr. by rewrite !orb_true_r.
Qed.

Lemma gone_no_refresh t w token d record :
  select_one (λ r, same_text (rt_token_digest r) (refresh_digest token)) (refresh_tokens d) = Some record →
  session_gone (rt_session_id record) d → is_ok (refresh py_str settings t w token d).1 = false.
Proof.
  intros Er (s & Es & Hr).
  destruct (refresh py_str settings t w token d) as [[x|e] d'] eqn:E; [|done]. exfalso.
  unfold refresh in E. apply with_session_Ok in E as (c & E & _). next E.
  apply query_Ok in E1 as [-> ->]. simpl in E. rewrite Er in E. next E. apply query_Ok in E1 as [-> ->].
  simpl in E. rewrite Es in E. next E. apply query_Ok in E1 as [-> ->]. simpl in E.
  destruct (select_one _ (users d)) as [u|]; [|done]. destruct (opt_is_some (rt_consumed_at record)).
  { next E. next E. next E. done. }
  unfold invalid_family in E. rewrite Hr in E. simpl in E. next E. next E. done.
Qed.

(** C33: a replayed refresh token is detected and fatal: presenting a token that
    was already consumed is refused and revokes its whole family, after which
    no token of the family is ever exchanged and no access token of the session
    is ever accepted. *)
Theorem replayed_refresh_kills_family now w token d record family user :
  select_one (λ r, same_text (rt_token_digest r) (refresh_digest token)) (refresh_tokens d) = Some record →
  opt_is_some (rt_consumed_at record) = true →
  select_one (session_with (rt_session_id record)) (sessions d) = Some family →
  select_one (user_with (se_user_id family)) (users d) = Some user →
  sessions_valid (sessions d) = true → refresh_tokens_valid (refresh_tokens d) = true →
  ∃ d1, refresh py_str settings now w token d = (Err InvalidSessionError, d1)
  ∧ ∀ t' d', later py_str settings now d1 t' d' →
      (∀ claims, cl_session_id claims = rt_session_id record →
         authenticate_access t' claims d' = (Err InvalidSessionError, d'))
      ∧ (∀ w' token' record',
           select_one (λ r, same_text (rt_token_digest r) (refresh_digest token')) (refresh_tokens d')
             = Some record' →
           rt_session_id record' = rt_session_id record →
           is_ok (refresh py_str settings t' w' token' d').1 = false).
Proof.
  intros Er Hc Es Eu Vs Vr.
  assert (∃ d1, refresh py_str settings now w token d = (Err InvalidSessionError, d1)
                ∧ session_gone (rt_session_id record) d1) as (d1 & E1 & Hg).
  { unfold refresh, with_session, refresh_by_digest, session_by_id, user_by_id.
    rewrite bind_query. cbn [working]. rewrite Er, bind_query. cbn [working].
    rewrite Es, bind_query. cbn [working]. rewrite Eu, Hc.
    unfold revoke_family, write_sessions, write_refresh_tokens.
    assert (se_id family = rt_session_id record) as Eid.
    { apply select_one_Some in Es as [_ Eid]. by apply String.eqb_eq in Eid. }
    unfold store_table, exec, mbind, SE_bind. cbn [working committed in_tx].
    rewrite sessions_valid_update by (intros; by split_and!). rewrite Vs. cbn [working committed in_tx].
    cbn [refresh_tokens put_sessions]. rewrite refresh_valid_revoke, Vr. eexists. split; [reflexivity|].
    exists (session_revoked now "refresh_reuse" family). split; [|done].
    simpl. rewrite select_one_updated by done. rewrite Es. simpl. f_equal.
    unfold session_with, same_text. by rewrite String.eqb_refl. }
  exists d1. split; [done|]. intros t' d' Hl. apply (session_gone_later _ _ _ _ _ Hl) in Hg. split.
  - intros claims Ec. apply gone_no_access. by rewrite Ec.
  - intros w' token' record' Er' Ec. eapply gone_no_refresh; [exact Er'|]. by rewrite Ec.
Qed.
End Access.

(** ** Concrete histories *)

#[local] Instance example_hasher : PasswordHasher :=
  {| pw_hash := λ _ password, password; pw_verify := String.eqb; pw_needs_rehash := λ _, false;
     pw_verify_hash := λ _ password, String.eqb_refl password |}.
#[local] Instance example_signer : AccessTokens := {| sign_access := canonical_json |}.
#[local] Instance example_unicode : UnicodeText := {| wide_normalize := λ s, s; wide_lower := λ s, s |}.
#[local] Instance example_uuid : NamedUuid := {| uuid5 := λ _ name, name |}.

Definition example_tokens : TokenSettings :=
  {| tk_issuer := "wto"; tk_audience := "web"; tk_ttl_minutes := 10; absolute_days := 30;
     inactivity_days := 7 |}.
Definition drawn (session refresh token : string) : Drawn :=
  {| dr_session := session; dr_refresh := refresh; dr_token := token; dr_jti := "j"; dr_salt := "s" |}.
Definition pass : string := "correct horse".

(** An installation with its administrator, who logs in and refreshes once. *)
Definition admin_db : IdentityDb :=
  (bootstrap_administrator no_str 0 "u1" "s" "Admin" pass (seed_rbac no_str 0 empty_identity).2).2.
Definition logged_in : IdentityDb :=
  (login no_str example_tokens 1 (drawn "s1" "r1" "t1") "admin" pass "i" "p" [] admin_db).2.
Definition refreshed : IdentityDb := (refresh no_str example_tokens 2 (drawn "s" "r2" "t2") "t1" logged_in).2.
Definition logged_out : IdentityDb := (logout no_str 3 "u1" "s1" refreshed).2.
Definition demoted : IdentityDb := (remove_role no_str 2 "u1" "administrator" "u1" admin_db).2.
Definition the_claims : AccessClaims :=
  {| cl_user_id := "u1"; cl_session_id := "s1"; cl_auth_version := 1; cl_jti := "j" |}.

Lemma admin_db_administered : Administered admin_db.
Proof. split; vm_compute; done. Qed.

Lemma demoted_history : later no_str example_tokens 1 admin_db 2 demoted.
Proof. unfold demoted. generalize admin_db. intros d. apply later_one; [lia|constructor]. Qed.
Lemma last_administrator_remains_witness : 1 ≤ active_administrator_count demoted.
Proof.
  exact (last_administrator_remains no_str example_tokens 1 admin_db 2 demoted demoted_history
    admin_db_administered).
Defined.

Lemma refreshed_history : later no_str example_tokens 1 logged_in 2 refreshed.
Proof. unfold refreshed. generalize logged_in. intros d. apply later_one; [lia|constructor]. Qed.
Lemma logged_out_history : later no_str example_tokens 2 refreshed 3 logged_out.
Proof. unfold logged_out. generalize refreshed. intros d. apply later_one; [lia|constructor]. Qed.
Lemma access_while_logged_in :
  authenticate_access 2 the_claims refreshed =
    (Ok (MkUser "u1" "admin" None pass true true 1 None (Some 1)), refreshed).
Proof. vm_compute. reflexivity. Qed.
Lemma access_after_logout : (authenticate_access 3 the_claims logged_out).1 = Err InvalidSessionError.
Proof. vm_compute. reflexivity. Qed.
Definition logged_in_again : IdentityDb :=
  (login no_str example_tokens 4 (drawn "s2" "r3" "t3") "admin" pass "i" "p" [] logged_out).2.
Lemma logged_in_again_history : later no_str example_tokens 3 logged_out 4 logged_in_again.
Proof. unfold logged_in_again. generalize logged_out. intros d. apply later_one; [lia|constructor]. Qed.

Lemma lost_access_never_returns_witness :
  authenticate_access 4 the_claims logged_in_again = (Err InvalidSessionError, logged_in_again).
Proof.
  exact (lost_access_never_returns no_str example_tokens 2 refreshed 3 logged_out 4 logged_in_again
    the_claims _ InvalidSessionError access_while_logged_in logged_out_history access_after_logout
    logged_in_again_history).
Defined.

Definition replayed_row : RefreshToken :=
  MkRefresh "r1" "s1" (sha256_hex "t1") None (Some "r2") 1 (1 + days 7) (Some 2) None None.
Definition replayed_family : AuthSession :=
  MkSession "s1" "u1" 1 1 (1 + days 30) (2 + days 7) (Some 2) None None [].
Definition replaying_user : User :=
  MkUser "u1" "admin" None pass true true 1 None (Some 1).
Lemma refreshed_rows :
  select_one (λ r, same_text (rt_token_digest r) (refresh_digest "t1")) (refresh_tokens refreshed)
    = Some replayed_row
  ∧ select_one (session_with "s1") (sessions refreshed) = Some replayed_family
  ∧ select_one (user_with "u1") (users refreshed) = Some replaying_user
  ∧ sessions_valid (sessions refreshed) = true ∧ refresh_tokens_valid (refresh_tokens refreshed) = true.
Proof. vm_compute. repeat split; reflexivity. Qed.

Lemma replayed_refresh_kills_family_witness :
  ∃ d1, refresh no_str example_tokens 3 (drawn "s" "r4" "t4") "t1" refreshed = (Err InvalidSessionError, d1)
    ∧ authenticate_access 4 the_claims d1 = (Err InvalidSessionError, d1).
Proof.
  destruct refreshed_rows as (E1 & E2 & E3 & V1 & V2).
  destruct (replayed_refresh_kills_family no_str example_tokens 3 (drawn "s" "r4" "t4") "t1" refreshed
    replayed_row replayed_family replaying_user E1 eq_refl E2 E3 V1 V2) as (d1 & E & Hl).
  exists d1. split; [exact E|]. apply (Hl 4 d1); [|reflexivity].
  apply later_refl. lia.
Defined.
