(* ===== verification/AgentIdentity.v ===== *)
(** * The identity of an agent

    [application/identity.py] of the desktop agent: enrollment, the rotation of
    the credential and its revocation, over the singleton identity row of the
    store and the platform's secret store.  Every access to the secret store,
    the database or the transport is one effect; before an effect the process
    may be killed, the coroutine cancelled or the platform fail, which is what
    [fate] says of it.  An effect that happens and whose answer is lost is the
    fate of the next one.  The transport is a function of the request and of
    the moment it is made. *)

From S2P Require Export StoreFrame.

(** [UUID(text)]: the canonical text of what the constructor accepts. *)
Class UuidText := {
  uuid_text : string → option string;
  uuid_text_idempotent : ∀ s u, uuid_text s = Some u → uuid_text u = Some u;
}.

(** [str] of a document that is neither a text nor an integer, and [int] of
    one that is not an integer. *)
Class PythonText := { text_of_json : json → string; int_of_json : json → result Z }.

(** ** Columns and documents *)

(** [row.get(column)] *)
Definition column (name : string) (row : gmap string sqlval) : sqlval := default VNull (row !! name).

Definition truthy (v : sqlval) : bool :=
  match v with
  | VNull => false
  | VInt z => negb (z =? 0)
  | VText s => negb (String.eqb s EmptyString)
  end.
(** [str(value)] *)
Definition column_text (v : sqlval) : string :=
  match v with VNull => "None" | VInt z => str_of_Z z | VText s => s end.

(** [document[key]] *)
Definition at_key (key : string) (document : json) : result json :=
  match document with
  | JObj kvs => match dict_get kvs key with Some v => Ok v | None => Err (KeyError key) end
  | _ => Err (ValueError "TypeError")
  end.

Section Documents.
Context `{PythonText} `{UuidText}.
Definition json_text (j : json) : string :=
  match j with JStr s => s | JInt z => str_of_Z z | other => text_of_json other end.
Definition json_int (j : json) : result Z :=
  match j with JInt z => Ok z | other => int_of_json other end.
(** [str(document[key])] and [int(document[key])] *)
Definition text_at (key : string) (document : json) : result string :=
  v ← at_key key document; mret (json_text v).
Definition int_at (key : string) (document : json) : result Z :=
  v ← at_key key document; json_int v.
(** [UUID(str(row[column]))] *)
Definition uuid_at (name : string) (row : gmap string sqlval) : result string :=
  of_option (ValueError "badly formed hexadecimal UUID string") (uuid_text (column_text (column name row))).
End Documents.

(** ** The device *)

Record Device := MkDevice { dev_store : Store; vault : gmap string string; ticks : nat }.

Definition set_vault (v : gmap string string) (s : Device) : Device := MkDevice (dev_store s) v (ticks s).

(** What the platform and the caller give to one operation. *)
Record Inputs := {
  fresh_uuid : nat → string;      (** [str(uuid4())] *)
  clock_text : nat → string;      (** [utc_now()] of a store call, or the clock in ISO form *)
  secure : bool;                  (** [platform.secret_store.secure] *)
  allow_insecure : bool;
  platform_id : string;
  platform_version : string;
  version : string;               (** [__version__] *)
}.

Section Identity.
Context `{Sha256} `{PythonText} `{UuidText}.
Context (fate : nat → option exc).
Context (send_enroll : nat → json → string → result json)
  (send_create_rotation : nat → string → json → string → result json)
  (send_activate_rotation : nat → string → string → json → string → result json).

Definition credential_fingerprint (value : string) : string := sha256_hex value.

(** One effect, unless it is where the operation stops. *)
Definition effect {A} (m : SE Device A) : SE Device A := λ s,
  let s' := MkDevice (dev_store s) (vault s) (S (ticks s)) in
  match fate (ticks s) with
  | Some e => (Err e, s')
  | None => m s'
  end.

Definition on_database {A} (m : SE Store A) : SE Device A :=
  effect (λ s, let '(r, st) := m (dev_store s) in (r, MkDevice st (vault s) (ticks s))).
Definition put_secret (key value : string) : SE Device unit :=
  effect (modify (λ s, set_vault (<[key := value]> (vault s)) s)).
Definition get_secret (key : string) : SE Device (option string) :=
  effect (get (λ s, vault s !! key)).
Definition delete_secret (key : string) : SE Device unit :=
  effect (modify (λ s, set_vault (delete key (vault s)) s)).
(** A request of the transport at the moment it is made. *)
Definition request {A} (send : nat → result A) : SE Device A :=
  effect (λ s, (send (ticks s), s)).

Definition require_secure_store (i : Inputs) : SE Device unit :=
  raise_if (negb (secure i) && negb (allow_insecure i))
    (SecureStoreUnavailableError "a persistent secure credential store is required").

Definition ensure_secret_value (key value : string) : SE Device unit :=
  current ← get_secret key;
  match current with
  | None => put_secret key value
  | Some v =>
      raise_if (negb (String.eqb (credential_fingerprint v) (credential_fingerprint value)))
        (StateConflictError "credential reference contains a different value")
  end.
Definition ensure_secret_absent (key : string) : SE Device unit :=
  current ← get_secret key;
  match current with Some _ => delete_secret key | None => mret tt end.

(** ** Enrollment *)

Definition enroll_payload (key token : string) (row : gmap string sqlval) : json :=
  let text name := JStr (column_text (column name row)) in
  JObj [("schema_version", JStr "1.0.0"); ("idempotency_key", JStr key);
        ("enrollment_token", JStr token); ("installation_id", text "installation_id");
        ("display_name", text "display_name"); ("platform", text "platform");
        ("platform_version", text "platform_version"); ("agent_version", text "agent_version");
        ("protocol_min_version", JStr "1.0.0"); ("protocol_max_version", JStr "1.0.0");
        ("agent_reported_at", text "enrollment_reported_at")].

Definition enroll (i : Inputs) (token display_name : string) : SE Device (gmap string sqlval) :=
  require_secure_store i ;;
  existing ← on_database identity;
  raise_if (match existing with Some row => truthy (column "agent_id" row) | None => false end)
    (IdentityNotEnrolledError "agent is already enrolled") ;;
  let kept name fresh := match existing with
                         | Some row => column_text (column name row)
                         | None => fresh
                         end in
  row ← on_database (ensure_identity (clock_text i 1)
    (kept "installation_id" (fresh_uuid i 0)) display_name (platform_id i) (platform_version i)
    (version i) (kept "enrollment_idempotency_key" (fresh_uuid i 1))
    (kept "enrollment_reported_at" (clock_text i 0)));
  key ← lift (uuid_at "enrollment_idempotency_key" row);
  response ← request (λ t, send_enroll t (enroll_payload key token row) key);
  issued ← lift (at_key "credential" response);
  credential ← lift (text_at "credential" issued);
  credential_id ← lift (text_at "credential_id" issued);
  let reference := "credential.active." +:+ credential_id in
  ensure_secret_value reference credential ;;
  device_id ← lift (text_at "device_id" response);
  agent_id ← lift (text_at "agent_id" response);
  protocol ← lift (text_at "protocol_version" response);
  received ← lift (text_at "server_received_at" response);
  number ← lift (int_at "credential_version" issued);
  expires ← lift (text_at "expires_at" issued);
  on_database (update_identity (clock_text i 2)
    [("device_id", VText device_id); ("agent_id", VText agent_id);
     ("protocol_version", VText protocol); ("enrolled_at", VText received);
     ("active_credential_id", VText credential_id); ("active_credential_version", VInt number);
     ("active_credential_fingerprint", VText (credential_fingerprint credential));
     ("active_credential_ref", VText reference); ("active_credential_expires_at", VText expires);
     ("rotation_state", VText "none")]) ;;
  enrolled ← on_database identity;
  match enrolled with Some row => mret row | None => raise AssertionError end.

(** [active_credential], the same in its two forms. *)
Definition active_credential : SE Device string :=
  found ← on_database identity;
  match found with
  | None => raise (IdentityNotEnrolledError "agent has no active identity")
  | Some row =>
      raise_if (negb (truthy (column "agent_id" row)) || truthy (column "revoked_at" row))
        (IdentityNotEnrolledError "agent has no active identity") ;;
      raise_if (negb (truthy (column "active_credential_ref" row)))
        (IdentityNotEnrolledError "agent has no active credential metadata") ;;
      credential ← get_secret (column_text (column "active_credential_ref" row));
      match credential with
      | None => raise (IdentityNotEnrolledError "active credential is unavailable")
      | Some v =>
          raise_if (negb (bool_decide (VText (credential_fingerprint v)
                                       = column "active_credential_fingerprint" row)))
            (IdentityNotEnrolledError "active credential fingerprint mismatch") ;;
          mret v
      end
  end.

(** ** Rotation *)

(** [self.store.identity()] followed by [assert identity is not None] *)
Definition known_identity : SE Device (gmap string sqlval) :=
  found ← on_database identity;
  match found with Some row => mret row | None => raise AssertionError end.

Definition finalize_activated (now : string) (row : gmap string sqlval) : SE Device unit :=
  let previous := column "previous_credential_ref" row in
  (if truthy previous && negb (bool_decide (previous = column "active_credential_ref" row))
   then ensure_secret_absent (column_text previous)
   else mret tt) ;;
  on_database (update_identity now
    [("previous_credential_id", VNull); ("previous_credential_ref", VNull);
     ("pending_credential_id", VNull); ("pending_credential_version", VNull);
     ("pending_credential_fingerprint", VNull); ("pending_credential_ref", VNull);
     ("pending_credential_expires_at", VNull); ("rotation_id", VNull);
     ("rotation_idempotency_key", VNull); ("activation_idempotency_key", VNull);
     ("rotation_state", VText "none")]).

Definition rotation_request (key : string) : json :=
  JObj [("schema_version", JStr "1.0.0"); ("idempotency_key", JStr key)].

(** Fetch the pending credential and store it: [requested] to
    [pending_stored]. *)
Definition store_pending (i : Inputs) (row : gmap string sqlval) : SE Device unit :=
  active ← active_credential;
  rotation_key ← lift (uuid_at "rotation_idempotency_key" row);
  response ← request (λ t, send_create_rotation t active (rotation_request rotation_key) rotation_key);
  issued ← lift (at_key "pending_credential" response);
  pending ← lift (text_at "credential" issued);
  pending_id ← lift (text_at "credential_id" issued);
  let pending_ref := "credential.pending." +:+ pending_id in
  ensure_secret_value pending_ref pending ;;
  number ← lift (int_at "credential_version" issued);
  expires ← lift (text_at "expires_at" issued);
  rotation_id ← lift (text_at "rotation_id" response);
  on_database (update_identity (clock_text i 1)
    [("pending_credential_id", VText pending_id); ("pending_credential_version", VInt number);
     ("pending_credential_fingerprint", VText (credential_fingerprint pending));
     ("pending_credential_ref", VText pending_ref); ("pending_credential_expires_at", VText expires);
     ("rotation_id", VText rotation_id); ("rotation_state", VText "pending_stored")]).

(** Activate the stored pending credential: to [activated], then [none]. *)
Definition activate_pending (i : Inputs) (row : gmap string sqlval) : SE Device unit :=
  let pending_ref := column_text (column "pending_credential_ref" row) in
  pending ← get_secret pending_ref;
  match pending with
  | None => raise (IdentityNotEnrolledError "pending credential is unavailable")
  | Some value =>
      raise_if (negb (bool_decide (VText (credential_fingerprint value)
                                   = column "pending_credential_fingerprint" row)))
        (IdentityNotEnrolledError "pending credential is unavailable") ;;
      activation_key ← lift (uuid_at "activation_idempotency_key" row);
      rotation_id ← lift (uuid_at "rotation_id" row);
      on_database (update_identity (clock_text i 2) [("rotation_state", VText "activation_uncertain")]) ;;
      request (λ t, send_activate_rotation t value rotation_id (rotation_request activation_key)
                      activation_key) ;;
      on_database (update_identity (clock_text i 3)
        [("previous_credential_id", column "active_credential_id" row);
         ("previous_credential_ref", VText (column_text (column "active_credential_ref" row)));
         ("active_credential_id", column "pending_credential_id" row);
         ("active_credential_version", column "pending_credential_version" row);
         ("active_credential_fingerprint", column "pending_credential_fingerprint" row);
         ("active_credential_ref", VText pending_ref);
         ("active_credential_expires_at", column "pending_credential_expires_at" row);
         ("rotation_state", VText "activated")]) ;;
      activated ← known_identity;
      finalize_activated (clock_text i 4) activated
  end.

Definition rotate (i : Inputs) : SE Device (gmap string sqlval) :=
  require_secure_store i ;;
  found ← on_database identity;
  match found with
  | None => raise (IdentityNotEnrolledError "agent is not enrolled")
  | Some row =>
      raise_if (negb (truthy (column "agent_id" row))) (IdentityNotEnrolledError "agent is not enrolled") ;;
      let state := column_text (column "rotation_state" row) in
      if String.eqb state "activated" then
        finalize_activated (clock_text i 4) row ;; known_identity
      else
        row1 ← (if String.eqb state "none" then
                  on_database (update_identity (clock_text i 0)
                    [("rotation_idempotency_key", VText (fresh_uuid i 0));
                     ("activation_idempotency_key", VText (fresh_uuid i 1));
                     ("rotation_state", VText "requested")]) ;;
                  known_identity
                else mret row);
        row2 ← (if str_in state ["none"; "requested"] then
                  store_pending i row1 ;; known_identity
                else mret row1);
        (if str_in state ["none"; "requested"; "pending_stored"; "activation_uncertain"] then
           activate_pending i row2
         else mret tt) ;;
        known_identity
  end.

(** ** Revocation *)

Definition credential_references : list string :=
  ["active_credential_ref"; "pending_credential_ref"; "previous_credential_ref"].

Definition forget_reference (row : gmap string sqlval) (field : string) : SE Device unit :=
  if truthy (column field row) then ensure_secret_absent (column_text (column field row)) else mret tt.
Definition forget_references (row : gmap string sqlval) : SE Device unit :=
  for_each credential_references (forget_reference row).

(** [mark_revoked], the same in its two forms. *)
Definition mark_revoked (i : Inputs) : SE Device unit :=
  found ← on_database identity;
  match found with
  | None => mret tt
  | Some row =>
      let revoked_at := column "revoked_at" row in
      on_database (update_identity (clock_text i 1)
        [("revoked_at", if truthy revoked_at then revoked_at else VText (clock_text i 0));
         ("rotation_state", VText "revoked")]) ;;
      forget_references row ;;
      on_database (update_identity (clock_text i 2)
        [("active_credential_ref", VNull); ("pending_credential_ref", VNull);
         ("previous_credential_ref", VNull); ("rotation_state", VText "revoked")])
  end.

Definition purge_local_identity : SE Device unit :=
  found ← on_database identity;
  match found with Some row => forget_references row | None => mret tt end ;;
  on_database purge_identity.
End Identity.
