(* ===== verification/AgentIdentityTheorems.v ===== *)
(** * What the agent's identity survives

    However often enrollment, rotation and revocation are interrupted, between
    any two effects, and whatever the server answers, an agent that was enrolled
    and not revoked still holds the credential its identity names.  [safely] is a
    Hoare triple whose second postcondition is for the interrupted run. *)

From S2P Require Export AgentIdentity Examples.

(** What a device keeps: its identity row and its secrets. *)
Definition Kept : Type := option (gmap string sqlval) * gmap string string.
Definition kept (s : Device) : Kept := (agent_identity (dev_store s), vault s).

Section Survival.
Context `{Sha256} `{PythonText} `{UuidText}.

(** The secret store has a value under the reference, with the fingerprint. *)
Definition held (v : gmap string string) (reference fingerprint : sqlval) : Prop :=
  ∃ r value, reference = VText r ∧ r ≠ EmptyString ∧ v !! r = Some value
             ∧ fingerprint = VText (credential_fingerprint value).

Definition state_of (row : gmap string sqlval) : string := column_text (column "rotation_state" row).
Definition active_held (row : gmap string sqlval) (v : gmap string string) : Prop :=
  held v (column "active_credential_ref" row) (column "active_credential_fingerprint" row).
Definition pending_held (row : gmap string sqlval) (v : gmap string string) : Prop :=
  held v (column "pending_credential_ref" row) (column "pending_credential_fingerprint" row).

Definition text_or_null (x : sqlval) : Prop := x = VNull ∨ ∃ p, x = VText p.

Record Sound (row : gmap string sqlval) (v : gmap string string) : Prop := {
  so_active : truthy (column "agent_id" row) = true → active_held row v;
  so_pending : state_of row ∈ ["pending_stored"; "activation_uncertain"] → pending_held row v;
  so_previous : text_or_null (column "previous_credential_ref" row);
}.

(** The identity of a revoked agent holds nothing. *)
Definition retired (row : gmap string sqlval) : Prop :=
  state_of row = "revoked" ∧ text_or_null (column "previous_credential_ref" row).

Definition usable (k : Kept) : Prop :=
  match k.1 with
  | None => True
  | Some row => retired row ∨ Sound row k.2
  end.

(** ** Columns after an update *)

Fixpoint assigned (name : string) (values : list (string * sqlval)) (old : sqlval) : sqlval :=
  match values with
  | [] => old
  | kv :: rest => assigned name rest (if String.eqb kv.1 name then kv.2 else old)
  end.

Lemma column_insert name key x row :
  column name (<[key := x]> row) = if String.eqb key name then x else column name row.
Proof.
  unfold column. destruct (String.eqb_spec key name) as [->|Hne].
  - by rewrite lookup_insert_eq.
  - by rewrite lookup_insert_ne.
Qed.
Lemma column_assign name values now row :
  name ≠ "updated_at" → column name (assign values now row) = assigned name values (column name row).
Proof.
  intros Hn. unfold assign. rewrite column_insert.
  destruct (String.eqb_spec "updated_at" name); [congruence|].
  revert row. induction values as [|[k x] values IH]; intros row; simpl; [done|].
  by rewrite IH, column_insert.
Qed.

Lemma held_insert v r x ref fp : v !! r = None → held v ref fp → held (<[r := x]> v) ref fp.
Proof.
  intros Hr (q & value & -> & He & Hq & ->). exists q, value. split_and!; [done|done| |done].
  rewrite lookup_insert_ne; [done|]. congruence.
Qed.
Lemma held_delete v r ref fp : ref ≠ VText r → held v ref fp → held (delete r v) ref fp.
Proof.
  intros Hr (q & value & -> & He & Hq & ->). exists q, value. split_and!; [done|done| |done].
  rewrite lookup_delete_ne; [done|]. congruence.
Qed.

Lemma usable_insert o v r x : v !! r = None → usable (o, v) → usable (o, <[r := x]> v).
Proof.
  intros Hr. unfold usable. simpl. destruct o as [row|]; [|done]. intros [?|[Sa Sp Sq]]; [by left|right].
  split; [intros E|intros E|exact Sq]; (apply held_insert; [exact Hr|]); [exact (Sa E)|exact (Sp E)].
Qed.

(** ** Effects *)

Context (fate : nat → option exc).

(** From a state where [P] holds, an operation either ends with [Q] or stops
    with a usable identity. *)
Definition safely {A} (P : Kept → Prop) (m : SE Device A) (Q : A → Kept → Prop) : Prop :=
  ∀ s, P (kept s) → match m s with
                    | (Ok a, s') => Q a (kept s')
                    | (Err _, s') => usable (kept s')
                    end.

Lemma safely_ret {A} (a : A) (P : Kept → Prop) (Q : A → Kept → Prop) :
  (∀ k, P k → Q a k) → safely P (mret a) Q.
Proof. intros HQ s Hs. by apply HQ. Qed.
Lemma safely_raise {A} e (P : Kept → Prop) (Q : A → Kept → Prop) :
  (∀ k, P k → usable k) → safely P (raise e) Q.
Proof. intros HP s Hs. by apply HP. Qed.
Lemma safely_bind {A B} (m : SE Device A) (f : A → SE Device B) P Q R :
  safely P m Q → (∀ a, safely (Q a) (f a) R) → safely P (m ≫= f) R.
Proof.
  intros Hm Hf s Hs. specialize (Hm s Hs). unfold mbind, SE_bind.
  destruct (m s) as [[a|e] s']; [by apply Hf|done].
Qed.
Lemma safely_raise_if b e P :
  (∀ k, P k → usable k) → safely P (raise_if b e : SE Device unit) (λ _ k, b = false ∧ P k).
Proof. intros HP s Hs. unfold raise_if. destruct b; [by apply HP|by split]. Qed.
Lemma safely_lift {A} (r : result A) P :
  (∀ k, P k → usable k) → safely P (lift r) (λ a k, r = Ok a ∧ P k).
Proof. intros HP s Hs. unfold lift. destruct r as [a|e]; [by split|by apply HP]. Qed.
Lemma safely_weaken {A} (m : SE Device A) (P P' : Kept → Prop) (Q Q' : A → Kept → Prop) :
  safely P m Q → (∀ k, P' k → P k) → (∀ a k, Q a k → Q' a k) → safely P' m Q'.
Proof.
  intros Hm HP HQ s Hs. specialize (Hm s (HP _ Hs)). destruct (m s) as [[a|e] s']; auto.
Qed.

Lemma safely_effect {A} (m : SE Device A) P Q :
  (∀ k, P k → usable k) → safely P m Q → safely P (effect fate m) Q.
Proof.
  intros HP Hm s Hs. unfold effect. destruct (fate (ticks s)); [by apply HP|].
  exact (Hm (MkDevice (dev_store s) (vault s) (S (ticks s))) Hs).
Qed.

Lemma safely_identity P :
  (∀ k, P k → usable k) → safely P (on_database fate identity) (λ o k, o = k.1 ∧ P k).
Proof. intros HP. apply safely_effect; [done|]. intros s Hs. simpl. by split. Qed.

Lemma safely_get_secret key P :
  (∀ k, P k → usable k) → safely P (get_secret fate key) (λ o k, o = k.2 !! key ∧ P k).
Proof. intros HP. apply safely_effect; [done|]. intros s Hs. simpl. by split. Qed.

Lemma safely_request {A} (send : nat → result A) P :
  (∀ k, P k → usable k) → safely P (request fate send) (λ _ k, P k).
Proof.
  intros HP. apply safely_effect; [done|]. intros s Hs. simpl.
  destruct (send (ticks s)); [done|by apply HP].
Qed.

Lemma safely_ensure_secret key value o v0 (Hu : usable (o, v0)) :
  safely (λ k, k = (o, v0)) (ensure_secret_value fate key value)
    (λ _ k, usable k ∧ k.1 = o
            ∧ (∃ x, k.2 !! key = Some x ∧ credential_fingerprint x = credential_fingerprint value)
            ∧ (k.2 = v0 ∨ v0 !! key = None ∧ k.2 = <[key := value]> v0)).
Proof.
  eapply safely_bind; [apply safely_get_secret; by intros k ->|]. intros [x|].
  - eapply safely_weaken; [apply (safely_raise_if _ _ (λ k, k = (o, v0) ∧ v0 !! key = Some x))|..].
    + by intros k [-> _].
    + intros k [Ex ->]. by split.
    + intros _ k [Hb [-> Ex]]. apply negb_false_iff, String.eqb_eq in Hb. simpl. split_and!; eauto.
  - apply safely_effect; [by intros k [_ ->]|]. intros s [E Ek]. rewrite Ek in E. simpl in E.
    unfold kept in *. simpl in *. injection Ek as E1 E2. rewrite E1, E2. split_and!; [|done| |].
    + by apply usable_insert.
    + exists value. by rewrite lookup_insert_eq.
    + right. split; [by symmetry|done].
Qed.

(** An update of the identity row. *)
Lemma safely_update now values row v :
  forallb (λ kv, str_in kv.1 updatable) values = true → values ≠ [] → usable (Some row, v) →
  safely (λ k, k = (Some row, v)) (on_database fate (update_identity now values))
    (λ _ k, k = (Some (assign values now row), v)).
Proof.
  intros Hval Hne Hu. apply safely_effect; [by intros k ->|]. intros s E. unfold kept in *. injection E as E1 E2.
  unfold update_identity, raise_if. rewrite Hval. cbn [negb]. run_tx.
  rewrite bool_decide_eq_false_2 by done. run_tx. rewrite E1.
  destruct (identity_check _); simpl; [by rewrite E2|by rewrite E1, E2].
Qed.
Lemma safely_update_none now values v :
  safely (λ k, k = (None, v)) (on_database fate (update_identity now values)) (λ _ k, k = (None, v)).
Proof.
  apply safely_effect; [by intros k ->|]. intros s E. unfold kept in *. injection E as E1 E2.
  unfold update_identity, raise_if. destruct (forallb _ values); simpl; [|by rewrite E1].
  run_tx. destruct (bool_decide _); run_tx; unfold usable; simpl; rewrite ?E1; simpl; by rewrite ?E1, ?E2.
Qed.

Lemma safely_known row v :
  usable (Some row, v) →
  safely (λ k, k = (Some row, v)) (known_identity fate) (λ r k, r = row ∧ k = (Some row, v)).
Proof.
  intros Hu. eapply safely_bind; [apply safely_identity; by intros k ->|]. intros [r|].
  - apply safely_ret. intros k [E ->]. by injection E as ->.
  - apply safely_raise. by intros k [_ ->].
Qed.

Lemma safely_ensure_absent key o v :
  usable (o, v) → usable (o, delete key v) →
  safely (λ k, k = (o, v)) (ensure_secret_absent fate key)
    (λ _ k, k = (o, v) ∧ v !! key = None ∨ k = (o, delete key v)).
Proof.
  intros Hu1 Hu2. eapply safely_bind; [apply safely_get_secret; by intros k ->|]. intros [x|].
  - apply safely_effect; [by intros k [_ ->]|]. intros s [_ E]. unfold kept in *.
    injection E as E1 E2. simpl. right. by rewrite E1, E2.
  - apply safely_ret. intros k [E ->]. simpl in E. left. done.
Qed.

(** ** Operations *)

Lemma safely_exists {A X} (P : X → Kept → Prop) (m : SE Device A) Q :
  (∀ x, safely (P x) m Q) → safely (λ k, ∃ x, P x k) m Q.
Proof. intros Hx s (x & Hs). exact (Hx x s Hs). Qed.
Lemma safely_known_fact {A} (F : Prop) (P : Kept → Prop) (m : SE Device A) Q :
  (F → safely P m Q) → safely (λ k, F ∧ P k) m Q.
Proof. intros HF s [Hf Hs]. exact (HF Hf s Hs). Qed.

(** What only reads: [k] stays. *)
Lemma safely_reads_bind {A B} (m : SE Device A) (f : A → SE Device B) K F R :
  safely (λ k, k = K) m (λ a k, F a ∧ k = K) → (∀ a, F a → safely (λ k, k = K) (f a) R) →
  safely (λ k, k = K) (m ≫= f) R.
Proof.
  intros Hm Hf. eapply safely_bind; [exact Hm|]. intros a. apply safely_known_fact. apply Hf.
Qed.

Context (send_enroll : nat → json → string → result json)
  (send_create_rotation : nat → string → json → string → result json)
  (send_activate_rotation : nat → string → string → json → string → result json).

Section At.
Context (K : Kept) (HK : usable K).

Lemma reads_identity : safely (λ k, k = K) (on_database fate identity) (λ o k, o = K.1 ∧ k = K).
Proof.
  eapply safely_weaken; [apply (safely_identity (λ k, k = K)); by intros k ->|done|].
  by intros o k [-> ->].
Qed.
Lemma reads_secret key : safely (λ k, k = K) (get_secret fate key) (λ o k, o = K.2 !! key ∧ k = K).
Proof.
  eapply safely_weaken; [apply (safely_get_secret key (λ k, k = K)); by intros k ->|done|].
  by intros o k [-> ->].
Qed.
Lemma reads_raise_if b e :
  safely (λ k, k = K) (raise_if b e : SE Device unit) (λ _ k, b = false ∧ k = K).
Proof. apply safely_raise_if. by intros k ->. Qed.
Lemma reads_lift {A} (r : result A) : safely (λ k, k = K) (lift r) (λ a k, r = Ok a ∧ k = K).
Proof. apply safely_lift. by intros k ->. Qed.
Lemma reads_request {A} (send : nat → result A) :
  safely (λ k, k = K) (request fate send) (λ _ k, True ∧ k = K).
Proof.
  eapply safely_weaken; [apply (safely_request send (λ k, k = K)); by intros k ->|done|]. done.
Qed.
Lemma reads_raise {A} e (Q : A → Kept → Prop) : safely (λ k, k = K) (raise e) Q.
Proof. apply safely_raise. by intros k ->. Qed.

Lemma reads_active_credential :
  safely (λ k, k = K) (active_credential fate) (λ _ k, True ∧ k = K).
Proof.
  eapply safely_reads_bind; [apply reads_identity|]. intros [row|] _; [|apply reads_raise].
  eapply safely_reads_bind; [apply reads_raise_if|intros _ _].
  eapply safely_reads_bind; [apply reads_raise_if|intros _ _].
  eapply safely_reads_bind; [apply reads_secret|]. intros [x|] _; [|apply reads_raise].
  eapply safely_reads_bind; [apply reads_raise_if|intros _ _]. by apply safely_ret.
Qed.
End At.

(** The next statement only reads. *)
Ltac reads lem := eapply safely_reads_bind; [apply lem; assumption|].

Ltac columns := unfold active_held, pending_held, state_of in *; rewrite !column_assign by done; simpl.

Lemma store_pending_safe i row v :
  Sound row v →
  safely (λ k, k = (Some row, v)) (store_pending fate send_create_rotation i row)
    (λ _ k, ∃ row' v', k = (Some row', v') ∧ Sound row' v' ∧ state_of row' = "pending_stored").
Proof.
  intros Hs. assert (usable (Some row, v)) as Hu by (by right). unfold store_pending.
  reads reads_active_credential. intros active _. reads reads_lift. intros rotation_key _.
  reads reads_request. intros response _. reads reads_lift. intros issued _.
  reads reads_lift. intros pending _. reads reads_lift.
  intros pending_id _. cbv zeta. set (pending_ref := "credential.pending." +:+ pending_id).
  eapply safely_bind; [by apply safely_ensure_secret|]. intros [].
  apply (safely_weaken _ (λ k, ∃ v', (Sound row v' ∧ ∃ x, v' !! pending_ref = Some x
    ∧ credential_fingerprint x = credential_fingerprint pending) ∧ k = (Some row, v')) _
    (λ _ k, ∃ row' v', k = (Some row', v') ∧ Sound row' v' ∧ state_of row' = "pending_stored")); [|..|done].
  2:{ intros [o v'] (_ & E & Hx & Hv). simpl in *. subst o. exists v'. split; [|done]. split; [|done].
      destruct Hv as [->|[Hn ->]]; [done|]. destruct Hs as [Sa Sp Sq].
      split; [intros E|intros E|exact Sq]; (apply held_insert; [exact Hn|]); [exact (Sa E)|exact (Sp E)]. }
  apply safely_exists. intros v'. apply safely_known_fact. intros [Hs' (x & Hx & Ex)].
  assert (usable (Some row, v')) as Hu' by (by right).
  reads reads_lift. intros number _. reads reads_lift. intros expires _.
  reads reads_lift. intros rotation_id _.
  eapply safely_weaken; [apply safely_update; done|done|]. intros _ k ->. eexists _, v'.
  split; [reflexivity|]. split; [|unfold state_of; columns; done].
  destruct Hs' as [Sa Sp Sq]. split.
  - columns. exact Sa.
  - intros _. unfold pending_held. columns. exists pending_ref, x. by rewrite Ex.
  - columns. exact Sq.
Qed.

Lemma finalize_safe now row v :
  Sound row v → state_of row = "activated" →
  safely (λ k, k = (Some row, v)) (finalize_activated fate now row) (λ _ k, usable k).
Proof.
  intros [Sa Sp Sq] Hst. unfold finalize_activated. cbv zeta.
  assert (∀ v', (truthy (column "agent_id" row) = true → active_held row v') → Sound row v') as Hmk.
  { intros v' Ha. split; [done| |done]. rewrite Hst. intros E.
    repeat (apply elem_of_cons in E as [E|E]; [done|]). by apply elem_of_nil in E. }
  assert (∀ now v', Sound row v' → safely (λ k, k = (Some row, v'))
    (on_database fate (update_identity now
    [("previous_credential_id", VNull); ("previous_credential_ref", VNull);
     ("pending_credential_id", VNull); ("pending_credential_version", VNull);
     ("pending_credential_fingerprint", VNull); ("pending_credential_ref", VNull);
     ("pending_credential_expires_at", VNull); ("rotation_id", VNull);
     ("rotation_idempotency_key", VNull); ("activation_idempotency_key", VNull);
     ("rotation_state", VText "none")])) (λ _ k, usable k)) as Hlast.
  { intros now' v' [Sa' _ _]. eapply safely_weaken; [apply safely_update; [done|done|right; by apply Hmk]|done|].
    intros _ k ->. right. split.
    - columns. exact Sa'.
    - unfold state_of. columns. intros E.
      repeat (apply elem_of_cons in E as [E|E]; [done|]). by apply elem_of_nil in E.
    - columns. by left. }
  destruct (truthy _ && _) eqn:Eb.
  - apply andb_true_iff in Eb as [Et Eb]. apply negb_true_iff, bool_decide_eq_false in Eb.
    destruct Sq as [Sq|(p & Sq)]; rewrite Sq in Et, Eb |- *; [done|]. simpl.
    assert (Sound row (delete p v)) as Hdel.
    { apply Hmk. intros Ha. apply held_delete; [congruence|by apply Sa]. }
    eapply safely_bind; [apply safely_ensure_absent; right; [by apply Hmk|exact Hdel]|]. intros [] s Hk.
    destruct Hk as [[Hk _]|Hk]; [by apply (Hlast now v); [apply Hmk|]|by apply (Hlast now (delete p v))].
  - eapply safely_bind; [apply (safely_ret _ _ (λ _ k, k = (Some row, v))); done|]. intros [].
    apply Hlast. by apply Hmk.
Qed.

Lemma not_pending st : st ∈ ["none"; "requested"; "activated"; "revoked"] →
  ¬ st ∈ ["pending_stored"; "activation_uncertain"].
Proof. intros H1' H2'. set_unfold. destruct_or!; congruence. Qed.

Lemma activate_pending_safe i row v :
  Sound row v → state_of row ∈ ["pending_stored"; "activation_uncertain"] →
  safely (λ k, k = (Some row, v)) (activate_pending fate send_activate_rotation i row) (λ _ k, usable k).
Proof.
  intros Hs Hst. assert (usable (Some row, v)) as Hu by (by right). unfold activate_pending. cbv zeta.
  destruct Hs as [Sa Sp Sq]. specialize (Sp Hst).
  reads reads_secret. intros [value|] _; [|by apply reads_raise].
  reads reads_raise_if. intros [] _. reads reads_lift. intros activation_key _.
  reads reads_lift. intros rotation_id _.
  eapply safely_bind; [by apply safely_update|]. intros [].
  set (row1 := assign [("rotation_state", VText "activation_uncertain")] (clock_text i 2) row).
  assert (Sound row1 v) as Hs1 by (unfold row1; split; columns; auto).
  assert (usable (Some row1, v)) as Hu1 by (by right).
  reads reads_request. intros reply _. eapply safely_bind; [by apply safely_update|]. intros [].
  match goal with |- safely (λ k, k = (Some ?r, v)) _ _ => set (row2 := r) end.
  destruct Sp as (r & x & Er & He & Ex & Ef).
  assert (Sound row2 v) as Hs2.
  { unfold row2. split.
    - columns. intros _. exists r, x. rewrite Er, Ef. done.
    - columns. intros E. by apply not_pending in E; [|set_solver].
    - columns. by right; eexists. }
  eapply safely_bind; [apply safely_known; by right|]. intros r2. apply safely_known_fact. intros ->.
  apply finalize_safe; [done|]. unfold row2. by columns.
Qed.

Lemma rotate_safe i k0 :
  usable k0 →
  safely (λ k, k = k0) (AgentIdentity.rotate fate send_create_rotation send_activate_rotation i) (λ _ k, usable k).
Proof.
  intros Hu. unfold AgentIdentity.rotate, require_secure_store. reads reads_raise_if. intros [] _.
  reads reads_identity. intros [row|] Ek; [|by apply reads_raise]. destruct k0 as [o v]. simpl in Ek. subst o.
  reads reads_raise_if. intros [] _. cbv zeta. fold (state_of row).
  assert (∀ P, (∀ k, P k → usable k) → safely P (known_identity fate) (λ _ k, usable k)) as Hend.
  { intros P HP s Hs. pose proof (safely_identity P HP s Hs) as E. unfold known_identity, mbind, SE_bind.
    destruct (on_database fate identity s) as [[[r|]|e] s']; simpl; try done; by apply HP, E. }
  assert (retired row ∨ Sound row v) as [[Hrev _]|Hs] by exact Hu.
  { rewrite Hrev. cbn [String.eqb Ascii.eqb Bool.eqb str_in existsb]. simpl.
    eapply safely_bind; [by apply (safely_ret _ _ (λ _ k, k = (Some row, v)))|]. intros r1.
    eapply safely_bind; [by apply (safely_ret _ _ (λ _ k, k = (Some row, v)))|]. intros r2.
    eapply safely_bind; [by apply (safely_ret _ _ (λ _ k, k = (Some row, v)))|]. intros [].
    apply Hend. by intros k ->. }
  destruct (String.eqb_spec (state_of row) "activated") as [Hact|Hact].
  { eapply safely_bind; [by apply finalize_safe|]. intros []. by apply Hend. }
  apply (safely_bind _ _ _ (λ row1 k, (Sound row1 v ∧ state_of row1 =
    (if String.eqb (state_of row) "none" then "requested" else state_of row)) ∧ k = (Some row1, v))).
  { destruct (String.eqb_spec (state_of row) "none") as [Hn|Hn].
    - eapply safely_bind; [by apply safely_update|]. intros []. eapply safely_weaken;
        [apply safely_known|intros k ->; reflexivity|].
      + right. destruct Hs as [Sa Sp Sq]. split; columns; [done| |done].
        intros E. by apply not_pending in E; [|set_solver].
      + intros r k [-> ->]. split; [|done]. destruct Hs as [Sa Sp Sq]. split; [split|]; columns; try done.
        intros E. by apply not_pending in E; [|set_solver].
    - apply safely_ret. by intros k ->. }
  intros row1. apply safely_known_fact. intros [Hs1 Hst1].
  apply (safely_bind _ _ _ (λ row2 k, ∃ v2, (Sound row2 v2 ∧
    (str_in (state_of row) ["none"; "requested"; "pending_stored"; "activation_uncertain"] = true →
     state_of row2 ∈ ["pending_stored"; "activation_uncertain"])) ∧ k = (Some row2, v2))).
  { destruct (str_in (state_of row) ["none"; "requested"]) eqn:E1.
    - eapply safely_bind; [by apply store_pending_safe|]. intros [].
      apply safely_exists. intros row'. apply safely_exists. intros v'.
      intros s (Ek & Hs' & Hst'). specialize (safely_known row' v' (or_intror Hs') s Ek).
      destruct (known_identity fate s) as [[r|e] s']; [|done]. intros [-> Ek']. exists v'.
      split; [|done]. split; [done|]. rewrite Hst'. set_solver.
    - apply safely_ret. intros k ->. exists v. split; [|done]. split; [done|]. rewrite Hst1.
      destruct (String.eqb_spec (state_of row) "none") as [Hn|Hn]; [by rewrite Hn in E1|].
      rewrite str_in_spec. intros Hin. apply not_true_iff_false in E1. rewrite str_in_spec in E1.
      set_unfold. destruct_or!; tauto. }
  intros row2. apply safely_exists. intros v2. apply safely_known_fact. intros [Hs2 Hst2].
  apply (safely_bind _ _ _ (λ _ k, usable k)); [|intros a; by apply Hend].
  destruct (str_in (state_of row) _); [apply activate_pending_safe; [done|by apply Hst2]|].
  apply safely_ret. intros k ->. by right.
Qed.

Lemma forget_safe row :
  safely (λ k, ∃ row' v, retired row' ∧ k = (Some row', v)) (forget_references fate row)
    (λ _ k, ∃ row' v, retired row' ∧ k = (Some row', v)).
Proof.
  unfold forget_references. induction credential_references as [|field fields IH]; simpl.
  { by apply safely_ret. }
  apply (safely_bind _ _ _ (λ _ k, ∃ row' v, retired row' ∧ k = (Some row', v))); [|intros []; exact IH].
  unfold forget_reference. destruct (truthy _); [|by apply safely_ret].
  apply safely_exists. intros row'. apply safely_exists. intros v. apply safely_known_fact. intros Hr.
  eapply safely_weaken; [apply (safely_ensure_absent _ (Some row') v); by left|done|].
  intros _ k [[-> _]| ->]; eauto.
Qed.

Lemma mark_revoked_safe i k0 :
  usable k0 → safely (λ k, k = k0) (mark_revoked fate i) (λ _ k, usable k).
Proof.
  intros Hu. unfold mark_revoked. reads reads_identity. intros [row|] Ek; [|by apply safely_ret; intros k ->].
  destruct k0 as [o v]. simpl in Ek. subst o. cbv zeta.
  eapply safely_bind; [by apply safely_update|]. intros [].
  apply (safely_bind _ _ _ (λ _ k, ∃ row' v', retired row' ∧ k = (Some row', v'))).
  { eapply safely_weaken; [apply forget_safe| |done]. intros k ->. eexists _, v. split; [|reflexivity].
    split; columns; [done|]. destruct Hu as [[_ Hp]|Hs]; [exact Hp|exact (so_previous _ _ Hs)]. }
  intros []. apply safely_exists. intros row'. apply safely_exists. intros v'. apply safely_known_fact.
  intros Hr. eapply safely_weaken; [apply safely_update; [done|done|by left; exact Hr]|intros k ->; reflexivity|].
  intros _ k ->. left. split; columns; [done|by left].
Qed.

Fixpoint first_given (name : string) (given : list (string * sqlval)) (old : sqlval) : sqlval :=
  match given with
  | [] => old
  | kv :: rest => if String.eqb kv.1 name then kv.2 else first_given name rest old
  end.
Lemma column_given name given base :
  column name (foldr (λ kv m, <[kv.1 := kv.2]> m) base given) = first_given name given (column name base).
Proof. induction given as [|kv given IH]; simpl; [done|]. by rewrite column_insert, IH. Qed.

(** A row inserted by [ensure_identity], column by column. *)
Lemma new_identity_column name given :
  str_in name (["agent_id"; "previous_credential_ref"]) = true →
  column name (new_identity given) = first_given name given VNull.
Proof.
  intros Hn. unfold str_in, existsb in Hn. unfold new_identity. rewrite column_given. f_equal.
  destruct (String.eqb_spec name "agent_id") as [->|_]; [vm_compute; reflexivity|].
  destruct (String.eqb_spec name "previous_credential_ref") as [->|_]; [vm_compute; reflexivity|discriminate].
Qed.
Lemma new_identity_state given :
  column "rotation_state" (new_identity given) = first_given "rotation_state" given (VText "none").
Proof. unfold new_identity. rewrite column_given. f_equal. Qed.

Lemma new_identity_sound given v :
  forallb (λ kv, negb (str_in kv.1 ["agent_id"; "previous_credential_ref"; "rotation_state"])) given = true →
  truthy (column "agent_id" (new_identity given)) = false ∧ Sound (new_identity given) v.
Proof.
  intros Hf.
  assert (∀ name old, str_in name ["agent_id"; "previous_credential_ref"; "rotation_state"] = true →
            first_given name given old = old) as Hg.
  { intros name old Hn. induction given as [|kv rest IH]; simpl in *; [done|].
    apply andb_true_iff in Hf as [Hk Hf]. apply negb_true_iff in Hk.
    destruct (String.eqb_spec kv.1 name) as [<-|]; [congruence|by apply IH]. }
  assert (column "agent_id" (new_identity given) = VNull) as Ha
    by (rewrite new_identity_column by done; by apply Hg).
  rewrite Ha. split; [done|]. split.
  - rewrite Ha. done.
  - unfold state_of. rewrite new_identity_state, Hg by done. intros E. by apply not_pending in E; [|set_solver].
  - left. rewrite new_identity_column by done. by apply Hg.
Qed.

#[local] Opaque new_identity.
Lemma safely_ensure_identity now a b c d e f g o v :
  usable (o, v) →
  safely (λ k, k = (o, v)) (on_database fate (ensure_identity now a b c d e f g))
    (λ r k, (o = Some r ∨ o = None ∧ truthy (column "agent_id" r) = false ∧ Sound r v) ∧ k = (Some r, v)).
Proof.
  intros Hu. apply safely_effect; [by intros k ->|]. intros s E. unfold kept in *. injection E as E1 E2.
  unfold ensure_identity, identity. run_tx. rewrite E1. destruct o as [row|]; simpl.
  - rewrite E1, E2. simpl. rewrite E1. split; [by left|done].
  - rewrite E2. split; [|done]. right. split; [done|]. by apply new_identity_sound.
Qed.

Lemma enroll_safe i token display_name k0 :
  usable k0 →
  safely (λ k, k = k0) (enroll fate send_enroll i token display_name) (λ _ k, usable k).
Proof.
  intros Hu. unfold enroll, require_secure_store. reads reads_raise_if. intros [] _.
  reads reads_identity. intros existing Ek. reads reads_raise_if. intros [] Hnew. cbv zeta.
  destruct k0 as [o v]. simpl in Ek. subst existing.
  eapply safely_bind; [by apply safely_ensure_identity|]. intros row. apply safely_known_fact. intros Hrow.
  assert (truthy (column "agent_id" row) = false ∧ (retired row ∨ Sound row v)) as [Hag Hs].
  { destruct Hrow as [->|(-> & ? & ?)]; [by split|]. split; [done|by right]. }
  assert (usable (Some row, v)) as Hu' by exact Hs. clear Hrow Hnew Hu.
  reads reads_lift. intros key _. reads reads_request. intros response _. reads reads_lift. intros issued _.
  reads reads_lift. intros credential _. reads reads_lift. intros credential_id _.
  set (reference := "credential.active." +:+ credential_id).
  eapply safely_bind; [by apply safely_ensure_secret|]. intros [].
  apply (safely_weaken _ (λ k, ∃ v', (usable (Some row, v') ∧ ∃ x, v' !! reference = Some x
    ∧ credential_fingerprint x = credential_fingerprint credential) ∧ k = (Some row, v')) _
    (λ _ k, usable k)); [|intros [o' v'] (? & E & ? & _); simpl in *; subst o'; by exists v'|done].
  apply safely_exists. intros v'. apply safely_known_fact. intros [Hu2 (x & Hx & Ex)].
  do 6 (reads reads_lift; intros ? _).
  eapply safely_bind; [by apply safely_update|]. intros [].
  match goal with |- safely (λ k, k = (Some ?r, v')) _ _ => set (row' := r) end.
  assert (usable (Some row', v')) as Hu3.
  { right. unfold row'. split.
    - intros _. columns. exists reference, x. by rewrite Ex.
    - columns. intros E. by apply not_pending in E; [|set_solver].
    - columns. destruct Hs as [[_ Hp]|Hs]; [exact Hp|exact (so_previous _ _ Hs)]. }
  reads reads_identity. intros [r|] _; [apply safely_ret; intros k E; by rewrite E|by apply reads_raise].
Qed.
End Survival.

(** ** Histories *)

(** One operation of the identity manager, completed or interrupted anywhere,
    with any answers of the server. *)
Inductive identity_step `{Sha256} `{PythonText} `{UuidText} (s : Device) : Device → Prop :=
  | step_enroll fate send i token name : identity_step s (enroll fate send i token name s).2
  | step_rotate fate create activate i : identity_step s (AgentIdentity.rotate fate create activate i s).2
  | step_mark_revoked fate i : identity_step s (mark_revoked fate i s).2.

Definition identity_history `{Sha256} `{PythonText} `{UuidText} : Device → Device → Prop := rtc identity_step.

Section Histories.
Context `{Sha256} `{PythonText} `{UuidText}.

Lemma safely_usable {A} (m : SE Device A) s :
  safely (λ k, k = kept s) m (λ _ k, usable k) → usable (kept (m s).2).
Proof. intros Hm. specialize (Hm s eq_refl). by destruct (m s) as [[a|e] s']. Qed.

Lemma identity_step_usable s s' : identity_step s s' → usable (kept s) → usable (kept s').
Proof.
  intros [fate send i token name|fate create activate i|fate i] Hu; apply safely_usable.
  - by apply enroll_safe.
  - by apply rotate_safe.
  - by apply mark_revoked_safe.
Qed.

Lemma identity_history_usable s s' : identity_history s s' → usable (kept s) → usable (kept s').
Proof. induction 1; eauto using identity_step_usable. Qed.

Lemma column_text_eqb_nonempty r : r ≠ EmptyString → truthy (VText r) = true.
Proof. intros Hr. simpl. by destruct (String.eqb_spec r EmptyString). Qed.

(** C12: However often enrollment, rotation and revocation were interrupted
    between any two of their effects, and whatever the server answered, a device
    that is enrolled and not revoked still obtains its credential: the secret
    store has the value its identity names, with the recorded fingerprint. *)
Theorem credential_survives_crashes s0 s row :
  agent_identity (dev_store s0) = None → identity_history s0 s →
  agent_identity (dev_store s) = Some row →
  truthy (column "agent_id" row) = true → truthy (column "revoked_at" row) = false →
  column_text (column "rotation_state" row) ≠ "revoked" →
  ∃ credential s', active_credential (λ _, None) s = (Ok credential, s')
    ∧ vault s !! column_text (column "active_credential_ref" row) = Some credential
    ∧ column "active_credential_fingerprint" row = VText (credential_fingerprint credential).
Proof.
  intros Hempty Hh Hrow Ha Hr Hst.
  assert (usable (kept s)) as Hu.
  { apply (identity_history_usable s0 s Hh). unfold usable, kept. by rewrite Hempty. }
  unfold usable, kept in Hu. simpl in Hu. rewrite Hrow in Hu. destruct Hu as [[Hret _]|[Sa _ _]]; [done|].
  destruct (Sa Ha) as (r & value & Er & He & Ev & Ef). exists value. eexists.
  rewrite Er. simpl. split; [|done].
  unfold active_credential, on_database, effect, identity, get_secret, mbind, SE_bind. run_tx. simpl.
  rewrite Hrow. simpl. rewrite Ha, Hr, Er. simpl. rewrite (proj2 (String.eqb_neq r EmptyString) He). simpl.
  rewrite Ev, Ef. simpl. rewrite bool_decide_true by done. reflexivity.
Qed.
End Histories.

(** ** A device whose rotation is cut between two effects *)

Definition example_text : PythonText :=
  {| text_of_json := λ _, "document"; int_of_json := λ _, Err (ValueError "not an integer") |}.
(** Texts of 36 characters. *)
Definition example_uuid : UuidText.
Proof.
  refine {| uuid_text := λ s, if Nat.eqb (String.length s) 36 then Some s else None |}.
  intros s u E. destruct (Nat.eqb (String.length s) 36) eqn:El; [|done]. injection E as <-. by rewrite El.
Defined.
#[local] Existing Instances example_text example_uuid.

Definition example_device_inputs : Inputs :=
  {| fresh_uuid := λ n, if Nat.eqb n 0 then "00000000-0000-4000-8000-000000000001"
                        else "00000000-0000-4000-8000-000000000002";
     clock_text := λ _, "2026-01-01T00:00:00Z"; secure := true; allow_insecure := false;
     platform_id := "linux"; platform_version := "6"; version := "1" |}.
Definition enroll_answer (t : nat) (payload : json) (key : string) : result json :=
  Ok (JObj [("credential", JObj [("credential", JStr "first"); ("credential_id", JStr "c1");
                                 ("credential_version", JInt 1); ("expires_at", JStr "later")]);
            ("device_id", JStr "d1"); ("agent_id", JStr "a1"); ("protocol_version", JStr "1.0.0");
            ("server_received_at", JStr "now")]).
Definition rotation_answer (t : nat) (active : string) (payload : json) (key : string) : result json :=
  Ok (JObj [("rotation_id", JStr "00000000-0000-4000-8000-000000000003");
            ("pending_credential",
             JObj [("credential", JStr "second"); ("credential_id", JStr "c2");
                   ("credential_version", JInt 2); ("expires_at", JStr "later")])]).
Definition activation_answer (t : nat) (pending rotation_id : string) (payload : json) (key : string)
  : result json := Ok (JObj []).

Definition bare_device : Device := MkDevice empty_store ∅ 0.
Definition enrolled_device : Device :=
  (enroll (λ _, None) enroll_answer example_device_inputs "token" "agent" bare_device).2.
(** The answer to the activation never arrives. *)
Definition interrupted_device : Device :=
  (AgentIdentity.rotate (λ t, if Nat.eqb t 20 then Some (TransportError "lost") else None)
     rotation_answer activation_answer example_device_inputs enrolled_device).2.

Definition interrupted_row : gmap string sqlval := default ∅ (agent_identity (dev_store interrupted_device)).

Lemma interrupted_history : identity_history bare_device interrupted_device.
Proof.
  unfold interrupted_device, enrolled_device, identity_history. generalize bare_device. intros s.
  eapply rtc_l; [|apply rtc_once]; constructor.
Qed.
Lemma interrupted_recorded : agent_identity (dev_store interrupted_device) = Some interrupted_row.
Proof.
  unfold interrupted_row.
  assert (opt_is_some (agent_identity (dev_store interrupted_device)) = true) as E by (vm_compute; reflexivity).
  by destruct (agent_identity (dev_store interrupted_device)).
Qed.
Lemma interrupted_enrolled : truthy (column "agent_id" interrupted_row) = true.
Proof. vm_compute. reflexivity. Qed.
Lemma interrupted_active : truthy (column "revoked_at" interrupted_row) = false.
Proof. vm_compute. reflexivity. Qed.
Lemma interrupted_state :
  String.eqb (column_text (column "rotation_state" interrupted_row)) "activation_uncertain" = true.
Proof. vm_compute. reflexivity. Qed.

Lemma credential_survives_crashes_witness :
  ∃ credential s', active_credential (λ _, None) interrupted_device = (Ok credential, s')
    ∧ vault interrupted_device !! column_text (column "active_credential_ref" interrupted_row) = Some credential
    ∧ column "active_credential_fingerprint" interrupted_row = VText (credential_fingerprint credential).
Proof.
  apply (credential_survives_crashes bare_device interrupted_device interrupted_row).
  - reflexivity.
  - exact interrupted_history.
  - exact interrupted_recorded.
  - exact interrupted_enrolled.
  - exact interrupted_active.
  - rewrite (proj1 (String.eqb_eq _ _) interrupted_state). discriminate.
Defined.
