(* ===== verification/LinuxChannels.v ===== *)
(** * Wi-Fi channels on Linux

    [platforms/linux/frequency.py]: channel numbers and bands of frequencies, and
    the closed geometry of 20, 80 and 160 MHz capture channels. *)

From S2P Require Export Prelude.

Definition SUPPORTED_CAPTURE_WIDTHS_MHZ : list Z := [20; 80; 160].
Definition SUPPORTED_WIDTHS_BY_BAND (band : string) : list Z :=
  if String.eqb band "2.4GHz" then [20]
  else if String.eqb band "5GHz" then SUPPORTED_CAPTURE_WIDTHS_MHZ
  else if String.eqb band "6GHz" then SUPPORTED_CAPTURE_WIDTHS_MHZ
  else [].
Definition IW_WIDTH_TOKENS : list (Z * string) := [(20, "HT20"); (80, "80"); (160, "160")].
Definition CHANNEL_GEOMETRY_VERSION : string := "linux-channel-geometry-v1".

(** [range(first, stop, step)] for a positive step *)
Definition py_range (first stop step : Z) : list Z :=
  map (λ i, first + step * Z.of_nat i) (seq 0 (Z.to_nat ((stop - first + step - 1) / step))).

Definition FIVE_GHZ_PRIMARY_CHANNELS : list Z :=
  [36; 40; 44; 48; 52; 56; 60; 64] ++ py_range 100 145 4 ++ [149; 153; 157; 161; 165; 169; 173; 177].
Definition SIX_GHZ_PRIMARY_CHANNELS : list Z := 2 :: py_range 1 234 4.
Definition WIDE_CENTERS_BY_BAND_AND_WIDTH (band : string) (width : Z) : option (list Z) :=
  if String.eqb band "5GHz" then
    if width =? 80 then Some [42; 58; 106; 122; 138; 155; 171]
    else if width =? 160 then Some [50; 114; 163] else None
  else if String.eqb band "6GHz" then
    if width =? 80 then Some (py_range 7 216 16)
    else if width =? 160 then Some (py_range 15 208 32) else None
  else None.
Definition PRIMARY_OFFSETS_BY_WIDTH (width : Z) : option (list Z) :=
  if width =? 80 then Some [-6; -2; 2; 6]
  else if width =? 160 then Some [-14; -10; -6; -2; 2; 6; 10; 14] else None.

Record LinuxChannelInfo := { channel : Z; band : string }.
Record LinuxChannelDefinition := {
  def_band : string; primary_channel : Z; control_frequency_mhz : Z; width_mhz : Z;
  center_frequency_1_mhz : Z; center_frequency_2_mhz : option Z; geometry_version : string;
}.

Definition member (x : Z) (xs : list Z) : bool := existsb (Z.eqb x) xs.

Definition channel_frequency_mhz (band : string) (channel : Z) : result Z :=
  if String.eqb band "5GHz" then Ok (5000 + 5 * channel)
  else if String.eqb band "6GHz" then Ok (if channel =? 2 then 5935 else 5950 + 5 * channel)
  else Err (ValueError "wide channel centers are supported only in 5 and 6 GHz").

Definition primary_channels (band : string) : list Z :=
  if String.eqb band "2.4GHz" then py_range 1 15 1
  else if String.eqb band "5GHz" then FIVE_GHZ_PRIMARY_CHANNELS
  else if String.eqb band "6GHz" then SIX_GHZ_PRIMARY_CHANNELS
  else [].

Definition frequency_to_channel (f : Z) : option LinuxChannelInfo :=
  if f =? 2484 then Some {| channel := 14; band := "2.4GHz" |}
  else if (2412 <=? f) && (f <=? 2472) && ((f - 2407) mod 5 =? 0)
  then Some {| channel := (f - 2407) / 5; band := "2.4GHz" |}
  else if (5000 <=? f) && (f <=? 5895) && ((f - 5000) mod 5 =? 0)
       && ((1 <=? (f - 5000) / 5) && ((f - 5000) / 5 <=? 179))
  then Some {| channel := (f - 5000) / 5; band := "5GHz" |}
  else if f =? 5935 then Some {| channel := 2; band := "6GHz" |}
  else if (5955 <=? f) && (f <=? 7115) && ((f - 5950) mod 5 =? 0)
  then Some {| channel := (f - 5950) / 5; band := "6GHz" |}
  else if (58320 <=? f) && (f <=? 69120) && ((f - 56160) mod 2160 =? 0)
  then Some {| channel := (f - 56160) / 2160; band := "60GHz" |}
  else None.

Definition raise_value (b : bool) (msg : string) : result unit := if b then Err (ValueError msg) else Ok tt.

Definition the_definition (band : string) (channel f width center : Z) : LinuxChannelDefinition := {|
  def_band := band; primary_channel := channel; control_frequency_mhz := f; width_mhz := width;
  center_frequency_1_mhz := center; center_frequency_2_mhz := None; geometry_version := CHANNEL_GEOMETRY_VERSION |}.

Definition capture_channel_definition (f c width : Z) : result LinuxChannelDefinition :=
  match frequency_to_channel f with
  | None => Err (ValueError "channel and frequency are not a known matching pair")
  | Some information =>
      raise_value (negb (channel information =? c)) "channel and frequency are not a known matching pair" ;;
      raise_value (negb (member width (SUPPORTED_WIDTHS_BY_BAND (band information))))
        "capture width is not supported for the selected frequency band" ;;
      raise_value (negb (member c (primary_channels (band information))))
        "capture control channel is not an aligned primary channel" ;;
      raise_value ((f =? 5935) && negb (width =? 20)) "5935 MHz channel 2 capture is supported only at 20 MHz" ;;
      if width =? 20 then Ok (the_definition (band information) c f width f)
      else
        match PRIMARY_OFFSETS_BY_WIDTH width, WIDE_CENTERS_BY_BAND_AND_WIDTH (band information) width with
        | Some offsets, Some centers =>
            match filter (λ center, Is_true (member c (map (Z.add center) offsets))) centers with
            | [center] =>
                center_frequency ← channel_frequency_mhz (band information) center;
                Ok (the_definition (band information) c f width center_frequency)
            | _ => Err (ValueError "capture control channel does not belong to one wide-channel block")
            end
        | _, _ => Err (ValueError "capture channel width has no closed geometry table")
        end
  end.

Definition validate_complete_channel_definition (f c width : Z) (center_1 center_2 : option Z)
    : result LinuxChannelDefinition :=
  expected ← capture_channel_definition f c width;
  match center_1, center_2 with
  | None, _ => Err (ValueError "channel definition lacks center_frequency_1")
  | Some _, Some _ => Err (ValueError "80+80 MHz channel definitions are not supported")
  | Some center, None =>
      if center =? center_frequency_1_mhz expected then Ok expected
      else Err (ValueError "channel definition center_frequency_1 is inconsistent")
  end.

Definition validate_frequency_channel_width (f c width : Z) : result LinuxChannelInfo :=
  definition ← capture_channel_definition f c width;
  Ok {| channel := primary_channel definition; band := def_band definition |}.

Definition iw_width_token (width : Z) : result string :=
  match find (λ p, p.1 =? width) IW_WIDTH_TOKENS with
  | Some (_, token) => Ok token
  | None => Err (ValueError "capture width is not supported by the iw command policy")
  end.

(** ** Geometry *)

(** The 20 MHz around the control frequency lie in the block around the center, on
    its raster, and the block lies in the band. *)
Definition in_block (d : LinuxChannelDefinition) : bool :=
  let f := control_frequency_mhz d in
  let low := center_frequency_1_mhz d - width_mhz d / 2 in
  let high := center_frequency_1_mhz d + width_mhz d / 2 in
  (low <=? f - 10) && (f + 10 <=? high) && ((f - 10 - low) mod 20 =? 0)
  && (if String.eqb (def_band d) "2.4GHz" then (2400 <=? low) && (high <=? 2500)
      else if String.eqb (def_band d) "5GHz" then (5150 <=? low) && (high <=? 5900)
      else (5925 <=? low) && (high <=? 7125)).
Definition sound_definition (f width : Z) : bool :=
  match frequency_to_channel f with
  | None => true
  | Some i =>
      match capture_channel_definition f (channel i) width with
      | Err _ => true
      | Ok d => in_block d && (control_frequency_mhz d =? f) && (primary_channel d =? channel i) && (width_mhz d =? width)
                && match center_frequency_2_mhz d with None => true | Some _ => false end
      end
  end.
Lemma definitions_checked :
  forallb (λ f, forallb (sound_definition f) SUPPORTED_CAPTURE_WIDTHS_MHZ) (py_range 2400 7200 1) = true.
Proof. by vm_compute. Qed.
