(* ===== verification/WindowsChannels.v ===== *)
(** * Wi-Fi channels on Windows

    [platforms/windows/frequency.py] and [platforms/windows/phy.py]. *)

From S2P Require Export Prelude.

Record ChannelInfo := { frequency_mhz : Z; channel : Z; band : string }.

Definition frequency_to_channel (f : Z) : option ChannelInfo :=
  if f =? 2484 then Some {| frequency_mhz := f; channel := 14; band := "2.4GHz" |}
  else if (2412 <=? f) && (f <=? 2472) && ((f - 2407) mod 5 =? 0)
       && ((1 <=? (f - 2407) / 5) && ((f - 2407) / 5 <=? 13))
  then Some {| frequency_mhz := f; channel := (f - 2407) / 5; band := "2.4GHz" |}
  else if f =? 5935 then Some {| frequency_mhz := f; channel := 2; band := "6GHz" |}
  else if (5955 <=? f) && (f <=? 7115) && ((f - 5950) mod 5 =? 0)
       && ((1 <=? (f - 5950) / 5) && ((f - 5950) / 5 <=? 233))
  then Some {| frequency_mhz := f; channel := (f - 5950) / 5; band := "6GHz" |}
  else if (5000 <=? f) && (f <=? 5895) && ((f - 5000) mod 5 =? 0)
       && ((1 <=? (f - 5000) / 5) && ((f - 5000) / 5 <=? 179))
  then Some {| frequency_mhz := f; channel := (f - 5000) / 5; band := "5GHz" |}
  else None.

Definition PHY_STANDARDS : list (Z * string) :=
  [(1, "802.11-fhss"); (2, "802.11-dsss"); (3, "802.11-ir"); (4, "802.11a"); (5, "802.11b"); (6, "802.11g");
   (7, "802.11n"); (8, "802.11ac"); (9, "802.11ad"); (10, "802.11ax"); (11, "802.11be")].
Definition phy_type_to_standard (phy_type : Z) : option string :=
  snd <$> find (λ p, p.1 =? phy_type) PHY_STANDARDS.
