(* ===== verification/ChannelTheorems.v ===== *)
(** * What the channel tables guarantee

    A capture channel lies in its wide block and its band, the definition of a
    channel is the only one that validates, and the two platforms agree on every
    frequency below 60 GHz. *)

From S2P Require Export LinuxChannels.
From S2P Require WindowsChannels.

Lemma py_range_in first stop x : first ≤ x → x < stop → x ∈ py_range first stop 1.
Proof.
  intros H1 H2. unfold py_range. apply list_elem_of_fmap. exists (Z.to_nat (x - first)). split; [lia|].
  apply elem_of_seq. rewrite Z.div_1_r. lia.
Qed.
Lemma forallb_in {A} (p : A → bool) xs x : forallb p xs = true → x ∈ xs → p x = true.
Proof. intros Hf Hx. eapply forallb_forall in Hf; [exact Hf|by apply list_elem_of_In]. Qed.
Lemma member_in x xs : member x xs = true → x ∈ xs.
Proof. intros (y & Hy & Hx)%existsb_exists. apply Z.eqb_eq in Hx as ->. by apply list_elem_of_In. Qed.

(** A known frequency below 60 GHz is one of the checked ones. *)
Lemma known_frequency f i :
  frequency_to_channel f = Some i → 2412 ≤ f ≤ 7115 ∨ band i = "60GHz".
Proof.
  unfold frequency_to_channel. intros Hf.
  repeat (case_match; bool_simp; [simplify_eq/=; lia || by right|]). done.
Qed.
Lemma defined_channel f c width d :
  capture_channel_definition f c width = Ok d →
  ∃ i, frequency_to_channel f = Some i ∧ channel i = c ∧ width ∈ SUPPORTED_CAPTURE_WIDTHS_MHZ ∧ band i ≠ "60GHz".
Proof.
  unfold capture_channel_definition. destruct (frequency_to_channel f) as [i|] eqn:Ei; [|done].
  unfold raise_value. destruct (negb (channel i =? c)) eqn:Ec; [done|]. simpl.
  destruct (negb (member width _)) eqn:Ew; [done|]. intros _. bool_simp. exists i. apply member_in in Ew.
  unfold SUPPORTED_WIDTHS_BY_BAND in Ew. split_and!; try done.
  - repeat case_match; try done; [apply list_elem_of_singleton in Ew as ->; by left|by apply elem_of_nil in Ew].
  - intros Hb. rewrite Hb in Ew. by apply elem_of_nil in Ew.
Qed.
Lemma sound_channel f c width d :
  capture_channel_definition f c width = Ok d →
  in_block d = true ∧ control_frequency_mhz d = f ∧ primary_channel d = c ∧ width_mhz d = width ∧ center_frequency_2_mhz d = None.
Proof.
  intros Hd. destruct (defined_channel f c width d Hd) as (i & Hi & <- & Hw & Hb).
  destruct (known_frequency f i Hi) as [Hf|]; [|done].
  pose proof (forallb_in _ _ f definitions_checked (py_range_in 2400 7200 f ltac:(lia) ltac:(lia))) as Hs.
  apply (forallb_in _ _ width) in Hs; [|done]. unfold sound_definition in Hs. rewrite Hi, Hd in Hs. bool_simp.
  split_and!; try done. by destruct (center_frequency_2_mhz d).
Qed.

(** C39: a channel definition that is accepted for a capture has the frequency, the
    channel and the width asked for, its 20 MHz control channel lies on the raster
    of the block around its center frequency and the block within the edges of its
    band; the complete definition of the snapshot validates with this center and
    with no other. *)
Theorem capture_channel_geometry f c width d :
  capture_channel_definition f c width = Ok d →
  let low := center_frequency_1_mhz d - width / 2 in
  let high := center_frequency_1_mhz d + width / 2 in
  primary_channel d = c ∧ control_frequency_mhz d = f ∧ width_mhz d = width
  ∧ low ≤ f - 10 ∧ f + 10 ≤ high ∧ (f - 10 - low) mod 20 = 0
  ∧ (2400 ≤ low ∧ high ≤ 2500 ∨ 5150 ≤ low ∧ high ≤ 5900 ∨ 5925 ≤ low ∧ high ≤ 7125)
  ∧ (∀ center_1 center_2 d', validate_complete_channel_definition f c width center_1 center_2 = Ok d' ↔
       d' = d ∧ center_1 = Some (center_frequency_1_mhz d) ∧ center_2 = None).
Proof.
  intros Hd. destruct (sound_channel f c width d Hd) as (Hb & Hf & Hc & Hw & _). unfold in_block in Hb. rewrite Hf, Hw in Hb.
  cbv zeta. apply andb_true_iff in Hb as [Hb He]. bool_simp.
  split_and!; try (done || lia).
  - destruct (String.eqb _ "2.4GHz"); [|destruct (String.eqb _ "5GHz")]; bool_simp; lia.
  - intros c1 c2 d'. unfold validate_complete_channel_definition. rewrite Hd. simpl. destruct c1 as [x|]; [|naive_solver].
    destruct c2; [naive_solver|]. destruct (x =? _) eqn:Ex; [apply Z.eqb_eq in Ex as ->; naive_solver|].
    apply Z.eqb_neq in Ex. naive_solver.
Qed.
Lemma capture_channel_geometry_witness :
  ∃ d, capture_channel_definition 5975 5 160 = Ok d ∧ center_frequency_1_mhz d = 6025
    ∧ center_frequency_1_mhz d - 160 / 2 ≤ 5975 - 10.
Proof.
  eexists. split; [by vm_compute|]. split; [done|].
  destruct (capture_channel_geometry 5975 5 160 (the_definition "6GHz" 5 5975 160 6025)) as (_ & _ & _ & Hl & _); [by vm_compute|exact Hl].
Defined.

(** The tables of Windows and of Linux give every frequency the same channel and
    the same band, but that Windows knows none at 60 GHz. *)
Theorem platforms_agree f c b :
  (∃ i, WindowsChannels.frequency_to_channel f = Some i ∧ WindowsChannels.channel i = c ∧ WindowsChannels.band i = b)
  ↔ (∃ i, frequency_to_channel f = Some i ∧ channel i = c ∧ band i = b) ∧ b ≠ "60GHz".
Proof.
  unfold frequency_to_channel, WindowsChannels.frequency_to_channel.
  pose proof (Z.div_mod (f - 2407) 5). pose proof (Z.div_mod (f - 5950) 5).
  repeat (case_match; bool_simp; try lia); naive_solver lia.
Qed.
