(* ===== verification/CaptureState.v ===== *)
(** * Interface snapshots

    [class InterfaceState] and [networkmanager_restore_plan] of
    [platforms/linux/capture.py] with the identities of [capture_identity.py]: what
    a snapshot of an interface holds, when it validates, and in which order the
    connections of NetworkManager are restored. *)

From Stdlib Require Import Ascii.
From S2P Require Export LinuxChannels AgentIdentity.

(** ** Identities *)

Inductive CaptureInterfaceType := managed | monitor | AP | mesh.
#[global] Instance CaptureInterfaceType_eq_dec : EqDecision CaptureInterfaceType.
Proof. solve_decision. Defined.
Definition interface_type_text (t : CaptureInterfaceType) : string :=
  match t with managed => "managed" | monitor => "monitor" | AP => "AP" | mesh => "mesh" end.
Definition IW_INTERFACE_TYPE_COMMAND_MAPPER_VERSION : string := "iw-interface-type-command-v1".

(** [parse_capture_interface_type] of a text *)
Definition parse_capture_interface_type (value : string) : result CaptureInterfaceType :=
  let normalized := if String.eqb value "mesh point" then "mesh" else value in
  match find (λ t, String.eqb normalized (interface_type_text t)) [managed; monitor; AP; mesh] with
  | Some t => Ok t
  | None => Err (ValueError "capture interface type is not safely restorable")
  end.
Definition canonical_interface_type_to_iw_command_token (t : CaptureInterfaceType) : string :=
  match t with AP => "__ap" | _ => interface_type_text t end.

Definition maximum_connection_id_bytes : nat := 255.
(** A character of the category [Cc] in a text of UTF-8. *)
Fixpoint has_control (s : string) : bool :=
  match s with
  | EmptyString => false
  | String c s' =>
      let n := nat_of_ascii c in
      (n <? 32)%nat || (n =? 127)%nat
      || match s' with
         | String d _ => (n =? 194)%nat && (128 <=? nat_of_ascii d)%nat && (nat_of_ascii d <=? 159)%nat
         | EmptyString => false
         end
      || has_control s'
  end.
Definition validate_networkmanager_connection_id (value : string) : result unit :=
  raise_value (String.eqb value EmptyString) "NetworkManager connection ID is invalid" ;;
  raise_value (maximum_connection_id_bytes <? String.length value)%nat "NetworkManager connection ID is too long" ;;
  raise_value (has_control value) "NetworkManager connection ID contains a control character".

(** ** Snapshots *)

Record Observation := { ob_connection_uuid : string; ob_interface : string; ob_restore_position : Z }.
#[global] Instance Observation_eq_dec : EqDecision Observation.
Proof. solve_decision. Defined.
Inductive ConnectionsStatus := COMPLETE | PARTIAL | UNAVAILABLE.
#[global] Instance ConnectionsStatus_eq_dec : EqDecision ConnectionsStatus.
Proof. solve_decision. Defined.
Definition status_text (s : ConnectionsStatus) : string :=
  match s with COMPLETE => "complete" | PARTIAL => "partial" | UNAVAILABLE => "unavailable" end.

(** What the radio is tuned to. *)
Record Radio := {
  ra_channel : option Z; ra_frequency_mhz : option Z; ra_width_mhz : option Z;
  ra_center_frequency_1_mhz : option Z; ra_center_frequency_2_mhz : option Z;
  ra_band : option string; ra_geometry_version : option string;
}.
(** The connections NetworkManager has active on the interface. *)
Record Connections := {
  active_connection_uuids : list string; ordered_active_connection_uuids : list string;
  active_connection_interfaces : list Observation; active_connections_status : ConnectionsStatus;
  network_manager_connection_uuid : option string; primary_connection_uuid : option string;
  network_manager_connection_name : option string;
}.
Record InterfaceState := {
  interface : string; interface_type : CaptureInterfaceType; administratively_up : bool;
  network_manager_managed : option bool; radio : Radio; connections : Connections;
  active_connections_provenance : list string; active_connections_source_errors : list string;
  network_manager_restore_schema_version : option string; interface_type_command_mapper_version : string;
  namespace : option string; wiphy : option string; driver : option string;
}.
#[global] Instance Radio_eq_dec : EqDecision Radio.
Proof. solve_decision. Defined.
#[global] Instance Connections_eq_dec : EqDecision Connections.
Proof. solve_decision. Defined.
#[global] Instance InterfaceState_eq_dec : EqDecision InterfaceState.
Proof. solve_decision. Defined.

Definition set_type_of (t : CaptureInterfaceType) (s : InterfaceState) : InterfaceState := {|
  interface := interface s; interface_type := t; administratively_up := administratively_up s;
  network_manager_managed := network_manager_managed s; radio := radio s; connections := connections s;
  active_connections_provenance := active_connections_provenance s; active_connections_source_errors := active_connections_source_errors s;
  network_manager_restore_schema_version := network_manager_restore_schema_version s;
  interface_type_command_mapper_version := interface_type_command_mapper_version s;
  namespace := namespace s; wiphy := wiphy s; driver := driver s |}.
Definition set_up_of (up : bool) (s : InterfaceState) : InterfaceState := {|
  interface := interface s; interface_type := interface_type s; administratively_up := up;
  network_manager_managed := network_manager_managed s; radio := radio s; connections := connections s;
  active_connections_provenance := active_connections_provenance s; active_connections_source_errors := active_connections_source_errors s;
  network_manager_restore_schema_version := network_manager_restore_schema_version s;
  interface_type_command_mapper_version := interface_type_command_mapper_version s;
  namespace := namespace s; wiphy := wiphy s; driver := driver s |}.
Definition set_radio_of (r : Radio) (s : InterfaceState) : InterfaceState := {|
  interface := interface s; interface_type := interface_type s; administratively_up := administratively_up s;
  network_manager_managed := network_manager_managed s; radio := r; connections := connections s;
  active_connections_provenance := active_connections_provenance s; active_connections_source_errors := active_connections_source_errors s;
  network_manager_restore_schema_version := network_manager_restore_schema_version s;
  interface_type_command_mapper_version := interface_type_command_mapper_version s;
  namespace := namespace s; wiphy := wiphy s; driver := driver s |}.
Definition set_managed_of (m : bool) (c : Connections) (s : InterfaceState) : InterfaceState := {|
  interface := interface s; interface_type := interface_type s; administratively_up := administratively_up s;
  network_manager_managed := Some m; radio := radio s; connections := c;
  active_connections_provenance := active_connections_provenance s; active_connections_source_errors := active_connections_source_errors s;
  network_manager_restore_schema_version := network_manager_restore_schema_version s;
  interface_type_command_mapper_version := interface_type_command_mapper_version s;
  namespace := namespace s; wiphy := wiphy s; driver := driver s |}.
Definition set_connections_of (c : Connections) (s : InterfaceState) : InterfaceState := {|
  interface := interface s; interface_type := interface_type s; administratively_up := administratively_up s;
  network_manager_managed := network_manager_managed s; radio := radio s; connections := c;
  active_connections_provenance := active_connections_provenance s; active_connections_source_errors := active_connections_source_errors s;
  network_manager_restore_schema_version := network_manager_restore_schema_version s;
  interface_type_command_mapper_version := interface_type_command_mapper_version s;
  namespace := namespace s; wiphy := wiphy s; driver := driver s |}.

(** *** Validation *)

(** [sorted] of texts *)
Definition py_sorted : list string → list string := order_by str_leb.
(** The one order: the secondary connections sorted, then the primary one. *)
Definition restore_order (uuids : list string) (primary : string) : list string :=
  py_sorted (filter (λ u, u ≠ primary) uuids) ++ [primary].

(** [complete_legacy_20_mhz_geometry] of a state that has all its fields *)
Definition complete_geometry (r : Radio) : Radio :=
  let center := match ra_center_frequency_1_mhz r with
    | None => if bool_decide (ra_width_mhz r = Some 20) then ra_frequency_mhz r else None
    | Some c => Some c
    end in
  let filled := {| ra_channel := ra_channel r; ra_frequency_mhz := ra_frequency_mhz r; ra_width_mhz := ra_width_mhz r;
    ra_center_frequency_1_mhz := center; ra_center_frequency_2_mhz := ra_center_frequency_2_mhz r;
    ra_band := ra_band r; ra_geometry_version := ra_geometry_version r |} in
  match ra_frequency_mhz r, ra_channel r, ra_width_mhz r, center with
  | Some f, Some c, Some w, Some _ =>
      match validate_complete_channel_definition f c w center (ra_center_frequency_2_mhz r) with
      | Ok d => {| ra_channel := ra_channel r; ra_frequency_mhz := ra_frequency_mhz r; ra_width_mhz := ra_width_mhz r;
                   ra_center_frequency_1_mhz := center; ra_center_frequency_2_mhz := ra_center_frequency_2_mhz r;
                   ra_band := Some (default (def_band d) (ra_band r));
                   ra_geometry_version := Some (default (geometry_version d) (ra_geometry_version r)) |}
      | Err _ => filled
      end
  | _, _, _, _ => filled
  end.

(** [tuple(enumerate(...))] as observations on one interface *)
Fixpoint observations (name : string) (position : Z) (uuids : list string) : list Observation :=
  match uuids with
  | [] => []
  | u :: uuids' => {| ob_connection_uuid := u; ob_interface := name; ob_restore_position := position |}
                   :: observations name (position + 1) uuids'
  end.

Section CaptureState.
Context `{UuidText}.

Definition canonical_uuid (u : string) : bool := bool_decide (uuid_text u = Some u).
Definition validate_networkmanager_uuid (u : string) : result unit :=
  raise_value (negb (canonical_uuid u)) "NetworkManager connection UUID is not canonical".

(** [validate_networkmanager_restore_identity] *)
Definition restore_identity (name : string) (c : Connections) : bool :=
  let ordered := ordered_active_connection_uuids c in
  bool_decide (active_connection_uuids c = ordered)
  && bool_decide (network_manager_connection_uuid c = primary_connection_uuid c)
  && bool_decide (NoDup ordered)
  && match active_connections_status c, primary_connection_uuid c with
     | COMPLETE, Some p => negb (str_in p ordered) || bool_decide (ordered = restore_order ordered p)
     | _, _ => true
     end
  && bool_decide (active_connection_interfaces c = observations name 0 ordered).
Definition valid_connections (name : string) (c : Connections) : bool :=
  forallb canonical_uuid (active_connection_uuids c) && forallb canonical_uuid (ordered_active_connection_uuids c)
  && match network_manager_connection_uuid c with Some u => canonical_uuid u | None => true end
  && match primary_connection_uuid c with Some u => canonical_uuid u | None => true end
  && match network_manager_connection_name c with
     | Some n => match validate_networkmanager_connection_id n with Ok _ => true | Err _ => false end
     | None => true
     end
  && forallb (λ o, canonical_uuid (ob_connection_uuid o) && (0 <=? ob_restore_position o)) (active_connection_interfaces c)
  && restore_identity name c.
Definition valid_band (b : option string) : bool :=
  match b with Some x => str_in x ["2.4GHz"; "5GHz"; "6GHz"; "60GHz"] | None => true end.
(** [InterfaceState.model_validate(state.model_dump(mode="python"))] *)
Definition model_validate (s : InterfaceState) : result InterfaceState :=
  let r := complete_geometry (radio s) in
  if valid_band (ra_band r) && valid_connections (interface s) (connections s) then Ok (set_radio_of r s)
  else Err (DomainError "ValidationError").

(** ** The restore plan *)

Record NetworkManagerRestoreOperation := {
  op_connection_uuid : string; op_interface : string; op_position : Z; op_primary : bool;
}.
Definition step_name (o : NetworkManagerRestoreOperation) : string :=
  (if op_primary o then "restore_primary_connection" else "restore_connection") +:+ ":" +:+ op_connection_uuid o.
Definition NETWORK_MANAGER_RESTORE_SCHEMA_VERSION : string := "networkmanager-restore-v1".

Fixpoint plan_operations (c : Connections) (position : Z) (uuids : list string) : result (list NetworkManagerRestoreOperation) :=
  match uuids with
  | [] => Ok []
  | u :: uuids' =>
      o ← of_option (KeyError u) (find (λ o, String.eqb u (ob_connection_uuid o)) (active_connection_interfaces c));
      rest ← plan_operations c (position + 1) uuids';
      Ok ({| op_connection_uuid := u; op_interface := ob_interface o; op_position := position;
             op_primary := bool_decide (Some u = primary_connection_uuid c) |} :: rest)
  end.
Definition networkmanager_restore_plan (state : InterfaceState) : result (list NetworkManagerRestoreOperation) :=
  validated ← model_validate state;
  let c := connections validated in
  raise_value (negb (bool_decide (active_connections_status c = COMPLETE)))
    "NetworkManager active connection observation is incomplete" ;;
  raise_value (negb (bool_decide (network_manager_restore_schema_version validated = Some NETWORK_MANAGER_RESTORE_SCHEMA_VERSION)))
    "NetworkManager restore schema is unsupported" ;;
  let active := ordered_active_connection_uuids c in
  raise_value (negb (Bool.eqb (negb (bool_decide (active = []))) (opt_is_some (primary_connection_uuid c))))
    "NetworkManager primary connection is unavailable" ;;
  raise_value (match primary_connection_uuid c with Some p => negb (str_in p active) | None => false end)
    "NetworkManager primary connection is not active" ;;
  operations ← plan_operations c 0 (match primary_connection_uuid c with
    | Some p => restore_order active p
    | None => py_sorted active
    end);
  raise_value (existsb (λ o, negb (String.eqb (op_interface o) (interface validated))) operations)
    "NetworkManager connection belongs to another interface" ;;
  Ok operations.

(** ** Snapshots that can be restored *)

Definition radio_complete (r : Radio) : bool :=
  opt_is_some (ra_channel r) && opt_is_some (ra_frequency_mhz r) && opt_is_some (ra_width_mhz r)
  && opt_is_some (ra_center_frequency_1_mhz r) && opt_is_some (ra_band r) && opt_is_some (ra_geometry_version r).
Definition radio_empty (r : Radio) : bool :=
  negb (opt_is_some (ra_channel r) || opt_is_some (ra_frequency_mhz r) || opt_is_some (ra_width_mhz r)
        || opt_is_some (ra_center_frequency_1_mhz r) || opt_is_some (ra_band r) || opt_is_some (ra_geometry_version r)).
Definition radio_coherent (r : Radio) : bool :=
  match ra_frequency_mhz r, ra_channel r, ra_width_mhz r with
  | Some f, Some c, Some w =>
      match validate_complete_channel_definition f c w (ra_center_frequency_1_mhz r) (ra_center_frequency_2_mhz r) with
      | Ok d => bool_decide (ra_band r = Some (def_band d)) && bool_decide (ra_geometry_version r = Some (geometry_version d))
      | Err _ => false
      end
  | _, _, _ => true
  end.
Definition text_absent (o : option string) : bool := match o with None | Some EmptyString => true | _ => false end.

(** The reason of [_validate_restorable_snapshot], for a request on [requested]. *)
Definition not_restorable (requested : string) (s : InterfaceState) : option string :=
  let c := connections s in
  if negb (String.eqb (interface s) requested) then Some "interface_identity_mismatch"
  else if negb (String.eqb (interface_type_command_mapper_version s) IW_INTERFACE_TYPE_COMMAND_MAPPER_VERSION)
  then Some "interface_type_command_mapper_unsupported"
  else if negb (opt_is_some (network_manager_managed s)) then Some "networkmanager_state_unavailable"
  else if negb (bool_decide (active_connections_status c = COMPLETE))
  then Some ("active_connections_" +:+ status_text (active_connections_status c))
  else if text_absent (namespace s) then Some "namespace_unavailable"
  else if text_absent (wiphy s) then Some "wiphy_unavailable"
  else if text_absent (driver s) then Some "driver_unavailable"
  else if negb (bool_decide (active_connection_uuids c = [])) && negb (bool_decide (network_manager_managed s = Some true))
  then Some "active_connection_on_unmanaged_interface"
  else if opt_is_some (network_manager_connection_name c) && negb (opt_is_some (primary_connection_uuid c))
  then Some "active_connection_identity_unavailable"
  else match networkmanager_restore_plan s with
  | Err _ => Some "networkmanager_restore_plan_invalid"
  | Ok _ =>
      if radio_complete (radio s) then if radio_coherent (radio s) then None else Some "radio_snapshot_incoherent"
      else if radio_empty (radio s) then Some "radio_snapshot_required"
      else Some "radio_snapshot_incomplete"
  end.
Definition validate_restorable_snapshot (requested : string) (s : InterfaceState) : result unit :=
  match not_restorable requested s with
  | Some reason => Err (RuntimeError ("snapshot_not_restorable: " +:+ reason))
  | None => Ok tt
  end.
End CaptureState.
