(* ===== verification/CaptureRollback.v ===== *)
(** * The durable rollback of a capture

    [RollbackStep], [RollbackReport] and the rollback of [CaptureCoordinator] in
    [platforms/linux/capture.py]: restoring an interface from its snapshot in the
    one order of its commands, with a report saved in the marker of the capture
    after every step.  The tools of the host are a record of effects on a world of
    any type; an effect of the process (a call of a tool, a saved report) may be
    refused by a fault given by its number, and a process that is killed is one
    whose every later effect is refused.  An exception is named as the code names
    it, by its class. *)

From Stdlib Require Import Ascii.
From S2P Require Export CaptureState ArtifactPaths.

(** ** Reports *)

Inductive OperationState := planned | confirmed | failed.
#[global] Instance OperationState_eq_dec : EqDecision OperationState.
Proof. solve_decision. Defined.
Inductive VerificationStatus := VComplete | VPartial | VUnavailable | VMismatch.
#[global] Instance VerificationStatus_eq_dec : EqDecision VerificationStatus.
Proof. solve_decision. Defined.

Record RollbackStep := MkStep {
  name : string; completed : bool; reason : option string; operation_token : option string;
  connection_uuid : option string; position : option Z; operation_state : option OperationState;
  evidence : option string;
}.
#[global] Instance RollbackStep_eq_dec : EqDecision RollbackStep.
Proof. solve_decision. Defined.
Record RollbackReport := MkReport {
  complete : bool; steps : list RollbackStep; verification : option InterfaceState;
  verification_status : VerificationStatus; verification_reason : option string; mutations_confirmed : bool;
}.
(** A step of a command that is not about a connection. *)
Definition plain_step (n : string) (done : bool) (why : option string) : RollbackStep :=
  MkStep n done why None None None None None.
Definition verify_step (n : string) (done : bool) (why : option string) (how : string) : RollbackStep :=
  MkStep n done why None None None None (Some how).

Definition manual_recovery (msg : string) : exc := DomainError "CaptureManualRecoveryRequired".
Definition profile_missing : exc := DomainError "NetworkManagerConnectionProfileMissing".

Definition step_names (l : list RollbackStep) : list string := map name l.
Definition all_completed (l : list RollbackStep) : bool := forallb completed l.
Definition no_authority (s : RollbackStep) : bool :=
  opt_is_none (operation_token s) && opt_is_none (connection_uuid s) && opt_is_none (position s)
  && opt_is_none (operation_state s).

(** [RollbackStep.validate_operation_state] with the constraints of the fields. *)
Definition valid_step `{UuidText} (s : RollbackStep) : bool :=
  match operation_token s with
  | Some t => (String.length t =? 32)%nat && all_chars is_lower_hex t
  | None => true
  end
  && match connection_uuid s with Some u => canonical_uuid u | None => true end
  && match position s with Some p => 0 <=? p | None => true end
  && match operation_state s with
     | Some planned | Some failed => negb (completed s)
     | Some confirmed => completed s
     | None => true
     end
  && (no_authority s
      || opt_is_some (operation_token s) && opt_is_some (connection_uuid s) && opt_is_some (position s)
         && opt_is_some (operation_state s)).

Definition idempotent_reuse (r : RollbackReport) : bool :=
  match steps r with
  | [s] => String.eqb (name s) "idempotent_reuse" && completed s && opt_is_none (verification r)
           && bool_decide (verification_status r = VUnavailable) && opt_is_none (verification_reason r)
           && negb (mutations_confirmed r)
  | _ => false
  end.
Definition current_verification : list string :=
  ["verify_active_connections"; "verify_primary_connection"; "verify_interface_state"].
Definition verification_names : list string := "verify" :: current_verification.
(** The last [n] elements, [l[-n:]]. *)
Definition last_n {A} (n : nat) (l : list A) : list A := drop (length l - n) l.
(** [RollbackReport.validate_completion_evidence] *)
Definition valid_report (r : RollbackReport) : bool :=
  let names := step_names (steps r) in
  let legacy := bool_decide (last_n 1 names = ["verify"]) in
  let current := bool_decide (last_n 3 names = current_verification) in
  (negb (bool_decide (verification_status r = VComplete)) || opt_is_some (verification r))
  && (negb (complete r) || idempotent_reuse r
      || mutations_confirmed r && opt_is_some (verification r)
         && bool_decide (verification_status r = VComplete) && opt_is_none (verification_reason r)
         && negb (bool_decide (steps r = [])) && all_completed (steps r) && (legacy || current)
         && ((if legacy then 1 else 3) <? length (steps r))%nat).

Section CaptureRollback.
Context `{Sha256} `{UuidText}.

(** Constructing a report. *)
Definition make_report (r : RollbackReport) : result RollbackReport :=
  if valid_report r then Ok r else Err (DomainError "ValidationError").
(** [RollbackReport.model_validate] of what [model_dump] left in the marker. *)
Definition load_report (r : RollbackReport) : result RollbackReport :=
  if negb (forallb valid_step (steps r)) then Err (DomainError "ValidationError")
  else
    v ← match verification r with
        | Some s => s' ← model_validate s; Ok (Some s')
        | None => Ok None
        end;
    make_report (MkReport (complete r) (steps r) v (verification_status r) (verification_reason r) (mutations_confirmed r)).

(** ** What a rollback has to do *)

Definition has_frequency (o : InterfaceState) : bool :=
  opt_is_some (ra_frequency_mhz (radio o)) && opt_is_some (ra_channel (radio o))
  && opt_is_some (ra_center_frequency_1_mhz (radio o))
  && match ra_width_mhz (radio o) with Some w => member w SUPPORTED_CAPTURE_WIDTHS_MHZ | None => false end.
(** [_rollback_step_names] in front of the connections. *)
Definition base_names (o : InterfaceState) : list string :=
  ["link_down"; "restore_type"] ++ (if has_frequency o then ["restore_frequency"] else [])
  ++ ["restore_link"] ++ (if opt_is_some (network_manager_managed o) then ["restore_networkmanager"] else []).
Definition rollback_step_names (o : InterfaceState) : result (list string) :=
  plan ← networkmanager_restore_plan o;
  Ok (base_names o ++ map step_name plan).

Definition connection_operation_token (token : string) (o : NetworkManagerRestoreOperation) : string :=
  String.substring 0 32 (sha256_hex (token +:+ ":" +:+ str_of_Z (op_position o) +:+ ":" +:+ op_connection_uuid o
                                     +:+ ":" +:+ (if op_primary o then "1" else "0"))).
Definition connection_step (o : NetworkManagerRestoreOperation) (token : string) (st : OperationState)
    (why how : option string) : RollbackStep :=
  MkStep (step_name o) (bool_decide (st = confirmed)) why (Some (connection_operation_token token o))
    (Some (op_connection_uuid o)) (Some (op_position o)) (Some st) how.
(** [pending.model_copy(update={"reason": ..., "evidence": ...})] *)
Definition with_reason (s : RollbackStep) (why how : string) : RollbackStep :=
  MkStep (name s) (completed s) (Some why) (operation_token s) (connection_uuid s) (position s) (operation_state s) (Some how).

Definition connection_effect_observed (o : NetworkManagerRestoreOperation) (observed : InterfaceState) : bool :=
  let c := connections observed in
  if negb (bool_decide (active_connections_status c = COMPLETE)) then false
  else if op_primary o then bool_decide (primary_connection_uuid c = Some (op_connection_uuid o))
  else str_in (op_connection_uuid o) (ordered_active_connection_uuids c).

(** ** Which reports may be resumed *)

Definition allowed_evidence (st : OperationState) : list string :=
  match st with
  | planned => ["intent_fsynced_before_command"; "observation_required_before_mutation";
                "connection_observation_incomplete"; "connection_observation_unavailable"]
  | confirmed => ["connection_restore_command_confirmed"; "effect_observed_before_retry"]
  | failed => ["connection_restore_command_failed"; "connection_profile_missing"]
  end.
Definition authorized_step (plan : list NetworkManagerRestoreOperation) (token : string) (s : RollbackStep) : result unit :=
  match find (λ o, String.eqb (step_name o) (name s)) (rev plan) with
  | None =>
      if no_authority s && opt_is_none (evidence s) then Ok tt
      else Err (manual_recovery "generic rollback step carries NetworkManager authority")
  | Some o =>
      let sound := match operation_state s with
        | Some st =>
            bool_decide (operation_token s = Some (connection_operation_token token o))
            && bool_decide (connection_uuid s = Some (op_connection_uuid o))
            && bool_decide (position s = Some (op_position o))
            && match evidence s with Some e => str_in e (allowed_evidence st) | None => false end
            && negb (bool_decide (st = confirmed) && opt_is_some (reason s))
            && negb (bool_decide (st = failed) && opt_is_none (reason s))
        | None => false
        end in
      if sound then Ok tt else Err (manual_recovery "NetworkManager rollback checkpoint authority is invalid")
  end.
(** The names are a prefix of the expected ones. *)
Definition names_prefix (expected : list string) (l : list RollbackStep) : bool :=
  (length l <=? length expected)%nat && bool_decide (step_names l = take (length l) expected).
Definition validate_rollback_progress (o : InterfaceState) (l : list RollbackStep) (token : string) : result unit :=
  expected ← rollback_step_names o;
  if negb (names_prefix expected l)
  then Err (manual_recovery "durable rollback progress is not an authorized command prefix")
  else
    plan ← networkmanager_restore_plan o;
    mapM (authorized_step plan token) l ;; Ok tt.

(** The status and the reason of [_assess_rollback_verification]. *)
Definition required_values (v : InterfaceState) : list (string * bool) :=
  [("band", opt_is_some (ra_band (radio v))); ("center_frequency_1", opt_is_some (ra_center_frequency_1_mhz (radio v)));
   ("channel", opt_is_some (ra_channel (radio v))); ("driver", negb (text_absent (driver v)));
   ("frequency", opt_is_some (ra_frequency_mhz (radio v)));
   ("geometry_version", negb (text_absent (ra_geometry_version (radio v))));
   ("namespace", negb (text_absent (namespace v))); ("networkmanager", opt_is_some (network_manager_managed v));
   ("width", opt_is_some (ra_width_mhz (radio v))); ("wiphy", negb (text_absent (wiphy v)))].
Definition same_elements (a b : list string) : bool := forallb (λ x, str_in x b) a && forallb (λ x, str_in x a) b.
(** The seventeen values that are compared. *)
Definition same_state (v o : InterfaceState) : bool :=
  String.eqb (interface v) (interface o) && bool_decide (interface_type v = interface_type o)
  && Bool.eqb (administratively_up v) (administratively_up o)
  && bool_decide (network_manager_managed v = network_manager_managed o)
  && bool_decide (primary_connection_uuid (connections v) = primary_connection_uuid (connections o))
  && same_elements (ordered_active_connection_uuids (connections v)) (ordered_active_connection_uuids (connections o))
  && bool_decide (active_connection_interfaces (connections v) = active_connection_interfaces (connections o))
  && bool_decide (radio v = radio o)
  && bool_decide (namespace v = namespace o) && bool_decide (wiphy v = wiphy o) && bool_decide (driver v = driver o).
Definition comma_separated (l : list string) : string :=
  match l with [] => EmptyString | x :: l' => fold_left (λ acc y, acc +:+ "," +:+ y) l' x end.
Definition assess_rollback_verification (original verified : InterfaceState) : VerificationStatus * option string :=
  match model_validate original, model_validate verified with
  | Ok o, Ok v =>
      match active_connections_status (connections v) with
      | PARTIAL => (VPartial, Some "active_connections_partial")
      | UNAVAILABLE => (VUnavailable, Some "active_connections_unavailable")
      | COMPLETE =>
          let missing := map fst (List.filter (λ e, negb (snd e)) (required_values v)) in
          if negb (bool_decide (missing = [])) then
            (VUnavailable, Some ("authoritative_observation_unavailable:" +:+ comma_separated missing))
          else if same_state v o then (VComplete, None) else (VMismatch, Some "state_mismatch")
      end
  | _, _ => (VUnavailable, Some "networkmanager_identity_invalid")
  end.

Definition is_verification (s : RollbackStep) : bool := str_in (name s) verification_names.
Definition mutation_steps (l : list RollbackStep) : list RollbackStep := List.filter (λ s, negb (is_verification s)) l.
Definition verification_steps (l : list RollbackStep) : list RollbackStep := List.filter is_verification l.
(** [_validate_completed_rollback_report] *)
Definition validate_completed_rollback_report (o : InterfaceState) (r : RollbackReport) (token : string) : result unit :=
  let mutations := mutation_steps (steps r) in
  let verifications := verification_steps (steps r) in
  expected ← rollback_step_names o;
  plan ← networkmanager_restore_plan o;
  names ← (if bool_decide (step_names verifications = ["verify"]) then
      if negb (bool_decide (step_names mutations = take (length expected - length plan) expected
                            ++ (if bool_decide (plan = []) then [] else ["restore_connections"])))
         || negb (all_completed mutations)
         || negb (forallb (λ s, no_authority s && opt_is_none (evidence s)) mutations)
      then Err (manual_recovery "historical rollback report has ambiguous mutations")
      else Ok ["verify"]
    else
      validate_rollback_progress o mutations token ;;
      if negb (bool_decide (step_names mutations = expected)) || negb (all_completed mutations)
      then Err (manual_recovery "completed rollback report lacks confirmed mutations")
      else Ok current_verification);
  if negb (bool_decide (step_names verifications = names)) || negb (all_completed verifications)
     || negb (complete r) || negb (mutations_confirmed r) || negb (bool_decide (verification_status r = VComplete))
     || match verification r with
        | Some v => negb (bool_decide (fst (assess_rollback_verification o v) = VComplete))
        | None => true
        end
  then Err (manual_recovery "completed rollback report lacks authoritative verification")
  else Ok tt.
End CaptureRollback.

(** ** The process: the world, the marker and the commands issued *)

Inductive CaptureMarkerState :=
  | RESERVATION_PLANNED | RESERVED | CAPTURE_COMPLETE | ROLLBACK_VERIFICATION_PENDING | INTERFACE_RESTORED
  | STAGING_INTENT_DURABLE | LOCAL_ARTIFACT_COMMITTED | BINDING_PUBLISHED | RETIRED.
#[global] Instance CaptureMarkerState_eq_dec : EqDecision CaptureMarkerState.
Proof. solve_decision. Defined.

(** What the marker says of the rollback: its state, the last report saved in it
    and the token of the capture. *)
Record Marker := { marker_state : CaptureMarkerState; saved : option RollbackReport; capture_token : string }.
Record Recovery (W : Type) := MkRecovery { world : W; marker : Marker; calls : nat; issued : list string }.
Arguments MkRecovery {_} _ _ _ _.
Arguments world {_} _.
Arguments marker {_} _.
Arguments calls {_} _.
Arguments issued {_} _.

Record CaptureRequest := {
  rq_task_id : string; rq_execution_id : string; rq_idempotency_key : string; rq_interface : string;
  rq_channel : Z; rq_frequency_mhz : Z; rq_width_mhz : Z; rq_duration_seconds : Z; rq_max_size_bytes : Z;
  rq_capture_format : string; rq_snapshot_length : Z;
}.

(** [CaptureBackend] and the token of cancellation. *)
Record CaptureBackend (W : Type) := {
  snapshot : string → SE W InterfaceState;
  set_managed : string → bool → SE W unit;
  set_link : string → bool → SE W unit;
  set_type : string → CaptureInterfaceType → SE W unit;
  set_frequency : string → Z → Z → Z → Z → option Z → SE W unit;
  restore_connection : string → string → SE W unit;
  capture : CaptureRequest → SE W unit;
  cancelled : SE W bool;
}.
Arguments snapshot {_} _ _.
Arguments set_managed {_} _ _ _.
Arguments set_link {_} _ _ _.
Arguments set_type {_} _ _ _.
Arguments set_frequency {_} _ _ _ _ _ _ _.
Arguments restore_connection {_} _ _ _.
Arguments capture {_} _ _.
Arguments cancelled {_} _.

Section Rollback.
Context `{Sha256} `{UuidText} {W : Type} (B : CaptureBackend W) (fault : nat → option exc).

(** The next effect of the process, or its fault. *)
Definition effect : SE (Recovery W) unit := λ r,
  let r' := MkRecovery (world r) (marker r) (S (calls r)) (issued r) in
  match fault (calls r) with Some e => (Err e, r') | None => (Ok tt, r') end.
Definition in_world {A} (m : SE W A) : SE (Recovery W) A := λ r,
  let '(x, w) := m (world r) in (x, MkRecovery w (marker r) (calls r) (issued r)).
Definition on_world {A} (m : SE W A) : SE (Recovery W) A := effect ;; in_world m.
(** A command that changes the interface; [n] is the step it belongs to. *)
Definition command (n : string) (m : SE W unit) : SE (Recovery W) unit :=
  effect ;; modify (λ r, MkRecovery (world r) (marker r) (calls r) (issued r ++ [n])) ;; in_world m.

(** [note_rollback_verification]: the successor of [CAPTURE_COMPLETE], the same
    state again, or straight from [RESERVED]. *)
Definition note_rollback_verification (report : RollbackReport) : SE (Recovery W) unit :=
  st ← get (λ r, marker_state (marker r));
  raise_if (negb (bool_decide (st ∈ [CAPTURE_COMPLETE; RESERVED; ROLLBACK_VERIFICATION_PENDING])))
    (DomainError "CaptureRecoveryError") ;;
  effect ;;
  modify (λ r, MkRecovery (world r)
    {| marker_state := ROLLBACK_VERIFICATION_PENDING; saved := Some report; capture_token := capture_token (marker r) |}
    (calls r) (issued r)).

(** *** Capturing *)

Definition mutate_and_capture (q : CaptureRequest) (original : InterfaceState) : SE (Recovery W) unit :=
  (if bool_decide (network_manager_managed original = Some true)
   then command "set_managed" (set_managed B (rq_interface q) false) else mret tt) ;;
  command "set_link" (set_link B (rq_interface q) false) ;;
  command "set_type" (set_type B (rq_interface q) monitor) ;;
  command "set_link" (set_link B (rq_interface q) true) ;;
  d ← lift (capture_channel_definition (rq_frequency_mhz q) (rq_channel q) (rq_width_mhz q));
  command "set_frequency" (set_frequency B (rq_interface q) (rq_frequency_mhz q) (rq_width_mhz q) (rq_channel q)
    (center_frequency_1_mhz d) (center_frequency_2_mhz d)) ;;
  configured ← on_world (snapshot B (rq_interface q));
  let r := radio configured in
  raise_if (negb (bool_decide (interface_type configured = monitor)
                  && bool_decide (ra_frequency_mhz r = Some (rq_frequency_mhz q)) && bool_decide (ra_channel r = Some (rq_channel q))
                  && bool_decide (ra_width_mhz r = Some (rq_width_mhz q))
                  && bool_decide (ra_center_frequency_1_mhz r = Some (center_frequency_1_mhz d))
                  && bool_decide (ra_center_frequency_2_mhz r = center_frequency_2_mhz d)
                  && bool_decide (ra_band r = Some (def_band d)) && bool_decide (ra_geometry_version r = Some (geometry_version d))))
    (RuntimeError "capture_frequency_verification_failed") ;;
  stop ← on_world (cancelled B);
  raise_if stop CancelledError ;;
  on_world (capture B q).

(** *** The commands of a rollback *)

Abbreviation Checkpoint := (list RollbackStep → SE (Recovery W) unit).

(** The commands in front of the connections, each with the name of its step. *)
Definition base_commands (o : InterfaceState) : list (string * SE W unit) :=
  [("link_down", set_link B (interface o) false); ("restore_type", set_type B (interface o) (interface_type o))]
  ++ (if has_frequency o then
        [("restore_frequency",
          match ra_frequency_mhz (radio o), ra_width_mhz (radio o), ra_channel (radio o), ra_center_frequency_1_mhz (radio o) with
          | Some f, Some w, Some c, Some center =>
              set_frequency B (interface o) f w c center (ra_center_frequency_2_mhz (radio o))
          | _, _, _, _ => raise AssertionError
          end)]
      else [])
  ++ [("restore_link", set_link B (interface o) (administratively_up o))]
  ++ match network_manager_managed o with
     | Some m => [("restore_networkmanager", set_managed B (interface o) m)]
     | None => []
     end.

(** [attempt] *)
Definition attempt_step (checkpoint : Checkpoint) (l : list RollbackStep) (n : string) (m : SE W unit)
    : SE (Recovery W) (list RollbackStep * bool) :=
  outcome ← attempt (command n m);
  let s := match outcome with
    | Ok _ => plain_step n true None
    | Err e => plain_step n false (Some (type_name e))
    end in
  checkpoint (l ++ [s]) ;;
  mret (l ++ [s], completed s).
(** The commands in order, until one fails; with whether they all succeeded. *)
Fixpoint run_base (checkpoint : Checkpoint) (already : list string) (commands : list (string * SE W unit)) (l : list RollbackStep)
    : SE (Recovery W) (list RollbackStep * bool) :=
  match commands with
  | [] => mret (l, true)
  | (n, m) :: commands' =>
      if str_in n already then run_base checkpoint already commands' l
      else
        '(l', ok) ← attempt_step checkpoint l n m;
        if (ok : bool) then run_base checkpoint already commands' l' else mret (l', false)
  end.

(** [steps[-1] = s] *)
Definition replace_last (l : list RollbackStep) (s : RollbackStep) : list RollbackStep := removelast l ++ [s].
(** [pending], when the last step is the one of [o]. *)
Definition pending_step (l : list RollbackStep) (o : NetworkManagerRestoreOperation) : option RollbackStep :=
  match last l with
  | Some s => if String.eqb (name s) (step_name o) then Some s else None
  | None => None
  end.

(** What becomes of one connection: the steps, and whether the next one follows. *)
Definition restore_one (checkpoint : Checkpoint) (token iface : string) (l : list RollbackStep) (o : NetworkManagerRestoreOperation)
    : SE (Recovery W) (list RollbackStep * bool) :=
  let pending := pending_step l o in
  let intent how := connection_step o token planned None (Some how) in
  if match pending with Some s => negb (bool_decide (operation_state s = Some planned)) | None => false end
  then mret (l, false)
  else
    seen ← attempt (on_world (snapshot B iface));
    match seen with
    | Err e =>
        let p := default (intent "observation_required_before_mutation") pending in
        let l1 := match pending with Some _ => l | None => l ++ [p] end in
        (match pending with Some _ => mret tt | None => checkpoint l1 end) ;;
        let l2 := replace_last l1 (with_reason p (type_name e) "connection_observation_unavailable") in
        checkpoint l2 ;; mret (l2, false)
    | Ok observed =>
        let status := active_connections_status (connections observed) in
        if negb (bool_decide (status = COMPLETE)) then
          let p := default (intent "observation_required_before_mutation") pending in
          let l1 := match pending with Some _ => l | None => l ++ [p] end in
          let l2 := replace_last l1 (with_reason p ("active_connections_" +:+ status_text status) "connection_observation_incomplete") in
          checkpoint l2 ;; mret (l2, false)
        else if connection_effect_observed o observed then
          let s := connection_step o token confirmed None (Some "effect_observed_before_retry") in
          let l2 := match pending with Some _ => replace_last l s | None => l ++ [s] end in
          checkpoint l2 ;; mret (l2, true)
        else
          let l1 := match pending with Some _ => l | None => l ++ [intent "intent_fsynced_before_command"] end in
          (match pending with Some _ => mret tt | None => checkpoint l1 end) ;;
          outcome ← attempt (command (step_name o) (restore_connection B (op_interface o) (op_connection_uuid o)));
          let s := match outcome with
            | Ok _ => connection_step o token confirmed None (Some "connection_restore_command_confirmed")
            | Err e =>
                if decide (e = profile_missing)
                then connection_step o token failed (Some "connection_profile_missing") (Some "connection_profile_missing")
                else connection_step o token failed (Some (type_name e)) (Some "connection_restore_command_failed")
            end in
          let l2 := replace_last l1 s in
          checkpoint l2 ;; mret (l2, completed s)
    end.
Fixpoint restore_connections (checkpoint : Checkpoint) (token iface : string) (already : list string)
    (plan : list NetworkManagerRestoreOperation) (l : list RollbackStep) : SE (Recovery W) (list RollbackStep) :=
  match plan with
  | [] => mret l
  | o :: plan' =>
      if str_in (step_name o) already then restore_connections checkpoint token iface already plan' l
      else
        '(l', ok) ← restore_one checkpoint token iface l o;
        if (ok : bool) then restore_connections checkpoint token iface (step_name o :: already) plan' l' else mret l'
  end.

(** At most the last step is incomplete, and it is [planned] or [failed]. *)
Definition confirmed_prefix (l : list RollbackStep) : bool :=
  all_completed (removelast l)
  && match last l with
     | Some s => completed s || bool_decide (operation_state s ∈ [Some planned; Some failed])
     | None => true
     end.
Definition last_failed (l : list RollbackStep) : bool :=
  match last l with Some s => negb (completed s) && bool_decide (operation_state s = Some failed) | None => false end.

Definition apply_rollback (original : InterfaceState) (done : list RollbackStep) (checkpoint : Checkpoint) (token : string)
    : SE (Recovery W) (list RollbackStep) :=
  expected ← lift (rollback_step_names original);
  lift (validate_rollback_progress original done token) ;;
  raise_if (negb (names_prefix expected done) || negb (confirmed_prefix done))
    (manual_recovery "durable rollback progress is not a confirmed command prefix") ;;
  if last_failed done then mret done
  else
    let already := step_names (List.filter completed done) in
    '(l, ok) ← run_base checkpoint already (base_commands original) done;
    if negb ok then mret l
    else
      plan ← lift (networkmanager_restore_plan original);
      restore_connections checkpoint token (interface original) already plan l.

(** *** Verifying *)

Definition confirmed_mutations (expected : list string) (l : list RollbackStep) : bool :=
  bool_decide (step_names l = expected) && all_completed l.
(** The steps of the reading [v], each saved as it is made. *)
Definition verify_reading (checkpoint : Checkpoint) (original v : InterfaceState) (done : list RollbackStep)
    : SE (Recovery W) (list RollbackStep) :=
  let '(st, why) := assess_rollback_verification original v in
  let whole := bool_decide (active_connections_status (connections v) = COMPLETE) in
  let active := whole && same_elements (ordered_active_connection_uuids (connections v))
                           (ordered_active_connection_uuids (connections original)) in
  let primary := whole && bool_decide (primary_connection_uuid (connections v) = primary_connection_uuid (connections original)) in
  let l1 := done ++ [verify_step "verify_active_connections" active
                       (if active then None else Some (default "active_set_mismatch" why)) "read_only_snapshot"] in
  let l2 := l1 ++ [verify_step "verify_primary_connection" primary
                     (if primary then None else Some (default "primary_mismatch" why)) "read_only_snapshot"] in
  let l3 := l2 ++ [verify_step "verify_interface_state" (bool_decide (st = VComplete)) why "read_only_snapshot"] in
  checkpoint l1 ;; checkpoint l2 ;; checkpoint l3 ;; mret l3.
Fixpoint verify_unavailable (checkpoint : Checkpoint) (why : string) (names : list string) (l : list RollbackStep)
    : SE (Recovery W) (list RollbackStep) :=
  match names with
  | [] => mret l
  | n :: names' =>
      let l' := l ++ [verify_step n false (Some why) "read_only_snapshot_unavailable"] in
      checkpoint l' ;; verify_unavailable checkpoint why names' l'
  end.
Definition verify_rollback (original : InterfaceState) (done : list RollbackStep) (checkpoint : Checkpoint)
    : SE (Recovery W) RollbackReport :=
  expected ← lift (rollback_step_names original);
  if negb (confirmed_mutations expected done) then
    lift (make_report (MkReport false done None VUnavailable (Some "rollback_mutation_unconfirmed") false))
  else
    seen ← attempt (on_world (snapshot B (interface original)));
    read ← match seen with
      | Ok v => attempt (l ← verify_reading checkpoint original v done; mret (l, v))
      | Err e => mret (Err e)
      end;
    match read with
    | Ok (l, v) =>
        let '(st, why) := assess_rollback_verification original v in
        lift (make_report (MkReport (bool_decide (st = VComplete)) l (Some v) st why true))
    | Err e =>
        l ← verify_unavailable checkpoint (type_name e) current_verification done;
        lift (make_report (MkReport false l (match seen with Ok v => Some v | Err _ => None end)
                             VUnavailable (Some (type_name e)) true))
    end.

(** [_rollback]: nothing is saved, and the token comes from the snapshot. *)
Definition rollback (original : InterfaceState) (digest : string) : SE (Recovery W) RollbackReport :=
  l ← apply_rollback original [] (λ _, mret tt) (String.substring 0 32 digest);
  verify_rollback original l (λ _, mret tt).

(** *** The durable rollback *)

(** The steps that are resumed: a batch of connections of an older agent is dropped
    when everything in front of it is confirmed. *)
Definition resumed_steps (original : InterfaceState) (l : list RollbackStep) : result (list RollbackStep) :=
  match list_find (λ s, name s = "restore_connections") l with
  | None => Ok l
  | Some (index, _) =>
      expected ← rollback_step_names original;
      plan ← networkmanager_restore_plan original;
      if bool_decide (plan = []) || negb (index =? length expected - length plan)%nat
         || negb (bool_decide (step_names (take index l) = take index expected))
         || negb (all_completed (take index l)) || negb (index =? length l - 1)%nat
      then Err (manual_recovery "historical NetworkManager rollback progress is ambiguous")
      else Ok (take index l)
  end.
Definition pending_report : RollbackReport := MkReport false [] None VUnavailable (Some "rollback_mutations_pending") false.
Definition checkpoint_report (expected : list string) (l : list RollbackStep) : RollbackReport :=
  MkReport false l None VUnavailable (Some "verification_pending") (confirmed_mutations expected l).
Definition save_progress (expected : list string) (l : list RollbackStep) : SE (Recovery W) unit :=
  report ← lift (make_report (checkpoint_report expected l));
  note_rollback_verification report.

Definition durable_rollback (original : InterfaceState) : SE (Recovery W) RollbackReport :=
  st ← get (λ r, marker_state (marker r));
  (if bool_decide (st ∈ [RESERVED; CAPTURE_COMPLETE]) then note_rollback_verification pending_report else mret tt) ;;
  detail ← get (λ r, saved (marker r));
  last_saved ← lift (of_option (manual_recovery "rollback verification marker lacks its durable report") detail);
  pending ← lift (load_report last_saved);
  expected ← lift (rollback_step_names original);
  done ← lift (resumed_steps original (mutation_steps (steps pending)));
  token ← get (λ r, capture_token (marker r));
  lift (validate_rollback_progress original done token) ;;
  let checkpoint := save_progress expected in
  l ← (if names_prefix expected done && confirmed_prefix done
          && ((length done <? length expected)%nat || negb (all_completed done))
       then apply_rollback original done checkpoint token
       else mret done);
  report ← verify_rollback original l checkpoint;
  (if complete report then lift (validate_completed_rollback_report original report token) else mret tt) ;;
  note_rollback_verification report ;;
  mret report.
End Rollback.

(** ** The simulated backend *)

Record Simulated := {
  sim_state : InterfaceState; fail_steps : list string; sim_calls : list string;
  connection_names : list (string * option string); sim_cancelled : bool;
}.
Definition simulated (s : InterfaceState) (failing : list string) (stop : bool) : Simulated := {|
  sim_state := s; fail_steps := failing; sim_calls := [];
  connection_names := match primary_connection_uuid (connections s) with
    | Some p => [(p, network_manager_connection_name (connections s))]
    | None => []
    end;
  sim_cancelled := stop |}.

Section SimulatedCaptureBackend.
Context `{UuidText}.

(** [_fail] *)
Definition may_fail (step : string) : SE Simulated unit := λ b,
  let b' := {| sim_state := sim_state b; fail_steps := fail_steps b; sim_calls := sim_calls b ++ [step];
               connection_names := connection_names b; sim_cancelled := sim_cancelled b |} in
  if str_in step (fail_steps b) then (Err (RuntimeError ("simulated " +:+ step +:+ " failure")), b') else (Ok tt, b').
Definition put_state (s : InterfaceState) : SE Simulated unit :=
  modify (λ b, {| sim_state := s; fail_steps := fail_steps b; sim_calls := sim_calls b;
                  connection_names := connection_names b; sim_cancelled := sim_cancelled b |}).
Definition cleared (c : Connections) : Connections := {|
  active_connection_uuids := []; ordered_active_connection_uuids := []; active_connection_interfaces := [];
  active_connections_status := active_connections_status c; network_manager_connection_uuid := None;
  primary_connection_uuid := None; network_manager_connection_name := None |}.
(** The connections once [u] was activated after the others. *)
Definition activated (iface : string) (names : list (string * option string)) (u : string) (c : Connections) : Connections :=
  let active := filter (λ v, v ≠ u) (ordered_active_connection_uuids c) ++ [u] in
  {| active_connection_uuids := active; ordered_active_connection_uuids := active;
     active_connection_interfaces := observations iface 0 active; active_connections_status := COMPLETE;
     network_manager_connection_uuid := Some u; primary_connection_uuid := Some u;
     network_manager_connection_name := match find (λ e, String.eqb u (fst e)) names with Some e => snd e | None => None end |}.

Definition SimulatedCaptureBackend : CaptureBackend Simulated := {|
  snapshot iface :=
    may_fail "snapshot" ;; s ← get sim_state;
    raise_if (negb (String.eqb iface (interface s))) (RuntimeError "unknown simulated interface") ;; mret s;
  set_managed iface m :=
    may_fail "set_managed" ;; s ← get sim_state;
    s' ← lift (model_validate (set_managed_of m (if m then connections s else cleared (connections s)) s));
    put_state s';
  set_link iface up := may_fail "set_link" ;; s ← get sim_state; put_state (set_up_of up s);
  set_type iface t := may_fail "set_type" ;; s ← get sim_state; put_state (set_type_of t s);
  set_frequency iface f w c center_1 center_2 :=
    may_fail "set_frequency" ;;
    d ← lift (validate_complete_channel_definition f c w (Some center_1) center_2);
    s ← get sim_state;
    put_state (set_radio_of {| ra_channel := Some (primary_channel d); ra_frequency_mhz := Some f; ra_width_mhz := Some w;
      ra_center_frequency_1_mhz := Some center_1; ra_center_frequency_2_mhz := center_2; ra_band := Some (def_band d);
      ra_geometry_version := Some (geometry_version d) |} s);
  restore_connection iface u :=
    lift (validate_networkmanager_uuid u) ;;
    may_fail ("restore_connection:" +:+ u) ;;
    s ← get sim_state; names ← get connection_names;
    s' ← lift (model_validate (set_connections_of (activated iface names u (connections s)) s));
    put_state s';
  capture q := may_fail "capture" ;; stop ← get sim_cancelled; raise_if stop CancelledError;
  cancelled := get sim_cancelled;
|}.
End SimulatedCaptureBackend.
