(* ===== verification/CaptureTheorems.v ===== *)
(** * Theorems on the durable rollback

    What a rollback may resume, which commands it repeats, and when it says that
    the interface is as it was, over any history of runs that were cut anywhere. *)

From Stdlib Require Import Ascii.
From S2P Require Import CaptureRollback JsonRoundTrip.

(** SHA-256 digests are written in lower-case hexadecimal digits. *)
Class Sha256Hex `{Sha256} := { sha256_hex_lower : ∀ s, all_chars is_lower_hex (sha256_hex s) = true }.

(** ** Lists *)

Lemma NoDup_map_inj {A B} (f : A → B) (l : list A) x y : NoDup (map f l) → x ∈ l → y ∈ l → f x = f y → x = y.
Proof.
  induction l as [|a l IH]; simpl; [by intros _ ?%elem_of_nil|]. rewrite NoDup_cons, !elem_of_cons. intros [Ha Hn] Hx Hy E.
  assert (∀ z, z ∈ l → f z ≠ f a) as Hz.
  { intros z Hz Ez. apply Ha. rewrite <-Ez. by apply list_elem_of_In, in_map, list_elem_of_In. }
  destruct Hx as [->|Hx], Hy as [->|Hy]; try done; [| |by apply IH]; exfalso; by eapply Hz.
Qed.
Lemma NoDup_map {A B} (f : A → B) (l : list A) : NoDup l → (∀ x y, x ∈ l → y ∈ l → f x = f y → x = y) → NoDup (map f l).
Proof.
  induction l as [|a l IH]; simpl; [intros; apply NoDup_nil_2|]. rewrite NoDup_cons. intros [Ha Hn] Hi. apply NoDup_cons. split.
  - intros (x & E & Hx%list_elem_of_In)%list_elem_of_In%in_map_iff. apply Ha.
    rewrite <-(Hi x a); [done|by right|by left|done].
  - apply IH; [done|]. intros x y Hx Hy. apply Hi; by right.
Qed.
Lemma filter_all {A} (P : A → Prop) `{∀ x, Decision (P x)} (l : list A) : (∀ x, x ∈ l → P x) → filter P l = l.
Proof.
  induction l as [|a l IH]; intros Hl; [done|]. rewrite filter_cons_True by (apply Hl; by left).
  f_equal. apply IH. intros x Hx. apply Hl. by right.
Qed.

Lemma triple_extract {S A} (P : S → Prop) (K : Prop) (m : SE S A) Q E :
  (K → triple P m Q E) → triple (λ s, P s ∧ K) m Q E.
Proof. intros Hm s [Hs Hk]. by apply Hm. Qed.
(** A first part whose value is known and that changes nothing. *)
Lemma triple_known {S A B} (m : SE S A) (a : A) (f : A → SE S B) (P : S → Prop) Q E :
  (∀ s, m s = (Ok a, s)) → triple P (f a) Q E → triple P (m ≫= f) Q E.
Proof. intros Hm Hf s Hs. rewrite bind_state, Hm. by apply Hf. Qed.

(** ** The plan *)

Section Plan.
Context `{Sha256} `{UuidText}.

Lemma raise_value_Ok b msg : raise_value b msg = Ok tt ↔ b = false.
Proof. unfold raise_value. by destruct b. Qed.
Lemma raise_value_bind {A} b msg (m : result A) x : (raise_value b msg ;; m) = Ok x ↔ b = false ∧ m = Ok x.
Proof. unfold raise_value. destruct b; naive_solver. Qed.

Lemma model_validate_Ok s s' :
  model_validate s = Ok s' ↔
  valid_band (ra_band (complete_geometry (radio s))) = true ∧ valid_connections (interface s) (connections s) = true
  ∧ s' = set_radio_of (complete_geometry (radio s)) s.
Proof.
  unfold model_validate. destruct (valid_band _) eqn:Eb, (valid_connections _ _) eqn:Ec; simpl; naive_solver.
Qed.

Lemma plan_operations_uuids c i uuids ops :
  plan_operations c i uuids = Ok ops →
  map op_connection_uuid ops = uuids ∧ Forall (λ o, i ≤ op_position o) ops
  ∧ Forall (λ o, op_primary o = bool_decide (Some (op_connection_uuid o) = primary_connection_uuid c)) ops.
Proof.
  revert i ops. induction uuids as [|u uuids IH]; intros i ops; simpl; [by intros [= <-]|].
  rewrite result_bind_Ok. intros (o & _ & Hr). apply result_bind_Ok in Hr as (rest & Hr & [= <-]).
  destruct (IH _ _ Hr) as (Hu & Hp & Hq). simpl. rewrite Hu.
  split_and!; [done| |by constructor]. constructor; simpl; [lia|]. eapply Forall_impl; [exact Hp|]. simpl. lia.
Qed.

Lemma restore_order_Permutation uuids p : NoDup uuids → p ∈ uuids → Permutation (restore_order uuids p) uuids.
Proof.
  intros Hn Hp. unfold restore_order, py_sorted. rewrite order_by_Permutation.
  induction uuids as [|u uuids IH]; [by apply elem_of_nil in Hp|].
  apply NoDup_cons in Hn as [Hu Hn]. rewrite filter_cons. destruct (decide (u ≠ p)) as [Hne|Heq].
  - apply elem_of_cons in Hp as [->|Hp]; [done|]. simpl. constructor. by apply IH.
  - destruct (decide (u = p)) as [->|]; [|done]. rewrite filter_all; [by rewrite Permutation_app_comm|].
    by intros x Hx ->.
Qed.

(** What the fields of a restore plan say. *)
Record plan_of (o : InterfaceState) (plan : list NetworkManagerRestoreOperation) : Prop := {
  plan_interface : Forall (λ p, op_interface p = interface o) plan;
  plan_canonical : Forall (λ p, canonical_uuid (op_connection_uuid p) = true) plan;
  plan_positions : Forall (λ p, 0 ≤ op_position p) plan;
  plan_primary : Forall (λ p, op_primary p = bool_decide (Some (op_connection_uuid p) = primary_connection_uuid (connections o))) plan;
  plan_uuids : map op_connection_uuid plan = ordered_active_connection_uuids (connections o);
  plan_nodup : NoDup (map op_connection_uuid plan);
  plan_complete : active_connections_status (connections o) = COMPLETE;
  plan_has_primary : match primary_connection_uuid (connections o) with
    | Some p => p ∈ ordered_active_connection_uuids (connections o)
    | None => ordered_active_connection_uuids (connections o) = []
    end;
}.

Lemma restore_identity_spec n c :
  restore_identity n c = true →
  active_connection_uuids c = ordered_active_connection_uuids c
  ∧ network_manager_connection_uuid c = primary_connection_uuid c
  ∧ NoDup (ordered_active_connection_uuids c)
  ∧ match active_connections_status c, primary_connection_uuid c with
    | COMPLETE, Some p => p ∈ ordered_active_connection_uuids c →
                          ordered_active_connection_uuids c = restore_order (ordered_active_connection_uuids c) p
    | _, _ => True
    end
  ∧ active_connection_interfaces c = observations n 0 (ordered_active_connection_uuids c).
Proof.
  unfold restore_identity. rewrite !andb_true_iff, !bool_decide_eq_true. intros [[[[H1 H2] H3] H4] H5].
  split_and!; try done. destruct (active_connections_status c), (primary_connection_uuid c) as [p|]; try done.
  intros Hp. apply orb_true_iff in H4 as [H4|H4%bool_decide_eq_true]; [|done].
  apply str_in_spec in Hp. by rewrite Hp in H4.
Qed.

Lemma networkmanager_restore_plan_spec o plan : networkmanager_restore_plan o = Ok plan → plan_of o plan.
Proof.
  unfold networkmanager_restore_plan. rewrite result_bind_Ok. intros (v & Hv & Hrest).
  apply model_validate_Ok in Hv as (_ & Hc & ->). simpl in Hrest.
  apply raise_value_bind in Hrest as [Hst Hrest]. apply raise_value_bind in Hrest as [_ Hrest].
  apply raise_value_bind in Hrest as [Hpr Hrest]. apply raise_value_bind in Hrest as [Hin Hrest].
  apply result_bind_Ok in Hrest as (ops & Hops & Hrest). apply raise_value_bind in Hrest as [Hif [= <-]].
  apply negb_false_iff, bool_decide_eq_true in Hst. apply negb_false_iff, eqb_prop in Hpr.
  unfold valid_connections in Hc. rewrite !andb_true_iff in Hc. destruct Hc as [[[[[[_ Hcan] _] _] _] _] Hid].
  apply restore_identity_spec in Hid as (_ & _ & Hnd & Hord & _). rewrite Hst in Hord.
  apply plan_operations_uuids in Hops as (Hu & Hp & Hq).
  assert (map op_connection_uuid ops = ordered_active_connection_uuids (connections o)
          ∧ match primary_connection_uuid (connections o) with
            | Some p => p ∈ ordered_active_connection_uuids (connections o)
            | None => ordered_active_connection_uuids (connections o) = []
            end) as [Huu Hprim].
  { rewrite Hu. destruct (primary_connection_uuid (connections o)) as [p|].
    - apply negb_false_iff, str_in_spec in Hin. split; [|done]. symmetry. by apply Hord.
    - simpl in Hpr. apply negb_false_iff, bool_decide_eq_true in Hpr. by rewrite Hpr. }
  constructor; try done.
  - apply Forall_forall. intros x Hx. destruct (String.eqb_spec (op_interface x) (interface o)) as [|Hne]; [done|]. exfalso.
    enough (existsb (λ o0, negb (String.eqb (op_interface o0) (interface o))) ops = true) by congruence.
    apply existsb_exists. exists x. split; [by apply list_elem_of_In|]. by apply negb_true_iff, String.eqb_neq.
  - apply Forall_forall. intros x Hx.
    rewrite forallb_forall in Hcan. apply Hcan. rewrite <-Huu. by apply in_map, list_elem_of_In.
  - by rewrite Huu.
Qed.

Lemma step_name_inj p q plan o :
  plan_of o plan → p ∈ plan → q ∈ plan → step_name p = step_name q → p = q.
Proof.
  intros Hp Hi Hj E. assert (op_connection_uuid p = op_connection_uuid q) as Hu.
  { unfold step_name in E. destruct (op_primary p), (op_primary q); simpl in E; congruence || (by injection E). }
  by apply (NoDup_map_inj op_connection_uuid plan _ _ (plan_nodup _ _ Hp)).
Qed.
End Plan.

(** ** The names of the steps *)

Section Names.
Context `{Sha256} `{UuidText} (o : InterfaceState) (plan : list NetworkManagerRestoreOperation) (Hplan : plan_of o plan).

Lemma base_names_known n : n ∈ base_names o → n ∈ ["link_down"; "restore_type"; "restore_frequency"; "restore_link"; "restore_networkmanager"].
Proof.
  unfold base_names. rewrite !elem_of_app. intros [?|[?|[?|?]]]; repeat case_match; rewrite ?elem_of_cons, ?elem_of_nil in *; tauto.
Qed.
Lemma step_name_connection p : ∃ u, step_name p = "restore_connection:" +:+ u ∨ step_name p = "restore_primary_connection:" +:+ u.
Proof. exists (op_connection_uuid p). unfold step_name. destruct (op_primary p); [by right|by left]. Qed.
Lemma base_not_connection n p : n ∈ base_names o → n ≠ step_name p.
Proof.
  intros Hn%base_names_known ->. destruct (step_name_connection p) as (u & [E|E]); rewrite E in Hn;
    rewrite ?elem_of_cons, ?elem_of_nil in Hn; simpl in Hn; naive_solver.
Qed.
Lemma expected_cases n : n ∈ base_names o ++ map step_name plan → n ∈ base_names o ∨ ∃ p, p ∈ plan ∧ n = step_name p.
Proof.
  rewrite elem_of_app. intros [?|(p & <- & Hp)%list_elem_of_In%in_map_iff]; [by left|right].
  exists p. by rewrite list_elem_of_In.
Qed.
Lemma expected_not_verification n : n ∈ base_names o ++ map step_name plan → str_in n verification_names = false ∧ n ≠ "restore_connections".
Proof.
  intros [Hn%base_names_known|(p & _ & ->)]%expected_cases.
  - rewrite !elem_of_cons, elem_of_nil in Hn. naive_solver.
  - by destruct (step_name_connection p) as (u & [->| ->]).
Qed.
Lemma base_names_NoDup : NoDup (base_names o).
Proof. unfold base_names. destruct (has_frequency o), (opt_is_some _); by apply (bool_decide_unpack _). Qed.
Lemma expected_NoDup : NoDup (base_names o ++ map step_name plan).
Proof.
  apply NoDup_app. split_and!; [apply base_names_NoDup| |].
  - intros n Hn (p & <- & _)%list_elem_of_In%in_map_iff. by eapply base_not_connection.
  - apply NoDup_map; [|intros; by eapply step_name_inj].
    apply (NoDup_fmap_1 op_connection_uuid plan), (plan_nodup _ _ Hplan).
Qed.
End Names.

(** ** Progress that may be resumed *)

Definition count_completed (l : list RollbackStep) : nat := length (List.filter completed l).

Section Progress.
Context `{Sha256Hex} `{UuidText} (o : InterfaceState) (plan : list NetworkManagerRestoreOperation) (token : string).
Abbreviation expected := (base_names o ++ map step_name plan).

Record in_progress (l : list RollbackStep) : Prop := {
  progress_names : names_prefix expected l = true;
  progress_authorized : Forall (λ s, authorized_step plan token s = Ok tt) l;
  progress_valid : Forall (λ s, valid_step s = true) l;
  progress_completed : all_completed (removelast l) = true;
}.
(** All steps of [l] are confirmed. *)
Definition settled (l : list RollbackStep) : Prop := in_progress l ∧ all_completed l = true.

Lemma count_all l : all_completed l = true → count_completed l = length l.
Proof.
  unfold count_completed, all_completed. induction l as [|s l IH]; [done|]. simpl. destruct (completed s); [|done].
  intros Hl. simpl. by rewrite IH.
Qed.
Lemma count_app l l' : count_completed (l ++ l') = (count_completed l + count_completed l')%nat.
Proof. unfold count_completed. by rewrite List.filter_app, length_app. Qed.
Lemma all_completed_app l l' : all_completed (l ++ l') = all_completed l && all_completed l'.
Proof. apply forallb_app. Qed.
Lemma progress_nil : in_progress [].
Proof. by constructor. Qed.
Lemma settled_nil : settled [].
Proof. split; [apply progress_nil|done]. Qed.

Lemma all_completed_removelast l : all_completed l = true → all_completed (removelast l) = true.
Proof.
  destruct l as [|x l _] using rev_ind; [done|]. rewrite removelast_last, all_completed_app. by intros [? _]%andb_true_iff.
Qed.
Lemma names_prefix_spec ex l : names_prefix ex l = true ↔ step_names l = take (length l) ex ∧ (length l ≤ length ex)%nat.
Proof. unfold names_prefix. rewrite andb_true_iff, bool_decide_eq_true, Nat.leb_le. tauto. Qed.
Lemma names_prefix_snoc ex l s :
  names_prefix ex l = true → ex !! length l = Some (name s) → names_prefix ex (l ++ [s]) = true.
Proof.
  rewrite !names_prefix_spec, length_app. unfold step_names. rewrite map_app. simpl.
  intros [Hn Hl] Hs. pose proof (lookup_lt_Some _ _ _ Hs). split; [|lia].
  by rewrite Nat.add_1_r, (take_S_r _ _ _ Hs), <-Hn.
Qed.
Lemma names_prefix_app ex l l' : names_prefix ex (l ++ l') = true → names_prefix ex l = true.
Proof.
  rewrite !names_prefix_spec, length_app. unfold step_names. rewrite map_app. intros [Hn Hl]. split; [|lia].
  apply (f_equal (take (length l))) in Hn. rewrite take_take, Nat.min_l in Hn by lia. rewrite <-Hn.
  rewrite take_app_le by (by rewrite length_map). by rewrite take_ge by (by rewrite length_map).
Qed.
Lemma progress_snoc l s :
  settled l → expected !! length l = Some (name s) → authorized_step plan token s = Ok tt → valid_step s = true →
  in_progress (l ++ [s]).
Proof.
  intros [[Hn Ha Hv _] Hc] Hs Hsa Hsv. constructor.
  - by apply names_prefix_snoc.
  - apply Forall_app. by repeat constructor.
  - apply Forall_app. by repeat constructor.
  - by rewrite removelast_last.
Qed.
Lemma settled_snoc l s :
  settled l → expected !! length l = Some (name s) → authorized_step plan token s = Ok tt → valid_step s = true →
  completed s = true → settled (l ++ [s]).
Proof.
  intros Hl Hs Ha Hv Hc. split; [by apply progress_snoc|]. rewrite all_completed_app, (proj2 Hl). simpl. by rewrite Hc.
Qed.
(** Progress is settled but for a last step that is not completed. *)
Lemma progress_cases l : in_progress l → settled l ∨ ∃ l' s, l = l' ++ [s] ∧ settled l' ∧ completed s = false.
Proof.
  intros Hp. destruct l as [|s l _] using rev_ind; [by left; apply settled_nil|]. destruct Hp as [Hn Ha Hv Hc].
  rewrite removelast_last in Hc. destruct (completed s) eqn:Hs.
  - left. split; [constructor; try done; by rewrite removelast_last|]. rewrite all_completed_app, Hc. simpl. by rewrite Hs.
  - right. exists l, s. split_and!; try done. split; [|done]. apply Forall_app in Ha as [Ha _], Hv as [Hv _].
    apply names_prefix_app in Hn. constructor; try done. by apply all_completed_removelast.
Qed.
Lemma progress_lookup l : in_progress l → step_names l = take (length l) expected ∧ (length l ≤ length expected)%nat.
Proof.
  intros [Hn _ _ _]. by apply names_prefix_spec.
Qed.
Lemma progress_in l s : in_progress l → s ∈ l → name s ∈ expected.
Proof.
  intros Hp Hs. destruct (progress_lookup l Hp) as [Hn _]. eapply subseteq_take. rewrite <-Hn.
  by apply list_elem_of_In, in_map, list_elem_of_In.
Qed.
Lemma progress_mutations l vs :
  in_progress l → Forall (λ s, is_verification s = true) vs →
  mutation_steps (l ++ vs) = l ∧ verification_steps (l ++ vs) = vs.
Proof.
  intros Hp Hv. unfold mutation_steps, verification_steps. rewrite !List.filter_app.
  assert (∀ s, s ∈ l → is_verification s = false) as Hl.
  { intros s Hs. unfold is_verification. by eapply expected_not_verification, progress_in. }
  assert (List.filter (λ s, negb (is_verification s)) l = l ∧ List.filter is_verification l = []) as [-> ->].
  { clear Hp. induction l as [|s l IH]; [done|]. simpl. rewrite (Hl s) by (by left). simpl.
    destruct IH as [-> ->]; [|done]. intros x Hx. apply Hl. by right. }
  assert (List.filter (λ s, negb (is_verification s)) vs = [] ∧ List.filter is_verification vs = vs) as [-> ->].
  { induction Hv as [|s vs Hs Hv [IH1 IH2]]; [done|]. simpl. rewrite Hs. simpl. by rewrite IH2. }
  by rewrite app_nil_r.
Qed.
Lemma rollback_step_names_Ok : networkmanager_restore_plan o = Ok plan → rollback_step_names o = Ok expected.
Proof. intros Hplan. unfold rollback_step_names. by rewrite Hplan. Qed.
Lemma progress_validates l : networkmanager_restore_plan o = Ok plan → in_progress l → validate_rollback_progress o l token = Ok tt.
Proof.
  intros Hplan Hp. unfold validate_rollback_progress.
  apply result_bind_Ok. exists expected. split; [by apply rollback_step_names_Ok|]. rewrite (progress_names _ Hp).
  apply result_bind_Ok. exists plan. split; [done|]. pose proof (progress_authorized _ Hp) as Ha. clear Hp.
  assert (∃ r, mapM (authorized_step plan token) l = Ok r) as [r Hr]; [|apply result_bind_Ok; by exists r].
  induction Ha as [|s l Hs _ [r IH]]; [by eexists|]. exists (tt :: r). simpl. rewrite Hs. simpl. by rewrite IH.
Qed.

(** The steps of a connection. *)
Lemma find_step_name p : plan_of o plan → p ∈ plan → find (λ q, String.eqb (step_name q) (step_name p)) (rev plan) = Some p.
Proof.
  intros Hplan Hp. destruct (find _ (rev plan)) as [q|] eqn:E.
  - apply find_some in E as [Hq E]. apply String.eqb_eq in E. f_equal.
    apply in_rev, list_elem_of_In in Hq. by eapply step_name_inj.
  - exfalso. assert (In p (rev plan)) as Hi by (rewrite <-in_rev; by apply list_elem_of_In).
    pose proof (find_none _ _ E p Hi) as Hn. cbv beta in Hn. by rewrite String.eqb_refl in Hn.
Qed.
Lemma connection_token_valid p : (String.length (connection_operation_token token p) =? 32)%nat
                                 && all_chars is_lower_hex (connection_operation_token token p) = true.
Proof.
  unfold connection_operation_token. set (t := sha256_hex _).
  pose proof (substring_split 32 t ltac:(unfold t; rewrite sha256_hex_length; lia)) as [Ht Hl].
  rewrite Hl. simpl. pose proof (sha256_hex_lower (token +:+ ":" +:+ str_of_Z (op_position p) +:+ ":" +:+ op_connection_uuid p
                                     +:+ ":" +:+ (if op_primary p then "1" else "0"))) as Hx.
  fold t in Hx. rewrite Ht, all_chars_append in Hx. by apply andb_true_iff in Hx as [-> _].
Qed.
Lemma connection_step_good p st why how :
  plan_of o plan → p ∈ plan → str_in how (allowed_evidence st) = true →
  match st with planned => True | confirmed => why = None | failed => opt_is_some why = true end →
  let s := connection_step p token st why (Some how) in
  authorized_step plan token s = Ok tt ∧ valid_step s = true.
Proof.
  intros Hplan Hp Hh Hw s. split.
  - unfold authorized_step. simpl. rewrite (find_step_name p Hplan Hp), !bool_decide_eq_true_2 by done. simpl. rewrite Hh.
    destruct st; simpl; [done|by subst|]. by destruct why.
  - unfold valid_step. simpl. rewrite connection_token_valid.
    pose proof (plan_canonical _ _ Hplan) as Hc. rewrite Forall_forall in Hc. rewrite (Hc _ Hp).
    pose proof (plan_positions _ _ Hplan) as Hz. rewrite Forall_forall in Hz. specialize (Hz _ Hp). simpl in Hz.
    apply Z.leb_le in Hz as ->. by destruct st.
Qed.
(** A planned step of [p], whatever was noted with it. *)
Definition intended (p : NetworkManagerRestoreOperation) (s : RollbackStep) : Prop :=
  ∃ why how, s = connection_step p token planned why (Some how) ∧ str_in how (allowed_evidence planned) = true.
Lemma intended_good p s : plan_of o plan → p ∈ plan → intended p s → authorized_step plan token s = Ok tt ∧ valid_step s = true.
Proof. intros Hplan Hp (why & how & -> & Hh). by apply connection_step_good. Qed.
Lemma authorized_planned p s :
  plan_of o plan → p ∈ plan → name s = step_name p → authorized_step plan token s = Ok tt → operation_state s = Some planned →
  valid_step s = true → intended p s.
Proof.
  intros Hplan Hp Hn Ha Hs Hv. unfold authorized_step in Ha. rewrite Hn, (find_step_name p Hplan Hp), Hs in Ha.
  destruct (_ && _) eqn:E in Ha; [|done]. rewrite !andb_true_iff, !bool_decide_eq_true in E. destruct E as [[[[[Ht Hu] Hp'] He] _] _].
  destruct (evidence s) as [how|] eqn:Eh; [|done]. exists (reason s), how. split; [|done].
  unfold valid_step in Hv. rewrite Hs in Hv. rewrite !andb_true_iff in Hv. destruct Hv as [[_ Hv] _].
  destruct s; simpl in *. apply negb_true_iff in Hv. by subst.
Qed.
Lemma plain_step_good n done why : n ∈ base_names o → authorized_step plan token (plain_step n done why) = Ok tt ∧ valid_step (plain_step n done why) = true.
Proof.
  intros Hn. split; [|done]. unfold authorized_step. destruct (find _ _) as [p|] eqn:E; [|done].
  apply find_some in E as [_ E%String.eqb_eq]. simpl in E. by destruct (base_not_connection o n p Hn).
Qed.
End Progress.

(** ** A run *)

(** The snapshots of a backend are [InterfaceState]s that were validated. *)
Definition snapshots_valid `{UuidText} {W} (B : CaptureBackend W) : Prop :=
  ∀ iface w v w', snapshot B iface w = (Ok v, w') → is_ok (model_validate v) = true.

Section Run.
Context `{Sha256Hex} `{UuidText} {W : Type} (B : CaptureBackend W) (fault : nat → option exc).
Context (o : InterfaceState) (plan : list NetworkManagerRestoreOperation) (token : string).
Context (Hplan : networkmanager_restore_plan o = Ok plan).
Context (Hsnap : snapshots_valid B).
Context (before : list string) (n0 : nat).
Abbreviation expected := (base_names o ++ map step_name plan).
Abbreviation in_progress := (in_progress o plan token).
Abbreviation settled := (settled o plan token).
Abbreviation checkpoint := (save_progress (W:=W) fault expected).

(** The report in the marker can be resumed, and confirms at least [n0] steps. *)
Definition saved_well (m : Marker) : Prop :=
  marker_state m = ROLLBACK_VERIFICATION_PENDING ∧ capture_token m = token
  ∧ ∃ report, saved m = Some report ∧ is_ok (load_report report) = true
      ∧ in_progress (mutation_steps (steps report)) ∧ (n0 ≤ count_completed (mutation_steps (steps report)))%nat.
(** And the commands issued since [before] are some of the steps from [n0] to [k]. *)
Definition running (k : nat) (r : Recovery W) : Prop :=
  saved_well (marker r) ∧ ∃ l, issued r = before ++ l ∧ l `sublist_of` drop n0 (take k expected).
Definition cut (e : exc) (r : Recovery W) : Prop := running (length expected) r ∧ ∃ n, fault n = Some e.

Lemma running_mono k k' r : (k ≤ k')%nat → running k r → running k' r.
Proof.
  intros Hk [Hm (l & Hi & Hl)]. split; [done|]. exists l. split; [done|]. etrans; [done|].
  rewrite <-(take_drop k (take k' expected)), take_take, Nat.min_l by done. destruct (decide (n0 ≤ length (take k expected))%nat).
  - rewrite drop_app_le by done. apply sublist_inserts_r. done.
  - rewrite (drop_ge (take k expected)) by lia. apply sublist_nil_l.
Qed.
Lemma running_end k r : running k r → running (length expected) r.
Proof.
  intros Hr. destruct (decide (k ≤ length expected)%nat) as [Hk|Hk]; [by apply (running_mono k)|].
  destruct Hr as [Hm (l & Hi & Hl)]. split; [done|]. exists l. split; [done|].
  by rewrite take_ge in Hl |- * by lia.
Qed.

Lemma running_effect k : triple (running k) (effect fault) (λ _, running k) cut.
Proof.
  intros r Hr. unfold effect. destruct (fault (calls r)) eqn:E; [|done]. split; [by apply (running_end k)|by eexists].
Qed.
Lemma running_in_world {A} k (m : SE W A) : triple (running k) (in_world m) (λ _, running k) (λ _, running k).
Proof. intros r Hr. unfold in_world. by destruct (m (world r)) as [[]]. Qed.
Lemma running_attempt {A} k (m : SE W A) : triple (running k) (attempt (on_world fault m)) (λ _, running k) cut.
Proof.
  intros r Hr. unfold attempt, on_world. rewrite bind_state. unfold effect, in_world.
  destruct (fault (calls r)); simpl; [done|]. by destruct (m (world r)) as [[]].
Qed.
Lemma running_command p n m :
  expected !! p = Some n → (n0 ≤ p)%nat → triple (running p) (attempt (command fault n m)) (λ _, running (S p)) cut.
Proof.
  intros Hn Hp r Hr. unfold attempt, command. rewrite bind_state. unfold effect.
  destruct (fault (calls r)); simpl; [by apply (running_mono p); [lia|]|]. rewrite bind_state. unfold modify, in_world.
  destruct Hr as [Hm (l & Hi & Hl)]. simpl.
  assert (∀ w, running (S p) (MkRecovery w (marker r) (S (calls r)) (issued r ++ [n]))) as Hgoal.
  { intros w. split; [done|]. exists (l ++ [n]). rewrite app_assoc, <-Hi. split; [done|].
    pose proof (lookup_lt_Some _ _ _ Hn).
    rewrite (take_S_r _ _ _ Hn), drop_app_le by (rewrite length_take; lia). by apply sublist_app. }
  by destruct (m (world r)) as [[]].
Qed.

(** A report is saved with the progress it describes. *)
Lemma running_note k report :
  is_ok (load_report report) = true → in_progress (mutation_steps (steps report)) →
  (n0 ≤ count_completed (mutation_steps (steps report)))%nat →
  triple (running k) (note_rollback_verification fault report) (λ _ r, running k r ∧ saved (marker r) = Some report) cut.
Proof.
  intros Hl Hp Hn. unfold note_rollback_verification.
  eapply triple_bind; [apply (triple_get _ (λ st r, running k r ∧ st = ROLLBACK_VERIFICATION_PENDING))|intros st].
  { intros r Hr. split; [done|]. apply Hr. }
  eapply triple_bind with (R := λ _, running k).
  { apply triple_raise_if; [|by intros r [? _]]. by intros r [_ ->]. }
  intros _. eapply triple_bind; [apply running_effect|intros []].
  intros r [(Hst & Ht & _) Hi]. simpl. split; [|done]. split; [|done]. split_and!; [done|done|]. by exists report.
Qed.
Lemma load_incomplete l why done :
  Forall (λ s, valid_step s = true) l → is_ok (load_report (MkReport false l None VUnavailable why done)) = true.
Proof.
  intros Hl. unfold load_report. simpl. replace (forallb valid_step l) with true; [done|].
  symmetry. apply forallb_forall. rewrite Forall_forall in Hl. intros s Hs. by apply Hl, list_elem_of_In.
Qed.
Definition verifications (l : list RollbackStep) : Prop :=
  Forall (λ s, is_verification s = true ∧ valid_step s = true) l.
Lemma running_checkpoint k l vs :
  in_progress l → (n0 ≤ count_completed l)%nat → verifications vs →
  triple (running k) (checkpoint (l ++ vs)) (λ _, running k) cut.
Proof.
  intros Hp Hn Hv. assert (Forall (λ s, is_verification s = true) vs) as Hvs by (eapply Forall_impl; [exact Hv|naive_solver]).
  destruct (progress_mutations o plan token l vs Hp Hvs) as [Hm _].
  eapply triple_bind; [apply (triple_lift _ (λ report r, running k r ∧ report = checkpoint_report expected (l ++ vs)))|].
  - intros r a Hr [= <-]. done.
  - by intros r e _ [=].
  - intros report. intros r [Hr ->]. revert r Hr.
    eapply triple_weaken; [apply (running_note k)|done|by intros _ r [? _]|done]; simpl; rewrite ?Hm; try done.
    apply load_incomplete, Forall_app. split; [apply (progress_valid _ _ _ _ Hp)|eapply Forall_impl; [exact Hv|naive_solver]].
Qed.
Lemma running_checkpoint' k l :
  in_progress l → (n0 ≤ count_completed l)%nat → triple (running k) (checkpoint l) (λ _, running k) cut.
Proof. intros. rewrite <-(app_nil_r l). apply running_checkpoint; try done. constructor. Qed.

(** Where a stretch of commands leaves the steps: all confirmed up to [target],
    or with progress that may be resumed. *)
Definition reached (target : nat) (x : list RollbackStep * bool) (r : Recovery W) : Prop :=
  if x.2 then settled x.1 ∧ length x.1 = target ∧ running target r
  else in_progress x.1 ∧ (n0 ≤ count_completed x.1)%nat ∧ running (length expected) r.

Lemma settled_count l l' : settled l → (length l ≤ count_completed (l ++ l'))%nat.
Proof. intros [_ Hc]. rewrite count_app, (count_all l Hc). lia. Qed.

Lemma reached_attempt_step l n m :
  settled l → expected !! length l = Some n → n ∈ base_names o → (n0 ≤ length l)%nat →
  triple (running (length l)) (attempt_step fault checkpoint l n m) (reached (S (length l))) cut.
Proof.
  intros Hl He Hn Hn0. unfold attempt_step.
  eapply triple_bind; [by apply running_command|intros outcome]. cbv zeta.
  set (s := match outcome with Ok _ => _ | Err e => _ end).
  assert (name s = n ∧ authorized_step plan token s = Ok tt ∧ valid_step s = true) as (Hsn & Ha & Hv).
  { unfold s. destruct outcome; (split; [done|by apply (plain_step_good o plan token)]). }
  rewrite <-Hsn in He. pose proof (settled_count l [s] Hl).
  assert (in_progress (l ++ [s])) as Hp by by apply progress_snoc.
  eapply triple_bind; [apply running_checkpoint'; [done|lia]|intros []].
  apply triple_ret. intros r Hr. unfold reached. simpl. destruct (completed s) eqn:Ec.
  - split_and!; [by apply settled_snoc|rewrite length_app; simpl; lia|done].
  - split_and!; [done|lia|]. by eapply running_end.
Qed.
Lemma base_lookup pre n rest : base_names o = pre ++ n :: rest → expected !! length pre = Some n ∧ n ∈ base_names o.
Proof.
  intros ->. split; [|rewrite elem_of_app, elem_of_cons; tauto]. rewrite <-app_assoc. by apply list_lookup_middle.
Qed.
Lemma reached_run_base already cs : ∀ l pre,
  settled l → base_names o = pre ++ map fst cs → length pre = length l → (n0 ≤ length l)%nat →
  Forall (λ c, str_in c.1 already = false) cs →
  triple (running (length l)) (run_base fault checkpoint already cs l) (reached (length (base_names o))) cut.
Proof.
  induction cs as [|[n m] cs IH]; intros l pre Hl Hb Hpre Hn0 Hn; cbn [run_base].
  - apply triple_ret. cbn [map] in Hb. rewrite app_nil_r in Hb. rewrite Hb, Hpre. intros r Hr. by split_and!.
  - apply Forall_cons in Hn as [Hn1 Hn]. simpl in Hn1, Hb. rewrite Hn1. destruct (base_lookup _ _ _ Hb) as [He Hin].
    rewrite Hpre in He. eapply triple_bind; [by apply reached_attempt_step|]. intros [l' ok]. destruct ok.
    + apply triple_weaken with (P := λ r, (settled l' ∧ length l' = S (length l)) ∧ running (S (length l)) r)
        (Q := reached (length (base_names o))) (E := cut); [|by intros r (? & ? & ?)|done|done].
      intros r [[Hl' Hlen] Hr]. rewrite <-Hlen in Hr. revert r Hr.
      apply (IH l' (pre ++ [n])); [done|by rewrite <-app_assoc|rewrite length_app; simpl; lia|lia|done].
    + by apply triple_ret.
Qed.
Lemma run_base_skip already cs cs' l :
  Forall (λ c, str_in c.1 already = true) cs →
  run_base fault checkpoint already (cs ++ cs') l = run_base fault checkpoint already cs' l.
Proof. induction 1 as [|[n m] cs Hn _ IH]; [done|]. simpl in *. by rewrite Hn. Qed.

(** One more step is saved behind confirmed ones. *)
Lemma reached_save l0 s ok k :
  settled l0 → expected !! length l0 = Some (name s) → authorized_step plan token s = Ok tt ∧ valid_step s = true →
  (n0 ≤ length l0)%nat → ok = completed s → (k ≤ S (length l0))%nat →
  triple (running k) (checkpoint (l0 ++ [s]) ;; mret (l0 ++ [s], ok)) (reached (S (length l0))) cut.
Proof.
  intros Hl He [Ha Hv] Hn -> Hk. pose proof (settled_count l0 [s] Hl).
  assert (in_progress (l0 ++ [s])) as Hp by by apply progress_snoc.
  eapply triple_bind; [apply running_checkpoint'; [done|lia]|intros []].
  apply triple_ret. intros r Hr. unfold reached. simpl. destruct (completed s) eqn:Ec.
  - split_and!; [by apply settled_snoc|rewrite length_app; simpl; lia|]. by eapply running_mono.
  - split_and!; [done|lia|]. by eapply running_end.
Qed.
Lemma running_intent l0 s k :
  settled l0 → expected !! length l0 = Some (name s) → authorized_step plan token s = Ok tt ∧ valid_step s = true →
  (n0 ≤ length l0)%nat → triple (running k) (checkpoint (l0 ++ [s])) (λ _, running k) cut.
Proof.
  intros Hl He [Ha Hv] Hn. pose proof (settled_count l0 [s] Hl). apply running_checkpoint'; [by apply progress_snoc|lia].
Qed.
Lemma plan_is : plan_of o plan.
Proof. by apply networkmanager_restore_plan_spec. Qed.
Lemma settled_not_pending l0 p : settled l0 → expected !! length l0 = Some (step_name p) → pending_step l0 p = None.
Proof.
  intros [Hl _] He. unfold pending_step. destruct l0 as [|s l _] using rev_ind; [done|]. rewrite last_snoc.
  destruct (String.eqb_spec (name s) (step_name p)) as [E|]; [|done]. exfalso.
  destruct (progress_lookup _ _ _ _ Hl) as [Hn _]. rewrite length_app in He. rewrite Nat.add_1_r in He.
  assert (expected !! length l = Some (step_name p)) as He'.
  { rewrite <-(lookup_take_lt _ (length (l ++ [s]))) by (rewrite length_app; simpl; lia). rewrite <-Hn.
    unfold step_names. rewrite map_app, <-(length_map name l). rewrite <-E. by apply list_lookup_middle. }
  pose proof (NoDup_lookup _ _ _ _ (expected_NoDup o plan plan_is) He He'). lia.
Qed.
Lemma with_reason_intended p s why how :
  intended token p s → str_in how (allowed_evidence planned) = true → intended token p (with_reason s why how).
Proof. intros (w & h & -> & _) Hh. by exists (Some why), how. Qed.
Lemma intended_fields p s : intended token p s → name s = step_name p ∧ completed s = false ∧ operation_state s = Some planned.
Proof. by intros (w & h & -> & _). Qed.

Lemma reached_restore_one iface l0 l p :
  settled l0 → p ∈ plan → expected !! length l0 = Some (step_name p) → (n0 ≤ length l0)%nat →
  l = l0 ∨ (∃ s, l = l0 ++ [s] ∧ intended token p s) →
  triple (running (length l0)) (restore_one B fault checkpoint token iface l p) (reached (S (length l0))) cut.
Proof.
  intros Hl Hp He Hn Hshape. unfold restore_one. cbv zeta.
  assert (∀ st why how, str_in how (allowed_evidence st) = true →
    match st with planned => True | confirmed => why = None | failed => opt_is_some why = true end →
    authorized_step plan token (connection_step p token st why (Some how)) = Ok tt
    ∧ valid_step (connection_step p token st why (Some how)) = true) as Hgood.
  { intros. by apply (connection_step_good o plan token p st why how plan_is Hp). }
  assert (∃ q, intended token p q ∧ (pending_step l p = Some q ∧ l = l0 ++ [q]
            ∨ pending_step l p = None ∧ l = l0 ∧ q = connection_step p token planned None (Some "observation_required_before_mutation")))
    as (q & Hq & Hcase).
  { destruct Hshape as [->|(s & -> & Hs)].
    - eexists. split; [|right; split; [by apply settled_not_pending|done]]. by eexists _, _.
    - exists s. split; [done|left; split; [|done]]. unfold pending_step. rewrite last_snoc.
      destruct (intended_fields p s Hs) as (-> & _ & _). by rewrite String.eqb_refl. }
  pose proof (intended_fields p q Hq) as (Hqn & Hqc & Hqs).
  assert (∀ why how, str_in how (allowed_evidence planned) = true →
    authorized_step plan token (with_reason q why how) = Ok tt ∧ valid_step (with_reason q why how) = true) as Hwith.
  { intros why how Hh. by apply (intended_good o plan token p _ plan_is Hp), with_reason_intended. }
  pose proof (intended_good o plan token p q plan_is Hp Hq) as Hqg.
  replace (match pending_step l p with Some s => negb (bool_decide (operation_state s = Some planned)) | None => false end) with false
    by (destruct Hcase as [[-> _]|[-> _]]; [by rewrite Hqs|done]).
  eapply triple_bind; [apply running_attempt|]. intros [observed|e].
  2: { apply (triple_bind _ (λ _ : unit, running (length l0)));
         [destruct Hcase as [[-> ->]|(-> & -> & <-)]; [by apply triple_ret|apply (running_intent l0 q); [done|by rewrite Hqn|done|done]]|intros []].
       replace (replace_last _ _) with (l0 ++ [with_reason q (type_name e) "connection_observation_unavailable"])
         by (destruct Hcase as [[-> ->]|(-> & -> & <-)]; simpl; unfold replace_last; by rewrite removelast_last).
       apply reached_save; simpl; try done; [by rewrite Hqn|by apply Hwith|lia]. }
  destruct (bool_decide _); simpl.
  2: { replace (replace_last _ _) with (l0 ++ [with_reason q ("active_connections_" +:+ status_text (active_connections_status (connections observed)))
                                               "connection_observation_incomplete"])
         by (destruct Hcase as [[-> ->]|(-> & -> & <-)]; simpl; unfold replace_last; by rewrite removelast_last).
       apply reached_save; simpl; try done; [by rewrite Hqn|by apply Hwith|lia]. }
  destruct (connection_effect_observed p observed).
  { replace (match pending_step l p with Some _ => _ | None => _ end)
      with (l0 ++ [connection_step p token confirmed None (Some "effect_observed_before_retry")])
      by (destruct Hcase as [[-> ->]|(-> & -> & _)]; simpl; unfold replace_last; by rewrite ?removelast_last).
    apply reached_save; try done; [by apply Hgood|lia]. }
  apply (triple_bind _ (λ _ : unit, running (length l0))).
  { destruct Hcase as [[-> ->]|(-> & -> & _)]; [by apply triple_ret|]. apply running_intent; try done. by apply Hgood. }
  intros []. eapply triple_bind; [by apply running_command|]. intros outcome.
  set (s := match outcome with Ok _ => _ | Err e => _ end).
  assert (name s = step_name p ∧ authorized_step plan token s = Ok tt ∧ valid_step s = true) as (Hsn & Hsg).
  { unfold s. destruct outcome as [|e]; [|destruct (decide (e = profile_missing))]; (split; [done|by apply Hgood]). }
  replace (replace_last _ s) with (l0 ++ [s])
    by (destruct Hcase as [[-> ->]|(-> & -> & _)]; simpl; unfold replace_last; by rewrite removelast_last).
  apply reached_save; try done. by rewrite Hsn.
Qed.

(** *** The connections *)

Definition ended (l : list RollbackStep) (r : Recovery W) : Prop :=
  in_progress l ∧ (n0 ≤ count_completed l)%nat ∧ running (length expected) r.

Lemma NoDup_drop_take {A} (k : nat) (l : list A) x : NoDup l → x ∈ drop k l → x ∉ take k l.
Proof. rewrite <-(take_drop k l) at 1. rewrite NoDup_app. intros (_ & Hn & _) Hd Ht. by apply (Hn x). Qed.
Lemma not_str_in x l : x ∉ l → str_in x l = false.
Proof. destruct (str_in x l) eqn:E; [|done]. by apply str_in_spec in E. Qed.
Lemma lookup_plan pre p rest : plan = pre ++ p :: rest → expected !! (length (base_names o) + length pre)%nat = Some (step_name p).
Proof.
  intros ->. rewrite lookup_app_r by lia. rewrite Nat.add_comm, Nat.add_sub, map_app, <-(length_map step_name pre).
  by apply list_lookup_middle.
Qed.
Lemma restore_connections_skip iface already ps qs l :
  Forall (λ p, str_in (step_name p) already = true) ps →
  restore_connections B fault checkpoint token iface already (ps ++ qs) l = restore_connections B fault checkpoint token iface already qs l.
Proof. induction 1 as [|p ps Hp _ IH]; [done|]. simpl. by rewrite Hp. Qed.

Lemma reached_connections iface rest : ∀ pre l0 l already,
  plan = pre ++ rest → settled l0 → length l0 = (length (base_names o) + length pre)%nat → (n0 ≤ length l0)%nat →
  l = l0 ∨ (∃ p rest' s, rest = p :: rest' ∧ l = l0 ++ [s] ∧ intended token p s) →
  Forall (λ p, str_in (step_name p) already = false) rest →
  triple (running (length l0)) (restore_connections B fault checkpoint token iface already rest l) ended cut.
Proof.
  induction rest as [|p rest IH]; intros pre l0 l already Hpl Hl Hlen Hn Hshape Hal; cbn [restore_connections].
  - destruct Hshape as [->|(? & ? & ? & ? & _)]; [|done]. apply triple_ret. intros r Hr.
    split_and!; [apply Hl|by rewrite (count_all l0 (proj2 Hl))|by eapply running_end].
  - apply Forall_cons in Hal as [Hp Hal]. rewrite Hp.
    eapply triple_bind.
    { apply (reached_restore_one iface l0 l p); try done.
      - rewrite Hpl. apply elem_of_app. right. by left.
      - rewrite Hlen. by eapply lookup_plan.
      - destruct Hshape as [->|(? & ? & s & [= <- <-] & -> & Hs)]; [by left|right; by eexists]. }
    intros [l' ok]. destruct ok.
    + apply triple_weaken with (P := λ r, (settled l' ∧ length l' = S (length l0)) ∧ running (S (length l0)) r)
        (Q := ended) (E := cut); [|by intros r (? & ? & ?)|done|done].
      intros r [[Hl' Hlen'] Hr]. rewrite <-Hlen' in Hr. revert r Hr.
      apply (IH (pre ++ [p])); [by rewrite <-app_assoc|done|rewrite length_app, Hlen'; cbn [length]; lia|lia|by left|].
      apply Forall_forall. intros q Hq. rewrite Forall_forall in Hal. apply not_str_in.
      rewrite elem_of_cons. intros [Eq|Hin%str_in_spec]; [|by rewrite Hal in Hin].
      pose proof (plan_nodup _ _ plan_is) as Hnd. rewrite Hpl, map_app in Hnd. apply NoDup_app in Hnd as (_ & _ & Hnd).
      apply NoDup_cons in Hnd as [Hnot _]. apply Hnot.
      rewrite <-(step_name_inj q p plan o plan_is); [|rewrite Hpl; apply elem_of_app; right; by right
        |rewrite Hpl; apply elem_of_app; right; by left|done]. by apply list_elem_of_In, in_map, list_elem_of_In.
    + by apply triple_ret.
Qed.

(** *** The whole suffix *)

Lemma base_commands_names : map fst (base_commands B o) = base_names o.
Proof.
  unfold base_commands, base_names. rewrite !map_app. repeat f_equal; [by destruct (has_frequency o)|].
  by destruct (network_manager_managed o).
Qed.
Definition shaped (l0 l : list RollbackStep) : Prop :=
  l = l0 ∨ (∃ p s, l = l0 ++ [s] ∧ p ∈ plan ∧ expected !! length l0 = Some (step_name p) ∧ intended token p s).
Lemma plan_position i p : expected !! i = Some (step_name p) → p ∈ plan → ∃ rest, drop (i - length (base_names o)) plan = p :: rest ∧ (length (base_names o) ≤ i)%nat.
Proof.
  intros Hi Hp. destruct (decide (i < length (base_names o))%nat) as [Hlt|Hge].
  - rewrite lookup_app_l in Hi by done. apply list_elem_of_lookup_2 in Hi. by destruct (base_not_connection o _ p Hi).
  - rewrite lookup_app_r in Hi by lia. destruct (list_elem_of_lookup_1 _ _ Hp) as [j Hj].
    apply list_lookup_fmap_Some in Hi as (q & Eq & Hq).
    assert (q = p) as -> by (apply (step_name_inj q p plan o plan_is); [by eapply list_elem_of_lookup_2|done|done]).
    eexists. split; [by apply drop_S|lia].
Qed.
Lemma ended_plan k l0 l :
  settled l0 → length l0 = Nat.max k (length (base_names o)) → (k ≤ length expected)%nat → (n0 ≤ length l0)%nat → shaped l0 l →
  triple (running (length l0)) (restore_connections B fault checkpoint token (interface o) (take k expected) plan l) ended cut.
Proof.
  intros Hl Hlen Hk Hn Hshape. set (j := (k - length (base_names o))%nat).
  assert (map step_name (take j plan) = take j (map step_name plan)) as step_names_of by by rewrite firstn_map.
  assert (k ≤ length (base_names o) ∨ take k expected = base_names o ++ take j (map step_name plan))%nat as Hcase.
  { destruct (decide (k ≤ length (base_names o))%nat); [by left|right]. rewrite take_app_ge by lia. done. }
  enough (triple (running (length l0)) (restore_connections B fault checkpoint token (interface o) (take k expected) (drop j plan) l) ended cut) as Hgoal.
  { pose proof (restore_connections_skip (interface o) (take k expected) (take j plan) (drop j plan) l) as E.
    rewrite (take_drop j plan) in E. rewrite E; [done|]. apply Forall_forall. intros p Hp. apply str_in_spec. destruct Hcase as [Hle|Ht].
       - exfalso. unfold j in Hp. rewrite (proj2 (Nat.sub_0_le _ _) Hle) in Hp. by apply elem_of_nil in Hp.
       - rewrite Ht, <-step_names_of. apply elem_of_app. right. by apply list_elem_of_In, in_map, list_elem_of_In. }
  apply reached_connections with (pre := take j plan) (l0 := l0); try done.
  - by rewrite take_drop.
  - rewrite length_take. rewrite length_app, length_map in Hk. lia.
  - destruct Hshape as [->|(p & s & -> & Hp & He & Hs)]; [by left|right].
    destruct (plan_position _ _ He Hp) as (rest & Hd & Hle). exists p, rest, s. split_and!; try done.
    rewrite <-Hd. f_equal. unfold j. lia.
  - apply Forall_forall. intros p Hp. apply not_str_in. apply (NoDup_drop_take k expected); [apply expected_NoDup, plan_is|].
    destruct (decide (k ≤ length (base_names o))%nat) as [Hle|Hgt].
    + rewrite drop_app_le by done. apply elem_of_app. right. apply list_elem_of_In, in_map, list_elem_of_In.
      eapply subseteq_drop, Hp.
    + rewrite drop_app_ge by lia. change (k - length (base_names o))%nat with j. rewrite skipn_map.
      by apply list_elem_of_In, in_map, list_elem_of_In.
Qed.

Lemma filter_completed l : all_completed l = true → List.filter completed l = l.
Proof. induction l as [|s l IH]; [done|]. simpl. destruct (completed s); [|done]. intros Hl. simpl. by rewrite IH. Qed.
(** What a run may resume: confirmed steps, and perhaps a connection that was planned. *)
Lemma resumed_shape l :
  in_progress l → confirmed_prefix l = true → last_failed l = false →
  ∃ l0, settled l0 ∧ List.filter completed l = l0 ∧ shaped l0 l.
Proof.
  intros Hp Hc Hf. destruct (progress_cases _ _ _ _ Hp) as [Hl|(l0 & s & -> & Hl & Hs)].
  - exists l. split_and!; [done|by apply filter_completed, Hl|by left].
  - exists l0. rewrite List.filter_app. simpl. rewrite Hs, app_nil_r. split_and!; [done|by apply filter_completed, Hl|].
    unfold confirmed_prefix in Hc. unfold last_failed in Hf. rewrite last_snoc, Hs in *. simpl in *.
    apply andb_true_iff in Hc as [_ Hc]. apply bool_decide_eq_true in Hc. apply bool_decide_eq_false in Hf.
    assert (operation_state s = Some planned) as Hst by (rewrite !elem_of_cons, elem_of_nil in Hc; tauto).
    pose proof (progress_authorized _ _ _ _ Hp) as Ha. apply Forall_app in Ha as [_ Ha]. apply Forall_cons in Ha as [Ha _].
    pose proof (progress_valid _ _ _ _ Hp) as Hv. apply Forall_app in Hv as [_ Hv]. apply Forall_cons in Hv as [Hv _].
    destruct (find (λ q, String.eqb (step_name q) (name s)) (rev plan)) as [p|] eqn:E.
    + apply find_some in E as [Hin E]. apply String.eqb_eq in E. apply in_rev, list_elem_of_In in Hin.
      right. exists p, s. split_and!; try done; [|by apply (authorized_planned o plan token p s plan_is Hin)].
      destruct (progress_lookup _ _ _ _ Hp) as [Hn Hlen]. rewrite length_app in Hn, Hlen. simpl in Hlen. rewrite E.
      rewrite <-(lookup_take_lt _ (length l0 + length [s])) by (simpl; lia). rewrite <-Hn. unfold step_names.
      rewrite map_app, <-(length_map name l0). by apply list_lookup_middle.
    + exfalso. unfold authorized_step in Ha. rewrite E in Ha. unfold no_authority in Ha. rewrite Hst in Ha.
      by rewrite andb_false_r in Ha.
Qed.

Lemma ended_apply l :
  in_progress l → confirmed_prefix l = true → (n0 ≤ count_completed l)%nat →
  triple (running 0) (apply_rollback B fault o l checkpoint token) ended cut.
Proof.
  intros Hp Hc Hn. unfold apply_rollback.
  apply (triple_known _ expected); [intros; unfold lift; by rewrite (rollback_step_names_Ok o plan Hplan)|].
  apply (triple_known _ tt); [intros; unfold lift; by rewrite (progress_validates o plan token l Hplan Hp)|].
  apply (triple_known _ tt); [intros; by rewrite (progress_names _ _ _ _ Hp), Hc|].
  destruct (last_failed l) eqn:Hf.
  { apply triple_ret. intros r Hr. split_and!; [done..|by eapply running_end]. }
  destruct (resumed_shape l Hp Hc Hf) as (l0 & Hl & Hfl & Hshape).
  assert (n0 ≤ length l0)%nat as Hn0 by (unfold count_completed in Hn; by rewrite Hfl in Hn).
  destruct (progress_lookup _ _ _ _ (proj1 Hl)) as [Hnames Hlen].
  rewrite Hfl, Hnames. cbv zeta. set (k := length l0) in *.
  assert (∀ l1 l2, settled l1 → length l1 = Nat.max k (length (base_names o)) → shaped l1 l2 →
    triple (running (length l1)) (plan0 ← lift (networkmanager_restore_plan o);
      restore_connections B fault checkpoint token (interface o) (take k expected) plan0 l2) ended cut) as Htail.
  { intros l1 l2 Hl1 Hlen1 Hs1. apply (triple_known _ plan); [intros; unfold lift; by rewrite Hplan|].
    apply ended_plan; try done. lia. }
  destruct (decide (k < length (base_names o))%nat) as [Hlt|Hge].
  - destruct Hshape as [->|(p & s & _ & Hpin & He & _)].
    2: { destruct (plan_position _ _ He Hpin) as (rest & _ & Hle). unfold k in Hlt. lia. }
    assert (run_base fault checkpoint (take k expected) (base_commands B o) l0
            = run_base fault checkpoint (take k expected) (drop k (base_commands B o)) l0) as ->.
    { rewrite <-(run_base_skip (take k expected) (take k (base_commands B o)) (drop k (base_commands B o)) l0); [by rewrite take_drop|].
      apply Forall_forall. intros c Hc1. apply str_in_spec. rewrite take_app_le by lia.
      rewrite <-base_commands_names, firstn_map. by apply list_elem_of_In, in_map, list_elem_of_In. }
    eapply triple_bind.
    { eapply triple_weaken; [apply (reached_run_base (take k expected) (drop k (base_commands B o)) l0 (take k (base_names o)))
        |intros r Hr; by apply (running_mono 0); [lia|]|done|done]; try done.
      - by rewrite <-skipn_map, base_commands_names, take_drop.
      - rewrite length_take. fold k. lia.
      - apply Forall_forall. intros c Hc1. apply not_str_in, (NoDup_drop_take k expected); [apply expected_NoDup, plan_is|].
        rewrite drop_app_le by lia. apply elem_of_app. left.
        rewrite <-base_commands_names, skipn_map. by apply list_elem_of_In, in_map, list_elem_of_In. }
    intros [l' ok]. destruct ok; simpl; [|by apply triple_ret].
    apply triple_weaken with (P := λ r, (settled l' ∧ length l' = length (base_names o)) ∧ running (length (base_names o)) r)
      (Q := ended) (E := cut); [|by intros r (? & ? & ?)|done|done].
    intros r [[Hl' Hlen'] Hr]. rewrite <-Hlen' in Hr. revert r Hr. apply Htail; [done|lia|by left].
  - apply (triple_known _ (l, true)).
    { intros s. rewrite <-(app_nil_r (base_commands B o)), run_base_skip; [done|].
      apply Forall_forall. intros c Hc1. apply str_in_spec. rewrite take_app_ge by lia. apply elem_of_app. left.
      rewrite <-base_commands_names. by apply list_elem_of_In, in_map, list_elem_of_In. }
    eapply triple_weaken; [apply (Htail l0 l); [done|fold k; lia|done]|intros r Hr; apply (running_mono 0); [lia|done]|done|done].
Qed.

(** *** Verifying *)

Lemma assess_complete v why :
  assess_rollback_verification o v = (VComplete, why) →
  why = None ∧ ∃ o' v', model_validate o = Ok o' ∧ model_validate v = Ok v'
    ∧ active_connections_status (connections v) = COMPLETE ∧ same_state v' o' = true
    ∧ Forall (λ e, snd e = true) (required_values v').
Proof.
  unfold assess_rollback_verification. destruct (model_validate o) as [o'|] eqn:Eo; [|done].
  destruct (model_validate v) as [v'|] eqn:Ev; [|done].
  apply model_validate_Ok in Ev as Ev'. destruct Ev' as (_ & _ & ->).
  destruct (active_connections_status _) eqn:Est; [|done|done].
  case_match eqn:Em; [done|]. apply negb_false_iff, bool_decide_eq_true in Em.
  destruct (same_state _ o') eqn:Es; [|done]. intros [= <-]. split; [done|]. eexists _, _. split_and!; try done.
  apply Forall_forall. intros e He. destruct e.2 eqn:E2; [done|]. exfalso.
  assert (e ∈ List.filter (λ e, negb e.2) (required_values (set_radio_of (complete_geometry (radio v)) v))) as Hf.
  { apply list_elem_of_In, filter_In. split; [by apply list_elem_of_In|]. by rewrite E2. }
  apply list_elem_of_In, (in_map fst) in Hf. by rewrite Em in Hf.
Qed.
Lemma same_state_connections v v' o' :
  model_validate v = Ok v' → model_validate o = Ok o' → same_state v' o' = true →
  same_elements (ordered_active_connection_uuids (connections v)) (ordered_active_connection_uuids (connections o)) = true
  ∧ primary_connection_uuid (connections v) = primary_connection_uuid (connections o).
Proof.
  intros (_ & _ & ->)%model_validate_Ok (_ & _ & ->)%model_validate_Ok. unfold same_state. simpl.
  rewrite !andb_true_iff, !bool_decide_eq_true. intros Hs. by destruct Hs as [[[[[[[_ ->] ->] _] _] _] _] _].
Qed.

(** The steps of a reading, and what they say when it is complete. *)
Definition reading_steps (active primary whole : bool) (r1 r2 r3 : option string) (how : string) : list RollbackStep :=
  [verify_step "verify_active_connections" active r1 how; verify_step "verify_primary_connection" primary r2 how;
   verify_step "verify_interface_state" whole r3 how].
Lemma reading_verifications a p w r1 r2 r3 how : verifications (reading_steps a p w r1 r2 r3 how).
Proof. repeat constructor. Qed.
Lemma running_reading l v :
  in_progress l → (n0 ≤ count_completed l)%nat →
  triple (running (length expected)) (verify_reading checkpoint o v l)
    (λ l' r, running (length expected) r ∧ ∃ a p r1 r2 r3,
       l' = l ++ reading_steps a p (bool_decide (fst (assess_rollback_verification o v) = VComplete)) r1 r2 r3 "read_only_snapshot"
       ∧ (fst (assess_rollback_verification o v) = VComplete → a = true ∧ p = true)) cut.
Proof.
  intros Hp Hn. unfold verify_reading. destruct (assess_rollback_verification o v) as [st why] eqn:Ea. cbv zeta.
  rewrite <-!app_assoc. cbn [app].
  eapply triple_bind; [apply running_checkpoint; [done|done|by repeat constructor]|intros []].
  eapply triple_bind; [apply running_checkpoint; [done|done|by repeat constructor]|intros []].
  eapply triple_bind; [apply running_checkpoint; [done|done|by repeat constructor]|intros []].
  apply triple_ret. intros r Hr. split; [done|]. eexists _, _, _, _, _. split; [done|]. simpl. intros ->.
  apply assess_complete in Ea as (_ & o' & v' & Eo & Ev & -> & Hs & _).
  destruct (same_state_connections v v' o' Ev Eo Hs) as [-> ->]. by rewrite !bool_decide_eq_true_2.
Qed.
Lemma running_unavailable why names : ∀ l vs,
  in_progress l → (n0 ≤ count_completed l)%nat → verifications vs → Forall (λ n, str_in n verification_names = true) names →
  triple (running (length expected)) (verify_unavailable checkpoint why names (l ++ vs))
    (λ l' r, running (length expected) r ∧ ∃ vs', l' = l ++ vs' ∧ verifications vs') cut.
Proof.
  induction names as [|n names IH]; intros l vs Hp Hn Hvs Hns; cbn [verify_unavailable]; cbv zeta.
  - apply triple_ret. intros r Hr. split; [done|by exists vs].
  - apply Forall_cons in Hns as [Hn1 Hns]. rewrite <-app_assoc.
    assert (verifications (vs ++ [verify_step n false (Some why) "read_only_snapshot_unavailable"])) as Hvs'.
    { apply Forall_app. split; [done|]. by repeat constructor. }
    eapply triple_bind; [by apply running_checkpoint|intros []]. by apply IH.
Qed.

(** A report that can be saved, and that stands when it says complete. *)
Definition sound_report (report : RollbackReport) : Prop :=
  is_ok (load_report report) = true ∧ in_progress (mutation_steps (steps report))
  ∧ (n0 ≤ count_completed (mutation_steps (steps report)))%nat
  ∧ (complete report = true → validate_completed_rollback_report o report token = Ok tt).
Lemma valid_steps l vs : in_progress l → verifications vs → forallb valid_step (l ++ vs) = true.
Proof.
  intros Hp Hv. apply forallb_forall. intros s Hs%list_elem_of_In. apply elem_of_app in Hs as [Hs|Hs].
  - pose proof (progress_valid _ _ _ _ Hp) as Hx. rewrite Forall_forall in Hx. by apply Hx.
  - unfold verifications in Hv. rewrite Forall_forall in Hv. by apply Hv.
Qed.
Lemma verifications_mutations l vs : in_progress l → verifications vs → mutation_steps (l ++ vs) = l ∧ verification_steps (l ++ vs) = vs.
Proof. intros Hp Hv. apply (progress_mutations o plan token); [done|]. eapply Forall_impl; [exact Hv|naive_solver]. Qed.

Lemma sound_incomplete l vs v st why m :
  in_progress l → (n0 ≤ count_completed l)%nat → verifications vs →
  match v with Some x => is_ok (model_validate x) | None => negb (bool_decide (st = VComplete)) end = true →
  let report := MkReport false (l ++ vs) v st why m in make_report report = Ok report ∧ sound_report report.
Proof.
  intros Hp Hn Hv Hx report. destruct (verifications_mutations l vs Hp Hv) as [Hm _].
  assert (valid_report report = true) as Hvr.
  { unfold valid_report. simpl. destruct v; simpl; [by rewrite orb_true_r|by rewrite Hx]. }
  split; [unfold make_report; by rewrite Hvr|]. unfold sound_report. simpl. rewrite Hm. split_and!; try done.
  unfold load_report. simpl. rewrite (valid_steps l vs Hp Hv). simpl.
  destruct v as [x|]; simpl in *; [destruct (model_validate x); [|done]; simpl|];
    unfold make_report, valid_report; simpl; [by rewrite orb_true_r|by rewrite Hx].
Qed.
Lemma last_three {A} (l : list A) a b c : last_n 3 (l ++ [a; b; c]) = [a; b; c].
Proof. unfold last_n. rewrite length_app. simpl. rewrite Nat.add_sub. by rewrite drop_app_length. Qed.
Lemma valid_complete l rs v :
  step_names rs = current_verification → all_completed (l ++ rs) = true → l ≠ [] →
  valid_report (MkReport true (l ++ rs) (Some v) VComplete None true) = true.
Proof.
  intros Hrs Hall Hl. assert (last_n 3 (step_names (l ++ rs)) = current_verification) as H3.
  { unfold step_names in *. rewrite map_app, Hrs. apply last_three. }
  assert (last_n 1 (step_names (l ++ rs)) = ["verify_interface_state"]) as H1'.
  { unfold step_names in *. rewrite map_app, Hrs. unfold last_n, current_verification.
    rewrite length_app, drop_app_ge by (simpl; lia). by replace (_ - _ - _)%nat with 2%nat by (simpl; lia). }
  assert (3 <? length (l ++ rs))%nat as Hlt.
  { apply Is_true_true, Nat.ltb_lt. rewrite length_app. apply (f_equal length) in Hrs. unfold step_names in Hrs.
    rewrite length_map in Hrs. rewrite Hrs. destruct l; [done|]. simpl. lia. }
  apply Is_true_true in Hlt. unfold valid_report. cbn [steps verification verification_status complete mutations_confirmed verification_reason].
  cbv zeta. rewrite H3, H1', Hall, (bool_decide_eq_false_2 (["verify_interface_state"] = _)), Hlt by done. rewrite (bool_decide_eq_false_2 (l ++ rs = [])); [rewrite !bool_decide_eq_true_2 by done; by rewrite !orb_true_r|].
  by destruct l.
Qed.

Lemma sound_complete l v r1 r2 r3 :
  in_progress l → (n0 ≤ count_completed l)%nat → confirmed_mutations expected l = true →
  assess_rollback_verification o v = (VComplete, None) → is_ok (model_validate v) = true →
  let report := MkReport true (l ++ reading_steps true true true r1 r2 r3 "read_only_snapshot") (Some v) VComplete None true in
  make_report report = Ok report ∧ sound_report report.
Proof.
  intros Hp Hn Hc Ha Hx. cbv zeta. unfold confirmed_mutations in Hc. apply andb_true_iff in Hc as [Hnames%bool_decide_eq_true Hall].
  pose proof (reading_verifications true true true r1 r2 r3 "read_only_snapshot") as Hvs.
  destruct (verifications_mutations l _ Hp Hvs) as [Hm Hv].
  assert (∀ v', valid_report (MkReport true (l ++ reading_steps true true true r1 r2 r3 "read_only_snapshot") (Some v') VComplete None true) = true) as Hvr.
  { intros v'. apply valid_complete; [done|by rewrite all_completed_app, Hall|]. intros ->. discriminate Hnames. }
  split; [unfold make_report; by rewrite Hvr|]. unfold sound_report. cbn [steps complete]. rewrite Hm. split_and!; try done.
  - unfold load_report. cbn [steps complete verification verification_status verification_reason mutations_confirmed].
    rewrite (valid_steps _ _ Hp Hvs). cbn [negb]. destruct (model_validate v) as [v'|]; [|done]. unfold mbind, result_bind, make_report.
    by rewrite Hvr.
  - intros _. unfold validate_completed_rollback_report. cbn [steps]. rewrite Hm, Hv. cbv zeta.
    apply result_bind_Ok. exists expected. split; [by apply rollback_step_names_Ok|].
    apply result_bind_Ok. exists plan. split; [done|]. apply result_bind_Ok. exists current_verification. split.
    + rewrite bool_decide_eq_false_2 by done. apply result_bind_Ok. exists tt. split; [by apply (progress_validates o plan token)|].
      by rewrite bool_decide_eq_true_2, Hall by done.
    + cbn [complete mutations_confirmed verification_status verification]. by rewrite Ha.
Qed.

Lemma running_snapshot iface k :
  triple (running k) (attempt (on_world fault (snapshot B iface)))
    (λ seen r, running k r ∧ match seen with Ok v => is_ok (model_validate v) = true | Err _ => True end) cut.
Proof.
  intros r Hr. unfold attempt, on_world. rewrite bind_state. unfold effect, in_world.
  destruct (fault (calls r)); simpl; [done|]. destruct (snapshot B iface (world r)) as [[v|e] w] eqn:E; [|done].
  split; [done|]. by eapply Hsnap.
Qed.
Lemma running_verify l :
  in_progress l → (n0 ≤ count_completed l)%nat →
  triple (running (length expected)) (verify_rollback B fault o l checkpoint)
    (λ report r, running (length expected) r ∧ sound_report report) cut.
Proof.
  intros Hp Hn. unfold verify_rollback.
  apply (triple_known _ expected); [intros; unfold lift; by rewrite (rollback_step_names_Ok o plan Hplan)|].
  destruct (confirmed_mutations expected l) eqn:Hc; cbn [negb].
  2: { destruct (sound_incomplete l [] None VUnavailable (Some "rollback_mutation_unconfirmed") false Hp Hn) as [Hmake Hsound]; [constructor|done|].
       rewrite app_nil_r in Hmake, Hsound. intros r Hr. unfold lift. rewrite Hmake. done. }
  eapply triple_bind; [apply running_snapshot|]. intros seen.
  set (K := match seen with Ok v => is_ok (model_validate v) = true | Err _ => True end).
  apply triple_weaken with (P := λ r, running (length expected) r ∧ K) (Q := λ report r, running (length expected) r ∧ sound_report report) (E := cut); try done.
  apply triple_bind with (R := λ read r, running (length expected) r ∧ K ∧ match read with
    | Ok (l', v) => seen = Ok v ∧ ∃ a p r1 r2 r3,
        l' = l ++ reading_steps a p (bool_decide (fst (assess_rollback_verification o v) = VComplete)) r1 r2 r3 "read_only_snapshot"
        ∧ (fst (assess_rollback_verification o v) = VComplete → a = true ∧ p = true)
    | Err _ => True
    end).
  { intros r [Hr HK]. destruct seen as [v|e]; [|done].
    pose proof (running_reading l v Hp Hn r Hr) as Ht. unfold attempt. rewrite bind_state.
    destruct (verify_reading checkpoint o v l r) as [[l'|e] r'].
    - destruct Ht as [Hr' (a & p & r1 & r2 & r3 & -> & Ha)]. unfold mret, SE_ret. split_and!; try done.
      by exists a, p, r1, r2, r3.
    - destruct Ht as [Hr' _]. done. }
  intros read. destruct read as [[l' v]|e].
  - intros r (Hr & HK & -> & a & p & r1 & r2 & r3 & -> & Ha). subst K. simpl in HK.
    destruct (assess_rollback_verification o v) as [st why] eqn:Eas. unfold lift. simpl in Ha |- *.
    destruct (decide (st = VComplete)) as [->|Hst].
    + destruct (Ha eq_refl) as [-> ->]. destruct (assess_complete _ _ Eas) as [-> _].
      destruct (sound_complete l v r1 r2 r3 Hp Hn Hc Eas HK) as [Hmake Hsound]. rewrite bool_decide_eq_true_2 by done.
      by rewrite Hmake.
    + rewrite bool_decide_eq_false_2 by done.
      destruct (sound_incomplete l (reading_steps a p false r1 r2 r3 "read_only_snapshot") (Some v) st why true Hp Hn
                  (reading_verifications _ _ _ _ _ _ _) HK) as [Hmake Hsound]. by rewrite Hmake.
  - apply triple_weaken with (P := λ r, K ∧ running (length expected) r) (Q := λ report r, running (length expected) r ∧ sound_report report) (E := cut); try done.
    2: { by intros r (? & ? & _). }
    intros r [HK Hr]. revert r Hr.
    pose proof (running_unavailable (type_name e) current_verification l [] Hp Hn) as Hu. rewrite app_nil_r in Hu.
    eapply triple_bind; [apply Hu; [constructor|by repeat constructor]|]. cbv beta.
    intros l' r [Hr (vs & -> & Hvs)]. unfold lift.
    destruct (sound_incomplete l vs (match seen with Ok v => Some v | Err _ => None end) VUnavailable (Some (type_name e)) true Hp Hn Hvs)
      as [Hmake Hsound]; [by destruct seen|]. by rewrite Hmake.
Qed.

(** *** The durable rollback *)

(** A marker before the first report, or with one that can be resumed. *)
Definition resumable (m : Marker) : Prop :=
  capture_token m = token ∧ n0 = 0%nat ∧ marker_state m ∈ [RESERVED; CAPTURE_COMPLETE] ∨ saved_well m.
Definition stopped (e : exc) (r : Recovery W) : Prop :=
  (∃ n, fault n = Some e)
  ∧ (running (length expected) r ∨ resumable (marker r) ∧ issued r = before).

Lemma load_report_steps report pending : load_report report = Ok pending → steps pending = steps report.
Proof.
  unfold load_report. destruct (negb _); [done|]. rewrite result_bind_Ok. intros (v & _ & Hm).
  unfold make_report in Hm. destruct (valid_report _); [|done]. by injection Hm as <-.
Qed.
Lemma resumed_all l : in_progress l → resumed_steps o l = Ok l.
Proof.
  intros Hp. unfold resumed_steps. destruct (list_find _ l) as [[i s]|] eqn:E; [|done]. exfalso.
  apply list_find_Some in E as (Hi & Hs & _). apply list_elem_of_lookup_2 in Hi.
  apply (progress_in o plan token l s Hp) in Hi. by destruct (expected_not_verification o plan _ Hi) as [_ Hne].
Qed.
Lemma running_start st :
  triple (λ r, (resumable (marker r) ∧ issued r = before) ∧ marker_state (marker r) = st)
    (if bool_decide (st ∈ [RESERVED; CAPTURE_COMPLETE]) then note_rollback_verification fault pending_report else mret tt)
    (λ _, running 0) stopped.
Proof.
  intros r [[Hm Hi] <-]. destruct Hm as [(Ht & Hn & Hst)|Hm].
  - rewrite bool_decide_eq_true_2 by done. unfold note_rollback_verification, mbind, SE_bind, get, raise_if, effect.
    rewrite bool_decide_eq_true_2 by (rewrite !elem_of_cons in *; tauto). cbn [negb].
    destruct (fault (calls r)) as [e|] eqn:Ef; simpl.
    + split; [by eexists|]. right. split; [by left|done].
    + split; [|exists []; split; [by rewrite app_nil_r|apply sublist_nil_l]].
      split_and!; [done|done|]. exists pending_report. split_and!; [done|done|apply progress_nil|simpl; lia].
  - rewrite bool_decide_eq_false_2. { split; [done|]. exists []. rewrite app_nil_r. split; [done|apply sublist_nil_l]. }
    destruct Hm as [-> _]. by rewrite !elem_of_cons, elem_of_nil; intros [?|[?|?]].
Qed.
Lemma running_durable :
  triple (λ r, resumable (marker r) ∧ issued r = before) (durable_rollback B fault o)
    (λ report r, running (length expected) r ∧ sound_report report ∧ saved (marker r) = Some report) stopped.
Proof.
  unfold durable_rollback.
  apply triple_bind with (R := λ st r, (resumable (marker r) ∧ issued r = before) ∧ marker_state (marker r) = st).
  { by apply triple_get. }
  intros st. apply triple_bind with (R := λ _, running 0); [apply running_start|intros _].
  apply triple_bind with (R := λ detail r, running 0 r ∧ ∃ report, detail = Some report ∧ is_ok (load_report report) = true
      ∧ in_progress (mutation_steps (steps report)) ∧ (n0 ≤ count_completed (mutation_steps (steps report)))%nat).
  { apply triple_get. intros r Hr. split; [done|]. apply Hr. }
  intros detail. apply triple_extract. intros (report & -> & Hload & Hp & Hn).
  apply (triple_known _ report); [done|]. destruct (load_report report) as [pending|] eqn:El; [|done].
  apply load_report_steps in El as Hsteps. apply (triple_known _ pending); [done|]. rewrite Hsteps.
  apply (triple_known _ expected); [intros; unfold lift; by rewrite (rollback_step_names_Ok o plan Hplan)|].
  set (l := mutation_steps (steps report)) in *.
  apply (triple_known _ l); [intros; unfold lift; by rewrite resumed_all|].
  apply triple_bind with (R := λ t r, running 0 r ∧ t = token). { apply triple_get. intros r Hr. split; [done|]. apply Hr. }
  intros t. apply triple_extract. intros ->.
  apply (triple_known _ tt); [intros; unfold lift; by rewrite (progress_validates o plan token l Hplan Hp)|]. cbv zeta.
  apply triple_weaken with (P := running 0) (E := cut)
    (Q := λ report r, running (length expected) r ∧ sound_report report ∧ saved (marker r) = Some report);
    [|done|done|intros e r [Hr Hf]; by split; [|left]].
  apply triple_bind with (R := ended).
  { destruct (names_prefix expected l && confirmed_prefix l && _) eqn:Ec.
    - apply andb_true_iff in Ec as [[_ Hc]%andb_true_iff _]. by apply ended_apply.
    - apply triple_ret. intros r Hr. split_and!; [done|done|by eapply running_end]. }
  intros l'. apply triple_weaken with (P := λ r, running (length expected) r ∧ (in_progress l' ∧ (n0 ≤ count_completed l')%nat))
    (Q := λ report r, running (length expected) r ∧ sound_report report ∧ saved (marker r) = Some report) (E := cut);
    [|by intros r (? & ? & ?)|done|done].
  apply triple_extract. intros [Hp' Hn']. eapply triple_bind; [by apply running_verify|].
  intros final. apply triple_extract. intros Hs. pose proof Hs as (Hlf & Hpf & Hnf & Hvf).
  apply (triple_known _ tt). { intros r. destruct (complete final); [|done]. unfold lift. by rewrite Hvf. }
  eapply triple_bind; [by apply running_note|]. intros []. apply triple_ret. intros r [Hr Hsv]. done.
Qed.
End Run.

(** ** Histories of runs *)

(** A process that is started again over the same marker, whatever happened to the
    interface meanwhile. *)
Definition restart {W} (w : W) (r : Recovery W) : Recovery W := MkRecovery w (marker r) 0 (issued r).
(** One run of the durable rollback: completed, or cut anywhere. *)
Inductive rollback_run `{Sha256} `{UuidText} {W : Type} (o : InterfaceState) (r : Recovery W) : Recovery W → Prop :=
  | run_once B fault w : snapshots_valid B → rollback_run o r (snd (durable_rollback B fault o (restart w r))).
Definition rollback_history `{Sha256} `{UuidText} {W : Type} (o : InterfaceState) : Recovery W → Recovery W → Prop :=
  rtc (rollback_run o).
(** The steps that the saved report confirms. *)
Definition confirmed_steps (m : Marker) : list string :=
  if bool_decide (marker_state m = ROLLBACK_VERIFICATION_PENDING) then
    match saved m with Some report => step_names (List.filter completed (mutation_steps (steps report))) | None => [] end
  else [].
(** The marker of a capture before its first rollback. *)
Definition before_rollback (m : Marker) : Prop := marker_state m ∈ [RESERVED; CAPTURE_COMPLETE].

Section Histories.
Context `{Sha256Hex} `{UuidText} {W : Type} (o : InterfaceState) (plan : list NetworkManagerRestoreOperation) (token : string).
Context (Hplan : networkmanager_restore_plan o = Ok plan).
Abbreviation expected := (base_names o ++ map step_name plan).
Abbreviation resumable := (resumable o plan token).

Lemma progress_confirmed l : in_progress o plan token l → step_names (List.filter completed l) = take (count_completed l) expected.
Proof.
  intros Hp. destruct (progress_cases _ _ _ _ Hp) as [[_ Hl]|(l0 & s & -> & [Hp0 Hl] & Hs)].
  - rewrite filter_completed, (count_all _ Hl) by done. by apply (progress_lookup o plan token).
  - rewrite count_app, (count_all _ Hl). unfold count_completed. rewrite List.filter_app, filter_completed by done. simpl. rewrite Hs.
    rewrite app_nil_r, Nat.add_0_r. by apply (progress_lookup o plan token).
Qed.
Lemma confirmed_saved n0 m : saved_well o plan token n0 m → ∃ k, (n0 ≤ k)%nat ∧ confirmed_steps m = take k expected ∧ saved_well o plan token k m.
Proof.
  intros (Hst & Ht & report & Hs & Hl & Hp & Hn). exists (count_completed (mutation_steps (steps report))).
  unfold confirmed_steps. rewrite bool_decide_eq_true_2, Hs by done. split_and!; [done|by apply progress_confirmed|].
  split_and!; [done|done|]. by exists report.
Qed.
(** A marker that can be resumed from the first [k] steps, which it confirms. *)
Definition resumes_at (k : nat) (m : Marker) : Prop := resumable k m ∧ confirmed_steps m = take k expected.
Lemma resumes n0 m : resumable n0 m → ∃ k, (n0 ≤ k)%nat ∧ resumes_at k m.
Proof.
  intros [(Ht & -> & Hst)|Hm].
  - exists 0%nat. split; [done|]. split; [by left|]. unfold confirmed_steps.
    rewrite bool_decide_eq_false_2; [done|]. intros E. rewrite E, !elem_of_cons, elem_of_nil in Hst. naive_solver.
  - destruct (confirmed_saved n0 m Hm) as (k & Hk & Hc & Hs). exists k. split; [done|]. split; [by right|done].
Qed.
Lemma resumes_run k (r r' : Recovery W) :
  resumes_at k (marker r) → rollback_run o r r' →
  ∃ k' l, (k ≤ k')%nat ∧ resumes_at k' (marker r') ∧ issued r' = issued r ++ l ∧ l `sublist_of` drop k expected.
Proof.
  intros [Hm _] [B fault w HB].
  pose proof (running_durable B fault o plan token Hplan HB (issued r) k (restart w r) (conj Hm eq_refl)) as Ht.
  assert (running o plan token (issued r) k (length expected) (snd (durable_rollback B fault o (restart w r)))
          ∨ resumable k (marker (snd (durable_rollback B fault o (restart w r)))) ∧ issued (snd (durable_rollback B fault o (restart w r))) = issued r) as Hcase.
  { destruct (durable_rollback B fault o (restart w r)) as [[report|e] r1]; [left; apply Ht|apply Ht]. }
  destruct Hcase as [[Hs (l & Hi & Hl)]|[Hs Hi]].
  - destruct (resumes k _ (or_intror Hs)) as (k' & Hk & Hr). exists k', l. split_and!; try done. by rewrite firstn_all in Hl.
  - destruct (resumes k _ Hs) as (k' & Hk & Hr). exists k', []. rewrite app_nil_r. split_and!; try done. apply sublist_nil_l.
Qed.
Lemma resumes_history k (r r' : Recovery W) :
  resumes_at k (marker r) → rollback_history o r r' →
  ∃ k' l, (k ≤ k')%nat ∧ resumes_at k' (marker r') ∧ issued r' = issued r ++ l ∧ Forall (λ n, n ∈ drop k expected) l.
Proof.
  intros Hk Hh. revert k Hk. induction Hh as [r|r r1 r' Hr Hh IH]; intros k Hk.
  - exists k, []. by rewrite app_nil_r.
  - destruct (resumes_run k r r1 Hk Hr) as (k1 & l1 & Hk1 & Hm1 & Hi1 & Hl1).
    destruct (IH k1 Hm1) as (k' & l & Hk' & Hm' & Hi' & Hl). exists k', (l1 ++ l). split_and!; [lia|done|by rewrite Hi', Hi1, <-app_assoc|].
    apply Forall_app. split.
    + apply Forall_forall. intros n Hn. by eapply sublist_subseteq.
    + eapply Forall_impl; [exact Hl|]. intros n Hn. simpl in Hn.
      replace k1 with (k + (k1 - k))%nat in Hn by lia. rewrite <-drop_drop in Hn. by eapply subseteq_drop.
Qed.
Lemma resumes_start (r0 r : Recovery W) :
  capture_token (marker r0) = token → before_rollback (marker r0) → rollback_history o r0 r → ∃ k, resumes_at k (marker r).
Proof.
  intros Ht Hb Hh. destruct (resumes 0 (marker r0)) as (k & _ & Hk); [by left|].
  destruct (resumes_history k r0 r Hk Hh) as (k' & _ & _ & Hk' & _). by exists k'.
Qed.
End Histories.

(** ** An interface with two connections *)

(** A digest that is one character, 64 times. *)
Fixpoint repeated (n : nat) (a : ascii) : string := match n with O => EmptyString | S n' => String a (repeated n' a) end.
Definition hex_sha256 : Sha256.
Proof.
  refine {| sha256_hex := λ s, repeated 64 (hex_digit (N.of_nat (String.length s) mod 16)) |}. by intros s.
Defined.
Lemma hex_sha256_lower : @Sha256Hex hex_sha256.
Proof.
  constructor. intros s. simpl. assert (N.of_nat (String.length s) mod 16 < 16)%N as Hn by (apply N.mod_lt; lia).
  generalize dependent (N.of_nat (String.length s) mod 16)%N. intros n Hn.
  assert (∀ k, (k < 16)%nat → all_chars is_lower_hex (repeated 64 (hex_digit (N.of_nat k))) = true) as Hall.
  { intros k Hk. do 16 (destruct k as [|k]; [done|]). lia. }
  specialize (Hall (N.to_nat n) ltac:(lia)). by rewrite N2Nat.id in Hall.
Qed.
Definition short_uuid : UuidText.
Proof.
  refine {| uuid_text := λ s, if Nat.eqb (String.length s) 36 then Some s else None |}.
  intros s u E. destruct (Nat.eqb (String.length s) 36) eqn:El; [|done]. injection E as <-. by rewrite El.
Defined.
#[local] Existing Instances hex_sha256 hex_sha256_lower short_uuid.

Definition example_radio : Radio := {|
  ra_channel := Some 36; ra_frequency_mhz := Some 5180; ra_width_mhz := Some 80; ra_center_frequency_1_mhz := Some 5210;
  ra_center_frequency_2_mhz := None; ra_band := Some "5GHz"; ra_geometry_version := Some CHANNEL_GEOMETRY_VERSION |}.
Definition example_uuids : list string :=
  ["00000000-0000-4000-8000-000000000002"; "00000000-0000-4000-8000-000000000001"].
Definition example_connections : Connections := {|
  active_connection_uuids := example_uuids; ordered_active_connection_uuids := example_uuids;
  active_connection_interfaces := observations "wlan1" 0 example_uuids; active_connections_status := COMPLETE;
  network_manager_connection_uuid := last example_uuids; primary_connection_uuid := last example_uuids;
  network_manager_connection_name := Some "Lab" |}.
Definition example_interface : InterfaceState := {|
  interface := "wlan1"; interface_type := managed; administratively_up := true; network_manager_managed := Some true;
  radio := example_radio; connections := example_connections; active_connections_provenance := ["nmcli"];
  active_connections_source_errors := []; network_manager_restore_schema_version := Some NETWORK_MANAGER_RESTORE_SCHEMA_VERSION;
  interface_type_command_mapper_version := IW_INTERFACE_TYPE_COMMAND_MAPPER_VERSION;
  namespace := Some "4:4026531840"; wiphy := Some "phy0"; driver := Some "iwlwifi" |}.
Definition example_capture : CaptureRequest := {|
  rq_task_id := "t"; rq_execution_id := "e"; rq_idempotency_key := "k"; rq_interface := "wlan1"; rq_channel := 5;
  rq_frequency_mhz := 5975; rq_width_mhz := 160; rq_duration_seconds := 1; rq_max_size_bytes := 1024;
  rq_capture_format := "pcapng"; rq_snapshot_length := 64 |}.
Definition example_marker : Marker := {| marker_state := RESERVED; saved := None; capture_token := "00000000000000000000000000000000" |}.
(** From the effect [k] on everything is refused. *)
Definition stops_at (k : nat) : nat → option exc := λ n, if (k <=? n)%nat then Some CancelledError else None.
(** The simulated backend, handing out validated snapshots only. *)
Definition checked_backend : CaptureBackend Simulated := {|
  snapshot iface := s ← snapshot SimulatedCaptureBackend iface;
                    if is_ok (model_validate s) then mret s else raise (DomainError "ValidationError");
  set_managed := set_managed SimulatedCaptureBackend; set_link := set_link SimulatedCaptureBackend;
  set_type := set_type SimulatedCaptureBackend; set_frequency := set_frequency SimulatedCaptureBackend;
  restore_connection := restore_connection SimulatedCaptureBackend; capture := capture SimulatedCaptureBackend;
  cancelled := cancelled SimulatedCaptureBackend |}.
Lemma checked_valid : snapshots_valid checked_backend.
Proof.
  intros iface w v w' E. cbn [snapshot checked_backend] in E. rewrite bind_state in E.
  destruct (snapshot SimulatedCaptureBackend iface w) as [[s|x] w1]; [|done].
  destruct (is_ok (model_validate s)) eqn:Ev; [|done]. by injection E as <- <-.
Qed.
(** The capture was configured; its rollback was then cut at its [k]th effect. *)
Definition captured : Recovery Simulated :=
  snd (mutate_and_capture checked_backend (λ _, None) example_capture example_interface
         (MkRecovery (simulated example_interface [] false) example_marker 0 [])).
Definition cut_at (k : nat) (r : Recovery Simulated) : Recovery Simulated :=
  snd (durable_rollback checked_backend (stops_at k) example_interface (restart (world r) r)).
Lemma cut_run k r : rollback_run example_interface r (cut_at k r).
Proof. exact (run_once example_interface r checked_backend (stops_at k) (world r) checked_valid). Qed.
Definition fresh_capture : Recovery Simulated := MkRecovery (world captured) example_marker 0 [].

(** C21: However often the rollback of a capture was cut, between any two of its
    effects and with the interface in any state, the report it left can be resumed:
    the next run ends with a report, which stands when it says complete, unless a
    fault of its own stops it; it never finds its own progress ambiguous. *)
Theorem rollback_resumable `{Sha256Hex} `{UuidText} {W : Type} o (r0 r : Recovery W) B fault w :
  is_ok (networkmanager_restore_plan o) = true → before_rollback (marker r0) → rollback_history o r0 r → snapshots_valid B →
  match fst (durable_rollback B fault o (restart w r)) with
  | Ok report => complete report = true → validate_completed_rollback_report o report (capture_token (marker r0)) = Ok tt
  | Err e => ∃ n, fault n = Some e
  end.
Proof.
  intros Hplan Hb Hh HB. destruct (networkmanager_restore_plan o) as [plan|] eqn:Ep; [|done].
  destruct (resumes_start o plan _ Ep r0 r eq_refl Hb Hh) as (k & Hk & _).
  pose proof (running_durable B fault o plan _ Ep HB (issued r) k (restart w r) (conj Hk eq_refl)) as Ht.
  destruct (durable_rollback _ _ _ _) as [[report|e] r']; simpl.
  - destruct Ht as (_ & (_ & _ & _ & Hv) & _). exact Hv.
  - apply Ht.
Qed.
Lemma rollback_resumable_witness :
  confirmed_steps (marker (cut_at 14 fresh_capture)) = ["link_down"; "restore_type"; "restore_frequency"; "restore_link"; "restore_networkmanager"]
  ∧ match fst (durable_rollback checked_backend (stops_at 4) example_interface (restart (world (cut_at 14 fresh_capture)) (cut_at 14 fresh_capture))) with
    | Ok report => complete report = true → validate_completed_rollback_report example_interface report (capture_token example_marker) = Ok tt
    | Err e => ∃ n, stops_at 4 n = Some e
    end.
Proof.
  split; [by vm_compute|].
  apply (rollback_resumable example_interface fresh_capture (cut_at 14 fresh_capture) checked_backend (stops_at 4) (world (cut_at 14 fresh_capture)));
    [by vm_compute|by left|apply rtc_once, cut_run|apply checked_valid].
Defined.

(** C20: A command whose step was confirmed in the saved report is not issued again by
    any later run: one run issues, each at most once and in the order of the plan,
    commands of the steps behind the confirmed ones, and what is confirmed stays
    confirmed. *)
Theorem confirmed_commands_not_repeated `{Sha256Hex} `{UuidText} {W : Type} o (r0 r r1 r2 : Recovery W) names :
  rollback_step_names o = Ok names → before_rollback (marker r0) →
  rollback_history o r0 r → rollback_run o r r1 → rollback_history o r1 r2 →
  (∃ l, issued r1 = issued r ++ l ∧ l `sublist_of` drop (length (confirmed_steps (marker r))) names)
  ∧ confirmed_steps (marker r) `prefix_of` confirmed_steps (marker r2)
  ∧ ∃ l, issued r2 = issued r ++ l ∧ ∀ n, n ∈ confirmed_steps (marker r) → n ∉ l.
Proof.
  intros Hnames Hb Hh H01 H12. unfold rollback_step_names in Hnames. apply result_bind_Ok in Hnames as (plan & Ep & [= <-]).
  destruct (resumes_start o plan _ Ep r0 r eq_refl Hb Hh) as (k & Hk).
  assert (length (confirmed_steps (marker r)) ≤ k)%nat as Hlen by (rewrite (proj2 Hk), length_take; lia).
  split_and!.
  - destruct (resumes_run o plan _ Ep k r r1 Hk H01) as (k1 & l & _ & _ & Hi & Hl). exists l. split; [done|].
    etrans; [exact Hl|]. rewrite (proj2 Hk), length_take.
    destruct (decide (k ≤ length (base_names o ++ map step_name plan))%nat); [by rewrite Nat.min_l|].
    rewrite drop_ge by lia. apply sublist_nil_l.
  - destruct (resumes_history o plan _ Ep k r r2 Hk ltac:(by eapply rtc_l)) as (k2 & l & Hle & [_ ->] & _).
    rewrite (proj2 Hk). replace (take k _) with (take k (take k2 (base_names o ++ map step_name plan)))
      by (by rewrite take_take, Nat.min_l). apply prefix_take.
  - destruct (resumes_history o plan _ Ep k r r2 Hk ltac:(by eapply rtc_l)) as (k2 & l & Hle & _ & Hi & Hl).
    exists l. split; [done|]. intros n Hn Hin. rewrite (proj2 Hk) in Hn. rewrite Forall_forall in Hl. specialize (Hl n Hin).
    by apply (NoDup_drop_take k _ n (expected_NoDup o plan (networkmanager_restore_plan_spec o plan Ep)) Hl).
Qed.
Lemma confirmed_commands_not_repeated_witness :
  ∃ l, issued (cut_at 100 (cut_at 14 fresh_capture)) = issued (cut_at 14 fresh_capture) ++ l
    ∧ l = ["restore_primary_connection:00000000-0000-4000-8000-000000000001"]
    ∧ "link_down" ∉ l.
Proof.
  eexists. split; [by vm_compute|]. split; [reflexivity|].
  destruct (confirmed_commands_not_repeated example_interface fresh_capture (cut_at 14 fresh_capture)
              (cut_at 100 (cut_at 14 fresh_capture)) (cut_at 100 (cut_at 14 fresh_capture))
              (match rollback_step_names example_interface with Ok names => names | Err _ => [] end)) as (_ & _ & l & Hi & Hn).
  - by vm_compute.
  - by left.
  - apply rtc_once, cut_run.
  - apply cut_run.
  - apply rtc_refl.
  - assert (l = ["restore_primary_connection:00000000-0000-4000-8000-000000000001"]) as <-.
    { eapply app_inv_head. rewrite <-Hi. by vm_compute. }
    apply Hn. vm_compute. by left.
Defined.

(** ** What a complete report says *)

Section Complete.
Context `{Sha256} `{UuidText} {W : Type} (B : CaptureBackend W) (fault : nat → option exc) (o : InterfaceState).

Lemma same_elements_spec a b : same_elements a b = true ↔ ∀ u, u ∈ a ↔ u ∈ b.
Proof.
  unfold same_elements. rewrite andb_true_iff, !forallb_forall. setoid_rewrite str_in_spec. setoid_rewrite <-list_elem_of_In. naive_solver.
Qed.

(** The report is of a reading of the world as it is. *)
Definition read_by (report : RollbackReport) (r : Recovery W) : Prop :=
  complete report = true →
  ∃ expected w v why, rollback_step_names o = Ok expected ∧ verification report = Some v
    ∧ snapshot B (interface o) w = (Ok v, world r) ∧ assess_rollback_verification o v = (VComplete, why)
    ∧ step_names (steps report) = expected ++ current_verification ∧ all_completed (steps report) = true.
Definition at_world (w : W) : Recovery W → Prop := λ r, world r = w.

Lemma note_world w report : triple (at_world w) (note_rollback_verification fault report) (λ _, at_world w) (λ _, at_world w).
Proof.
  intros r Hr. unfold note_rollback_verification, mbind, SE_bind, get, raise_if, effect. simpl.
  destruct (negb _); [done|]. simpl. by destruct (fault (calls r)).
Qed.
Lemma save_world expected w l : triple (at_world w) (save_progress fault expected l) (λ _, at_world w) (λ _, at_world w).
Proof.
  eapply triple_bind; [by apply (triple_lift _ (λ _, at_world w))|intros report]. apply note_world.
Qed.
Lemma reading_world expected w v l :
  triple (at_world w) (verify_reading (save_progress fault expected) o v l)
    (λ l' r, at_world w r ∧ ∃ a p r1 r2 r3,
       l' = l ++ reading_steps a p (bool_decide (fst (assess_rollback_verification o v) = VComplete)) r1 r2 r3 "read_only_snapshot"
       ∧ (fst (assess_rollback_verification o v) = VComplete → a = true ∧ p = true)) (λ _ _, True).
Proof.
  unfold verify_reading. destruct (assess_rollback_verification o v) as [st why] eqn:Ea. cbv zeta.
  rewrite <-!app_assoc. cbn [app].
  apply triple_weaken with (P := at_world w) (Q := λ l' r, at_world w r ∧ ∃ a p r1 r2 r3,
       l' = l ++ reading_steps a p (bool_decide (st = VComplete)) r1 r2 r3 "read_only_snapshot"
       ∧ (st = VComplete → a = true ∧ p = true)) (E := λ _, at_world w); try done.
  do 3 (eapply triple_bind; [apply save_world|intros []]).
  apply triple_ret. intros r Hr. split; [done|]. eexists _, _, _, _, _. split; [done|]. intros ->.
  apply assess_complete in Ea as (_ & o' & v' & Eo & Ev & -> & Hs & _).
  destruct (same_state_connections o v v' o' Ev Eo Hs) as [-> ->]. by rewrite !bool_decide_eq_true_2.
Qed.
Lemma verify_read expected l :
  triple (λ _, True) (verify_rollback B fault o l (save_progress fault expected)) read_by (λ _ _, True).
Proof.
  unfold verify_rollback. destruct (rollback_step_names o) as [names|] eqn:En; [|done].
  apply (triple_known _ names); [done|]. destruct (confirmed_mutations names l) eqn:Hc; cbn [negb].
  2: { intros r _. unfold lift, make_report. by destruct (valid_report _). }
  intros r _. rewrite bind_state. unfold attempt at 1. destruct (on_world fault (snapshot B (interface o)) r) as [seen r1] eqn:Es.
  rewrite bind_state. destruct seen as [v|e]; cbn [mret SE_ret].
  2: { unfold mret, SE_ret. rewrite bind_state. destruct (verify_unavailable _ _ _ _ r1) as [[l'|?] r2]; [|done].
       unfold lift, make_report. by destruct (valid_report _). }
  assert (snapshot B (interface o) (world r) = (Ok v, world r1)) as Hv.
  { unfold on_world, effect, in_world, mbind, SE_bind in Es. destruct (fault (calls r)); [done|]. simpl in Es.
    destruct (snapshot B (interface o) (world r)) as [x w]. injection Es as -> <-. done. }
  pose proof (reading_world expected (world r1) v l r1 eq_refl) as Ht. unfold attempt. rewrite bind_state.
  destruct (verify_reading _ o v l r1) as [[l'|e] r2].
  2: { rewrite bind_state. destruct (verify_unavailable _ _ _ _ r2) as [[l'|?] r3]; [|done].
       unfold lift, make_report. by destruct (valid_report _). }
  destruct Ht as [Hw (a & p & r1' & r2' & r3' & -> & Ha)]. unfold mret, SE_ret.
  destruct (assess_rollback_verification o v) as [st why] eqn:Ea. unfold lift, make_report. destruct (valid_report _); [|done].
  intros Hcomp. cbn [complete] in Hcomp. apply bool_decide_eq_true in Hcomp as ->. destruct (Ha eq_refl) as [-> ->].
  apply andb_true_iff in Hc as [Hn%bool_decide_eq_true Hall]. exists names, (world r), v, why. cbn [steps verification].
  split_and!; try done; [by rewrite Hw|by unfold step_names in *; rewrite map_app, Hn|by rewrite all_completed_app, Hall].
Qed.
Lemma durable_read : triple (λ _, True) (durable_rollback B fault o) read_by (λ _ _, True).
Proof.
  unfold durable_rollback.
  do 5 (eapply triple_bind; [apply (triple_true (λ _, True))|intros ?; cbv beta]).
  do 4 (eapply triple_bind; [apply (triple_true (λ _, True))|intros ?; cbv beta zeta]).
  eapply triple_bind; [apply (triple_true (λ _, True))|intros l; cbv beta].
  eapply triple_bind; [apply verify_read|intros report]. apply triple_bind with (R := λ _, read_by report).
  - intros r Hr. destruct (complete report); [|done]. unfold lift. by destruct (validate_completed_rollback_report _ _ _).
  - intros []. intros r Hr. rewrite bind_state. pose proof (note_world (world r) report r eq_refl) as Hw.
    destruct (note_rollback_verification fault report r) as [[[]|e] r2]; [|done].
    intros Hcomp. destruct (Hr Hcomp) as (ex & w & v & why & H1 & H2 & H3 & H4). exists ex, w, v, why. by rewrite <-Hw in H3.
Qed.
End Complete.

(** Every value of an interface that a verification needs was read. *)
Definition observed_text (t : option string) : Prop := ∃ x, t = Some x ∧ x ≠ EmptyString.
Record observed (v : InterfaceState) : Prop := {
  ob_band : is_Some (ra_band (radio v));
  ob_channel : is_Some (ra_channel (radio v));
  ob_frequency : is_Some (ra_frequency_mhz (radio v));
  ob_width : is_Some (ra_width_mhz (radio v));
  ob_center : is_Some (ra_center_frequency_1_mhz (radio v));
  ob_geometry : observed_text (ra_geometry_version (radio v));
  ob_managed : is_Some (network_manager_managed v);
  ob_driver : observed_text (driver v);
  ob_namespace : observed_text (namespace v);
  ob_wiphy : observed_text (wiphy v);
}.
Lemma text_absent_observed t : negb (text_absent t) = true → observed_text t.
Proof. destruct t as [[|c x]|]; [done| |done]. intros _. by exists (String c x). Qed.
Lemma opt_is_some_observed {A} (t : option A) : opt_is_some t = true → is_Some t.
Proof. by destruct t. Qed.
Lemma required_observed v : Forall (λ e, snd e = true) (required_values v) → observed v.
Proof.
  unfold required_values. rewrite !Forall_cons. cbn [snd]. intros Hv. destruct_and! Hv.
  constructor; first [by apply opt_is_some_observed | by apply text_absent_observed].
Qed.

(** C22: A durable rollback reports itself complete only when every command of the
    plan was confirmed and the last thing it did to the host was to read the
    interface and find it, all of it observed, in the state of the original
    snapshot: whatever report it started from, and also when the mutations had
    been confirmed by an earlier process. *)
Theorem complete_rollback_restored `{Sha256} `{UuidText} {W : Type} (B : CaptureBackend W) fault o r report r' :
  durable_rollback B fault o r = (Ok report, r') → complete report = true →
  ∃ names w v o' v', rollback_step_names o = Ok names
    ∧ step_names (steps report) = names ++ current_verification ∧ all_completed (steps report) = true
    ∧ snapshot B (interface o) w = (Ok v, world r') ∧ verification report = Some v
    ∧ model_validate o = Ok o' ∧ model_validate v = Ok v'
    ∧ interface v' = interface o' ∧ interface_type v' = interface_type o' ∧ administratively_up v' = administratively_up o'
    ∧ network_manager_managed v' = network_manager_managed o' ∧ radio v' = radio o'
    ∧ active_connections_status (connections v') = COMPLETE ∧ observed v'
    ∧ primary_connection_uuid (connections v') = primary_connection_uuid (connections o')
    ∧ (∀ u, u ∈ ordered_active_connection_uuids (connections v') ↔ u ∈ ordered_active_connection_uuids (connections o'))
    ∧ active_connection_interfaces (connections v') = active_connection_interfaces (connections o')
    ∧ namespace v' = namespace o' ∧ wiphy v' = wiphy o' ∧ driver v' = driver o'.
Proof.
  intros Hd Hc. pose proof (durable_read B fault o r I) as Ht. rewrite Hd in Ht.
  destruct (Ht Hc) as (names & w & v & why & Hn & Hv & Hsnap & Ha & Hs & Hall).
  apply assess_complete in Ha as (_ & o' & v' & Eo & Ev & Hst & Hsame & Hreq%required_observed).
  apply model_validate_Ok in Ev as Hv'. destruct Hv' as (_ & _ & Hv').
  exists names, w, v, o', v'. unfold same_state in Hsame. rewrite !andb_true_iff, !bool_decide_eq_true, same_elements_spec, String.eqb_eq, eqb_true_iff in Hsame.
  split_and!; try tauto. by rewrite Hv'.
Qed.
Lemma complete_rollback_restored_witness :
  ∃ report r' v', durable_rollback checked_backend (λ _, None) example_interface fresh_capture = (Ok report, r')
    ∧ verification report = Some v' ∧ interface_type v' = managed ∧ all_completed (steps report) = true
    ∧ ∃ v, model_validate v' = Ok v ∧ observed v.
Proof.
  assert (match fst (durable_rollback checked_backend (λ _, None) example_interface fresh_capture) with
          | Ok report => complete report = true ∧ option_map interface_type (verification report) = Some managed
          | Err _ => False end) as Hok by by vm_compute.
  destruct (durable_rollback checked_backend (λ _, None) example_interface fresh_capture) as [[report|e] r'] eqn:E; [|contradiction].
  destruct Hok as [Hc Ht].
  destruct (complete_rollback_restored checked_backend (λ _, None) example_interface fresh_capture report r' E Hc)
    as (names & w & v & o' & v' & _ & _ & Hall & _ & Hv & _ & Ev & _ & _ & _ & _ & _ & _ & Hob & _).
  exists report, r', v. split; [reflexivity|]. split; [exact Hv|].
  split; [rewrite Hv in Ht; by injection Ht|]. split; [exact Hall|]. exists v'. split; [exact Ev|exact Hob].
Defined.
