(* ===== verification/CaptureRestores.v ===== *)
(** * A killed capture is undone

    The simulated backend with the durable rollback: whenever the process is
    killed, during the capture or during any of its rollbacks, the next rollback
    that is left alone restores the snapshot. *)

From Stdlib Require Import Sorting.Sorted.
From S2P Require Import CaptureRollback JsonRoundTrip CaptureTheorems ChannelTheorems.

(** ** Sorted texts *)

Abbreviation sorted_texts := (Sorted (λ a b, str_leb a b = true)).

Lemma insert_sorted_head x l : sorted_texts (x :: l) → insert_sorted str_leb x l = x :: l.
Proof. intros [_ Hx]%Sorted_inv. destruct l as [|y l]; [done|]. inversion Hx as [|? ? Hxy]. simpl. by rewrite Hxy. Qed.
Lemma py_sorted_id l : sorted_texts l → py_sorted l = l.
Proof.
  unfold py_sorted. induction l as [|x l IH]; [done|]. intros Hs. apply Sorted_inv in Hs as Hs'. destruct Hs' as [Hl _].
  simpl. rewrite IH by done. by apply insert_sorted_head.
Qed.
Lemma insert_sorted_sorted x l : sorted_texts l → sorted_texts (insert_sorted str_leb x l).
Proof.
  induction l as [|y l IH]; intros Hs; [by repeat constructor|]. simpl. destruct (str_leb x y) eqn:E; [constructor; [done|by constructor]|].
  apply str_leb_total in E. apply Sorted_inv in Hs as [Hl Hy]. constructor; [by apply IH|].
  destruct l as [|z l]; simpl in *; [by constructor|]. inversion Hy. destruct (str_leb x z); by constructor.
Qed.
Lemma py_sorted_sorted l : sorted_texts (py_sorted l).
Proof. unfold py_sorted. induction l as [|x l IH]; simpl; [constructor|]. by apply insert_sorted_sorted. Qed.
Lemma sorted_take k l : sorted_texts l → sorted_texts (take k l).
Proof.
  revert k. induction l as [|x l IH]; intros k Hs; [by rewrite take_nil|]. destruct k; simpl; [constructor|].
  apply Sorted_inv in Hs as [Hl Hx]. constructor; [by apply IH|]. inversion Hx; [by rewrite take_nil; constructor|].
  destruct k; simpl; by constructor.
Qed.

(** The first connections of a restore order are in their own restore order. *)
Lemma restore_order_take uuids p k u :
  NoDup uuids → uuids = restore_order uuids p → p ∈ uuids → uuids !! k = Some u →
  restore_order (take (S k) uuids) u = take (S k) uuids.
Proof.
  intros Hn Ho Hp Hu. assert (filter (λ v, v ≠ u) (take (S k) uuids) = take k uuids) as Hf.
  { rewrite (take_S_r _ _ _ Hu), filter_app, filter_cons_False by (intros Hne; by apply Hne).
    rewrite filter_nil, app_nil_r. apply filter_all. intros v Hv ->.
    apply list_elem_of_lookup in Hv as [i Hi]. apply lookup_take_Some in Hi as [Hi Hlt].
    pose proof (NoDup_lookup _ _ _ _ Hn Hi Hu). lia. }
  unfold restore_order at 1. rewrite Hf, (take_S_r _ _ _ Hu). f_equal. apply py_sorted_id.
  unfold restore_order in Ho. set (s := py_sorted _) in Ho. assert (k ≤ length s)%nat as Hk.
  { apply lookup_lt_Some in Hu. rewrite Ho, length_app in Hu. simpl in Hu. lia. }
  rewrite Ho, take_app_le by done. apply sorted_take, py_sorted_sorted.
Qed.

(** ** A restorable snapshot *)

Section Restorable.
Context `{Sha256Hex} `{UuidText} (o : InterfaceState) (Hres : not_restorable (interface o) o = None).

Record restorable (plan : list NetworkManagerRestoreOperation) (m : bool) (f c w center : Z) (d : LinuxChannelDefinition) : Prop := {
  rs_plan : networkmanager_restore_plan o = Ok plan;
  rs_managed : network_manager_managed o = Some m;
  rs_connected : ordered_active_connection_uuids (connections o) ≠ [] → m = true;
  rs_status : active_connections_status (connections o) = COMPLETE;
  rs_frequency : ra_frequency_mhz (radio o) = Some f;
  rs_channel : ra_channel (radio o) = Some c;
  rs_width : ra_width_mhz (radio o) = Some w;
  rs_center : ra_center_frequency_1_mhz (radio o) = Some center;
  rs_band : ra_band (radio o) = Some (def_band d);
  rs_geometry : ra_geometry_version (radio o) = Some (geometry_version d);
  rs_definition : validate_complete_channel_definition f c w (Some center) (ra_center_frequency_2_mhz (radio o)) = Ok d;
  rs_namespace : text_absent (namespace o) = false;
  rs_wiphy : text_absent (wiphy o) = false;
  rs_driver : text_absent (driver o) = false;
  rs_named : network_manager_connection_name (connections o) ≠ None → primary_connection_uuid (connections o) ≠ None;
}.
Lemma restorable_fields : ∃ plan m f c w center d, restorable plan m f c w center d.
Proof.
  pose proof Hres as Hr. unfold not_restorable in Hr. cbv zeta in Hr.
  destruct (negb (String.eqb _ _)); [done|]. destruct (negb (String.eqb _ _)); [done|].
  destruct (network_manager_managed o) as [m|] eqn:Em; [|done]. cbn [opt_is_some negb] in Hr.
  destruct (bool_decide (active_connections_status _ = COMPLETE)) eqn:Es; [|done]. cbn [negb] in Hr.
  destruct (text_absent (namespace o)) eqn:E1; [done|]. destruct (text_absent (wiphy o)) eqn:E2; [done|].
  destruct (text_absent (driver o)) eqn:E3; [done|].
  destruct (negb _ && negb _) eqn:Ea; [done|]. destruct (opt_is_some _ && negb _) eqn:En; [done|].
  destruct (networkmanager_restore_plan o) as [plan|] eqn:Ep; [|done].
  destruct (radio_complete (radio o)) eqn:Erc; [|by destruct (radio_empty (radio o))].
  destruct (radio_coherent (radio o)) eqn:Eco; [|done]. unfold radio_complete in Erc. unfold radio_coherent in Eco.
  destruct (ra_channel (radio o)) as [c|] eqn:Ec; [|done]. destruct (ra_frequency_mhz (radio o)) as [f|] eqn:Ef; [|done].
  destruct (ra_width_mhz (radio o)) as [w|] eqn:Ew; [|done].
  destruct (ra_center_frequency_1_mhz (radio o)) as [center|] eqn:Ece; [|done].
  destruct (validate_complete_channel_definition _ _ _ _ _) as [d|] eqn:Ed; [|done].
  apply andb_true_iff in Eco as [Eb%bool_decide_eq_true Eg%bool_decide_eq_true].
  apply bool_decide_eq_true in Es.
  exists plan, m, f, c, w, center, d. constructor; try done.
  - intros Hne. apply andb_false_iff in Ea as [Ea|Ea]; apply negb_false_iff, bool_decide_eq_true in Ea; [|congruence].
    exfalso. apply Hne. pose proof (networkmanager_restore_plan_spec o plan Ep) as Hp.
    unfold networkmanager_restore_plan in Ep. apply result_bind_Ok in Ep as (v & (_ & Hv & _)%model_validate_Ok & _).
    unfold valid_connections in Hv. rewrite !andb_true_iff in Hv. destruct Hv as [_ Hid].
    apply restore_identity_spec in Hid as (<- & _). done.
  - intros Hn Hpr. apply andb_false_iff in En as [En|En]; [|by rewrite Hpr in En].
    by destruct (network_manager_connection_name (connections o)).
Qed.

Context (plan : list NetworkManagerRestoreOperation) (m : bool) (f c w center : Z) (d : LinuxChannelDefinition).
Context (Hr : restorable plan m f c w center d).

(** The validated snapshot. *)
Lemma restorable_valid :
  valid_connections (interface o) (connections o) = true ∧ valid_band (ra_band (radio o)) = true
  ∧ complete_geometry (radio o) = radio o.
Proof.
  assert (complete_geometry (radio o) = radio o) as Hg.
  { unfold complete_geometry. rewrite (rs_center _ _ _ _ _ _ _ Hr), (rs_frequency _ _ _ _ _ _ _ Hr), (rs_channel _ _ _ _ _ _ _ Hr),
      (rs_width _ _ _ _ _ _ _ Hr), (rs_definition _ _ _ _ _ _ _ Hr), (rs_band _ _ _ _ _ _ _ Hr), (rs_geometry _ _ _ _ _ _ _ Hr). simpl.
    rewrite <-(rs_center _ _ _ _ _ _ _ Hr), <-(rs_frequency _ _ _ _ _ _ _ Hr), <-(rs_channel _ _ _ _ _ _ _ Hr),
      <-(rs_width _ _ _ _ _ _ _ Hr), <-(rs_band _ _ _ _ _ _ _ Hr), <-(rs_geometry _ _ _ _ _ _ _ Hr). by destruct (radio o). }
  pose proof (rs_plan _ _ _ _ _ _ _ Hr) as Hp. unfold networkmanager_restore_plan in Hp.
  apply result_bind_Ok in Hp as (v & (Hb & Hv & _)%model_validate_Ok & _). by rewrite Hg in Hb.
Qed.
Lemma restorable_has_frequency : has_frequency o = true.
Proof.
  unfold has_frequency. rewrite (rs_center _ _ _ _ _ _ _ Hr), (rs_frequency _ _ _ _ _ _ _ Hr), (rs_channel _ _ _ _ _ _ _ Hr), (rs_width _ _ _ _ _ _ _ Hr).
  simpl. pose proof (rs_definition _ _ _ _ _ _ _ Hr) as Hd. unfold validate_complete_channel_definition in Hd.
  apply result_bind_Ok in Hd as (e & He & _). destruct (defined_channel _ _ _ _ He) as (i & _ & _ & Hw & _).
  unfold SUPPORTED_CAPTURE_WIDTHS_MHZ in Hw. rewrite !elem_of_cons, elem_of_nil in Hw. by destruct Hw as [->|[->|[->|[]]]].
Qed.

(** *** The connections, while they are restored *)

Abbreviation uuids := (ordered_active_connection_uuids (connections o)).
(** The first [j] connections are active. *)
Definition conn (j : nat) : Connections := {|
  active_connection_uuids := take j uuids; ordered_active_connection_uuids := take j uuids;
  active_connection_interfaces := observations (interface o) 0 (take j uuids); active_connections_status := COMPLETE;
  network_manager_connection_uuid := last (take j uuids); primary_connection_uuid := last (take j uuids);
  network_manager_connection_name := if (j =? length uuids)%nat then network_manager_connection_name (connections o) else None |}.

Lemma conn_facts :
  active_connection_uuids (connections o) = uuids
  ∧ network_manager_connection_uuid (connections o) = primary_connection_uuid (connections o)
  ∧ NoDup uuids ∧ active_connection_interfaces (connections o) = observations (interface o) 0 uuids
  ∧ Forall (λ u, canonical_uuid u = true) uuids
  ∧ match primary_connection_uuid (connections o) with
    | Some p => uuids = restore_order uuids p ∧ p ∈ uuids
    | None => uuids = [] ∧ network_manager_connection_name (connections o) = None
    end.
Proof.
  destruct restorable_valid as (Hv & _ & _). unfold valid_connections in Hv. rewrite !andb_true_iff in Hv.
  destruct Hv as [[[[[[_ Hcan] _] _] _] _] Hid]. apply restore_identity_spec in Hid as (H1' & H2' & H3 & H4 & H5).
  rewrite (rs_status _ _ _ _ _ _ _ Hr) in H4. pose proof (plan_has_primary _ _ (networkmanager_restore_plan_spec o plan (rs_plan _ _ _ _ _ _ _ Hr))) as Hp.
  split_and!; try done.
  - apply Forall_forall. intros x Hx. rewrite forallb_forall in Hcan. apply Hcan. by apply list_elem_of_In.
  - destruct (primary_connection_uuid (connections o)) as [p|] eqn:Epr; [by split; [apply H4|]|]. split; [done|].
    destruct (network_manager_connection_name (connections o)) eqn:En; [|done]. by destruct (rs_named _ _ _ _ _ _ _ Hr); rewrite ?En.
Qed.
Lemma primary_last : primary_connection_uuid (connections o) = last uuids.
Proof.
  destruct conn_facts as (_ & _ & _ & _ & _ & Hp). destruct (primary_connection_uuid (connections o)) as [p|].
  - destruct Hp as [-> _]. unfold restore_order. by rewrite last_snoc.
  - by destruct Hp as [-> _].
Qed.
Lemma conn_full : conn (length uuids) = connections o.
Proof.
  destruct conn_facts as (H1' & H2' & _ & H4 & _). pose proof primary_last as Hl. pose proof (rs_status _ _ _ _ _ _ _ Hr) as Hs.
  unfold conn. rewrite firstn_all, Nat.eqb_refl, <-Hl. destruct (connections o); simpl in *. by subst.
Qed.
Lemma conn_name_zero : (if (0 =? length uuids)%nat then network_manager_connection_name (connections o) else None) = None.
Proof.
  destruct conn_facts as (_ & _ & _ & _ & _ & Hp). destruct (primary_connection_uuid (connections o)) as [p|].
  - destruct Hp as [_ Hin]. by destruct uuids; [apply elem_of_nil in Hin|].
  - destruct Hp as [_ ->]. by destruct (_ =? _)%nat.
Qed.
Lemma conn_cleared cs : active_connections_status cs = COMPLETE → cleared cs = conn 0.
Proof. intros Hs. unfold conn, cleared. by rewrite conn_name_zero, Hs. Qed.
Lemma last_take j x : uuids !! j = Some x → last (take (S j) uuids) = Some x.
Proof. intros Hx. by rewrite (take_S_r _ _ _ Hx), last_snoc. Qed.
Lemma not_in_take j x : uuids !! j = Some x → x ∉ take j uuids.
Proof.
  destruct conn_facts as (_ & _ & Hn & _). intros Hx Hin. apply list_elem_of_lookup in Hin as [i Hi].
  apply lookup_take_Some in Hi as [Hi Hlt]. pose proof (NoDup_lookup _ _ _ _ Hn Hi Hx). lia.
Qed.
Lemma primary_index j x : uuids !! j = Some x → Some x = primary_connection_uuid (connections o) ↔ S j = length uuids.
Proof.
  destruct conn_facts as (_ & _ & Hn & _). intros Hx. pose proof (lookup_lt_Some _ _ _ Hx). rewrite primary_last, last_lookup. split.
  - intros E. symmetry in E. pose proof (NoDup_lookup _ _ _ _ Hn Hx E). lia.
  - intros <-. simpl. done.
Qed.

Lemma conn_valid j : (j ≤ length uuids)%nat → valid_connections (interface o) (conn j) = true.
Proof.
  intros Hj. destruct (decide (j = length uuids)) as [->|Hne]; [rewrite conn_full; by destruct restorable_valid|].
  destruct conn_facts as (_ & _ & Hn & _ & Hcan & Hp).
  assert (∀ u, u ∈ take j uuids → canonical_uuid u = true) as Hc.
  { intros u Hu. rewrite Forall_forall in Hcan. apply Hcan. by eapply subseteq_take. }
  assert (forallb canonical_uuid (take j uuids) = true) as Hf by (apply forallb_forall; intros u Hu%list_elem_of_In; by apply Hc).
  assert (match last (take j uuids) with Some u => canonical_uuid u | None => true end = true) as Hl.
  { destruct (last (take j uuids)) as [u|] eqn:El; [|done]. apply Hc. by eapply last_Some_elem_of. }
  assert (∀ i us, 0 ≤ i → forallb canonical_uuid us = true →
    forallb (λ b, canonical_uuid (ob_connection_uuid b) && (0 <=? ob_restore_position b)) (observations (interface o) i us) = true) as Hob.
  { intros i us. revert i. induction us as [|u us IH]; intros i Hi; [done|]. simpl. rewrite !andb_true_iff. intros [-> Hus].
    split; [split; [done|by apply Z.leb_le]|]. apply IH; [lia|done]. }
  unfold valid_connections, restore_identity. simpl. rewrite Hf, Hl, Hob by done. simpl.
  rewrite (proj2 (Nat.eqb_neq _ _) Hne), !bool_decide_eq_true_2 by (done || by apply NoDup_take || by eapply sublist_NoDup, sublist_take). simpl.
  destruct (last (take j uuids)) as [p|] eqn:El; [|done]. simpl. apply andb_true_iff. split; [|done]. apply orb_true_iff. right.
  apply bool_decide_eq_true. destruct j as [|j]; [done|].
  destruct (uuids !! j) as [x|] eqn:Ex; [|apply lookup_ge_None in Ex; lia].
  rewrite (last_take j x Ex) in El. injection El as <-.
  destruct (primary_connection_uuid (connections o)) as [q|]; [|by destruct Hp as [Hp _]; rewrite Hp in Ex].
  destruct Hp as [Hq Hin]. symmetry. by apply (restore_order_take uuids q j x).
Qed.
Lemma conn_activated names j x :
  names = connection_names (simulated o [] false) → uuids !! j = Some x → activated (interface o) names x (conn j) = conn (S j).
Proof.
  intros -> Hx. unfold activated, conn, simulated. cbn [ordered_active_connection_uuids connection_names].
  assert (filter (λ v, v ≠ x) (take j uuids) ++ [x] = take (S j) uuids) as ->.
  { rewrite (take_S_r _ _ _ Hx). f_equal. apply filter_all. intros v Hv ->. by apply (not_in_take j x). }
  rewrite (last_take j x Hx). f_equal.
  pose proof (primary_index j x Hx) as Hpi. destruct (primary_connection_uuid (connections o)) as [p|] eqn:Ep.
  - cbn [find fst]. destruct (String.eqb_spec x p) as [->|Hne].
    + rewrite (proj2 (Nat.eqb_eq _ _)); [done|]. by apply Hpi.
    + rewrite (proj2 (Nat.eqb_neq _ _)); [done|]. intros E. apply Hne. apply Hpi in E. by injection E.
  - destruct conn_facts as (_ & _ & _ & _ & _ & Hp). rewrite Ep in Hp. destruct Hp as [Hp _]. by rewrite Hp in Hx.
Qed.
Lemma conn_observed op i j s :
  op ∈ plan → plan !! i = Some op → (i ≤ j ≤ length uuids)%nat → connections s = conn j →
  connection_effect_observed op s = (i <? j)%nat.
Proof.
  intros Hin Hop Hij Hs. pose proof (networkmanager_restore_plan_spec o plan (rs_plan _ _ _ _ _ _ _ Hr)) as Hp.
  assert (uuids !! i = Some (op_connection_uuid op)) as Hx.
  { rewrite <-(plan_uuids _ _ Hp). change (map op_connection_uuid plan) with (op_connection_uuid <$> plan). by rewrite list_lookup_fmap, Hop. }
  pose proof (plan_primary _ _ Hp) as Hprim. rewrite Forall_forall in Hprim. specialize (Hprim op Hin). simpl in Hprim.
  pose proof (primary_index i _ Hx) as Hpi. unfold connection_effect_observed. rewrite Hs. simpl. rewrite Hprim.
  destruct (decide (i < j)%nat) as [Hlt|Hge].
  - rewrite (proj2 (Nat.ltb_lt _ _) Hlt). case_bool_decide as Hb.
    + apply Hpi in Hb. replace j with (S i) by lia. rewrite (last_take i _ Hx). by apply bool_decide_eq_true_2.
    + apply str_in_spec. apply list_elem_of_lookup. exists i. by rewrite lookup_take_lt.
  - assert (j = i) as -> by lia. rewrite Nat.ltb_irrefl. case_bool_decide as Hb.
    + apply bool_decide_eq_false_2. intros E. apply (not_in_take i _ Hx). by eapply last_Some_elem_of.
    + apply not_str_in, not_in_take, Hx.
Qed.
End Restorable.

(** ** The simulated interface *)

Section Simulated.
Context `{Sha256Hex} `{UuidText} (o : InterfaceState).
Context (plan : list NetworkManagerRestoreOperation) (m : bool) (f c w center : Z) (d : LinuxChannelDefinition).
Context (Hr : restorable o plan m f c w center d).
Abbreviation Sim := SimulatedCaptureBackend.
Abbreviation uuids := (ordered_active_connection_uuids (connections o)).

(** What no command changes. *)
Definition same_device (s : InterfaceState) : Prop :=
  interface s = interface o ∧ active_connections_provenance s = active_connections_provenance o
  ∧ active_connections_source_errors s = active_connections_source_errors o
  ∧ network_manager_restore_schema_version s = network_manager_restore_schema_version o
  ∧ interface_type_command_mapper_version s = interface_type_command_mapper_version o
  ∧ namespace s = namespace o ∧ wiphy s = wiphy o ∧ driver s = driver o.
Definition tuned (r : Radio) : Prop := complete_geometry r = r ∧ valid_band (ra_band r) = true.
(** The interface once the first [p] steps of the rollback had their effect. *)
Definition state_at (p : nat) (s : InterfaceState) : Prop :=
  same_device s ∧ tuned (radio s)
  ∧ ((2 ≤ p)%nat → interface_type s = interface_type o) ∧ ((3 ≤ p)%nat → radio s = radio o)
  ∧ ((4 ≤ p)%nat → administratively_up s = administratively_up o)
  ∧ ((5 ≤ p)%nat → network_manager_managed s = network_manager_managed o)
  ∧ ∃ j, (p - 5 ≤ j ≤ length uuids)%nat ∧ connections s = conn o j.
Definition sim_at (p : nat) (b : Simulated) : Prop :=
  fail_steps b = [] ∧ connection_names b = connection_names (simulated o [] false) ∧ state_at p (sim_state b).

Lemma sim_at_mono q p b : (q ≤ p)%nat → sim_at p b → sim_at q b.
Proof.
  intros Hq (Hf & Hn & Hd & Ht & H2 & H3 & H4 & H5 & j & Hj & Hc). unfold sim_at, state_at. split_and!; try done.
  - intros. apply H2. lia.
  - intros. apply H3. lia.
  - intros. apply H4. lia.
  - intros. apply H5. lia.
  - exists j. split; [lia|done].
Qed.
Lemma sim_at_original b : sim_at (5 + length uuids) b → sim_state b = o.
Proof.
  intros (_ & _ & (Hi & Hp & He & Hs & Hm & Hn & Hw & Hd) & _ & H2 & H3 & H4 & H5 & j & Hj & Hc).
  assert (j = length uuids) as -> by lia. rewrite (conn_full o plan m f c w center d Hr) in Hc.
  specialize (H2 ltac:(lia)). specialize (H3 ltac:(lia)). specialize (H4 ltac:(lia)). specialize (H5 ltac:(lia)).
  destruct (sim_state b), o; simpl in *. by subst.
Qed.
Lemma original_at stop : sim_at 0 (simulated o [] stop).
Proof.
  destruct (restorable_valid o plan m f c w center d Hr) as (_ & Hb & Hg).
  unfold sim_at, state_at. split_and!; try (done || lia).
  exists (length uuids). split; [lia|]. by rewrite (conn_full o plan m f c w center d Hr).
Qed.

Lemma definition_tuned f' c' w' e1 e2 d' :
  validate_complete_channel_definition f' c' w' (Some e1) e2 = Ok d' →
  tuned {| ra_channel := Some (primary_channel d'); ra_frequency_mhz := Some f'; ra_width_mhz := Some w';
      ra_center_frequency_1_mhz := Some e1; ra_center_frequency_2_mhz := e2; ra_band := Some (def_band d');
      ra_geometry_version := Some (geometry_version d') |}
  ∧ primary_channel d' = c'.
Proof.
  intros Hd. unfold validate_complete_channel_definition in Hd. pose proof Hd as Hd2. apply result_bind_Ok in Hd2 as (e & He & Hd2).
  destruct e2; [done|]. destruct (e1 =? _) eqn:E1; [|done]. injection Hd2 as ->.
  destruct (sound_channel _ _ _ _ He) as (_ & _ & Hc & _). split; [|done]. split.
  - unfold complete_geometry. simpl. rewrite Hc. unfold validate_complete_channel_definition. by rewrite Hd.
  - simpl. unfold capture_channel_definition in He. destruct (frequency_to_channel f') as [i|] eqn:Ei; [|done].
    assert (band i = def_band d') as <-.
    { do 4 (apply raise_value_bind in He as [_ He]). destruct (w' =? 20); [by injection He as <-|].
      repeat case_match; try done. by apply result_bind_Ok in He as (? & _ & [= <-]). }
    unfold frequency_to_channel in Ei. repeat case_match; by simplify_eq/=.
Qed.

(** A state of which something was changed that the first [p] steps do not fix. *)
Lemma put_at p s b : fail_steps b = [] → connection_names b = connection_names (simulated o [] false) → state_at p s →
  ∃ b', put_state s b = (Ok tt, b') ∧ sim_at p b'.
Proof. intros Hf Hn Hs. eexists. split; [done|]. by split_and!. Qed.
Lemma may_fail_ok step p b : sim_at p b → ∃ b', may_fail step b = (Ok tt, b') ∧ sim_at p b' ∧ sim_state b' = sim_state b.
Proof. intros (Hf & Hn & Hs). unfold may_fail. rewrite Hf. eexists. split; [done|]. by split_and!. Qed.

(** Validation keeps a tuned state with connections of the plan. *)
Lemma validates s j :
  same_device s → tuned (radio s) → connections s = conn o j → (j ≤ length uuids)%nat → model_validate s = Ok s.
Proof.
  intros (Hi & _) [Hg Hb] Hc Hj. apply model_validate_Ok. rewrite Hg, Hi, Hc. split_and!; [done|by eapply conn_valid|].
  by destruct s.
Qed.

(** *** What the commands do *)

(** From step [p] on, [mm] succeeds and has the effect of the steps up to [q]. *)
Definition brings (p q : nat) (mm : SE Simulated unit) : Prop :=
  ∀ b, sim_at p b → ∃ b', mm b = (Ok tt, b') ∧ sim_at q b'.

Lemma brings_put step p q (g : InterfaceState → result InterfaceState) :
  (∀ s, state_at p s → ∃ s', g s = Ok s' ∧ state_at q s') →
  brings p q (may_fail step ;; s ← get sim_state; s' ← lift (g s); put_state s').
Proof.
  intros Hg b Hb. destruct (may_fail_ok step p b Hb) as (b1 & E1 & (Hf & Hn & Hs) & _).
  rewrite bind_state, E1, bind_state. unfold get. destruct (Hg _ Hs) as (s' & Es & Hs'). rewrite bind_state. unfold lift. rewrite Es.
  by apply put_at.
Qed.
Lemma link_down_at p : (p < 4)%nat → brings p p (set_link Sim (interface o) false).
Proof.
  intros Hp. apply (brings_put _ p p (λ s, Ok (set_up_of false s))). intros s (Hd & Ht & H2 & H3 & H4 & H5 & Hj).
  eexists. split; [done|]. unfold state_at. split_and!; try done. lia.
Qed.
Lemma link_restored_at : brings 3 4 (set_link Sim (interface o) (administratively_up o)).
Proof.
  apply (brings_put _ 3 4 (λ s, Ok (set_up_of (administratively_up o) s))). intros s (Hd & Ht & H2 & H3 & H4 & H5 & Hj).
  eexists. split; [done|]. unfold state_at. split_and!; try (done || lia). { intros _. apply H2. lia. } intros _. apply H3. lia.
Qed.
Lemma type_restored_at : brings 1 2 (set_type Sim (interface o) (interface_type o)).
Proof.
  apply (brings_put _ 1 2 (λ s, Ok (set_type_of (interface_type o) s))). intros s (Hd & Ht & H2 & H3 & H4 & H5 & Hj).
  eexists. split; [done|]. unfold state_at. split_and!; try (done || lia).
Qed.
Lemma frequency_restored_at : brings 2 3 (set_frequency Sim (interface o) f w c center (ra_center_frequency_2_mhz (radio o))).
Proof.
  intros b Hb. destruct (may_fail_ok "set_frequency" 2 b Hb) as (b1 & E1 & (Hf & Hn & Hs) & _).
  simpl. rewrite bind_state, E1, bind_state. unfold lift. rewrite (rs_definition _ _ _ _ _ _ _ _ Hr), bind_state. unfold get.
  destruct Hs as (Hd & Ht & H2 & H3 & H4 & H5 & Hj). apply put_at; [done|done|].
  destruct (definition_tuned _ _ _ _ _ _ (rs_definition _ _ _ _ _ _ _ _ Hr)) as [Htu Hch]. unfold state_at. split_and!; try (done || lia).
  { intros _. apply H2. lia. }
  intros _. simpl. rewrite Hch, <-(rs_frequency _ _ _ _ _ _ _ _ Hr), <-(rs_channel _ _ _ _ _ _ _ _ Hr), <-(rs_width _ _ _ _ _ _ _ _ Hr),
    <-(rs_center _ _ _ _ _ _ _ _ Hr), <-(rs_band _ _ _ _ _ _ _ _ Hr), <-(rs_geometry _ _ _ _ _ _ _ _ Hr). by destruct (radio o).
Qed.
Lemma conn_status j : active_connections_status (conn o j) = COMPLETE.
Proof. done. Qed.
Lemma managed_state p q mm s :
  state_at p s → (p < 5)%nat → (q ≤ 5)%nat → (q ≤ p ∨ p = 4)%nat → (5 ≤ q → Some mm = network_manager_managed o)%nat →
  ∃ s', model_validate (set_managed_of mm (if mm then connections s else cleared (connections s)) s) = Ok s' ∧ state_at q s'.
Proof.
  intros (Hd & Ht & H2 & H3 & H4 & H5 & j & Hj & Hc) Hp Hq Hpq Hm.
  set (s' := set_managed_of mm (if mm then connections s else cleared (connections s)) s).
  assert (∃ j', (q - 5 ≤ j' ≤ length uuids)%nat ∧ connections s' = conn o j') as (j' & Hj' & Hc').
  { destruct mm; simpl; [exists j; split; [lia|done]|]. exists 0%nat. split; [lia|].
    rewrite Hc. by apply (conn_cleared o plan m f c w center d Hr). }
  exists s'. split; [eapply validates; try done; lia|]. unfold state_at. split_and!; try done.
  - intros. apply H2. lia.
  - intros. apply H3. lia.
  - intros. apply H4. lia.
  - by exists j'.
Qed.
Lemma managed_restored_at mm : network_manager_managed o = Some mm → brings 4 5 (set_managed Sim (interface o) mm).
Proof.
  intros Hm. apply (brings_put _ 4 5 (λ s, model_validate (set_managed_of mm (if mm then connections s else cleared (connections s)) s))).
  intros s Hs. apply (managed_state 4); try (done || lia).
Qed.

(** The five commands in front of the connections, each with its effect. *)
Lemma base_brings i n mm : base_commands Sim o !! i = Some (n, mm) → brings i (S i) mm.
Proof.
  unfold base_commands. rewrite (restorable_has_frequency o plan m f c w center d Hr), (rs_managed _ _ _ _ _ _ _ _ Hr),
    (rs_frequency _ _ _ _ _ _ _ _ Hr), (rs_width _ _ _ _ _ _ _ _ Hr), (rs_channel _ _ _ _ _ _ _ _ Hr), (rs_center _ _ _ _ _ _ _ _ Hr).
  destruct i as [|[|[|[|[|i]]]]]; cbn [app lookup list_lookup]; intros [= <- <-].
  - intros b Hb. destruct (link_down_at 0 ltac:(lia) b Hb) as (b' & E & Hf & Hn & Hd & Ht & H2 & H3 & H4 & H5 & Hj). exists b'.
    split; [done|]. unfold sim_at, state_at. split_and!; try (done || lia).
  - apply type_restored_at.
  - apply frequency_restored_at.
  - apply link_restored_at.
  - apply managed_restored_at, (rs_managed _ _ _ _ _ _ _ _ Hr).
Qed.
Lemma base_length : length (base_names o) = 5%nat.
Proof. unfold base_names. by rewrite (restorable_has_frequency o plan m f c w center d Hr), (rs_managed _ _ _ _ _ _ _ _ Hr). Qed.

(** *** Reading and restoring connections *)

Lemma snapshot_at p b : sim_at p b → ∃ b', snapshot Sim (interface o) b = (Ok (sim_state b), b') ∧ sim_at p b' ∧ sim_state b' = sim_state b.
Proof.
  intros Hb. destruct (may_fail_ok "snapshot" p b Hb) as (b1 & E1 & Hb1 & Es). exists b1. simpl. rewrite bind_state, E1, bind_state.
  unfold get. rewrite bind_state, Es. unfold raise_if. destruct Hb as (_ & _ & (Hi & _) & _). rewrite Hi, String.eqb_refl. done.
Qed.
Lemma plan_uuid i op : plan !! i = Some op → uuids !! i = Some (op_connection_uuid op) ∧ op ∈ plan.
Proof.
  intros Hop. split; [|by eapply list_elem_of_lookup_2].
  rewrite <-(plan_uuids _ _ (networkmanager_restore_plan_spec o plan (rs_plan _ _ _ _ _ _ _ _ Hr))).
  change (map op_connection_uuid plan) with (op_connection_uuid <$> plan). by rewrite list_lookup_fmap, Hop.
Qed.
Lemma observed_at i op b :
  plan !! i = Some op → sim_at (5 + i) b → connection_effect_observed op (sim_state b) = true → sim_at (5 + S i) b.
Proof.
  intros Hop (Hf & Hn & Hd & Ht & H2 & H3 & H4 & H5 & j & Hj & Hc) Ho. destruct (plan_uuid i op Hop) as [_ Hin].
  rewrite (conn_observed o plan m f c w center d Hr op i j (sim_state b)) in Ho by (done || lia). apply Nat.ltb_lt in Ho.
  unfold sim_at, state_at. split_and!; try done; [intros; apply H2|intros; apply H3|intros; apply H4|intros; apply H5|exists j; split; [|done]]; lia.
Qed.
Lemma restored_at i op b :
  plan !! i = Some op → sim_at (5 + i) b → connection_effect_observed op (sim_state b) = false →
  ∃ b', restore_connection Sim (op_interface op) (op_connection_uuid op) b = (Ok tt, b') ∧ sim_at (5 + S i) b'.
Proof.
  intros Hop Hb Ho. destruct (plan_uuid i op Hop) as [Hx Hin].
  pose proof (networkmanager_restore_plan_spec o plan (rs_plan _ _ _ _ _ _ _ _ Hr)) as Hp.
  destruct (may_fail_ok ("restore_connection:" +:+ op_connection_uuid op) _ b Hb) as (b1 & E1 & (Hf & Hn & Hs) & Es).
  pose proof Hs as (Hd & Ht & H2 & H3 & H4 & H5 & j & Hj & Hc).
  assert (j = i) as ->.
  { rewrite <-Es in Ho. rewrite (conn_observed o plan m f c w center d Hr op i j (sim_state b1)) in Ho by (done || lia). apply Nat.ltb_ge in Ho. lia. }
  simpl. rewrite bind_state. pose proof (plan_canonical _ _ Hp) as Hcan. rewrite Forall_forall in Hcan.
  unfold lift at 1, validate_networkmanager_uuid. rewrite (Hcan op Hin). cbn [negb raise_value].
  rewrite bind_state, E1, bind_state. unfold get. rewrite bind_state, bind_state. unfold lift.
  pose proof (plan_interface _ _ Hp) as Hif. rewrite Forall_forall in Hif. rewrite (Hif op Hin), Hc.
  rewrite (conn_activated o plan m f c w center d Hr _ i _ Hn Hx).
  pose proof (lookup_lt_Some _ _ _ Hx).
  rewrite (validates _ (S i)) by (done || lia). cbv beta iota. apply (put_at (5 + S i)); [done|done|].
  unfold state_at. split_and!; try done; [intros; apply H2; lia|intros; apply H3; lia|intros; apply H4; lia|intros; apply H5; lia|].
  exists (S i). split; [lia|done].
Qed.
End Simulated.

(** ** A process that is killed *)

(** From the effect [k] on nothing happens any more. *)
Definition killed (k : nat) (e : exc) : nat → option exc := λ n, if (k <=? n)%nat then Some e else None.
Definition lasting (fault : nat → option exc) : Prop := ∀ n n', (n ≤ n')%nat → is_Some (fault n) → is_Some (fault n').
Lemma killed_lasting k e : lasting (killed k e).
Proof.
  intros n n' Hn [x Hx]. unfold killed in *. destruct (Nat.leb_spec k n); [|done].
  rewrite (proj2 (Nat.leb_le _ _)) by lia. by eexists.
Qed.
Lemma unharmed_lasting : lasting (λ _, None).
Proof. by intros n n' _ [x Hx]. Qed.

Section Killed.
Context `{Sha256Hex} `{UuidText} (o : InterfaceState).
Context (plan : list NetworkManagerRestoreOperation) (m : bool) (f c w center : Z) (d : LinuxChannelDefinition).
Context (Hr : restorable o plan m f c w center d) (token : string) (fault : nat → option exc) (Hfault : lasting fault).
Abbreviation Sim := SimulatedCaptureBackend.
Abbreviation uuids := (ordered_active_connection_uuids (connections o)).
Abbreviation expected := (base_names o ++ map step_name plan).
Abbreviation in_progress := (in_progress o plan token).
Abbreviation settled := (settled o plan token).
Abbreviation shaped := (shaped o plan token).
Abbreviation checkpoint := (save_progress (W:=Simulated) fault expected).

Lemma plan_fact : plan_of o plan.
Proof. apply networkmanager_restore_plan_spec, (rs_plan _ _ _ _ _ _ _ _ Hr). Qed.

(** A saved report confirms at most [p] steps, and can be resumed. *)
Definition resumes_by (p : nat) (l : list RollbackStep) : Prop :=
  in_progress l ∧ ∃ l0, settled l0 ∧ shaped l0 l ∧ (length l0 ≤ p)%nat.
Definition saved_upto (p : nat) (mk : Marker) : Prop :=
  capture_token mk = token
  ∧ (before_rollback mk
     ∨ marker_state mk = ROLLBACK_VERIFICATION_PENDING
       ∧ ∃ report, saved mk = Some report ∧ is_ok (load_report report) = true ∧ resumes_by p (mutation_steps (steps report))).
Definition here (p : nat) (r : Recovery Simulated) : Prop := sim_at o p (world r) ∧ saved_upto p (marker r).
Definition dead (r : Recovery Simulated) : Prop := is_Some (fault (calls r)).
Definition frozen (r : Recovery Simulated) : Prop := dead r ∧ ∃ p, here p r.
(** [mm] ends in [Q], or the process dies in it. *)
Definition tri {A} (P : Recovery Simulated → Prop) (mm : SE (Recovery Simulated) A) (Q : A → Recovery Simulated → Prop) : Prop :=
  triple P mm (λ a r, Q a r ∨ frozen r) (λ _, frozen).

Lemma here_world q p r : saved_upto q (marker r) → sim_at o p (world r) → (q ≤ p)%nat → here p r.
Proof.
  intros (Ht & Hm) Hw Hq. split; [done|]. split; [done|]. destruct Hm as [Hm|(Hst & report & Hs & Hl & Hp & l0 & Hl0 & Hsh & Hlen)]; [by left|right].
  split; [done|]. exists report. split_and!; [done|done|]. split; [done|]. exists l0. split_and!; [done|done|lia].
Qed.

Lemma frozen_effect : preserves frozen (effect fault).
Proof.
  intros r [Hd [p Hh]]. unfold effect. pose proof Hd as [e He]. unfold dead in Hd. rewrite He. simpl. split; [|by exists p].
  unfold dead. simpl. apply (Hfault (calls r)); [lia|done].
Qed.
Lemma dead_effect {A} (g : SE (Recovery Simulated) A) : preserves frozen (effect fault ;; g).
Proof.
  intros r Hd. pose proof (frozen_effect r Hd) as Hf. destruct Hd as [[e He] _]. rewrite bind_state.
  unfold effect in *. rewrite He in *. done.
Qed.
Lemma frozen_on_world {A} (mm : SE Simulated A) : preserves frozen (on_world fault mm).
Proof. apply dead_effect. Qed.
Lemma frozen_command n mm : preserves frozen (command fault n mm).
Proof. apply dead_effect. Qed.
Lemma frozen_note report : preserves frozen (note_rollback_verification fault report).
Proof.
  unfold note_rollback_verification. apply preserves_bind; [apply preserves_get|intros st].
  apply preserves_bind; [apply preserves_raise_if|intros []]. apply dead_effect.
Qed.
Lemma frozen_checkpoint ex l : preserves frozen (save_progress fault ex l).
Proof. unfold save_progress. apply preserves_bind; [apply preserves_lift|intros report; apply frozen_note]. Qed.
#[local] Hint Resolve frozen_on_world frozen_command frozen_note frozen_checkpoint : preserves.
Ltac frozen := repeat first [solve [preserve] | case_match | apply preserves_bind; [|intros ?]].
Lemma frozen_base ex already cs l : preserves frozen (run_base fault (save_progress fault ex) already cs l).
Proof.
  revert l. induction cs as [|[n mm] cs IH]; intros l; cbn [run_base]; [preserve|]. case_match; [apply IH|].
  apply preserves_bind; [unfold attempt_step; frozen|]. intros [l' []]; [apply IH|preserve].
Qed.
Lemma frozen_one ex tok iface l p : preserves frozen (restore_one Sim fault (save_progress fault ex) tok iface l p).
Proof. unfold restore_one. cbv zeta. frozen. Qed.
Lemma frozen_connections ex tok iface ps : ∀ already l, preserves frozen (restore_connections Sim fault (save_progress fault ex) tok iface already ps l).
Proof.
  induction ps as [|p ps IH]; intros already l; cbn [restore_connections]; [preserve|]. case_match; [apply IH|].
  apply preserves_bind; [apply frozen_one|]. intros [l' []]; [apply IH|preserve].
Qed.
Lemma frozen_apply original l ex tok : preserves frozen (apply_rollback Sim fault original l (save_progress fault ex) tok).
Proof.
  unfold apply_rollback. do 3 (apply preserves_bind; [preserve|intros ?]). case_match; [preserve|]. cbv zeta.
  apply preserves_bind; [apply frozen_base|]. intros [l' []]; cbn [negb]; [|preserve].
  apply preserves_bind; [preserve|intros ?]. apply frozen_connections.
Qed.
Lemma frozen_reading ex original v l : preserves frozen (verify_reading (save_progress fault ex) original v l).
Proof. unfold verify_reading. destruct (assess_rollback_verification original v). cbv zeta. frozen. Qed.
Lemma frozen_unavailable ex why names : ∀ l, preserves frozen (verify_unavailable (save_progress fault ex) why names l).
Proof. induction names as [|n names IH]; intros l; cbn [verify_unavailable]; cbv zeta; frozen. Qed.
Lemma frozen_verify ex original l : preserves frozen (verify_rollback Sim fault original l (save_progress fault ex)).
Proof.
  unfold verify_rollback. apply preserves_bind; [preserve|intros names]. case_match; [preserve|].
  apply preserves_bind; [preserve|intros seen]. apply preserves_bind.
  - destruct seen; [apply preserves_attempt, preserves_bind; [apply frozen_reading|preserve]|preserve].
  - intros [[l' v]|e].
    + destruct (assess_rollback_verification original v). preserve.
    + apply preserves_bind; [apply frozen_unavailable|preserve].
Qed.

(** *** Rules *)

Lemma tri_bind {A B} P (R : A → Recovery Simulated → Prop) (Q : B → Recovery Simulated → Prop) mm g :
  tri P mm R → (∀ a, tri (R a) (g a) Q) → (∀ a, preserves frozen (g a)) → tri P (mm ≫= g) Q.
Proof.
  intros Hm Hg Hp r Hr0. rewrite bind_state. specialize (Hm r Hr0). destruct (mm r) as [[a|e] r1]; [|done].
  destruct Hm as [Hm|Hm]; [by apply Hg|]. specialize (Hp a r1 Hm). destruct (g a r1) as [[b|e] r2]; [by right|done].
Qed.
Lemma tri_ret {A} P (Q : A → Recovery Simulated → Prop) a : (∀ r, P r → Q a r) → tri P (mret a) Q.
Proof. intros Ha. apply triple_ret. intros r Hp. left. by apply Ha. Qed.
Lemma tri_known {A B} (mm : SE (Recovery Simulated) A) a (g : A → SE (Recovery Simulated) B) P Q :
  (∀ s, mm s = (Ok a, s)) → tri P (g a) Q → tri P (mm ≫= g) Q.
Proof. apply triple_known. Qed.
Lemma tri_weaken {A} P P' (mm : SE (Recovery Simulated) A) Q Q' :
  tri P mm Q → (∀ r, P' r → P r) → (∀ a r, Q a r → Q' a r) → tri P' mm Q'.
Proof. intros Hm HP HQ. eapply triple_weaken; [exact Hm|done| |done]. intros a r [?|?]; [left; by apply HQ|by right]. Qed.
Lemma tri_extract {A} P (K : Prop) (mm : SE (Recovery Simulated) A) Q : (K → tri P mm Q) → tri (λ r, P r ∧ K) mm Q.
Proof. apply triple_extract. Qed.

Lemma tri_world {A} P (mm : SE (Recovery Simulated) A) Q : (∀ b, tri (λ r, P r ∧ world r = b) mm Q) → tri P mm Q.
Proof. intros Hb r Hp. by apply (Hb (world r)). Qed.
Lemma tri_command_at p q n mm b b' : mm b = (Ok tt, b') → sim_at o q b' → (p ≤ q)%nat →
  tri (λ r, here p r ∧ world r = b) (attempt (command fault n mm)) (λ x r, here q r ∧ x = Ok tt).
Proof.
  intros Hm Hb Hpq r [Hh <-]. unfold attempt, command. rewrite bind_state. unfold effect.
  destruct (fault (calls r)) as [e|] eqn:Ef.
  - right. split; [|by exists p]. unfold dead. simpl. apply (Hfault (calls r)); [lia|by rewrite Ef].
  - rewrite bind_state. unfold modify, in_world. simpl. rewrite Hm. left. split; [|done].
    apply (here_world p); [apply Hh|done|done].
Qed.
Lemma tri_command p q n mm : brings o p q mm → (p ≤ q)%nat → tri (here p) (attempt (command fault n mm)) (λ x r, here q r ∧ x = Ok tt).
Proof.
  intros Hb Hpq. apply tri_world. intros b r [Hh <-]. destruct (Hb (world r) (proj1 Hh)) as (b' & Hm & Hb').
  by apply (tri_command_at p q n mm (world r) b' Hm Hb' Hpq).
Qed.
Lemma tri_snapshot p : tri (here p) (attempt (on_world fault (snapshot Sim (interface o)))) (λ x r, here p r ∧ x = Ok (sim_state (world r))).
Proof.
  intros r Hh. unfold attempt, on_world. rewrite bind_state. unfold effect.
  destruct (fault (calls r)) as [e|] eqn:Ef.
  - right. split; [|by exists p]. unfold dead. simpl. apply (Hfault (calls r)); [lia|by rewrite Ef].
  - unfold in_world. destruct (snapshot_at o p (world r) (proj1 Hh)) as (b' & Es & Hb' & E). cbn [world].
    rewrite Es. left. cbn [world]. rewrite E. split; [|done]. apply (here_world p); [apply Hh|done|done].
Qed.
Lemma tri_note_at p report b :
  is_ok (load_report report) = true → resumes_by p (mutation_steps (steps report)) →
  tri (λ r, here p r ∧ world r = b) (note_rollback_verification fault report)
    (λ _ r, (here p r ∧ world r = b) ∧ saved (marker r) = Some report ∧ marker_state (marker r) = ROLLBACK_VERIFICATION_PENDING).
Proof.
  intros Hl Hp r [Hh <-]. unfold note_rollback_verification. rewrite bind_state. unfold get, raise_if.
  assert (marker_state (marker r) ∈ [CAPTURE_COMPLETE; RESERVED; ROLLBACK_VERIFICATION_PENDING]) as Hst.
  { destruct Hh as [_ [_ [Hb|[-> _]]]]; [|rewrite !elem_of_cons; tauto]. unfold before_rollback in Hb. rewrite !elem_of_cons in *. tauto. }
  rewrite bind_state, (bool_decide_eq_true_2 _ Hst). cbn [negb]. rewrite bind_state. unfold effect.
  destruct (fault (calls r)) as [e|] eqn:Ef.
  - split; [|by exists p]. unfold dead. simpl. apply (Hfault (calls r)); [lia|by rewrite Ef].
  - left. cbn. split; [|done]. split; [|done]. destruct Hh as [Hw [Ht _]]. split; [done|]. split; [done|]. right. split; [done|]. by exists report.
Qed.
Lemma tri_note p report :
  is_ok (load_report report) = true → resumes_by p (mutation_steps (steps report)) →
  tri (here p) (note_rollback_verification fault report) (λ _ r, here p r ∧ saved (marker r) = Some report ∧ marker_state (marker r) = ROLLBACK_VERIFICATION_PENDING).
Proof.
  intros Hl Hp. apply tri_world. intros b. eapply tri_weaken; [by apply (tri_note_at p report b)|done|intros ? ? [[? ?] ?]; by split].
Qed.
Lemma shaped_resumes l0 l : in_progress l → settled l0 → shaped l0 l → resumes_by (length l0) l.
Proof. intros Hp Hl Hs. split; [done|]. by exists l0. Qed.
Lemma tri_checkpoint_at p l vs b :
  resumes_by p l → verifications vs →
  tri (λ r, here p r ∧ world r = b) (checkpoint (l ++ vs)) (λ _ r, here p r ∧ world r = b).
Proof.
  intros Hl Hv. destruct (verifications_mutations o plan token l vs (proj1 Hl) Hv) as [Hm _].
  apply (tri_known _ (checkpoint_report expected (l ++ vs))); [done|].
  eapply tri_weaken; [apply (tri_note_at p _ b)|done|intros ? ? [? _]; done].
  - apply load_incomplete, Forall_forall. intros s Hs. pose proof (valid_steps o plan token l vs (proj1 Hl) Hv) as Hf.
    rewrite forallb_forall in Hf. by apply Hf, list_elem_of_In.
  - simpl. by rewrite Hm.
Qed.
Lemma tri_checkpoint p l vs : resumes_by p l → verifications vs → tri (here p) (checkpoint (l ++ vs)) (λ _, here p).
Proof. intros Hl Hv. apply tri_world. intros b. eapply tri_weaken; [by apply (tri_checkpoint_at p l vs b)|done|by intros ? ? [? _]]. Qed.
Lemma tri_save_at p l b : resumes_by p l → tri (λ r, here p r ∧ world r = b) (checkpoint l) (λ _ r, here p r ∧ world r = b).
Proof. intros Hl. rewrite <-(app_nil_r l). apply tri_checkpoint_at; [done|constructor]. Qed.
Lemma tri_save p l : resumes_by p l → tri (here p) (checkpoint l) (λ _, here p).
Proof. intros Hl. rewrite <-(app_nil_r l). apply tri_checkpoint; [done|constructor]. Qed.

(** *** The run of a rollback *)

(** Where a stretch of commands that all succeed leads. *)
Definition arrived (p : nat) (x : list RollbackStep * bool) (r : Recovery Simulated) : Prop :=
  here p r ∧ x.2 = true ∧ settled x.1 ∧ length x.1 = p.

Lemma settled_resumes l : settled l → resumes_by (length l) l.
Proof. intros Hl. apply (shaped_resumes l); [apply Hl|done|by left]. Qed.
Lemma tri_settle l0 s k p :
  settled l0 → expected !! length l0 = Some (name s) → authorized_step plan token s = Ok tt → valid_step s = true → completed s = true →
  p = S (length l0) → (k ≤ p)%nat → (∀ r, here k r → here p r) →
  tri (here k) (checkpoint (l0 ++ [s]) ;; mret (l0 ++ [s], true)) (arrived p).
Proof.
  intros Hl He Ha Hv Hc -> Hk Hmono. assert (settled (l0 ++ [s])) as Hs by by apply settled_snoc.
  assert (length (l0 ++ [s]) = S (length l0)) as Hlen by (rewrite length_app; simpl; lia).
  eapply tri_bind; [eapply tri_weaken; [apply (tri_save (S (length l0))); rewrite <-Hlen; by apply settled_resumes|exact Hmono|done]
    |intros []; apply tri_ret; intros r Hr0; by split_and!|intros []; preserve].
Qed.

Lemma tri_base already cs : ∀ l,
  settled l → cs = drop (length l) (base_commands Sim o) → (length l ≤ 5)%nat →
  Forall (λ x, str_in x.1 already = false) cs →
  tri (here (length l)) (run_base fault checkpoint already cs l) (arrived 5).
Proof.
  pose proof (base_length o plan m f c w center d Hr) as H5. rewrite <-(base_commands_names Sim o), length_map in H5.
  induction cs as [|[n mm] cs IH]; intros l Hl Hcs Hle Hal; cbn [run_base].
  - apply tri_ret. intros r Hh. assert (length l = 5)%nat as Hlen.
    { apply (f_equal length) in Hcs. rewrite length_drop, H5 in Hcs. simpl in Hcs. lia. }
    rewrite Hlen in Hh. by split_and!.
  - apply Forall_cons in Hal as [Hn Hal]. simpl in Hn. rewrite Hn.
    assert (base_commands Sim o !! length l = Some (n, mm)) as Hat.
    { rewrite <-(Nat.add_0_r (length l)), <-lookup_drop, <-Hcs. done. }
    assert (expected !! length l = Some n) as He.
    { rewrite lookup_app_l; [|rewrite <-(base_commands_names Sim o), length_map; by eapply lookup_lt_Some].
      rewrite <-(base_commands_names Sim o). change (map fst (base_commands Sim o)) with (fst <$> base_commands Sim o).
      by rewrite list_lookup_fmap, Hat. }
    assert (n ∈ base_names o) as Hin.
    { rewrite <-(base_commands_names Sim o). apply list_elem_of_In. change n with (fst (n, mm)). apply in_map, list_elem_of_In. by eapply list_elem_of_lookup_2. }
    pose proof (lookup_lt_Some _ _ _ Hat) as Hlt. rewrite H5 in Hlt.
    apply tri_bind with (R := arrived (S (length l))).
    + unfold attempt_step. apply tri_bind with (R := λ x r, here (S (length l)) r ∧ x = Ok tt).
      * apply tri_command; [by eapply base_brings|lia].
      * intros x. apply tri_extract. intros ->. cbv zeta. destruct (plain_step_good o plan token n true None Hin) as [Ha Hv].
        apply (tri_settle l (plain_step n true None)); done.
      * intros x. destruct x; cbv zeta; frozen.
    + intros [l' ok]. intros r (Hh & Eok & Hl' & Hlen). simpl in Eok, Hl', Hlen. subst ok. rewrite <-Hlen in Hh. revert r Hh.
      apply IH; [done|rewrite Hlen; rewrite (drop_S _ _ _ Hat) in Hcs; by injection Hcs|lia|done].
    + intros [l' []]; [apply frozen_base|preserve].
Qed.

Lemma tri_one l0 l i op :
  settled l0 → plan !! i = Some op → length l0 = (5 + i)%nat → l = l0 ∨ (∃ s, l = l0 ++ [s] ∧ intended token op s) →
  tri (here (5 + i)) (restore_one Sim fault checkpoint token (interface o) l op) (arrived (5 + S i)).
Proof.
  intros Hl Hop Hlen Hshape. destruct (plan_uuid o plan m f c w center d Hr i op Hop) as [_ Hin].
  assert (expected !! length l0 = Some (step_name op)) as He.
  { rewrite Hlen, <-(base_length o plan m f c w center d Hr). replace i with (length (take i plan)) at 1.
    - apply (lookup_plan o plan (rs_plan _ _ _ _ _ _ _ _ Hr) (take i plan) op (drop (S i) plan)). by rewrite take_drop_middle.
    - rewrite length_take. pose proof (lookup_lt_Some _ _ _ Hop). lia. }
  assert (∃ pending, pending_step l op = pending ∧ match pending with
      | Some s => l = l0 ++ [s] ∧ intended token op s ∧ operation_state s = Some planned
      | None => l = l0
      end) as (pending & Hpend & Hcase).
  { destruct Hshape as [->|(s & -> & Hs)].
    - exists None. split; [|done]. by apply (settled_not_pending o plan token (rs_plan _ _ _ _ _ _ _ _ Hr)).
    - exists (Some s). destruct (intended_fields token op s Hs) as (Hn & _ & Hst). split; [|done].
      unfold pending_step. rewrite last_snoc, Hn. by rewrite String.eqb_refl. }
  assert (∀ how, str_in how (allowed_evidence confirmed) = true → ∀ k, (k ≤ 5 + S i)%nat → (∀ r, here k r → here (5 + S i) r) →
    tri (here k) (checkpoint (l0 ++ [connection_step op token confirmed None (Some how)]) ;;
                  mret (l0 ++ [connection_step op token confirmed None (Some how)], true)) (arrived (5 + S i))) as Hsettle.
  { intros how Hhow k Hk Hmono. destruct (connection_step_good o plan token op confirmed None how plan_fact Hin Hhow eq_refl) as [Ha Hv].
    apply tri_settle; try done. rewrite Hlen. lia. }
  unfold restore_one. cbv zeta. rewrite Hpend.
  replace (match pending with Some s => negb (bool_decide (operation_state s = Some planned)) | None => false end) with false
    by (destruct pending; [by destruct Hcase as (_ & _ & ->)|done]).
  apply tri_bind with (R := λ x r, here (5 + i) r ∧ x = Ok (sim_state (world r))); [apply tri_snapshot| |intros x; destruct x; frozen].
  intros x. destruct x as [observed|e]; [|by intros r [_ ?]].
  intros r [Hh [= ->]]. pose proof (proj1 Hh) as (_ & _ & _ & _ & _ & _ & _ & _ & j & _ & Hj).
  rewrite (bool_decide_eq_true_2 (active_connections_status (connections (sim_state (world r))) = COMPLETE)) by by rewrite Hj.
  cbn [negb]. destruct (connection_effect_observed op (sim_state (world r))) eqn:Eo.
  - replace (match pending with Some _ => _ | None => _ end)
      with (l0 ++ [connection_step op token confirmed None (Some "effect_observed_before_retry")])
      by (destruct pending; [destruct Hcase as (-> & _); unfold replace_last; by rewrite removelast_last|by subst]).
    apply (Hsettle "effect_observed_before_retry" eq_refl (5 + S i)%nat); [done|done|].
    destruct Hh as [Hw Hm]. apply (here_world (5 + i)); [done| |lia]. by eapply observed_at.
  - destruct (restored_at o plan m f c w center d Hr i op (world r) Hop (proj1 Hh) Eo) as (b' & Hb' & Hat).
    set (intent := connection_step op token planned None (Some "intent_fsynced_before_command")).
    assert (intended token op intent) as Hint by by eexists _, _.
    destruct (intended_good o plan token op intent plan_fact Hin Hint) as [Hia Hiv].
    assert (resumes_by (5 + i) (l0 ++ [intent])) as Hri.
    { rewrite <-Hlen. apply shaped_resumes; [by apply progress_snoc|done|]. right. by exists op, intent. }
    assert (tri (λ r', here (5 + i) r' ∧ world r' = world r)
      ((match pending with Some _ => mret tt | None => checkpoint (match pending with Some _ => l | None => l ++ [intent] end) end) ;;
       outcome ← attempt (command fault (step_name op) (restore_connection Sim (op_interface op) (op_connection_uuid op)));
       let s := match outcome with
         | Ok _ => connection_step op token confirmed None (Some "connection_restore_command_confirmed")
         | Err e => if decide (e = profile_missing)
             then connection_step op token failed (Some "connection_profile_missing") (Some "connection_profile_missing")
             else connection_step op token failed (Some (type_name e)) (Some "connection_restore_command_failed")
         end in
       let l2 := replace_last (match pending with Some _ => l | None => l ++ [intent] end) s in
       checkpoint l2 ;; mret (l2, completed s)) (arrived (5 + S i))) as Hgoal; [|by apply Hgoal].
    apply tri_bind with (R := λ _ r', here (5 + i) r' ∧ world r' = world r).
    + destruct pending; [by apply tri_ret|]. subst l. by apply tri_save_at.
    + intros []. apply tri_bind with (R := λ x r', here (5 + S i) r' ∧ x = Ok tt).
      * apply (tri_command_at (5 + i) _ _ _ _ b'); [done|done|lia].
      * intros x. apply tri_extract. intros ->. cbv zeta.
        replace (replace_last _ _) with (l0 ++ [connection_step op token confirmed None (Some "connection_restore_command_confirmed")])
          by (destruct pending; [destruct Hcase as (-> & _)|subst]; unfold replace_last; by rewrite removelast_last).
        apply (Hsettle "connection_restore_command_confirmed" eq_refl (5 + S i)%nat); done.
      * intros x. cbv zeta. frozen.
    + intros []. cbv zeta. frozen.
Qed.

Lemma plan_length : length plan = length uuids.
Proof. rewrite <-(plan_uuids _ _ plan_fact). by rewrite length_map. Qed.
Lemma tri_connections rest : ∀ l0 l i already,
  rest = drop i plan → settled l0 → length l0 = (5 + i)%nat → (i ≤ length plan)%nat →
  l = l0 ∨ (∃ p rest' s, rest = p :: rest' ∧ l = l0 ++ [s] ∧ intended token p s) →
  Forall (λ p, str_in (step_name p) already = false) rest →
  tri (here (5 + i)) (restore_connections Sim fault checkpoint token (interface o) already rest l)
    (λ l' r, here (5 + length uuids) r ∧ settled l' ∧ length l' = (5 + length uuids)%nat).
Proof.
  induction rest as [|p rest IH]; intros l0 l i already Hrest Hl Hlen Hi Hshape Hal; cbn [restore_connections].
  - destruct Hshape as [->|(? & ? & ? & ? & _)]; [|done]. apply tri_ret. intros r Hh.
    assert (i = length uuids) as ->; [|by split_and!].
    apply (f_equal length) in Hrest. rewrite length_drop, plan_length in Hrest. rewrite plan_length in Hi. simpl in Hrest. lia.
  - apply Forall_cons in Hal as [Hp Hal]. rewrite Hp.
    assert (plan !! i = Some p) as Hop.
    { rewrite <-(Nat.add_0_r i), <-lookup_drop, <-Hrest. done. }
    apply tri_bind with (R := arrived (5 + S i)).
    + apply (tri_one l0); try done. destruct Hshape as [->|(? & ? & s & [= <- <-] & -> & Hs)]; [by left|right; by eexists].
    + intros [l' ok]. intros r (Hh & Eok & Hl' & Hlen'). simpl in Eok, Hl', Hlen'. subst ok. revert r Hh.
      apply (IH l'); [by rewrite (drop_S _ _ _ Hop) in Hrest; injection Hrest|done|done|by eapply lookup_lt_Some|by left|].
      apply Forall_forall. intros q Hq. rewrite Forall_forall in Hal. apply not_str_in.
      rewrite elem_of_cons. intros [Eq|Hin%str_in_spec]; [|by rewrite Hal in Hin].
      rewrite (drop_S _ _ _ Hop) in Hrest. injection Hrest as ->.
      pose proof (plan_nodup _ _ plan_fact) as Hnd. rewrite <-(take_drop_middle plan i p Hop), map_app in Hnd.
      apply NoDup_app in Hnd as (_ & _ & Hnd). apply NoDup_cons in Hnd as [Hnot _]. apply Hnot.
      rewrite <-(step_name_inj q p plan o plan_fact); [|by eapply subseteq_drop|by eapply list_elem_of_lookup_2|done].
      by apply list_elem_of_In, in_map, list_elem_of_In.
    + intros [l' []]; [apply frozen_connections|preserve].
Qed.

Lemma position_of i p : expected !! i = Some (step_name p) → p ∈ plan → (5 ≤ i)%nat ∧ plan !! (i - 5)%nat = Some p.
Proof.
  intros Hi Hp. rewrite <-(base_length o plan m f c w center d Hr).
  destruct (plan_position o plan (rs_plan _ _ _ _ _ _ _ _ Hr) i p Hi Hp) as (rest & Hd & Hle). split; [done|].
  rewrite <-(Nat.add_0_r (i - _)), <-lookup_drop, Hd. done.
Qed.
Lemma shaped_confirmed l0 l :
  settled l0 → shaped l0 l → List.filter completed l = l0 ∧ confirmed_prefix l = true ∧ last_failed l = false.
Proof.
  intros Hl Hshape.
  destruct Hshape as [->|(p & s & -> & _ & _ & Hs)].
  - split_and!; [by apply filter_completed, Hl|unfold confirmed_prefix|unfold last_failed].
    + rewrite all_completed_removelast by apply Hl. destruct (last l0) as [s|] eqn:E; [|done]. simpl.
      pose proof (proj2 Hl) as Ha. unfold all_completed in Ha. rewrite forallb_forall in Ha. rewrite Ha; [done|].
      apply list_elem_of_In. by eapply last_Some_elem_of.
    + destruct (last l0) as [s|] eqn:E; [|done]. pose proof (proj2 Hl) as Ha. unfold all_completed in Ha. rewrite forallb_forall in Ha.
      rewrite Ha; [done|]. apply list_elem_of_In. by eapply last_Some_elem_of.
  - destruct (intended_fields token p s Hs) as (_ & Hcs & Hst).
    rewrite List.filter_app. simpl. rewrite Hcs, app_nil_r. split_and!; [by apply filter_completed, Hl|unfold confirmed_prefix|unfold last_failed].
    + rewrite removelast_last, (proj2 Hl), last_snoc, Hst, Hcs. done.
    + by rewrite last_snoc, Hst, Hcs.
Qed.
Lemma tri_apply l : resumes_by (count_completed l) l → (count_completed l ≤ 5 + length uuids)%nat →
  tri (here (count_completed l)) (apply_rollback Sim fault o l checkpoint token)
    (λ l' r, here (5 + length uuids) r ∧ settled l' ∧ length l' = (5 + length uuids)%nat).
Proof.
  intros [Hp (l0 & Hl & Hshape & _)] Hcount. pose proof (rs_plan _ _ _ _ _ _ _ _ Hr) as Hplan.
  destruct (shaped_confirmed l0 l Hl Hshape) as (Hf & Hc & Hlf).
  unfold apply_rollback.
  apply (tri_known _ expected); [intros; unfold lift; by rewrite (rollback_step_names_Ok o plan Hplan)|].
  apply (tri_known _ tt); [intros; unfold lift; by rewrite (progress_validates o plan token l Hplan Hp)|].
  apply (tri_known _ tt); [intros; by rewrite (progress_names _ _ _ _ Hp), Hc|]. rewrite Hlf.
  assert (count_completed l = length l0) as Hk by by unfold count_completed; rewrite Hf.
  rewrite Hf, (proj1 (progress_lookup _ _ _ _ (proj1 Hl))), Hk. rewrite Hk in Hcount. cbv zeta.
  set (k := length l0) in *. set (already := take k expected).
  pose proof (base_length o plan m f c w center d Hr) as H5.
  assert (length (base_commands Sim o) = 5%nat) as H5c by (by rewrite <-H5, <-(base_commands_names Sim o), length_map).
  assert (∀ j x, expected !! j = Some x → (k ≤ j)%nat → str_in x already = false) as Hfresh.
  { intros j x Hx Hj. apply not_str_in, (NoDup_drop_take k expected _ (expected_NoDup o plan plan_fact)).
    apply list_elem_of_lookup. exists (j - k)%nat. rewrite lookup_drop. by replace (k + (j - k))%nat with j by lia. }
  assert (∀ j x, expected !! j = Some x → (j < k)%nat → str_in x already = true) as Hold.
  { intros j x Hx Hj. apply str_in_spec, list_elem_of_lookup. exists j. unfold already. by rewrite lookup_take_lt. }
  assert (∀ j x, base_commands Sim o !! j = Some x → expected !! j = Some x.1) as Hbase.
  { intros j x Hx. rewrite lookup_app_l; [|rewrite H5, <-H5c; by eapply lookup_lt_Some]. rewrite <-(base_commands_names Sim o).
    change (map fst (base_commands Sim o)) with (fst <$> base_commands Sim o). by rewrite list_lookup_fmap, Hx. }
  assert (∀ j x, plan !! j = Some x → expected !! (5 + j)%nat = Some (step_name x)) as Hpl.
  { intros j x Hx. rewrite <-H5, lookup_app_r by lia. replace (_ + j - _)%nat with j by lia.
    change (map step_name plan) with (step_name <$> plan). by rewrite list_lookup_fmap, Hx. }
  assert (∀ j, (j ≤ k - 5)%nat → Forall (λ x, str_in (step_name x) already = false) (drop (k - 5) plan)) as Hrest.
  { intros _ _. apply Forall_forall. intros x Hx. apply list_elem_of_lookup in Hx as [j Hj]. rewrite lookup_drop in Hj.
    apply (Hfresh (5 + (k - 5 + j))%nat); [by apply Hpl|lia]. }
  destruct (decide (k < 5)%nat) as [Hlt|Hge].
  - assert (l = l0) as ->.
    { destruct Hshape as [?|(p & s & _ & Hpin & He & _)]; [done|]. destruct (position_of _ _ He Hpin). unfold k in Hlt. lia. }
    apply tri_bind with (R := arrived 5).
    + assert (run_base fault checkpoint already (base_commands Sim o) l0 = run_base fault checkpoint already (drop k (base_commands Sim o)) l0) as ->.
      { rewrite <-(run_base_skip fault o plan already (take k (base_commands Sim o)) (drop k (base_commands Sim o)) l0); [by rewrite take_drop|].
        apply Forall_forall. intros x Hx. apply list_elem_of_lookup in Hx as [j Hj]. apply lookup_take_Some in Hj as [Hj Hjk].
        by apply (Hold j), Hjk; apply Hbase. }
      apply tri_base; [done|done|unfold k in Hlt; lia|]. apply Forall_forall. intros x Hx. apply list_elem_of_lookup in Hx as [j Hj].
      rewrite lookup_drop in Hj. apply (Hfresh (k + j)%nat); [by apply Hbase|lia].
    + intros [l' ok] r (Hh & Eok & Hl' & Hlen'). simpl in Eok, Hl', Hlen'. subst ok. cbn [negb]. revert r Hh.
      apply (tri_known _ plan); [intros; unfold lift; by rewrite Hplan|].
      apply (tri_connections plan l' l' 0); [done|done|done|lia|by left|].
      specialize (Hrest 0%nat ltac:(lia)). by replace (k - 5)%nat with 0%nat in Hrest by lia.
    + intros [l' []]; cbn [negb]; [|preserve]. apply preserves_bind; [preserve|intros ?]. apply frozen_connections.
  - apply (tri_known _ (l, true)).
    { intros s. rewrite <-(app_nil_r (base_commands Sim o)), run_base_skip; [done|].
      apply Forall_forall. intros x Hx. apply list_elem_of_lookup in Hx as [j Hj].
      apply (Hold j); [by apply Hbase|]. apply lookup_lt_Some in Hj. lia. }
    cbn [negb]. apply (tri_known _ plan); [intros; unfold lift; by rewrite Hplan|].
    assert (restore_connections Sim fault checkpoint token (interface o) already plan l
            = restore_connections Sim fault checkpoint token (interface o) already (drop (k - 5) plan) l) as ->.
    { pose proof (restore_connections_skip Sim fault o plan token (interface o) already (take (k - 5) plan) (drop (k - 5) plan) l) as E.
      rewrite (take_drop (k - 5) plan) in E. apply E. apply Forall_forall. intros x Hx. apply list_elem_of_lookup in Hx as [j Hj].
      apply lookup_take_Some in Hj as [Hj Hjk]. apply (Hold (5 + j)%nat); [by apply Hpl|lia]. }
    replace k with (5 + (k - 5))%nat at 1 by lia.
    apply (tri_connections _ l0); [done|done|fold k; lia|rewrite plan_length; lia| |by apply (Hrest 0%nat); lia].
    destruct Hshape as [->|(p & s & -> & Hpin & He & Hs)]; [by left|right].
    destruct (position_of _ _ He Hpin) as [_ Hat]. exists p, (drop (S (k - 5)) plan), s. split_and!; [by apply drop_S|done|done].
Qed.

Lemma original_valid : model_validate o = Ok o.
Proof.
  destruct (restorable_valid o plan m f c w center d Hr) as (Hv & Hb & Hg). apply model_validate_Ok. rewrite Hg.
  split_and!; [done|done|by destruct o].
Qed.
Lemma assess_original : assess_rollback_verification o o = (VComplete, None).
Proof.
  unfold assess_rollback_verification. rewrite original_valid, (rs_status _ _ _ _ _ _ _ _ Hr). unfold required_values.
  rewrite (rs_band _ _ _ _ _ _ _ _ Hr), (rs_center _ _ _ _ _ _ _ _ Hr), (rs_channel _ _ _ _ _ _ _ _ Hr), (rs_driver _ _ _ _ _ _ _ _ Hr),
    (rs_frequency _ _ _ _ _ _ _ _ Hr), (rs_geometry _ _ _ _ _ _ _ _ Hr), (rs_namespace _ _ _ _ _ _ _ _ Hr),
    (rs_managed _ _ _ _ _ _ _ _ Hr), (rs_width _ _ _ _ _ _ _ _ Hr), (rs_wiphy _ _ _ _ _ _ _ _ Hr).
  assert (text_absent (Some (geometry_version d)) = false) as ->.
  { pose proof (rs_definition _ _ _ _ _ _ _ _ Hr) as Hd. unfold validate_complete_channel_definition in Hd.
    apply result_bind_Ok in Hd as (e & He & Hd). destruct (ra_center_frequency_2_mhz (radio o)); [done|]. destruct (_ =? _); [|done].
    injection Hd as <-. unfold capture_channel_definition in He. destruct (frequency_to_channel f); [|done].
    do 4 (apply raise_value_bind in He as [_ He]). destruct (w =? 20); [by injection He as <-|].
    repeat case_match; try done; by apply result_bind_Ok in He as (? & _ & [= <-]). }
  cbn. assert (same_state o o = true) as ->; [|done].
  unfold same_state. rewrite !andb_true_iff, !bool_decide_eq_true, same_elements_spec, String.eqb_eq, eqb_true_iff. by split_and!.
Qed.
Lemma tri_verify l : settled l → length l = (5 + length uuids)%nat →
  tri (here (5 + length uuids)) (verify_rollback Sim fault o l checkpoint)
    (λ report r, here (5 + length uuids) r
       ∧ complete report = true ∧ sound_report o plan token 0 report ∧ resumes_by (5 + length uuids) (mutation_steps (steps report))).
Proof.
  intros Hl Hlen. pose proof (rs_plan _ _ _ _ _ _ _ _ Hr) as Hplan.
  assert (length expected = 5 + length uuids)%nat as Hex.
  { rewrite length_app, (base_length o plan m f c w center d Hr), length_map. by rewrite plan_length. }
  assert (confirmed_mutations expected l = true) as Hc.
  { unfold confirmed_mutations. rewrite (proj2 Hl), (proj1 (progress_lookup _ _ _ _ (proj1 Hl))), take_ge by lia. by rewrite bool_decide_eq_true_2. }
  assert (resumes_by (5 + length uuids) l) as Hres by (rewrite <-Hlen; by apply settled_resumes).
  unfold verify_rollback. apply (tri_known _ expected); [intros; unfold lift; by rewrite (rollback_step_names_Ok o plan Hplan)|].
  rewrite Hc. cbn [negb]. set (rs := reading_steps true true true None None None "read_only_snapshot").
  apply tri_bind with (R := λ x r, here (5 + length uuids) r ∧ x = Ok o).
  { eapply tri_weaken; [apply tri_snapshot|done|]. intros x r [Hh ->]. split; [done|]. by rewrite (sim_at_original o plan m f c w center d Hr _ (proj1 Hh)). }
  2: { intros seen. apply preserves_bind; [destruct seen; [apply preserves_attempt, preserves_bind; [apply frozen_reading|preserve]|preserve]|].
       intros [[l' v]|e]; [destruct (assess_rollback_verification o v); preserve|apply preserves_bind; [apply frozen_unavailable|preserve]]. }
  intros seen. apply tri_extract. intros ->.
  apply tri_bind with (R := λ read r, here (5 + length uuids) r ∧ read = Ok (l ++ rs, o)).
  { assert (tri (here (5 + length uuids)) (l' ← verify_reading checkpoint o o l; mret (l', o)) (λ x r, here (5 + length uuids) r ∧ x = (l ++ rs, o))) as Ht.
    { eapply tri_bind with (R := λ l' r, here (5 + length uuids) r ∧ l' = l ++ rs); [|intros l'; apply tri_extract; intros ->; by apply tri_ret|preserve].
      unfold verify_reading. rewrite assess_original, (rs_status _ _ _ _ _ _ _ _ Hr). cbv zeta. rewrite <-!app_assoc. cbn [app].
      replace (same_elements uuids uuids) with true by (symmetry; by apply same_elements_spec). rewrite !bool_decide_eq_true_2 by done. cbn [andb].
      do 3 (eapply tri_bind; [apply tri_checkpoint; [done|by repeat constructor]|intros []|intros []; frozen]). by apply tri_ret. }
    intros r Hh. specialize (Ht r Hh). unfold attempt. destruct ((l' ← verify_reading checkpoint o o l; mret (l', o)) r) as [[x|e] r']; [|by right].
    destruct Ht as [[Hh' ->]|Ht]; [by left|by right]. }
  2: { intros [[l' v]|e]; [destruct (assess_rollback_verification o v); preserve|apply preserves_bind; [apply frozen_unavailable|preserve]]. }
  intros read. apply tri_extract. intros ->. rewrite assess_original. rewrite bool_decide_eq_true_2 by done.
  destruct (sound_complete o plan token Hplan 0 l o None None None (proj1 Hl) ltac:(lia) Hc assess_original) as [Hmake Hsound].
  { by rewrite original_valid. }
  intros r Hh. unfold lift. fold rs in Hmake, Hsound. rewrite Hmake. left. split_and!; [done|done|done|].
  cbn [steps]. by destruct (verifications_mutations o plan token l rs (proj1 Hl) (reading_verifications _ _ _ _ _ _ _)) as [-> _].
Qed.

Lemma frozen_durable : preserves frozen (durable_rollback Sim fault o).
Proof.
  unfold durable_rollback. apply preserves_bind; [preserve|intros st]. apply preserves_bind; [case_match; preserve|intros []].
  do 7 (apply preserves_bind; [preserve|intros ?]). cbv zeta.
  apply preserves_bind; [case_match; [apply frozen_apply|preserve]|intros l].
  apply preserves_bind; [apply frozen_verify|intros report]. apply preserves_bind; [case_match; preserve|intros []]. frozen.
Qed.

Lemma tri_get {A B} P (g : Recovery Simulated → A) (k : A → SE (Recovery Simulated) B) Q :
  (∀ x, tri (λ r, P r ∧ g r = x) (k x) Q) → tri P (get g ≫= k) Q.
Proof. intros Hk r Hp. rewrite bind_state. unfold get. by apply Hk. Qed.
(** A marker that has its report. *)
Definition reported (p : nat) (r : Recovery Simulated) : Prop :=
  here p r ∧ marker_state (marker r) = ROLLBACK_VERIFICATION_PENDING.
Lemma tri_start p st :
  tri (λ r, here p r ∧ marker_state (marker r) = st)
    (if bool_decide (st ∈ [RESERVED; CAPTURE_COMPLETE]) then note_rollback_verification fault pending_report else mret tt)
    (λ _, reported p).
Proof.
  case_bool_decide as Hst.
  - eapply tri_weaken; [apply (tri_note p pending_report)|by intros r [? _]|].
    + done.
    + split; [apply progress_nil|]. exists []. split_and!; [apply settled_nil|by left|simpl; lia].
    + intros _ r (Hh & _ & Hs). by split.
  - apply tri_ret. intros r [Hh <-]. split; [done|]. destruct Hh as [_ [_ [Hb|[Hst' _]]]]; done.
Qed.
Lemma tri_durable p :
  tri (here p) (durable_rollback Sim fault o) (λ report r, here (5 + length uuids) r ∧ complete report = true).
Proof.
  pose proof (rs_plan _ _ _ _ _ _ _ _ Hr) as Hplan. unfold durable_rollback. apply tri_get. intros st.
  apply tri_bind with (R := λ _, reported p); [apply tri_start|intros []|].
  2: { intros []. do 7 (apply preserves_bind; [preserve|intros ?]). cbv zeta.
       apply preserves_bind; [case_match; [apply frozen_apply|preserve]|intros l].
       apply preserves_bind; [apply frozen_verify|intros report]. apply preserves_bind; [case_match; preserve|intros []]. frozen. }
  apply tri_get. intros detail r [[Hh Hst] Hdetail].
  destruct Hh as [Hw [Ht [Hb|[_ (report & Hs & Hload & Hp & l0 & Hl & Hshape & Hlen)]]]].
  { unfold before_rollback in Hb. rewrite Hst, !elem_of_cons, elem_of_nil in Hb. naive_solver. }
  set (l := mutation_steps (steps report)) in *.
  assert (count_completed l = length l0) as Hcount.
  { destruct Hshape as [->|(q & s & -> & _ & _ & Hsi)]; [by apply count_all, Hl|].
    rewrite count_app, (count_all l0) by apply Hl. unfold count_completed. simpl. destruct (intended_fields token q s Hsi) as (_ & -> & _).
    simpl. lia. }
  assert (length l0 ≤ 5 + length uuids)%nat as Hle.
  { destruct (progress_lookup _ _ _ _ (proj1 Hl)) as [_ Hx]. rewrite length_app, (base_length o plan m f c w center d Hr), length_map, plan_length in Hx. done. }
  assert (here (length l0) r) as Hh0.
  { split; [by apply (sim_at_mono o (length l0) p)|]. split; [done|]. right. split; [done|]. exists report. split_and!; [done|done|].
    split; [done|]. by exists l0. }
  assert (resumes_by (length l0) l) as Hres by (split; [done|]; by exists l0).
  revert r Hh0 Hw Ht Hs Hst Hdetail. intros r Hh0 _ _ Hs _ Hd0. rewrite Hs in Hd0. subst detail. clear Hs. revert r Hh0.
  apply (tri_known _ report); [done|]. destruct (load_report report) as [pending|] eqn:El; [|done].
  apply load_report_steps in El as Hsteps. apply (tri_known _ pending); [done|]. rewrite Hsteps.
  apply (tri_known _ expected); [intros; unfold lift; by rewrite (rollback_step_names_Ok o plan Hplan)|]. fold l.
  apply (tri_known _ l); [intros; unfold lift; by rewrite (resumed_all o plan token)|].
  apply tri_get. intros t. apply tri_weaken with (P := λ r, here (length l0) r ∧ t = token)
    (Q := λ report r, here (5 + length uuids) r ∧ complete report = true); [|intros r [Hh <-]; split; [done|apply Hh]|done].
  apply tri_extract. intros ->.
  apply (tri_known _ tt); [intros; unfold lift; by rewrite (progress_validates o plan token l Hplan Hp)|]. cbv zeta.
  apply tri_bind with (R := λ l' r, here (5 + length uuids) r ∧ (settled l' ∧ length l' = 5 + length uuids)%nat).
  { destruct (names_prefix expected l && confirmed_prefix l && _) eqn:Ec.
    - rewrite <-Hcount. apply tri_apply; [by rewrite Hcount|lia].
    - destruct (shaped_confirmed l0 l Hl Hshape) as (_ & Hc & _). rewrite (progress_names _ _ _ _ Hp), Hc in Ec. cbn [andb] in Ec.
      apply orb_false_iff in Ec as [Hlt%Nat.ltb_ge Hall%negb_false_iff].
      rewrite <-Hcount, (count_all l Hall) in *. rewrite (length_app (base_names o)), (base_length o plan m f c w center d Hr), length_map, plan_length in Hlt.
      apply tri_ret. intros r Hh. assert (length l = 5 + length uuids)%nat as Hll by lia. rewrite Hll in Hh. by split_and!. }
  - intros l'. apply tri_extract. intros [Hl' Hlen'].
    apply tri_bind with (R := λ rep r, here (5 + length uuids) r ∧ (complete rep = true ∧ sound_report o plan token 0 rep ∧ resumes_by (5 + length uuids) (mutation_steps (steps rep)))).
    + by apply tri_verify.
    + intros rep. apply tri_extract. intros (Hc & (Hlr & _ & _ & Hv) & Hrr).
      apply (tri_known _ tt). { intros s. rewrite Hc. unfold lift. by rewrite Hv. }
      eapply tri_bind; [by apply tri_note|intros []; apply tri_ret; by intros r' [? _]|intros []; preserve].
    + intros rep. apply preserves_bind; [case_match; preserve|intros []]. frozen.
  - intros l'. apply preserves_bind; [apply frozen_verify|intros rep]. apply preserves_bind; [case_match; preserve|intros []]. frozen.
Qed.
End Killed.

(** ** The capture itself *)

Section Captured.
Context `{Sha256Hex} `{UuidText} (o : InterfaceState).
Context (plan : list NetworkManagerRestoreOperation) (m : bool) (f c w center : Z) (d : LinuxChannelDefinition).
Context (Hr : restorable o plan m f c w center d) (token : string).
Abbreviation Sim := SimulatedCaptureBackend.
Abbreviation here := (here o plan token).

Lemma keeps_put step (g : InterfaceState → result InterfaceState) :
  (∀ s s', state_at o 0 s → g s = Ok s' → state_at o 0 s') →
  preserves (sim_at o 0) (may_fail step ;; s ← get sim_state; s' ← lift (g s); put_state s').
Proof.
  intros Hg b Hb. destruct (may_fail_ok o step 0 b Hb) as (b1 & E1 & (Hf & Hn & Hs) & _).
  rewrite bind_state, E1, bind_state. unfold get. rewrite bind_state. unfold lift. destruct (g (sim_state b1)) as [s'|e] eqn:Eg; [|done].
  destruct (put_at o 0 s' b1 Hf Hn (Hg _ _ Hs Eg)) as (b' & -> & Hb'). done.
Qed.
Lemma keeps_unmanaged iface : preserves (sim_at o 0) (set_managed Sim iface false).
Proof.
  apply (keeps_put _ (λ s, model_validate (set_managed_of false (cleared (connections s)) s))). intros s s' Hs Eg.
  destruct (managed_state o plan m f c w center d Hr 0 0 false s Hs ltac:(lia) ltac:(lia) ltac:(lia) ltac:(lia)) as (s1 & E1 & Hs1).
  cbv iota in E1. rewrite E1 in Eg. by injection Eg as <-.
Qed.
Lemma keeps_link iface up : preserves (sim_at o 0) (set_link Sim iface up).
Proof.
  apply (keeps_put _ (λ s, Ok (set_up_of up s))). intros s s' (Hd & Ht & H2 & H3 & H4 & H5 & Hj) [= <-].
  unfold state_at. split_and!; try done; lia.
Qed.
Lemma keeps_type iface t : preserves (sim_at o 0) (set_type Sim iface t).
Proof.
  apply (keeps_put _ (λ s, Ok (set_type_of t s))). intros s s' (Hd & Ht & H2 & H3 & H4 & H5 & Hj) [= <-].
  unfold state_at. split_and!; try done; lia.
Qed.
Lemma keeps_frequency iface f' w' c' e1 e2 : preserves (sim_at o 0) (set_frequency Sim iface f' w' c' e1 e2).
Proof.
  intros b Hb. destruct (may_fail_ok o "set_frequency" 0 b Hb) as (b1 & E1 & (Hf & Hn & Hs) & _).
  simpl. rewrite bind_state, E1, bind_state. unfold lift. destruct (validate_complete_channel_definition f' c' w' (Some e1) e2) as [d'|e] eqn:Ed; [|done].
  rewrite bind_state. unfold get. destruct (definition_tuned _ _ _ _ _ _ Ed) as [Htu _]. destruct Hs as (Hd & _ & _ & _ & _ & _ & Hj).
  split_and!; [done|done|]. unfold state_at. split_and!; try done; lia.
Qed.
Lemma keeps_snapshot iface : preserves (sim_at o 0) (snapshot Sim iface).
Proof.
  intros b Hb. destruct (may_fail_ok o "snapshot" 0 b Hb) as (b1 & E1 & Hb1 & _). simpl. rewrite bind_state, E1, bind_state. unfold get.
  rewrite bind_state. unfold raise_if. by destruct (negb _).
Qed.
Lemma keeps_capture q : preserves (sim_at o 0) (capture Sim q).
Proof.
  intros b Hb. destruct (may_fail_ok o "capture" 0 b Hb) as (b1 & E1 & Hb1 & _). simpl. rewrite bind_state, E1, bind_state. unfold get, raise_if.
  by destruct (sim_cancelled b1).
Qed.
Section Faults.
Context (fault : nat → option exc).
Lemma keeps_effect {A} (g : SE (Recovery Simulated) A) : preserves (here 0) g → preserves (here 0) (effect fault ;; g).
Proof. intros Hg r Hh. rewrite bind_state. unfold effect. destruct (fault (calls r)); [done|]. by apply Hg. Qed.
Lemma keeps_in_world {A} (mm : SE Simulated A) : preserves (sim_at o 0) mm → preserves (here 0) (in_world mm).
Proof. intros Hm r [Hw Hs]. unfold in_world. specialize (Hm _ Hw). by destruct (mm (world r)) as [x b]. Qed.
Lemma keeps_command n mm : preserves (sim_at o 0) mm → preserves (here 0) (command fault n mm).
Proof. intros Hm. apply keeps_effect, preserves_bind; [by intros r [Hw Hs]|intros []]. by apply keeps_in_world. Qed.
Lemma keeps_on_world {A} (mm : SE Simulated A) : preserves (sim_at o 0) mm → preserves (here 0) (on_world fault mm).
Proof. intros Hm. by apply keeps_effect, keeps_in_world. Qed.
Lemma keeps_mutate q : preserves (here 0) (mutate_and_capture Sim fault q o).
Proof.
  unfold mutate_and_capture.
  apply preserves_bind; [case_match; [apply keeps_command, keeps_unmanaged|preserve]|intros []].
  apply preserves_bind; [apply keeps_command, keeps_link|intros []]. apply preserves_bind; [apply keeps_command, keeps_type|intros []].
  apply preserves_bind; [apply keeps_command, keeps_link|intros []]. apply preserves_bind; [preserve|intros d'].
  apply preserves_bind; [apply keeps_command, keeps_frequency|intros []].
  apply preserves_bind; [apply keeps_on_world, keeps_snapshot|intros configured]. apply preserves_bind; [preserve|intros []].
  apply preserves_bind; [apply keeps_on_world; simpl; preserve|intros stop]. apply preserves_bind; [preserve|intros []].
  apply keeps_on_world, keeps_capture.
Qed.
End Faults.
End Captured.

(** A run of the rollback over the simulated interface, killed before its effect [k]
    (and never, when it has fewer). *)
Inductive killed_run `{Sha256} `{UuidText} (o : InterfaceState) (r : Recovery Simulated) : Recovery Simulated → Prop :=
  | killed_once k e : killed_run o r (snd (durable_rollback SimulatedCaptureBackend (killed k e) o (restart (world r) r))).

(** C19: Whenever the process is killed while it captures, and however often it is
    killed again while it rolls back, the first rollback that is left alone ends, says
    that it is complete, and leaves the interface exactly as the snapshot had it:
    type, link, radio, management and the active connections in their order with the
    primary one last. *)
Theorem killed_capture_restored `{Sha256Hex} `{UuidText} o q stop mk k e r :
  not_restorable (interface o) o = None → before_rollback mk →
  rtc (killed_run o) (snd (mutate_and_capture SimulatedCaptureBackend (killed k e) q o (MkRecovery (simulated o [] stop) mk 0 []))) r →
  ∃ report r', durable_rollback SimulatedCaptureBackend (λ _, None) o (restart (world r) r) = (Ok report, r')
    ∧ complete report = true ∧ sim_state (world r') = o.
Proof.
  intros Hres Hb Hh. destruct (restorable_fields o Hres) as (plan & m & f & c & w & center & d & Hr).
  assert (∃ p, here o plan (capture_token mk) p (snd (mutate_and_capture SimulatedCaptureBackend (killed k e) q o (MkRecovery (simulated o [] stop) mk 0 [])))) as Hstart.
  { exists 0%nat. apply (keeps_mutate o plan m f c w center d Hr). split; [by apply (original_at o plan m f c w center d Hr)|]. split; [done|by left]. }
  assert (∃ p, here o plan (capture_token mk) p r) as [p Hp].
  { induction Hh as [r|r r1 r2 [k' e'] _ IH]; [done|]. apply IH. destruct Hstart as [p Hp].
    pose proof (tri_durable o plan m f c w center d Hr (capture_token mk) (killed k' e') (killed_lasting k' e') p (restart (world r) r) Hp) as Ht.
    destruct (durable_rollback _ _ _ _) as [[report|x] r']; [destruct Ht as [[Ht _]|[_ Ht]]; [by eexists|exact Ht]|apply Ht]. }
  pose proof (tri_durable o plan m f c w center d Hr (capture_token mk) (λ _, None) unharmed_lasting p (restart (world r) r) Hp) as Ht.
  destruct (durable_rollback _ _ _ _) as [[report|x] r'].
  - destruct Ht as [[[Hw _] Hc]|[[x Hx] _]]; [|done]. exists report, r'. split_and!; [done|done|]. by apply (sim_at_original o plan m f c w center d Hr).
  - by destruct Ht as [[y Hy] _].
Qed.
#[local] Existing Instances hex_sha256 hex_sha256_lower short_uuid.
Definition killed_capture : Recovery Simulated :=
  snd (mutate_and_capture SimulatedCaptureBackend (killed 4 CancelledError) example_capture example_interface
         (MkRecovery (simulated example_interface [] false) example_marker 0 [])).
Lemma killed_capture_restored_witness :
  interface_type (sim_state (world killed_capture)) = monitor
  ∧ network_manager_managed (sim_state (world killed_capture)) = Some false
  ∧ ∃ report r', durable_rollback SimulatedCaptureBackend (λ _, None) example_interface
        (restart (world (snd (durable_rollback SimulatedCaptureBackend (killed 13 CancelledError) example_interface (restart (world killed_capture) killed_capture))))
           (snd (durable_rollback SimulatedCaptureBackend (killed 13 CancelledError) example_interface (restart (world killed_capture) killed_capture))))
      = (Ok report, r') ∧ complete report = true ∧ sim_state (world r') = example_interface.
Proof.
  split; [by vm_compute|]. split; [by vm_compute|].
  apply (killed_capture_restored example_interface example_capture false example_marker 4 CancelledError).
  - by vm_compute.
  - by left.
  - apply rtc_once. exact (killed_once example_interface killed_capture 13 CancelledError).
Defined.
