(* ===== verification/AgentServices.v ===== *)
(** * Capabilities, manifests and heartbeats of the agent

    [application/capabilities.py] and [application/heartbeat.py] of the desktop
    agent: the entries of the capability manifest, its publication and the
    heartbeat.  The server is a state of any type [W] with the two requests the
    services make of it; the probes of the platform and the contract schemas
    are parameters. *)

From S2P Require Export AgentIdentity JsonRoundTrip.

(** ** Values of Python *)

(** [bool(value)] *)
Definition json_truthy (j : json) : bool :=
  match j with
  | JNull => false
  | JBool b => b
  | JInt z => negb (z =? 0)
  | JFloat r => negb (str_in r ["0.0"; "-0.0"])
  | JStr s => negb (String.eqb s EmptyString)
  | JList xs => negb (bool_decide (length xs = 0%nat))
  | JObj kvs => negb (bool_decide (length kvs = 0%nat))
  end.
Definition option_text (o : option string) : string := match o with Some s => s | None => "None" end.
Definition option_truthy (o : option string) : bool :=
  match o with Some s => negb (String.eqb s EmptyString) | None => false end.

(** [a == b]; [float_equal] is the comparison of two numbers one of which is a
    float. *)
Section Equality.
Context (float_equal : json → json → bool).
Fixpoint py_equal (a b : json) : bool :=
  match a, b with
  | JNull, JNull => true
  | JBool x, JBool y => Bool.eqb x y
  | JBool x, JInt z | JInt z, JBool x => z =? Z.b2z x
  | JInt x, JInt y => x =? y
  | JFloat _, (JBool _ | JInt _ | JFloat _) | (JBool _ | JInt _), JFloat _ => float_equal a b
  | JStr x, JStr y => String.eqb x y
  | JList xs, JList ys =>
      (fix go (xs ys : list json) : bool :=
         match xs, ys with
         | [], [] => true
         | x :: xs', y :: ys' => py_equal x y && go xs' ys'
         | _, _ => false
         end) xs ys
  | JObj kvs, JObj kvs' =>
      bool_decide (length kvs = length kvs')
      && forallb (λ kv, match dict_get kvs' kv.1 with Some v => py_equal kv.2 v | None => false end) kvs
  | _, _ => false
  end.
(** [document.get(key) == value] *)
Definition get_equal (kvs : list (string * json)) (key : string) (value : json) : bool :=
  match dict_get kvs key with Some v => py_equal v value | None => py_equal JNull value end.
End Equality.

(** A document that has to be a [dict] for its [get]. *)
Definition as_dict (j : json) : result (list (string * json)) :=
  match j with JObj kvs => Ok kvs | _ => Err (ValueError "AttributeError") end.

(** ** The capability registry *)

(** The overrides of the platform, by capability. *)
Definition Overrides : Type := list (string * list (string * json)).

Definition reason (code : string) : json := JObj [("code", JStr code)].
Definition entry_document (capability_id : string)
    (technical technical_why implementation implementation_why permission permission_why user user_why
     background background_why provider provider_why limitation limitation_why : json) (permissions : list string)
    : list (string * json) :=
  [("id", JStr capability_id); ("version", JStr "1.0.0");
   ("technical_support", JObj [("status", technical); ("reason", technical_why)]);
   ("implementation_status", JObj [("status", implementation); ("reason", implementation_why)]);
   ("permission_requirement",
      JObj [("status", permission); ("permissions", JList (map JStr permissions)); ("reason", permission_why)]);
   ("user_interaction", JObj [("status", user); ("reason", user_why)]);
   ("background_execution", JObj [("status", background); ("reason", background_why)]);
   ("provider", JObj [("status", provider); ("implementations", JList []); ("reason", provider_why)]);
   ("limitations", JObj [("status", limitation); ("reason", limitation_why)])].

(** The seven dimensions an override may replace. *)
Definition dimensions : list string :=
  ["technical_support"; "implementation_status"; "permission_requirement"; "user_interaction";
   "background_execution"; "provider"; "limitations"].

Definition default_entry (platform_id capability_id : string) : list (string * json) :=
  let na := JStr "not_applicable" in
  let na_why := reason "not_applicable" in
  let unknown := JStr "unknown" in
  let unknown_why := reason "unknown" in
  if String.eqb capability_id "capture.ieee80211.monitor" && String.eqb platform_id "windows" then
    entry_document capability_id (JStr "unsupported") (reason "not_exposed_by_platform") (JStr "excluded") na_why
      na na_why na na_why na na_why na na_why na na_why []
  else if String.eqb capability_id "traffic.pcap.replay" then
    entry_document capability_id na na_why (JStr "excluded") na_why
      na na_why na na_why na na_why na na_why na na_why []
  else if String.eqb capability_id "execution.background.continuous" then
    entry_document capability_id (JStr "supported") JNull (JStr "planned") (reason "not_implemented")
      (JStr "required") (reason "permission_missing") (JStr "conditional") JNull (JStr "continuous") JNull
      (JStr "unavailable") (reason "provider_unavailable") unknown unknown_why ["service.install"]
  else
    entry_document capability_id unknown unknown_why (JStr "not_implemented") (reason "not_implemented")
      unknown unknown_why (JStr "none") JNull unknown unknown_why
      (JStr "unavailable") (reason "provider_unavailable") unknown unknown_why [].

(** [dict.update] *)
Definition dict_update (d other : list (string * json)) : list (string * json) :=
  fold_left (λ d kv, dict_set d kv.1 kv.2) other d.

(** [CapabilityRegistry._entry] *)
Definition capability_entry (platform_id : string) (overrides : Overrides) (capability_id : string)
    : result json :=
  let entry := default_entry platform_id capability_id in
  match snd <$> List.find (λ kv, String.eqb kv.1 capability_id) overrides with
  | None | Some [] => Ok (JObj entry)
  | Some override =>
      if forallb (λ kv, str_in kv.1 dimensions) override then Ok (JObj (dict_update entry override))
      else Err (RuntimeError "unknown capability override dimensions")
  end.

(** [CapabilityRegistry.__init__] and [entries]. *)
Definition capability_ids (catalog : json) : result (list string) :=
  listed ← at_key "capability_ids" catalog;
  ids ← match listed with
        | JList xs => mapM (λ x, match x with JStr s => Ok s | _ => Err (ValueError "TypeError") end) xs
        | _ => Err (ValueError "TypeError")
        end;
  if (length ids =? 15)%nat then Ok ids
  else Err (RuntimeError "capability catalog must contain exactly 15 IDs").
Definition entries (platform_id : string) (ids : list string) (overrides : Overrides) : result json :=
  documents ← mapM (capability_entry platform_id overrides) ids; mret (JList documents).

(** ** The agent and its server *)

Record Linked (W : Type) := MkLinked { agent_store : Store; server : W }.
Arguments MkLinked {_} _ _.
Arguments agent_store {_} _.
Arguments server {_} _.

(** The two requests of [AgentTransport] the services make: credential and
    payload. *)
Record ServiceTransport (W : Type) := {
  publish_manifest_request : string → json → SE W json;
  heartbeat_request : string → json → SE W json;
}.
Arguments publish_manifest_request {_} _ _ _.
Arguments heartbeat_request {_} _ _ _.

Definition on_agent {W A} (m : SE Store A) : SE (Linked W) A := λ s,
  let '(r, st) := m (agent_store s) in (r, MkLinked st (server s)).
Definition on_server {W A} (m : SE W A) : SE (Linked W) A := λ s,
  let '(r, w) := m (server s) in (r, MkLinked (agent_store s) w).

(** [HttpAgentTransport]: [AgentAuthenticationFailed] is the subclass of
    [TransportError] that only the code [agent_authentication_failed] raises,
    which a failed authentication and a repeated nonce have; its message tells it
    from the other transport errors. *)
Definition AgentAuthenticationFailed : exc := TransportError "agent credential was rejected".

(** What the platform, the clock and the random source give to one call. *)
Record ServiceInputs := {
  agent_version : string;      (** [__version__] *)
  service_platform_id : string;
  service_platform_version : string;
  service_clock : string;      (** [clock.now()] in UTC, ISO form, ending in Z *)
  new_manifest_id : string;    (** [str(uuid4())] *)
  store_now : nat → string;    (** [utc_now()] of the store calls *)
}.

Section Services.
Context `{Sha256} `{PythonText} {W : Type} (T : ServiceTransport W) (float_equal : json → json → bool)
  (validate_contract : string → json → result unit) (ids : list string) (probe : SE W Overrides).

(** ** Manifests *)

Definition manifest_invalid : exc := RuntimeError "durable capability manifest row is invalid".
Definition manifest_mismatch : exc := RuntimeError "durable capability manifest identity is invalid".

(** [_validated_manifest_payload]; [confirmed] is the expected state. *)
Definition validated_manifest_payload (row : ManifestRow) (confirmed : bool)
    : result (list (string * json)) :=
  payload ← of_option manifest_invalid (json_loads (cm_payload row));
  if negb (Bool.eqb (cm_confirmed row) confirmed) then Err manifest_mismatch
  else if negb (finite payload) then Err (ValueError "Out of range float values are not JSON compliant")
  else if negb (String.eqb (digest payload) (cm_payload_hash row)) then Err manifest_mismatch
  else
    kvs ← as_dict payload;
    if negb (get_equal float_equal kvs "manifest_id" (JStr (cm_manifest_id row)))
       || negb (get_equal float_equal kvs "manifest_sequence" (JInt (cm_sequence row)))
    then Err manifest_mismatch
    else if confirmed && (negb (option_truthy (cm_server_digest row)) || negb (option_truthy (cm_confirmed_at row)))
    then Err (RuntimeError "confirmed capability manifest lacks server evidence")
    else validate_contract "capability-manifest.schema.json" payload ;; mret kvs.

(** [_static_manifest_is_compatible] *)
Definition static_manifest_is_compatible (i : ServiceInputs) (payload : list (string * json))
    (identity : gmap string sqlval) : result bool :=
  validate_contract "capability-manifest.schema.json" (JObj payload) ;;
  let same key text := get_equal float_equal payload key (JStr text) in
  mret (same "schema_version" "1.0.0" && same "agent_id" (column_text (column "agent_id" identity))
        && same "agent_version" (agent_version i) && same "platform" (service_platform_id i)
        && same "platform_version" (service_platform_version i) && same "protocol_version" "1.0.0"
        && same "capability_catalog_version" "1.0.0").

Definition manifest_payload (i : ServiceInputs) (identity : gmap string sqlval) (sequence : Z)
    (capabilities : json) : list (string * json) :=
  [("schema_version", JStr "1.0.0"); ("manifest_id", JStr (new_manifest_id i));
   ("manifest_sequence", JInt sequence); ("agent_id", JStr (column_text (column "agent_id" identity)));
   ("agent_version", JStr (agent_version i)); ("platform", JStr (service_platform_id i));
   ("platform_version", JStr (service_platform_version i)); ("protocol_version", JStr "1.0.0");
   ("capability_catalog_version", JStr "1.0.0"); ("generated_at", JStr (service_clock i));
   ("capabilities", capabilities)].

(** [CapabilityRegistry.entries_async] *)
Definition entries_async (i : ServiceInputs) : SE (Linked W) json :=
  overrides ← on_server probe;
  lift (entries (service_platform_id i) ids overrides).

(** The identity and the runtime, when the agent has both and is enrolled. *)
Definition enrolled_runtime : SE (Linked W) (gmap string sqlval * RuntimeRow) :=
  found ← on_agent identity;
  runtime ← on_agent get_runtime_state;
  match found, runtime with
  | Some row, Some r =>
      raise_if (negb (truthy (column "agent_id" row)))
        (RuntimeError "identity and runtime are required before manifest publication") ;;
      mret (row, r)
  | _, _ => raise (RuntimeError "identity and runtime are required before manifest publication")
  end.

(** Send the payload and confirm it. *)
Definition publish_payload (i : ServiceInputs) (credential : string) (payload : list (string * json))
    : SE (Linked W) (list (string * json)) :=
  response ← on_server (publish_manifest_request T credential (JObj payload));
  manifest_id ← lift (text_at "manifest_id" (JObj payload));
  sequence ← lift (int_at "manifest_sequence" (JObj payload));
  server_digest ← lift (text_at "manifest_digest" response);
  on_agent (confirm_manifest (store_now i 1) (store_now i 2) manifest_id sequence server_digest) ;;
  mret payload.

(** A manifest that is confirmed and describes the agent as it is. *)
Definition up_to_date (i : ServiceInputs) (row : gmap string sqlval) (runtime : RuntimeRow)
    (confirmed : ManifestRow) : result (option (list (string * json))) :=
  payload ← validated_manifest_payload confirmed true;
  if cm_sequence confirmed =? rs_manifest_acked_sequence runtime then
    compatible ← static_manifest_is_compatible i payload row;
    mret (if (compatible : bool) then Some payload else None)
  else mret None.

Definition ensure_published (i : ServiceInputs) (credential : string) : SE (Linked W) (list (string * json)) :=
  pending ← on_agent pending_manifest;
  match pending with
  | Some row => payload ← lift (validated_manifest_payload row false); publish_payload i credential payload
  | None =>
      '(row, runtime) ← enrolled_runtime;
      capabilities ← entries_async i;
      confirmed ← on_agent confirmed_manifest;
      current ← match confirmed with
                | Some m => lift (up_to_date i row runtime m)
                | None => mret None
                end;
      match match current with
            | Some payload => if get_equal float_equal payload "capabilities" capabilities then Some payload else None
            | None => None
            end with
      | Some payload => mret payload
      | None =>
          let sequence := rs_manifest_acked_sequence runtime + 1 in
          let payload := manifest_payload i row sequence capabilities in
          lift (validate_contract "capability-manifest.schema.json" (JObj payload)) ;;
          on_agent (persist_manifest (store_now i 0) (new_manifest_id i) sequence (JObj payload)) ;;
          publish_payload i credential payload
      end
  end.

(** [True] when the live probes are still to be run. *)
Definition ensure_fast_start_published (i : ServiceInputs) (credential : string) : SE (Linked W) bool :=
  pending ← on_agent pending_manifest;
  (match pending with Some _ => ensure_published i credential ;; mret tt | None => mret tt end) ;;
  confirmed ← on_agent confirmed_manifest;
  found ← on_agent identity;
  runtime ← on_agent get_runtime_state;
  current ← match confirmed, found, runtime with
            | Some m, Some row, Some r =>
                if truthy (column "agent_id" row) then lift (up_to_date i row r m) else mret None
            | _, _, _ => mret None
            end;
  match current with
  | Some _ => mret true
  | None => ensure_published i credential ;; mret false
  end.

(** ** Heartbeats *)

Definition heartbeat_payload (i : ServiceInputs) (identity : gmap string sqlval) (runtime : RuntimeRow)
    (manifest : ManifestRow) : json :=
  JObj [("schema_version", JStr "1.0.0"); ("agent_id", JStr (column_text (column "agent_id" identity)));
        ("boot_id", JStr (rs_boot_id runtime)); ("sequence", JInt (rs_heartbeat_acked_sequence runtime + 1));
        ("agent_version", JStr (agent_version i)); ("protocol_version", JStr "1.0.0");
        ("agent_reported_at", JStr (service_clock i)); ("readiness", JStr "ready"); ("reason", JNull);
        ("manifest_id", JStr (cm_manifest_id manifest));
        ("manifest_digest", JStr (option_text (cm_server_digest manifest)))].

(** A new heartbeat, durable before it is sent. *)
Definition prepare_heartbeat (i : ServiceInputs) : SE (Linked W) json :=
  found ← on_agent identity;
  runtime ← on_agent get_runtime_state;
  manifest ← on_agent confirmed_manifest;
  match found, runtime, manifest with
  | Some row, Some r, Some m =>
      let payload := heartbeat_payload i row r m in
      lift (validate_contract "desktop-heartbeat.schema.json" payload) ;;
      on_agent (persist_heartbeat (store_now i 0) (rs_heartbeat_acked_sequence r + 1) payload) ;;
      mret payload
  | _, _, _ => raise (RuntimeError "identity, runtime and confirmed manifest are required")
  end.

(** [HeartbeatService.send] *)
Definition send (i : ServiceInputs) (credential : string) : SE (Linked W) json :=
  pending ← on_agent pending_heartbeat;
  payload ← match pending with
            | Some p => if json_truthy p then mret p else prepare_heartbeat i
            | None => prepare_heartbeat i
            end;
  response ← on_server (heartbeat_request T credential payload);
  accepted ← lift (int_at "accepted_sequence" response);
  sequence ← lift (int_at "sequence" payload);
  raise_if (negb (accepted =? sequence)) (RuntimeError "server acknowledged a different heartbeat sequence") ;;
  on_agent (confirm_heartbeat (store_now i 1) sequence) ;;
  mret payload.
End Services.
