(* ===== verification/Runtime.v ===== *)
(** * The runtime of the agent

    [application/runtime.py]: what starts, what one cycle does and in which
    order, how a rejected credential and a lost connection are handled, and that
    everything is shut down at the end.  The state holds the database, the
    secrets, the task runner with its scheduler and the server; each part sees
    its own share of it. *)

From S2P Require Export AgentServices Scheduler.

Record Agent (W : Type) := MkRunningAgent {
  sched : Scheduler;
  secrets : gmap string string;
  effects : nat;
  remote : W;
  stop_requested : bool;
}.
Arguments MkRunningAgent {_} _ _ _ _ _.
Arguments sched {_} _.
Arguments secrets {_} _.
Arguments effects {_} _.
Arguments remote {_} _.
Arguments stop_requested {_} _.

Definition agent_db_of {W} (a : Agent W) : Store := sch_store (sched a).
Definition put_store (s : Store) (q : Scheduler) : Scheduler :=
  MkScheduler (MkRunner s (tokens (sch_runner q)) (cancellations (sch_runner q))) (running q) (incoming q)
    (published q) (stopping q).

(** Each component on its share of the state. *)
Definition on_device {W A} (m : SE Device A) : SE (Agent W) A := λ a,
  let '(r, d) := m (MkDevice (agent_db_of a) (secrets a) (effects a)) in
  (r, MkRunningAgent (put_store (dev_store d) (sched a)) (vault d) (ticks d) (remote a) (stop_requested a)).
Definition on_services {W A} (m : SE (Linked W) A) : SE (Agent W) A := λ a,
  let '(r, l) := m (MkLinked (agent_db_of a) (remote a)) in
  (r, MkRunningAgent (put_store (agent_store l) (sched a)) (secrets a) (effects a) (server l) (stop_requested a)).
Definition on_scheduler {W A} (m : SE Scheduler A) : SE (Agent W) A := λ a,
  let '(r, q) := m (sched a) in (r, MkRunningAgent q (secrets a) (effects a) (remote a) (stop_requested a)).
Definition on_tables {W A} (m : SE Store A) : SE (Agent W) A := on_scheduler (on_store m).

Definition is_transport_error (e : exc) : bool := match e with TransportError _ => true | _ => false end.

(** What one run is given: time stamps and identifiers by the number of the
    cycle. *)
Record RuntimeInputs := {
  recovery_time : string; start_time : string; boot_id : string; stop_time : string;
  identity_inputs : nat → Inputs;
  service_inputs : nat → ServiceInputs;
  round_inputs : nat → RoundInputs;
}.

Section Runtime.
Context `{Sha256} `{PythonText} `{UuidText} `{EnvelopeCodec} {W : Type}.
Context (fate : nat → option exc)
  (send_create_rotation : nat → string → json → string → result json)
  (send_activate_rotation : nat → string → string → json → string → result json)
  (T : ServiceTransport W) (float_equal : json → json → bool)
  (validate_contract : string → json → result unit) (ids : list string) (probe : SE W Overrides)
  (has_scheduler : bool) (publish_ok : string → json → list (string * json) → bool) (max_concurrency : Z)
  (gather : list LocalTaskEnvelope → Runner → Runner) (wait : Runner → list string * Runner)
  (gather_cancelled : list string → Runner → Runner).
(** [clock.sleep]: what happens while the agent sleeps; the argument is the
    number of failures in a row, from which the delay is computed, or none after
    a cycle that succeeded. *)
Context (sleep : nat → option nat → SE (Agent W) unit).
Context (i : RuntimeInputs).

(** [AgentRuntime.start] *)
Definition start : SE (Agent W) unit :=
  on_tables (recover_interrupted (recovery_time i)) ;;
  on_tables (start_runtime (start_time i) (boot_id i)) ;;
  current ← on_tables identity;
  match current with
  | None => mret tt
  | Some row =>
      let rotation_state := column "rotation_state" row in
      let has_revoked_references := existsb (λ field, truthy (column field row)) credential_references in
      if bool_decide (rotation_state = VText "revoked") && has_revoked_references then
        on_device (mark_revoked fate (identity_inputs i 0))
      else if negb (bool_decide (rotation_state ∈ [VNull; VText "none"; VText "revoked"])) then
        on_device (AgentIdentity.rotate fate send_create_rotation send_activate_rotation (identity_inputs i 0)) ;;
        mret tt
      else mret tt
  end.

(** The part of a cycle that talks to the server and runs tasks. *)
Definition cycle_body (n : nat) (credential : string) : SE (Agent W) unit :=
  let publish := on_services (ensure_published T float_equal validate_contract ids probe (service_inputs i n) credential) in
  refresh_after_tasks ←
    (if has_scheduler then
       on_services (ensure_fast_start_published T float_equal validate_contract ids probe (service_inputs i n) credential)
     else publish ;; mret false);
  on_services (send T validate_contract (service_inputs i n) credential) ;;
  (if has_scheduler then
     on_scheduler (run_once publish_ok max_concurrency gather (round_inputs i n)) ;;
     if (refresh_after_tasks : bool) then publish ;; mret tt else mret tt
   else mret tt).

(** [AgentRuntime.cycle] *)
Definition cycle (n : nat) : SE (Agent W) unit :=
  credential ← on_device (active_credential fate);
  catch (cycle_body n credential) (λ e,
    if decide (e = AgentAuthenticationFailed)
    then on_device (mark_revoked fate (identity_inputs i n)) ;; raise e
    else raise e).

(** [while not stopping]: [None] when the fuel ends first.  [clock.sleep] raises
    no transport error, so only the cycle has one to handle. *)
Fixpoint run_loop (fuel n failures : nat) : SE (Agent W) (option unit) :=
  match fuel with
  | O => mret None
  | S fuel' =>
      stop ← get stop_requested;
      if (stop : bool) then mret (Some tt)
      else
        failures' ← catch (cycle n ;; sleep n None ;; mret 0%nat) (λ e,
          if is_transport_error e then sleep n (Some failures) ;; mret (S failures) else raise e);
        run_loop fuel' (S n) failures'
  end.

Definition request_stop : SE (Agent W) unit := λ a,
  (Ok tt, MkRunningAgent (sched a) (secrets a) (effects a) (remote a) true).

(** [AgentRuntime.shutdown] *)
Definition shutdown_agent : SE (Agent W) unit :=
  request_stop ;;
  (if has_scheduler then on_scheduler (Scheduler.shutdown wait gather_cancelled) else mret tt) ;;
  on_tables (stop_runtime (stop_time i)).

(** [AgentRuntime.run]: the [finally] of what ends, which with [once] is one
    cycle; [None] when the fuel of the loop ends first and the agent still
    runs. *)
Definition run_agent (once : bool) (fuel : nat) : SE (Agent W) (option unit) := λ a,
  match start a with
  | (Err e, a1) => (Err e, a1)
  | (Ok _, a1) =>
      match (if once then cycle 0 ;; mret (Some tt) else run_loop fuel 0 0) a1 with
      | (Ok None, a2) => (Ok None, a2)
      | (r, a2) => match shutdown_agent a2 with
                   | (Ok _, a3) => (r, a3)
                   | (Err e, a3) => (Err e, a3)
                   end
      end
  end.
End Runtime.
