(* ===== verification/RuntimeTheorems.v ===== *)
(** * What the runtime guarantees

    A revocation that was interrupted is finished when the agent starts again,
    and however a run ends it ends shut down. *)

From S2P Require Export AgentIdentityTheorems Runtime.

(** ** Revocation *)

Section Revocation.
Context `{Sha256} `{PythonText} `{UuidText}.

(** Every secret the row refers to is gone. *)
Definition forgotten (row : gmap string sqlval) (v : gmap string string) : Prop :=
  ∀ field, field ∈ credential_references → truthy (column field row) = true →
    v !! column_text (column field row) = None.
(** What the row referred to is still referred to, or gone. *)
Definition accounted (row0 row : gmap string sqlval) (v : gmap string string) : Prop :=
  ∀ field, field ∈ credential_references → truthy (column field row0) = true →
    column field row = column field row0 ∨ v !! column_text (column field row0) = None.
Definition accounts (row0 : gmap string sqlval) (k : Kept) : Prop :=
  ∃ row, k.1 = Some row ∧ accounted row0 row k.2.

Lemma accounted_shrink row0 row v v' :
  (∀ r, v !! r = None → v' !! r = None) → accounted row0 row v → accounted row0 row v'.
Proof. intros Hv Ha field Hf Ht. destruct (Ha field Hf Ht); [by left|right; by apply Hv]. Qed.
Lemma accounted_forgotten row0 row v : accounted row0 row v → forgotten row v → forgotten row0 v.
Proof.
  intros Ha Hg field Hf Ht. destruct (Ha field Hf Ht) as [E|E]; [|done]. rewrite <- E. apply Hg; [done|]. by rewrite E.
Qed.

Lemma kept_update now values s row :
  agent_identity s = Some row →
  let '(r, s') := update_identity now values s in
  agent_identity s' = (match r with Ok _ => Some (assign values now row) | Err _ => Some row end).
Proof.
  intros Hr. unfold update_identity, raise_if. destruct (forallb _ values); [|done].
  run_tx. destruct (bool_decide _); simpl; [done|]. rewrite Hr.
  by destruct (identity_check _).
Qed.

Context (fate : nat → option exc).

Lemma read_row d :
  let '(r, d1) := on_database fate identity d in
  kept d1 = kept d ∧ match r with Ok o => o = agent_identity (dev_store d) | Err _ => True end.
Proof. unfold on_database, effect, identity. run_tx. by destruct (fate _). Qed.

(** An update happens or not; the secrets stay. *)
Lemma write_row now values d row :
  agent_identity (dev_store d) = Some row →
  let '(r, d') := on_database fate (update_identity now values) d in
  vault d' = vault d
  ∧ agent_identity (dev_store d') = (match r with Ok _ => Some (assign values now row) | Err _ => Some row end).
Proof.
  intros Hr. unfold on_database, effect. destruct (fate _); [done|]. simpl.
  pose proof (kept_update now values (dev_store d) row Hr) as Hu. by destruct (update_identity _ _ _) as [[] st].
Qed.

(** Deleting goes on from where it was. *)
Lemma absent_outcome key d :
  let '(r, d') := ensure_secret_absent fate key d in
  dev_store d' = dev_store d ∧ (∀ k, vault d !! k = None → vault d' !! k = None)
  ∧ (r = Ok tt → vault d' !! key = None).
Proof.
  unfold ensure_secret_absent, get_secret, delete_secret, effect, mbind, SE_bind, get, modify.
  destruct (fate (ticks d)); [done|]. cbn [vault dev_store ticks].
  destruct (vault d !! key) as [x|] eqn:E; [|done]. cbn [vault dev_store ticks].
  destruct (fate _); simpl; [done|]. split_and!; [done| |].
  - intros k Hk. apply lookup_delete_None. by right.
  - intros _. by apply lookup_delete_eq.
Qed.

Lemma forget_one_outcome row f d :
  let '(r, d') := forget_reference fate row f d in
  dev_store d' = dev_store d ∧ (∀ k, vault d !! k = None → vault d' !! k = None)
  ∧ (r = Ok tt → truthy (column f row) = true → vault d' !! column_text (column f row) = None).
Proof.
  unfold forget_reference. destruct (truthy (column f row)) eqn:E; [|done].
  pose proof (absent_outcome (column_text (column f row)) d) as Ho.
  destruct (ensure_secret_absent _ _ _). naive_solver.
Qed.

Lemma forget_outcome row fields d :
  let '(r, d') := for_each fields (forget_reference fate row) d in
  dev_store d' = dev_store d ∧ (∀ k, vault d !! k = None → vault d' !! k = None)
  ∧ (r = Ok tt → ∀ field, field ∈ fields → truthy (column field row) = true →
       vault d' !! column_text (column field row) = None).
Proof.
  revert d. induction fields as [|f fields IH]; intros d; simpl.
  { split_and!; [done|done|]. intros _ field Hf. by apply elem_of_nil in Hf. }
  rewrite bind_state. pose proof (forget_one_outcome row f d) as Hone.
  destruct (forget_reference fate row f d) as [[[]|e] d1].
  - destruct Hone as (Hs & Hv & Hf). specialize (IH d1). destruct (for_each _ _ d1) as [r d2].
    destruct IH as (Hs2 & Hv2 & Hf2). split_and!; [congruence|eauto|]. intros Hr field Hin Ht.
    apply elem_of_cons in Hin as [->|Hin]; [by apply Hv2, Hf|by apply Hf2].
  - destruct Hone as (Hs & Hv & _). by split_and!.
Qed.

Definition revoked_values (revoked_at : sqlval) : list (string * sqlval) :=
  [("revoked_at", revoked_at); ("rotation_state", VText "revoked")].
Definition cleared_values : list (string * sqlval) :=
  [("active_credential_ref", VNull); ("pending_credential_ref", VNull);
   ("previous_credential_ref", VNull); ("rotation_state", VText "revoked")].

Lemma reference_columns field revoked_at now row :
  field ∈ credential_references → column field (assign (revoked_values revoked_at) now row) = column field row.
Proof.
  intros Hf. unfold credential_references in Hf. set_unfold.
  destruct Hf as [->|[->|[->|[]]]]; by rewrite column_assign.
Qed.

Lemma cleared_columns field now row :
  field ∈ credential_references → column field (assign cleared_values now row) = VNull.
Proof.
  intros Hf. unfold credential_references in Hf. set_unfold.
  destruct Hf as [->|[->|[->|[]]]]; by rewrite column_assign.
Qed.

(** A revocation that stops anywhere accounts for every secret; one that ends
    has forgotten them all and cleared the references. *)
Lemma mark_revoked_outcome i row0 row d :
  agent_identity (dev_store d) = Some row → accounted row0 row (vault d) →
  let '(r, d') := mark_revoked fate i d in
  ∃ row', agent_identity (dev_store d') = Some row' ∧ accounted row0 row' (vault d')
    ∧ (r = Ok tt → forgotten row0 (vault d')
         ∧ ∀ field, field ∈ credential_references → column field row' = VNull).
Proof.
  intros Hr Ha. unfold mark_revoked. rewrite bind_state. pose proof (read_row d) as Hread.
  unfold kept in Hread. rewrite Hr in Hread.
  destruct (on_database fate identity d) as [[found|e] d1]; destruct Hread as [[= Hk1 Hk2] Ho]; [subst found|by exists row; rewrite Hk1, Hk2].
  cbv zeta. rewrite bind_state.
  match goal with |- context [on_database fate (update_identity ?now ?values) d1] =>
    pose proof (write_row now values d1 row Hk1) as Hw;
    assert (∀ field, field ∈ credential_references → column field (assign values now row) = column field row) as Hsame
      by (intros field Hf; by apply reference_columns);
    set (row1 := assign values now row) in *;
    destruct (on_database fate (update_identity now values) d1) as [[[]|e] d2] end;
    destruct Hw as [Hv2 Hr2]; [|exists row; rewrite Hr2, Hv2, Hk2; by split_and!].
  assert (accounted row0 row1 (vault d2)) as Ha2.
  { rewrite Hv2, Hk2. intros field Hf Ht. rewrite Hsame by done. by apply Ha. }
  assert (∀ v, forgotten row v → forgotten row1 v) as Hfr.
  { intros v Hg field Hf Ht. rewrite Hsame in Ht |- * by done. by apply Hg. }
  clearbody row1. rewrite bind_state. unfold forget_references.
  pose proof (forget_outcome row credential_references d2) as Hfo.
  destruct (for_each _ _ d2) as [[[]|e] d3]; destruct Hfo as (Hs3 & Hv3 & Hf3); rewrite <- Hs3 in Hr2.
  2:{ exists row1. split_and!; [done|by apply (accounted_shrink row0 row1 (vault d2))|done]. }
  assert (forgotten row0 (vault d3)) as Hgone.
  { apply (accounted_forgotten row0 row1); [by apply (accounted_shrink row0 row1 (vault d2))|].
    apply Hfr. intros field Hf Ht. by apply Hf3. }
  pose proof (write_row (clock_text i 2) cleared_values d3 row1 Hr2) as Hw. fold cleared_values.
  destruct (on_database fate _ d3) as [r d4]. destruct Hw as [Hv4 Hr4].
  exists (match r with Ok _ => assign cleared_values (clock_text i 2) row1 | Err _ => row1 end).
  split; [by destruct r|].
  split; [intros field Hf Ht; right; rewrite Hv4; by apply Hgone|]. intros ->. rewrite Hv4. split; [done|].
  intros field Hf. apply cleared_columns, Hf.
Qed.
End Revocation.

(** ** Starting again *)

Section Restart.
Context `{Sha256} `{PythonText} `{UuidText} `{EnvelopeCodec}.

Lemma update_completes now values s row :
  agent_identity s = Some row → forallb (λ kv, str_in kv.1 updatable) values = true → values ≠ [] →
  column "rotation_state" (assign values now row) = VText "revoked" →
  (update_identity now values s).1 = Ok tt.
Proof.
  intros Hr Hu Hne Hc. unfold update_identity, raise_if. rewrite Hu. cbn [negb]. run_tx.
  rewrite bool_decide_eq_false_2 by done. simpl. rewrite Hr. unfold identity_check.
  unfold column in Hc. destruct (assign values now row !! "rotation_state") as [x|]; simpl in Hc; [|done].
  by subst x.
Qed.

(** Nothing interrupted, a revocation ends. *)
Lemma write_completes now values d row :
  agent_identity (dev_store d) = Some row → forallb (λ kv, str_in kv.1 updatable) values = true → values ≠ [] →
  column "rotation_state" (assign values now row) = VText "revoked" →
  ∃ d', on_database (λ _, None) (update_identity now values) d = (Ok tt, d')
    ∧ agent_identity (dev_store d') = Some (assign values now row).
Proof.
  intros Hr Hu Hne Hc. pose proof (update_completes now values (dev_store d) row Hr Hu Hne Hc) as Hok.
  pose proof (write_row (λ _, None) now values d row Hr) as Hw. unfold on_database, effect in *. cbn [dev_store] in *.
  destruct (update_identity now values (dev_store d)) as [r st]. simpl in Hok. subst r. destruct Hw as [_ Hw].
  by eexists.
Qed.
Lemma forget_completes row fields d : ∃ d', for_each fields (forget_reference (λ _, None) row) d = (Ok tt, d')
  ∧ dev_store d' = dev_store d.
Proof.
  revert d. induction fields as [|f fields IH]; intros d; simpl; [by exists d|]. rewrite bind_state.
  assert (∃ d', forget_reference (λ _, None) row f d = (Ok tt, d') ∧ dev_store d' = dev_store d) as (d1 & -> & <-).
  { unfold forget_reference, ensure_secret_absent, get_secret, delete_secret, effect, mbind, SE_bind, get, modify.
    destruct (truthy _); [|by exists d]. cbn [vault dev_store ticks]. destruct (vault d !! _); by eexists. }
  destruct (IH d1) as (d2 & E & Hs). exists d2. by rewrite E.
Qed.
Lemma mark_revoked_completes i d row :
  agent_identity (dev_store d) = Some row → ∃ d', mark_revoked (λ _, None) i d = (Ok tt, d').
Proof.
  intros Hr. unfold mark_revoked. rewrite bind_state. pose proof (read_row (λ _, None) d) as Hread.
  assert (∃ o d1, on_database (λ _, None) identity d = (Ok o, d1)) as (o & d1 & E) by (by eexists _, _).
  rewrite E in *. destruct Hread as [Hk ->]. rewrite Hr. unfold kept in Hk. injection Hk as Hk1 Hk2. rewrite Hr in Hk1.
  cbv zeta. rewrite bind_state.
  match goal with |- context [on_database _ (update_identity ?now ?values) d1] =>
    destruct (write_completes now values d1 row Hk1) as (d2 & E2 & Hr2);
      [reflexivity|discriminate|by rewrite column_assign|] end.
  rewrite E2, bind_state. unfold forget_references.
  destruct (forget_completes row credential_references d2) as (d3 & -> & Hs3). rewrite <- Hs3 in Hr2.
  match goal with |- context [on_database _ (update_identity ?now ?values) d3] =>
    destruct (write_completes now values d3 _ Hr2) as (d4 & E4 & Hr4);
      [reflexivity|discriminate|by rewrite column_assign|] end.
  by exists d4.
Qed.

(** What the identity manager does to the database is a history of it. *)
Lemma on_database_history fate s0 (m : SE Store unit) :
  (∀ s, store_step s (m s).2) → preserves (λ d, history s0 (dev_store d)) (on_database fate m).
Proof.
  intros Hm d Hd. unfold on_database, effect. destruct (fate _); [done|]. simpl. specialize (Hm (dev_store d)).
  destruct (m (dev_store d)) as [r s']. simpl in *. unfold history in *. etrans; [exact Hd|by apply rtc_once].
Qed.
Lemma mark_revoked_history fate i s0 : preserves (λ d, history s0 (dev_store d)) (mark_revoked fate i).
Proof.
  assert (∀ now values, preserves (λ d, history s0 (dev_store d)) (on_database fate (update_identity now values)))
    as Hupdate by (intros; apply on_database_history; intros; constructor).
  assert (preserves (λ d, history s0 (dev_store d)) (on_database fate identity)) as Hread.
  { intros d Hd. pose proof (read_row fate d) as Hr. unfold on_database, effect, identity in *. destruct (fate _); done. }
  assert (∀ row, preserves (λ d, history s0 (dev_store d)) (forget_references fate row)) as Hforget.
  { intros row d Hd. pose proof (forget_outcome fate row credential_references d) as Hf. unfold forget_references.
    destruct (for_each _ _ d) as [r d']. destruct Hf as [Hs _]. simpl. by rewrite Hs. }
  unfold mark_revoked. apply preserves_bind; [done|]. intros [row|]; [|apply preserves_ret].
  cbv zeta. repeat (apply preserves_bind; [by auto|intros _]). by auto.
Qed.

(** A call on the tables of a running agent. *)
Definition put_tables {W} (s : Store) (a : Agent W) : Agent W :=
  MkRunningAgent (put_store s (sched a)) (secrets a) (effects a) (remote a) (stop_requested a).
Lemma put_tables_db {W} s (a : Agent W) : agent_db_of (put_tables s a) = s.
Proof. reflexivity. Qed.
Lemma on_tables_state {W A} (m : SE Store A) (a : Agent W) :
  on_tables m a = let '(r, s) := m (agent_db_of a) in (r, put_tables s a).
Proof.
  unfold on_tables, on_scheduler, on_store, with_runner, with_store, agent_db_of, sch_store.
  by destruct (m (store (sch_runner (sched a)))).
Qed.

(** C25: A revocation that is interrupted anywhere after its first write is
    finished by the next start: it ends without an exception, none of the
    references is left on the identity and every secret the identity referred to
    when it was revoked is gone. *)
Theorem revocation_completes {W} (a : Agent W) row0 fate0 in0 create activate i :
  reachable (agent_db_of a) → agent_identity (agent_db_of a) = Some row0 →
  let a1 := (on_device (mark_revoked fate0 in0) a).2 in
  column "rotation_state" <$> agent_identity (agent_db_of a1) = Some (VText "revoked") →
  ∃ a2 row2, start (λ _, None) create activate i a1 = (Ok tt, a2)
    ∧ agent_identity (agent_db_of a2) = Some row2
    ∧ (∀ field, field ∈ credential_references → truthy (column field row2) = false)
    ∧ forgotten row0 (secrets a2).
Proof.
  intros Hreach Hrow a1 Hstate.
  set (d0 := MkDevice (agent_db_of a) (secrets a) (effects a)).
  pose proof (mark_revoked_outcome fate0 in0 row0 row0 d0 Hrow) as Hout.
  assert (reachable (agent_db_of a1)) as Hreach1.
  { pose proof (mark_revoked_history fate0 in0 empty_store d0 Hreach) as Hh. unfold a1, on_device.
    fold d0. by destruct (mark_revoked fate0 in0 d0) as [r d1]. }
  assert (∃ row1, agent_identity (agent_db_of a1) = Some row1 ∧ accounted row0 row1 (secrets a1)) as (row1 & Hr1 & Ha1).
  { unfold a1, on_device. fold d0. destruct (mark_revoked fate0 in0 d0) as [r d1].
    destruct Hout as (row1 & Hr1 & Ha1 & _); [by intros field; left|]. by exists row1. }
  rewrite Hr1 in Hstate. injection Hstate as Hstate. clearbody a1. clear Hout d0 Hrow Hreach a.
  unfold start. rewrite bind_state, on_tables_state, recover_interrupted_closed by apply (reachable_Inv _ Hreach1).
  cbv zeta. set (s1 := set_attempts _ _).
  assert (agent_identity s1 = Some row1) as Hs1 by (unfold s1; exact Hr1). clearbody s1.
  rewrite bind_state, on_tables_state, put_tables_db.
  assert (∃ s2, start_runtime (start_time i) (boot_id i) s1 = (Ok tt, s2) ∧ agent_identity s2 = Some row1)
    as (s2 & -> & Hs2) by (unfold start_runtime; run_tx; by eexists).
  rewrite bind_state, on_tables_state, put_tables_db. unfold identity at 1, with_connection, query. cbn [working committed].
  rewrite Hs2, Hstate. cbn [committed]. rewrite bool_decide_true by done. cbv zeta.
  set (b := put_tables s2 _). assert (agent_identity (agent_db_of b) = Some row1) as Hb by exact Hs2.
  assert (secrets b = secrets a1) as Hsb by done. clearbody b.
  destruct (existsb _ credential_references) eqn:Erefs.
  - cbn [andb]. set (d := MkDevice (agent_db_of b) (secrets b) (effects b)).
    destruct (mark_revoked_completes (identity_inputs i 0) d row1 Hb) as (d' & Ed).
    pose proof (mark_revoked_outcome (λ _, None) (identity_inputs i 0) row0 row1 d Hb) as Hout.
    rewrite Ed in Hout. destruct Hout as (row2 & Hr2 & _ & Hfin); [simpl; by rewrite Hsb|].
    destruct (Hfin eq_refl) as [Hgone Hnull]. unfold on_device. fold d. rewrite Ed. eexists _, row2.
    split; [reflexivity|]. split; [exact Hr2|]. split; [|exact Hgone].
    intros field Hf. by rewrite Hnull.
  - cbn [andb]. rewrite bool_decide_true by (right; right; left). cbn [negb]. exists b, row1. split; [done|]. split; [done|].
    assert (∀ field, field ∈ credential_references → truthy (column field row1) = false) as Hno.
    { intros field Hf. destruct (truthy (column field row1)) eqn:Et; [|done].
      assert (existsb (λ field, truthy (column field row1)) credential_references = true) as Ex; [|congruence].
      apply existsb_exists. exists field. split; [by apply list_elem_of_In|done]. }
    split; [done|]. intros field Hf Ht. rewrite Hsb. destruct (Ha1 field Hf Ht) as [E|E]; [|done].
    specialize (Hno field Hf). congruence.
Qed.
End Restart.

(** ** The end of a run *)

Section Ending.
Context `{Sha256} `{PythonText} `{UuidText} `{EnvelopeCodec} {W : Type}.

Lemma cancel_all_completes keys q :
  ∃ q', for_each keys (λ tid, with_runner (Runner.cancel tid)) q = (Ok tt, q') ∧ stopping q' = stopping q
        ∧ running q' = running q.
Proof.
  revert q. induction keys as [|k keys IH]; intros q; simpl; [by exists q|]. rewrite bind_state.
  assert (∃ q1, with_runner (Runner.cancel k) q = (Ok tt, q1) ∧ stopping q1 = stopping q ∧ running q1 = running q)
    as (q1 & -> & <- & <-).
  { unfold with_runner, Runner.cancel, token_cancel. destruct (cancellations _ !! k); by eexists. }
  apply IH.
Qed.
Lemma scheduler_shutdown_completes wait gather q :
  ∃ q', Scheduler.shutdown wait gather q = (Ok tt, q') ∧ stopping q' = true.
Proof.
  unfold Scheduler.shutdown. rewrite !bind_state. unfold get at 1. rewrite bind_state. cbn [running].
  destruct (cancel_all_completes (running q)
    (MkScheduler (sch_runner q) (running q) (incoming q) (published q) true)) as (q1 & -> & Hs & Hr).
  destruct (bool_decide (running q = [])); [by exists q1|]. rewrite bind_state. unfold with_runner at 1.
  destruct (wait (sch_runner q1)) as [pending r']. rewrite bind_state. unfold set_running at 1.
  destruct (bool_decide (pending = [])); [by eexists|]. rewrite bind_state. unfold with_runner, set_running. by eexists.
Qed.

Context (fate : nat → option exc)
  (send_create_rotation : nat → string → json → string → result json)
  (send_activate_rotation : nat → string → string → json → string → result json)
  (T : ServiceTransport W) (float_equal : json → json → bool)
  (validate_contract : string → json → result unit) (ids : list string) (probe : SE W Overrides)
  (has_scheduler : bool) (publish_ok : string → json → list (string * json) → bool) (max_concurrency : Z)
  (gather : list LocalTaskEnvelope → Runner → Runner) (wait : Runner → list string * Runner)
  (gather_cancelled : list string → Runner → Runner)
  (sleep : nat → option nat → SE (Agent W) unit) (i : RuntimeInputs).

Let run once fuel := run_agent fate send_create_rotation send_activate_rotation T float_equal validate_contract ids
  probe has_scheduler publish_ok max_concurrency gather wait gather_cancelled sleep i once fuel.

(** However a run of the agent ends once it has started (after its one
    cycle, on a stop request, or with any exception of a cycle), the agent is
    shut down: stopping was requested, the scheduler takes no more work, and the
    runtime row says so. *)
Theorem run_shuts_down once fuel a r a' :
  (start fate send_create_rotation send_activate_rotation i a).1 = Ok tt →
  run once fuel a = (r, a') → r ≠ Ok None →
  stop_requested a' = true ∧ (has_scheduler = true → stopping (sched a') = true)
  ∧ ∀ row, runtime_state (agent_db_of a') = Some row →
      rs_clean_shutdown row = true ∧ rs_stopped_at row = Some (stop_time i).
Proof.
  intros Hstart Hrun Hr. unfold run, run_agent in Hrun.
  destruct (start _ _ _ _ a) as [[[]|e] a1]; [|done]. clear Hstart.
  assert (∀ a2 : Agent W, ∃ a3 : Agent W, shutdown_agent has_scheduler wait gather_cancelled i a2 = (Ok tt, a3)
    ∧ stop_requested a3 = true ∧ (has_scheduler = true → stopping (sched a3) = true)
    ∧ ∀ row, runtime_state (agent_db_of a3) = Some row →
        rs_clean_shutdown row = true ∧ rs_stopped_at row = Some (stop_time i)) as Hshut.
  { intros a2. unfold shutdown_agent. rewrite bind_state. unfold request_stop at 1. rewrite bind_state.
    set (b := MkRunningAgent _ _ _ _ true).
    assert (∃ c, (if has_scheduler then on_scheduler (Scheduler.shutdown wait gather_cancelled) else mret tt) b = (Ok tt, c)
              ∧ stop_requested c = true ∧ (has_scheduler = true → stopping (sched c) = true)) as (c & -> & Hc & Hq).
    { destruct has_scheduler; [|by exists b]. unfold on_scheduler.
      destruct (scheduler_shutdown_completes wait gather_cancelled (sched b)) as (q' & -> & Hq). by eexists. }
    rewrite on_tables_state. unfold stop_runtime. run_tx. eexists. split; [reflexivity|]. split; [exact Hc|].
    split; [exact Hq|]. intros row. rewrite put_tables_db. simpl. destruct (runtime_state (agent_db_of c)); [|done].
    by intros [= <-]. }
  match type of Hrun with (let (_, _) := ?body in _) = _ => destruct body as [[[u|]|e] a2] end;
    [destruct (Hshut a2) as (a3 & E & Hs); rewrite E in Hrun; by injection Hrun as <- <-
    |injection Hrun as <- <-; done
    |destruct (Hshut a2) as (a3 & E & Hs); rewrite E in Hrun; by injection Hrun as <- <-].
Qed.
End Ending.

(** ** The theorems on a concrete agent *)

#[local] Existing Instances example_text example_uuid.

(** Enrolled by hand: one active secret. *)
Definition paired_store : Store :=
  (update_identity "n" [("agent_id", VText "a1"); ("active_credential_ref", VText "credential.active.c1")]
     (ensure_identity "n" "i" "d" "linux" "6" "1" "k" "n" empty_store).2).2.
Definition paired_row : gmap string sqlval := default ∅ (agent_identity paired_store).
Definition paired_agent : Agent unit :=
  MkRunningAgent (MkScheduler (MkRunner paired_store [] ∅) [] [] [] false)
    {["credential.active.c1" := "secret"]} 0 tt false.
(** Killed before the secret is deleted. *)
Definition killed_agent : Agent unit :=
  (on_device (mark_revoked (λ t, if Nat.eqb t 3 then Some CancelledError else None) example_device_inputs)
     paired_agent).2.
Definition runtime_inputs : RuntimeInputs :=
  {| recovery_time := "n"; start_time := "n"; boot_id := "b"; stop_time := "s";
     identity_inputs := λ _, example_device_inputs;
     service_inputs := λ _, {| agent_version := "1"; service_platform_id := "linux"; service_platform_version := "6";
       service_clock := "n"; new_manifest_id := "m"; store_now := λ _, "n" |};
     round_inputs := λ _, {| ingest_times := λ _, ("n", "q", "n"); queue_ids := λ _, "q"; queue_times := λ _, "n";
                             confirm_time := "n" |} |}.

Lemma paired_reachable : reachable (agent_db_of paired_agent).
Proof.
  change (agent_db_of paired_agent) with paired_store. unfold paired_store, reachable, history.
  generalize empty_store. intros s. eapply rtc_l; [|apply rtc_once]; constructor.
Qed.
Lemma paired_recorded : agent_identity (agent_db_of paired_agent) = Some paired_row.
Proof.
  change (agent_db_of paired_agent) with paired_store. unfold paired_row.
  assert (opt_is_some (agent_identity paired_store) = true) as E by (vm_compute; reflexivity).
  by destruct (agent_identity paired_store).
Qed.
Lemma killed_state : column "rotation_state" <$> agent_identity (agent_db_of killed_agent) = Some (VText "revoked").
Proof. vm_compute. reflexivity. Qed.

Lemma revocation_completes_witness :
  ∃ a2 row2, start (λ _, None) (λ _ _ _ _, Ok JNull) (λ _ _ _ _ _, Ok JNull) runtime_inputs killed_agent = (Ok tt, a2)
    ∧ agent_identity (agent_db_of a2) = Some row2
    ∧ (∀ field, field ∈ credential_references → truthy (column field row2) = false)
    ∧ forgotten paired_row (secrets a2).
Proof.
  apply (revocation_completes paired_agent paired_row
    (λ t, if Nat.eqb t 3 then Some CancelledError else None) example_device_inputs).
  - exact paired_reachable.
  - exact paired_recorded.
  - exact killed_state.
Defined.

Local Abbreviation idle_run := (run_agent (λ _, None) (λ _ _ _ _, Ok JNull) (λ _ _ _ _ _, Ok JNull)
    {| publish_manifest_request := λ _ _, raise CancelledError; heartbeat_request := λ _ _, raise CancelledError |}
    (λ _ _, false) (λ _ _, Ok tt) [] (mret []) true (λ _ _ _, true) 1 (λ _ r, r) (λ r, ([], r)) (λ _ r, r)
    (λ _ _, mret tt) runtime_inputs true 0).
Definition fresh_agent : Agent unit :=
  MkRunningAgent (MkScheduler (MkRunner empty_store [] ∅) [] [] [] false) ∅ 0 tt false.
Lemma run_shuts_down_witness :
  stop_requested (idle_run fresh_agent).2 = true
  ∧ (true = true → stopping (sched (idle_run fresh_agent).2) = true)
  ∧ ∀ row, runtime_state (agent_db_of (idle_run fresh_agent).2) = Some row →
      rs_clean_shutdown row = true ∧ rs_stopped_at row = Some (stop_time runtime_inputs).
Proof.
  apply (run_shuts_down (λ _, None) (λ _ _ _ _, Ok JNull) (λ _ _ _ _ _, Ok JNull)
    {| publish_manifest_request := λ _ _, raise CancelledError; heartbeat_request := λ _ _, raise CancelledError |}
    (λ _ _, false) (λ _ _, Ok tt) [] (mret []) true (λ _ _ _, true) 1 (λ _ r, r) (λ r, ([], r)) (λ _ r, r)
    (λ _ _, mret tt) runtime_inputs true 0 fresh_agent (idle_run fresh_agent).1).
  - vm_compute. reflexivity.
  - apply surjective_pairing.
  - vm_compute. discriminate.
Defined.
