(* ===== verification/Link.v ===== *)
(** * The agent and the backend, connected

    The two requests of [HttpAgentTransport] that the heartbeat and manifest
    services make, answered by the routes of [api/routers/agent_protocol.py]
    over the services of the backend.  A request or its reply may be lost, and
    the request may be refused before it reaches the service (credential,
    replay guard, body limit); each call happens at a time of the server's
    clock. *)

From S2P Require Export AgentServices StateTheorems ProtocolTheorems.

(** pydantic on the fields of [DesktopHeartbeatRequest] that are neither texts
    nor identifiers: an integer that is not written as one, a time in
    microseconds with its dumped text, a reason. *)
Class RequestFields := {
  lax_int : json → option Z;
  datetime_field : json → option (Z * json);
  reason_field : json → option json;
}.

(** How the agent sees an answer that is an error. *)
Definition rejected (e : exc) : exc :=
  if decide (e = AgentAuthenticationError ∨ e = NonceReplayError) then AgentAuthenticationFailed
  else TransportError "server rejected request".

(** What the network does with a request. *)
Inductive Network := RequestLost | RefusedBefore (e : exc) | ReplyLost | Answered.

Definition request_failed : exc := TransportError "HTTPS request failed".
(** [HttpAgentTransport._request] *)
Definition http_request (net : Network) (endpoint : SE AgentDb json) : SE AgentDb json := λ d,
  match net with
  | RequestLost => (Err request_failed, d)
  | RefusedBefore e => (Err (rejected e), d)
  | ReplyLost => (Err request_failed, (endpoint d).2)
  | Answered =>
      match endpoint d with
      | (Ok body, d') => (Ok body, d')
      | (Err e, d') => (Err (rejected e), d')
      end
  end.

Section Link.
Context `{Sha256} `{UuidText} `{RequestFields} (py_str : json → string) (settings : Settings)
  (contract_accepts : string → json → bool) (validate_contract : string → json → result unit).

(** ** Routes *)

Definition heartbeat_fields : list string :=
  ["schema_version"; "agent_id"; "boot_id"; "sequence"; "agent_version"; "protocol_version";
   "agent_reported_at"; "readiness"; "reason"; "manifest_id"; "manifest_digest"].

Definition str_field (kvs : list (string * json)) (name : string) : option string :=
  match dict_get kvs name with Some (JStr s) => Some s | _ => None end.
Definition literal_field (kvs : list (string * json)) (name : string) (values : list string) : option string :=
  s ← str_field kvs name; if str_in s values then Some s else None.
Definition uuid_field (kvs : list (string * json)) (name : string) : option string :=
  s ← str_field kvs name; uuid_text s.

(** [DesktopHeartbeatRequest]: no other field, and [model_dump] of it. *)
Definition parse_heartbeat (j : json) : option PresenceRow :=
  match j with
  | JObj kvs =>
      if forallb (λ kv, str_in kv.1 heartbeat_fields) kvs then
        schema ← literal_field kvs "schema_version" ["1.0.0"];
        agent ← uuid_field kvs "agent_id";
        boot ← uuid_field kvs "boot_id";
        sequence ← dict_get kvs "sequence" ≫= (λ v, match v with JInt z => Some z | v => lax_int v end);
        version ← str_field kvs "agent_version";
        protocol ← literal_field kvs "protocol_version" ["1.0.0"];
        '(reported, reported_text) ← dict_get kvs "agent_reported_at" ≫= datetime_field;
        readiness ← literal_field kvs "readiness" ["ready"; "degraded"; "blocked"];
        why ← dict_get kvs "reason" ≫= (λ v, match v with JNull => Some JNull | v => reason_field v end);
        manifest ← uuid_field kvs "manifest_id";
        digest ← str_field kvs "manifest_digest";
        if (0 <=? sequence) && len64 digest && all_chars is_lower_hex digest then
          Some {| pr_agent_id := agent; pr_boot_id := boot; pr_sequence := sequence;
                  pr_reported_at := reported; pr_manifest_id := manifest; pr_manifest_digest := digest;
                  pr_payload :=
                    JObj [("schema_version", JStr schema); ("agent_id", JStr agent); ("boot_id", JStr boot);
                          ("sequence", JInt sequence); ("agent_version", JStr version);
                          ("protocol_version", JStr protocol); ("agent_reported_at", reported_text);
                          ("readiness", JStr readiness); ("reason", why); ("manifest_id", JStr manifest);
                          ("manifest_digest", JStr digest)] |}
        else None
      else None
  | _ => None
  end.

(** [PresenceResponse] as JSON. *)
Definition presence_document (r : PresenceResponse) : json :=
  JObj [("schema_version", JStr "1.0.0"); ("accepted_sequence", JInt (accepted_sequence r));
        ("server_received_at", JStr (utc_text (server_received_at r)));
        ("presence_expires_at", JStr (utc_text (presence_expires_at r)));
        ("poll_after_seconds", JInt (poll_after_seconds r))].

(** A body the request model refuses: status 422. *)
Definition RequestInvalid : exc := DomainError "request_validation_failed".

Definition heartbeat_route (now : Z) (agent_id : string) (body : json) : SE AgentDb json :=
  match parse_heartbeat body with
  | None => raise RequestInvalid
  | Some q =>
      response ← Protocol.heartbeat settings contract_accepts now agent_id q;
      mret (presence_document response)
  end.

(** [payload: dict[str, Any]]: any object. *)
Definition manifest_route (now : Z) (agent_id : string) (body : json) : SE AgentDb json :=
  match body with
  | JObj _ => publish_manifest py_str contract_accepts now agent_id body
  | _ => raise RequestInvalid
  end.

(** The transport at one moment: the agent's requests are made with its own
    credential, so the principal is the agent. *)
Definition http_transport (agent_id : string) (now : Z) (net : Network) : ServiceTransport AgentDb :=
  {| publish_manifest_request := λ _ payload,
       lift (validate_contract "capability-manifest.schema.json" payload) ;;
       http_request net (manifest_route now agent_id payload);
     heartbeat_request := λ _ payload,
       lift (validate_contract "desktop-heartbeat.schema.json" payload) ;;
       http_request net (heartbeat_route now agent_id payload) |}.
End Link.
