(* ===== verification/LinkTheorems.v ===== *)
(** * What the agent and the backend agree on

    Whatever requests and replies are lost, the presence the backend keeps of an
    agent is the heartbeat the agent last saw acknowledged, or the one it still
    holds as pending. *)

From S2P Require Export AgentIdentityTheorems Link.

Section Agreement.
Context `{Sha256} `{PythonText} `{UuidText} `{RequestFields} (py_str : json → string) (settings : Settings)
  (contract_accepts : string → json → bool) (validate_contract : string → json → result unit)
  (float_equal : json → json → bool) (agent_id : string).

(** ** Requests as they are sent and as they are stored *)

(** An object all of whose values are scalars, with distinct keys. *)
Definition flat (kvs : list (string * json)) : Prop :=
  well_formed (JObj kvs) = true ∧ Forall (λ kv, sorted_json kv.2 = kv.2) kvs.

Lemma dict_get_perm (kvs kvs' : list (string * json)) k :
  NoDup (map fst kvs) → kvs ≡ₚ kvs' → dict_get kvs k = dict_get kvs' k.
Proof.
  unfold dict_get. intros Hn Hp. induction Hp as [|x l l' Hp IH|x y l|l1 l2 l3 Hp1 IH1 Hp2 IH2]; simpl in *.
  - done.
  - destruct (String.eqb x.1 k); [done|]. apply IH. by apply NoDup_cons_1_2 in Hn.
  - destruct (String.eqb_spec y.1 k) as [Ey|]; destruct (String.eqb_spec x.1 k) as [Ex|]; try done.
    apply NoDup_cons in Hn as [Hn _]. exfalso. apply Hn. rewrite Ex, <- Ey. left.
  - rewrite IH1 by done. apply IH2. by rewrite <- Hp1.
Qed.

Lemma sorted_flat kvs : flat kvs → sorted_json (JObj kvs) = JObj (sort_kvs kvs).
Proof.
  intros [_ Hf]. cbn [sorted_json]. do 2 f_equal. induction Hf as [|kv kvs Hkv Hf IH]; [done|].
  simpl. by rewrite Hkv, IH; destruct kv.
Qed.

Lemma flat_parse kvs : flat kvs → parse_heartbeat (JObj (sort_kvs kvs)) = parse_heartbeat (JObj kvs).
Proof.
  intros [Hw _]. cbn [well_formed] in Hw. apply andb_true_iff in Hw as [Hn _]. apply bool_decide_eq_true in Hn.
  unfold parse_heartbeat, literal_field, uuid_field, str_field.
  assert (∀ k, dict_get (sort_kvs kvs) k = dict_get kvs k) as Hg.
  { intros k. symmetry. apply dict_get_perm; [done|]. by rewrite sort_kvs_perm. }
  rewrite !Hg.
  assert (forallb (λ kv, str_in kv.1 heartbeat_fields) (sort_kvs kvs)
          = forallb (λ kv, str_in kv.1 heartbeat_fields) kvs) as ->; [|done].
  apply eq_true_iff_eq. rewrite !forallb_forall. setoid_rewrite <- list_elem_of_In.
  by setoid_rewrite sort_kvs_perm.
Qed.

Lemma flat_stored kvs : flat kvs → json_loads (canonical_json (JObj kvs)) = Some (JObj (sort_kvs kvs)).
Proof.
  intros Hf. rewrite json_loads_canonical by apply Hf. f_equal. by apply sorted_flat.
Qed.

Lemma parse_heartbeat_sequence kvs q n :
  parse_heartbeat (JObj kvs) = Some q → dict_get kvs "sequence" = Some (JInt n) → pr_sequence q = n.
Proof.
  unfold parse_heartbeat. destruct (forallb _ kvs); [|done]. intros E Hn. rewrite Hn in E. simpl in E.
  repeat (apply bind_Some in E as (? & ? & E)). simplify_eq/=.
  repeat case_match; try discriminate. repeat (apply bind_Some in E as (? & ? & E)).
  repeat case_match; try discriminate. by simplify_eq/=.
Qed.

(** ** The heartbeat route *)

(** The backend's presence of the agent is the heartbeat of this body. *)
Definition delivered (body : json) (d : AgentDb) : Prop :=
  ∃ q p, parse_heartbeat body = Some q ∧ current_presence agent_id d = Some p
         ∧ ap_boot_id p = pr_boot_id q ∧ ap_sequence p = pr_sequence q
         ∧ ap_payload_digest p = sha256_hex (canonical_json (pr_payload q)).

Lemma heartbeat_route_outcome now body d :
  let '(r, d') := heartbeat_route settings contract_accepts now agent_id body d in
  match r with
  | Err _ => d' = d
  | Ok response => delivered body d' ∧
      ∃ q, parse_heartbeat body = Some q ∧ int_at "accepted_sequence" response = Ok (pr_sequence q)
  end.
Proof.
  unfold heartbeat_route. destruct (parse_heartbeat body) as [q|] eqn:Ep; [|done].
  unfold Protocol.heartbeat, mbind, SE_bind, raise_if. destruct (negb _); simpl; [done|].
  pose proof (presence_outcome settings now agent_id KIND_DESKTOP q 90 30 d) as Ho.
  destruct (presence _ _ _ _ _ _ _ _) as [[response|e] d']; [|done].
  destruct Ho as (Hs & (p & Hp & Hb & Hq & Hd & _) & _). split; [by exists q, p|].
  exists q. split; [done|]. unfold int_at, at_key. simpl. by rewrite Hs.
Qed.

(** What a request leaves behind, whatever the network does with it. *)
Lemma heartbeat_request_outcome now net credential body d :
  let '(r, d') := heartbeat_request
    (http_transport py_str settings contract_accepts validate_contract agent_id now net) credential body d in
  match r with
  | Err _ => d' = d ∨ delivered body d'
  | Ok response => delivered body d' ∧
      ∃ q, parse_heartbeat body = Some q ∧ int_at "accepted_sequence" response = Ok (pr_sequence q)
  end.
Proof.
  unfold heartbeat_request, http_transport, mbind, SE_bind, lift. cbv beta iota.
  destruct (validate_contract _ _); [|by left].
  pose proof (heartbeat_route_outcome now body d) as Ho.
  destruct net; simpl; try by left.
  - destruct (heartbeat_route _ _ _ _ _ _) as [[]]; simpl in *; [right|left]; naive_solver.
  - destruct (heartbeat_route _ _ _ _ _ _) as [[]]; [done|by left].
Qed.

(** ** Agreement *)

(** The presence of the backend is the last heartbeat the agent saw
    acknowledged. *)
Definition acknowledged (acked : Z) (d : AgentDb) : Prop :=
  match current_presence agent_id d with
  | None => acked = -1
  | Some p => ap_sequence p = acked
  end.

Definition in_step (w : Linked AgentDb) : Prop :=
  match heartbeat_slot (agent_store w) with
  | None => current_presence agent_id (server w) = None
  | Some (None, text, _, acked) => text = None ∧ acknowledged acked (server w)
  | Some (Some n, text, _, acked) =>
      n = acked + 1 ∧ ∃ kvs, text = Some (canonical_json (JObj kvs)) ∧ flat kvs
        ∧ dict_get kvs "sequence" = Some (JInt n)
        ∧ (acknowledged acked (server w) ∨ delivered (JObj kvs) (server w))
  end.

(** The end of [send], once there is a payload. *)
Definition deliver_heartbeat (i : ServiceInputs) (now : Z) (net : Network) (credential : string) (payload : json)
    : SE (Linked AgentDb) json :=
  response ← on_server (heartbeat_request
    (http_transport py_str settings contract_accepts validate_contract agent_id now net) credential payload);
  accepted ← lift (int_at "accepted_sequence" response);
  sequence ← lift (int_at "sequence" payload);
  raise_if (negb (accepted =? sequence)) (RuntimeError "server acknowledged a different heartbeat sequence") ;;
  on_agent (confirm_heartbeat (store_now i 1) sequence) ;;
  mret payload.

Lemma deliver_in_step i now net credential kvs body s d n h acked :
  heartbeat_slot s = Some (Some n, Some (canonical_json (JObj kvs)), h, acked) →
  n = acked + 1 → flat kvs → dict_get kvs "sequence" = Some (JInt n) →
  acknowledged acked d ∨ delivered (JObj kvs) d →
  body = JObj kvs ∨ body = JObj (sort_kvs kvs) →
  in_step (deliver_heartbeat i now net credential body (MkLinked s d)).2.
Proof.
  intros Hslot Hn Hflat Hseq Hd Hbody. unfold deliver_heartbeat, mbind, SE_bind, on_server. cbn [agent_store server].
  assert (parse_heartbeat body = parse_heartbeat (JObj kvs)) as Hparse
    by (destruct Hbody as [->| ->]; [done|by apply flat_parse]).
  assert (int_at "sequence" body = Ok n) as Hbs.
  { pose proof Hflat as [Hw _]. cbn [well_formed] in Hw. apply andb_true_iff in Hw as [Hu _]. apply bool_decide_eq_true in Hu.
    unfold int_at, at_key. destruct Hbody as [->| ->]; [by rewrite Hseq|].
    by rewrite <- (dict_get_perm kvs) by (done || by rewrite sort_kvs_perm); rewrite Hseq. }
  assert (∀ d', d' = d ∨ delivered body d' → acknowledged acked d' ∨ delivered (JObj kvs) d') as Hkeep.
  { intros d' [->|(q & p & Hq & Hrest)]; [done|]. right. exists q, p. by rewrite <- Hparse. }
  assert (∀ d', d' = d ∨ delivered body d' → in_step (MkLinked s d')) as Hstop.
  { intros d' Hd'. unfold in_step. cbn [agent_store server]. rewrite Hslot. split; [done|].
    exists kvs. split_and!; try done. by apply Hkeep. }
  pose proof (heartbeat_request_outcome now net credential body d) as Ho.
  destruct (heartbeat_request _ _ _ _) as [[response|e] d']; [|by apply Hstop].
  destruct Ho as (Hdel & q & Hq & Hacc). unfold lift at 1. rewrite Hacc. unfold lift at 1. rewrite Hbs.
  rewrite Hparse in Hq. rewrite (parse_heartbeat_sequence _ _ _ Hq Hseq), Z.eqb_refl. simpl.
  unfold heartbeat_slot in Hslot. destruct (runtime_state s) as [r|] eqn:Er; [|done]. injection Hslot as E1 E2 E3 E4.
  unfold on_agent, confirm_heartbeat. run_tx. cbn [agent_store server]. rewrite Er, E1, bool_decide_true by done. simpl.
  unfold in_step, heartbeat_slot. simpl. split; [done|]. unfold acknowledged.
  destruct Hdel as (q' & p & Hq' & -> & _ & -> & _). rewrite Hparse, Hq in Hq'. injection Hq' as <-.
  by apply (parse_heartbeat_sequence _ _ _ Hq Hseq).
Qed.

Lemma heartbeat_payload_flat i row r m : ∃ kvs,
  heartbeat_payload i row r m = JObj kvs ∧ flat kvs
  ∧ dict_get kvs "sequence" = Some (JInt (rs_heartbeat_acked_sequence r + 1)).
Proof.
  unfold heartbeat_payload. eexists. split; [reflexivity|]. split; [|reflexivity].
  split; [vm_compute; reflexivity|repeat constructor].
Qed.

Definition here (now : Z) (net : Network) : ServiceTransport AgentDb :=
  http_transport py_str settings contract_accepts validate_contract agent_id now net.

(** Reads of the agent's store. *)
Definition newest_confirmed (s : Store) : option ManifestRow :=
  head (order_by (λ a b, by_sequence b a) (select cm_confirmed (capability_manifests s))).
Lemma read_identity s (d : AgentDb) :
  on_agent identity (MkLinked s d) = (Ok (agent_identity s), MkLinked s d).
Proof. reflexivity. Qed.
Lemma read_runtime s (d : AgentDb) :
  on_agent get_runtime_state (MkLinked s d) = (Ok (runtime_state s), MkLinked s d).
Proof. reflexivity. Qed.
Lemma read_confirmed s (d : AgentDb) :
  on_agent confirmed_manifest (MkLinked s d) = (Ok (newest_confirmed s), MkLinked s d).
Proof. reflexivity. Qed.
Lemma read_pending_heartbeat s (d : AgentDb) :
  on_agent pending_heartbeat (MkLinked s d) =
    (match runtime_state s with
     | Some r => match rs_heartbeat_pending_payload r with
                 | Some text => match json_loads text with
                                | Some j => Ok (Some j) | None => Err (ValueError "JSONDecodeError") end
                 | None => Ok None end
     | None => Ok None end, MkLinked s d).
Proof.
  unfold on_agent, pending_heartbeat, get_runtime_state. run_tx. cbn [agent_store server].
  destruct (runtime_state s) as [r|]; [|done].
  destruct (rs_heartbeat_pending_payload r); [|done]. by destruct (json_loads _).
Qed.

(** A new heartbeat is pending before it is sent; otherwise nothing changed. *)
Lemma prepare_outcome i s (d : AgentDb) r :
  runtime_state s = Some r → rs_heartbeat_pending_sequence r = None →
  match prepare_heartbeat validate_contract i (MkLinked s d) with
  | (Ok payload, w) => ∃ row m s1, payload = heartbeat_payload i row r m ∧ w = MkLinked s1 d
      ∧ heartbeat_slot s1 = Some (Some (rs_heartbeat_acked_sequence r + 1), Some (canonical_json payload),
                                  Some (digest payload), rs_heartbeat_acked_sequence r)
  | (Err _, w) => w = MkLinked s d
  end.
Proof.
  intros Er Ep. unfold prepare_heartbeat.
  rewrite bind_state, read_identity, bind_state, read_runtime, bind_state, read_confirmed, Er.
  destruct (agent_identity s) as [row|]; [|done]. destruct (newest_confirmed s) as [m|]; [|done].
  rewrite bind_state. unfold lift. destruct (validate_contract _ _) as [[]|]; [|done].
  rewrite bind_state. unfold on_agent, persist_heartbeat. run_tx. cbn [agent_store server].
  rewrite Er, Ep. simpl. rewrite Er. simpl. eexists row, m, _. split_and!; [done|done|]. reflexivity.
Qed.

Lemma send_in_step i now net credential w :
  in_step w → in_step (send (here now net) validate_contract i credential w).2.
Proof.
  intros Hw. destruct w as [s d]. unfold send. rewrite bind_state, read_pending_heartbeat.
  pose proof Hw as Hw'. unfold in_step, heartbeat_slot in Hw'. cbn [agent_store server] in Hw'.
  destruct (runtime_state s) as [r|] eqn:Er; cbn -[canonical_json] in Hw'.
  2:{ rewrite bind_state. unfold prepare_heartbeat.
      rewrite bind_state, read_identity, bind_state, read_runtime, bind_state, read_confirmed, Er.
      by destruct (agent_identity s). }
  destruct (rs_heartbeat_pending_sequence r) as [n|] eqn:Eq.
  - destruct Hw' as (Hn & kvs & Htext & Hflat & Hseq & Hd). rewrite Htext, flat_stored by done.
    rewrite bind_state.
    assert (json_truthy (JObj (sort_kvs kvs)) = true) as ->.
    { simpl. apply negb_true_iff, bool_decide_eq_false. rewrite (Permutation_length (sort_kvs_perm kvs)).
      by destruct kvs. }
    cbn [mret SE_ret]. eapply (deliver_in_step i now net credential kvs); [|done..|by right].
    unfold heartbeat_slot. rewrite Er. simpl. by rewrite Eq, Htext.
  - destruct Hw' as [-> Hd]. rewrite bind_state. pose proof (prepare_outcome i s d r Er Eq) as Ho.
    destruct (prepare_heartbeat _ _ _) as [[payload|e] w]; [|by subst w].
    destruct Ho as (row & m & s1 & -> & -> & Hslot).
    destruct (heartbeat_payload_flat i row r m) as (kvs & Ekvs & Hflat & Hseq). rewrite Ekvs in *.
    eapply (deliver_in_step i now net credential kvs); [exact Hslot|done|done|done|by left|by left].
Qed.

(** ** Everything else the two do *)

Lemma in_step_same s s' d d' :
  heartbeat_slot s' = heartbeat_slot s → current_presence agent_id d' = current_presence agent_id d →
  in_step (MkLinked s d) → in_step (MkLinked s' d').
Proof.
  intros Hs Hd. unfold in_step, acknowledged, delivered. cbn [agent_store server]. by rewrite Hs, Hd.
Qed.
(** What only depends on the heartbeat state and on the presence. *)
Section Unaffected.
Context (P : Linked AgentDb → Prop).
Context (Psame : ∀ s s' d d', heartbeat_slot s' = heartbeat_slot s →
  current_presence agent_id d' = current_presence agent_id d → P (MkLinked s d) → P (MkLinked s' d')).

Lemma on_agent_keeps {A} (m : SE Store A) :
  (∀ s, heartbeat_slot (m s).2 = heartbeat_slot s) → preserves P (on_agent m).
Proof.
  intros Hm [s d] Hw. unfold on_agent. cbn [agent_store server]. specialize (Hm s).
  destruct (m s) as [x s']. by apply (Psame s s' d d).
Qed.
Lemma on_server_keeps {A} (m : SE AgentDb A) :
  (∀ d, current_presence agent_id (m d).2 = current_presence agent_id d) → preserves P (on_server m).
Proof.
  intros Hm [s d] Hw. unfold on_server. cbn [agent_store server]. specialize (Hm d).
  destruct (m d) as [x d']. by apply (Psame s s d d').
Qed.

Lemma publish_manifest_presences now body d :
  presences (publish_manifest py_str contract_accepts now agent_id body d).2 = presences d.
Proof.
  unfold publish_manifest, audit_incompatibility, AuditTrail.write_audit. run_session.
  repeat (case_match; simplify_eq/=; try done).
Qed.
Lemma publish_request_keeps now net credential body :
  preserves P (on_server (publish_manifest_request (here now net) credential body)).
Proof.
  apply on_server_keeps. intros d. unfold publish_manifest_request, here, http_transport. rewrite bind_state.
  unfold lift. destruct (validate_contract _ _); [|done].
  assert (current_presence agent_id (manifest_route py_str contract_accepts now agent_id body d).2
          = current_presence agent_id d) as Hroute.
  { unfold current_presence, manifest_route. destruct body; try done. by rewrite publish_manifest_presences. }
  destruct net; simpl; try done. by destruct (manifest_route _ _ _ _ _ _) as [[] d'].
Qed.

Lemma confirm_manifest_slot t1 t2 mid n sd s :
  heartbeat_slot (confirm_manifest t1 t2 mid n sd s).2 = heartbeat_slot s.
Proof.
  unfold confirm_manifest, heartbeat_slot. run_tx. repeat (tx_case; try done); simplify_eq/=; by destruct (runtime_state s).
Qed.
Lemma persist_manifest_slot t mid n body s : heartbeat_slot (persist_manifest t mid n body s).2 = heartbeat_slot s.
Proof.
  assert (∀ v, heartbeat_slot s = v → heartbeat_slot (persist_manifest t mid n body s).2 = v) as Hf
    by (intros v; by_frame).
  by apply Hf.
Qed.

Lemma publish_payload_keeps i now net credential payload :
  preserves P (publish_payload (here now net) i credential payload).
Proof.
  unfold publish_payload.
  pose proof (publish_request_keeps now net credential (JObj payload)).
  assert (∀ a b c, preserves P (on_agent (confirm_manifest (store_now i 1) (store_now i 2) a b c)))
    by (intros; apply on_agent_keeps; intros; apply confirm_manifest_slot).
  preserve.
Qed.
(** Take a service call apart, statement by statement. *)
Ltac service :=
  repeat (first [ solve [preserve] | apply preserves_bind; [|intros ?] | progress case_match ]).

Lemma enrolled_runtime_keeps : preserves P enrolled_runtime.
Proof.
  unfold enrolled_runtime.
  assert (preserves P (on_agent identity)) by (by apply on_agent_keeps).
  assert (preserves P (on_agent get_runtime_state)) by (by apply on_agent_keeps).
  service.
Qed.

Lemma ensure_published_keeps ids probed i now net credential :
  preserves P (ensure_published (here now net) float_equal validate_contract ids (λ d, (probed, d)) i credential).
Proof.
  unfold ensure_published, entries_async.
  pose proof (λ p, publish_payload_keeps i now net credential p) as Hpub. pose proof enrolled_runtime_keeps.
  assert (preserves P (on_agent pending_manifest)) by (by apply on_agent_keeps).
  assert (preserves P (on_agent confirmed_manifest)) by (by apply on_agent_keeps).
  assert (preserves P (on_server (λ d : AgentDb, (probed, d)))) by (by apply on_server_keeps).
  assert (∀ a b c, preserves P (on_agent (persist_manifest (store_now i 0) a b c)))
    by (intros; apply on_agent_keeps; intros; apply persist_manifest_slot).
  service.
Qed.
End Unaffected.

(** ** Histories *)

(** One thing that happens to the agent and its backend: a heartbeat or a
    manifest is sent, at any time and whatever the network does; the agent
    restarts or stops; or anything happens that touches neither the heartbeat
    state of the agent nor the presence of this agent.  [at_time] is when
    heartbeats are sent. *)
Inductive link_step (at_time : Z → Prop) (w : Linked AgentDb) : Linked AgentDb → Prop :=
  | link_send i now net credential : at_time now →
      link_step at_time w (send (here now net) validate_contract i credential w).2
  | link_publish ids probed i now net credential :
      link_step at_time w (ensure_published (here now net) float_equal validate_contract ids (λ d, (probed, d)) i credential w).2
  | link_start t boot_id : link_step at_time w (on_agent (start_runtime t boot_id) w).2
  | link_stop t : link_step at_time w (on_agent (stop_runtime t) w).2
  | link_elsewhere s' d' :
      heartbeat_slot s' = heartbeat_slot (agent_store w) →
      current_presence agent_id d' = current_presence agent_id (server w) → link_step at_time w (MkLinked s' d').

Lemma link_step_in_step at_time w w' : link_step at_time w w' → in_step w → in_step w'.
Proof.
  intros Hstep Hw. destruct Hstep.
  - by apply send_in_step.
  - apply ensure_published_keeps; [exact in_step_same|done].
  - destruct w as [s d]. unfold on_agent, start_runtime. run_tx. cbn [agent_store server snd].
    unfold in_step, heartbeat_slot in *. cbn -[canonical_json] in *. destruct (runtime_state s); [done|].
    split; [done|]. unfold acknowledged. by rewrite Hw.
  - apply on_agent_keeps; [exact in_step_same| |done]. intros s. unfold heartbeat_slot. simpl. by destruct (runtime_state s).
  - destruct w as [s d]. by apply (in_step_same s s' d d').
Qed.

(** C23: An agent that starts with a fresh store and a backend that has seen no
    presence of it stay in step, whatever requests and replies are lost and
    however often the agent restarts: the presence of the backend is the last
    heartbeat the agent saw acknowledged, or exactly the one that is pending on
    the agent; so the backend never takes a pending heartbeat for an old one. *)
Theorem presence_in_step w0 w text hash n acked q body :
  runtime_state (agent_store w0) = None → current_presence agent_id (server w0) = None →
  rtc (link_step (λ _, True)) w0 w →
  heartbeat_slot (agent_store w) = Some (Some n, Some text, hash, acked) →
  json_loads text = Some body → parse_heartbeat body = Some q →
  pr_sequence q = acked + 1
  ∧ sequence_verdict (sha256_hex (canonical_json (pr_payload q))) q (current_presence agent_id (server w)) ≠ Stale
  ∧ (current_presence agent_id (server w) = None ∧ acked = -1
     ∨ ∃ p, current_presence agent_id (server w) = Some p
            ∧ (ap_sequence p = acked ∨ ap_sequence p = acked + 1 ∧ delivered body (server w))).
Proof.
  intros Hr Hp Hsteps Hslot Hbody Hq.
  assert (in_step w) as Hw.
  { assert (in_step w0) as Hw0 by (unfold in_step, heartbeat_slot; by rewrite Hr).
    clear -Hsteps Hw0. induction Hsteps; eauto using link_step_in_step. }
  unfold in_step in Hw. rewrite Hslot in Hw. destruct Hw as (-> & kvs & Htext & Hflat & Hseq & Hd).
  assert (text = canonical_json (JObj kvs)) as -> by congruence. rewrite flat_stored in Hbody by done. injection Hbody as <-.
  rewrite flat_parse in Hq by done. pose proof (parse_heartbeat_sequence _ _ _ Hq Hseq) as Hn.
  split; [done|].
  destruct Hd as [Ha|(q' & p & Hq' & Hp' & Hb & Hs & Hdig)].
  - unfold acknowledged in Ha. destruct (current_presence agent_id (server w)) as [p|].
    + split; [|right; exists p; by split; [|left]]. unfold sequence_verdict.
      destruct (String.eqb _ _); [|done]. rewrite Hn, (proj2 (Z.ltb_ge _ _)) by lia.
      by rewrite (proj2 (Z.eqb_neq _ _)) by lia.
    + split; [done|by left].
  - rewrite Hq in Hq'. injection Hq' as <-. rewrite Hp'. split.
    + unfold sequence_verdict. by rewrite Hb, String.eqb_refl, Hs, Z.ltb_irrefl, Z.eqb_refl, Hdig, String.eqb_refl.
    + right. exists p. split; [done|]. right. split; [congruence|]. exists q, p. by rewrite flat_parse.
Qed.

(** ** A heartbeat that got too old *)

Lemma heartbeat_route_stale now body q d :
  parse_heartbeat body = Some q → seconds (agent_clock_skew_seconds settings) < Z.abs (now - pr_reported_at q) →
  ∃ e, heartbeat_route settings contract_accepts now agent_id body d = (Err e, d).
Proof.
  intros Hq Hold. pose proof (heartbeat_route_outcome now body d) as Ho.
  assert (is_ok (heartbeat_route settings contract_accepts now agent_id body d).1 = false) as Hno.
  { unfold heartbeat_route. rewrite Hq, bind_state. unfold Protocol.heartbeat. rewrite bind_state.
    unfold raise_if at 1. destruct (negb _); [done|]. unfold presence. run_session.
    destruct (negb _); [done|]. by rewrite (proj2 (Z.ltb_lt _ _) Hold). }
  destruct (heartbeat_route _ _ _ _ _ _) as [[r|e] d']; [done|]. exists e. by subst d'.
Qed.

Lemma stale_send_stuck i now net credential s d n text hash acked body q :
  heartbeat_slot s = Some (Some n, Some text, hash, acked) → json_loads text = Some body →
  parse_heartbeat body = Some q → seconds (agent_clock_skew_seconds settings) < Z.abs (now - pr_reported_at q) →
  ∃ e, send (here now net) validate_contract i credential (MkLinked s d) = (Err e, MkLinked s d).
Proof.
  intros Hslot Hbody Hq Hold. unfold send. rewrite bind_state, read_pending_heartbeat.
  unfold heartbeat_slot in Hslot. destruct (runtime_state s) as [r|]; [|done].
  injection Hslot as E1 E2 E3 E4. rewrite E2, Hbody, bind_state.
  assert (json_truthy body = true) as ->.
  { unfold parse_heartbeat in Hq. by destruct body as [| | | | | |[|]]. }
  cbn [mret SE_ret]. rewrite bind_state. unfold on_server. cbn [agent_store server].
  assert (∃ e, heartbeat_request (here now net) credential body d = (Err e, d)) as [e ->]; [|by exists e].
  destruct (heartbeat_route_stale now body q d Hq Hold) as [e Hr].
  unfold here, heartbeat_request, http_transport. rewrite bind_state. unfold lift.
  destruct (validate_contract _ _); [|by eexists]. unfold http_request. rewrite Hr. destruct net; by eexists.
Qed.

(** C24: Once the pending heartbeat of an agent is older than the clock skew the
    backend allows, no heartbeat is ever accepted again: every later attempt
    raises and changes nothing on either side, and neither a restart, nor a
    manifest, nor the network, nor anything that leaves the heartbeat state alone
    takes it away. *)
Theorem stale_heartbeat_stuck w w' n text hash acked body q :
  heartbeat_slot (agent_store w) = Some (Some n, Some text, hash, acked) → json_loads text = Some body →
  parse_heartbeat body = Some q →
  rtc (link_step (λ now, pr_reported_at q + seconds (agent_clock_skew_seconds settings) < now)) w w' →
  heartbeat_slot (agent_store w') = heartbeat_slot (agent_store w)
  ∧ ∀ i now net credential, pr_reported_at q + seconds (agent_clock_skew_seconds settings) < now →
      ∃ e, send (here now net) validate_contract i credential w' = (Err e, w').
Proof.
  intros Hslot Hbody Hq Hsteps.
  assert (∀ w i now net credential, heartbeat_slot (agent_store w) = Some (Some n, Some text, hash, acked) →
    pr_reported_at q + seconds (agent_clock_skew_seconds settings) < now →
    ∃ e, send (here now net) validate_contract i credential w = (Err e, w)) as Hsend.
  { intros [s d] i now net credential Hs Hlate. eapply stale_send_stuck; [exact Hs|exact Hbody|exact Hq|lia]. }
  assert (heartbeat_slot (agent_store w') = heartbeat_slot (agent_store w)) as Hkeep; [|split; [exact Hkeep|]].
  2:{ intros i now net credential. apply Hsend. congruence. }
  rewrite Hslot. induction Hsteps as [|w w1 w' Hstep Hsteps IH]; [done|]. apply IH. clear IH Hsteps w'.
  destruct Hstep as [i now net credential Hlate|ids probed i now net credential|t boot|t|s' d' Es Ed].
  - by destruct (Hsend w i now net credential Hslot Hlate) as [e ->].
  - apply (ensure_published_keeps (λ w, heartbeat_slot (agent_store w) = Some (Some n, Some text, hash, acked)));
      [|done]. intros s s' d d' Es _. simpl. by rewrite Es.
  - destruct w as [s d]. unfold on_agent, start_runtime, heartbeat_slot in *. run_tx. cbn in *.
    by destruct (runtime_state s).
  - destruct w as [s d]. unfold on_agent, stop_runtime, heartbeat_slot in *. run_tx. cbn in *.
    by destruct (runtime_state s).
  - simpl. congruence.
Qed.
End Agreement.

(** ** The theorems on a concrete agent *)

Definition example_fields : RequestFields :=
  {| lax_int := λ _, None;
     datetime_field := λ j, match j with
       | JStr s => if String.eqb s "2026-01-01T00:00:00Z" then Some (0, JStr s) else None
       | _ => None end;
     reason_field := λ _, None |}.
#[local] Existing Instances example_text example_uuid example_fields.

Definition linked_id : string := "00000000-0000-4000-8000-00000000000a".
Definition linked_inputs : ServiceInputs :=
  {| agent_version := "0.1.0"; service_platform_id := "linux"; service_platform_version := "6";
     service_clock := "2026-01-01T00:00:00Z"; new_manifest_id := "00000000-0000-4000-8000-00000000000b";
     store_now := λ _, "2026-01-01T00:00:00Z" |}.
Definition linked_manifest : ManifestRow :=
  MkManifest "00000000-0000-4000-8000-00000000000b" 0 "{}" (pad64 "{}") (Some (pad64 "0")) true "n" (Some "n").
(** Enrolled, with a confirmed manifest, never started. *)
Definition enrolled_store : Store :=
  set_manifests [linked_manifest] (set_identity (Some {["agent_id" := VText linked_id]}) empty_store).
Definition linked_fresh : Linked AgentDb := MkLinked empty_store agent_db.
Definition linked_started : Linked AgentDb :=
  (on_agent (start_runtime "n" "00000000-0000-4000-8000-00000000000c") (MkLinked enrolled_store agent_db)).2.
Definition linked_here : Z → Network → ServiceTransport AgentDb :=
  here (λ _, "x") example_settings (λ _ _, true) (λ _ _, Ok tt) linked_id.
(** The first heartbeat is lost on its way. *)
Definition linked_pending : Linked AgentDb :=
  (send (linked_here 0 RequestLost) (λ _ _, Ok tt) linked_inputs "credential" linked_started).2.
Definition linked_text : string :=
  match heartbeat_slot (agent_store linked_pending) with Some (_, Some text, _, _) => text | _ => "none" end.
Definition linked_hash : option string :=
  match heartbeat_slot (agent_store linked_pending) with Some (_, _, hash, _) => hash | _ => None end.
Definition linked_body : json := default JNull (json_loads linked_text).
Definition linked_request : PresenceRow :=
  default {| pr_agent_id := "a"; pr_boot_id := "b"; pr_sequence := 7; pr_reported_at := 0; pr_manifest_id := "m";
             pr_manifest_digest := "d"; pr_payload := JNull |} (parse_heartbeat linked_body).

Lemma linked_history :
  rtc (link_step (λ _, "x") example_settings (λ _ _, true) (λ _ _, Ok tt) (λ _ _, false) linked_id (λ _, True))
    linked_fresh linked_pending.
Proof.
  eapply rtc_l; [apply (link_elsewhere _ _ _ _ _ _ _ _ enrolled_store agent_db); reflexivity|].
  apply rtc_l with linked_started; [apply link_start|]. apply rtc_once.
  unfold linked_pending, linked_here. generalize linked_started. intros w. by apply link_send.
Qed.
Lemma linked_slot :
  heartbeat_slot (agent_store linked_pending) = Some (Some 0, Some linked_text, linked_hash, -1).
Proof. vm_compute. reflexivity. Qed.
Lemma linked_loads : json_loads linked_text = Some linked_body.
Proof. vm_compute. reflexivity. Qed.
Lemma linked_parse : parse_heartbeat linked_body = Some linked_request.
Proof. vm_compute. reflexivity. Qed.

Lemma presence_in_step_witness :
  sequence_verdict (sha256_hex (canonical_json (pr_payload linked_request))) linked_request
    (current_presence linked_id (server linked_pending)) ≠ Stale.
Proof.
  apply (presence_in_step (λ _, "x") example_settings (λ _ _, true) (λ _ _, Ok tt) (λ _ _, false) linked_id
           linked_fresh linked_pending linked_text linked_hash 0 (-1) linked_request linked_body).
  - reflexivity.
  - reflexivity.
  - exact linked_history.
  - exact linked_slot.
  - exact linked_loads.
  - exact linked_parse.
Defined.

Lemma stale_heartbeat_stuck_witness :
  ∃ e, send (linked_here 1000000000 Answered) (λ _ _, Ok tt) linked_inputs "credential" linked_pending
       = (Err e, linked_pending).
Proof.
  apply (stale_heartbeat_stuck (λ _, "x") example_settings (λ _ _, true) (λ _ _, Ok tt) (λ _ _, false) linked_id
           linked_pending linked_pending 0 linked_text linked_hash (-1) linked_body linked_request).
  - exact linked_slot.
  - exact linked_loads.
  - exact linked_parse.
  - apply rtc_refl.
  - vm_compute. reflexivity.
Defined.
