(* ===== verification/Controller.v ===== *)
(** * The Windows network controller

    [platforms/windows/network_controller.py]: connecting, disconnecting and
    scanning on behalf of a local administrator, with every intent in the journal
    of Windows operations before a command is issued, rollback to the previous
    profile, and the reconciliation of what a crash left behind.  The native
    Wi-Fi API is a record of effects on a world of any type; each of them may
    raise, be cancelled or time out.  The commands issued are logged in the
    order of the calls. *)

From Stdlib Require Import Ascii.
From S2P Require Export AgentServices StoreWindows.

(** ** Interfaces and policy *)

(** [value.strip(chars)] for one-byte characters. *)
Fixpoint lstrip_chars (chars : list ascii) (s : string) : string :=
  match s with
  | String c s' => if existsb (Ascii.eqb c) chars then lstrip_chars chars s' else s
  | EmptyString => EmptyString
  end.
Fixpoint rstrip_chars (chars : list ascii) (s : string) : string :=
  match s with
  | String c s' =>
      match rstrip_chars chars s' with
      | EmptyString => if existsb (Ascii.eqb c) chars then EmptyString else String c EmptyString
      | t => String c t
      end
  | EmptyString => EmptyString
  end.
Definition strip_chars (chars : list ascii) (s : string) : string := rstrip_chars chars (lstrip_chars chars s).

(** [_guid] *)
Definition guid `{UuidText} (value : string) : result string :=
  of_option (ValueError "badly formed hexadecimal UUID string")
    (uuid_text (strip_chars [ascii_of_nat 123; ascii_of_nat 125] value)).

Record Policy := { allowed_interface_guids : list string; allowed_profiles : list string; enabled : bool }.

(** [WindowsNetworkController.__init__] *)
Definition make_policy `{UuidText} (interfaces profiles : list string) (on : bool) : result Policy :=
  guids ← mapM guid interfaces;
  mret {| allowed_interface_guids := guids; allowed_profiles := profiles; enabled := on |}.

(** ** The controller's state *)

Inductive Command := CmdConnect (interface_guid profile : string) | CmdDisconnect (interface_guid : string).

Record Controller (W : Type) := MkController { journal : Store; wifi : W; issued : list Command }.
Arguments MkController {_} _ _ _.
Arguments journal {_} _.
Arguments wifi {_} _.
Arguments issued {_} _.

Record Scan := { scan_interface : string; scan_reason : option string; scan_entries : json }.

Record NativeWifi (W : Type) := {
  profiles : string → SE W (list string);
  connection : string → SE W (list (string * json));
  native_connect : string → string → SE W unit;
  native_disconnect : string → SE W unit;
  native_scan : string → SE W Scan;
  cancelled : SE W bool;          (** the caller's [CancellationToken] *)
  pause : SE W unit;              (** [asyncio.sleep(0.2)] *)
  is_administrator : SE W bool;
}.
Arguments profiles {_} _ _.
Arguments connection {_} _ _.
Arguments native_connect {_} _ _ _.
Arguments native_disconnect {_} _ _.
Arguments native_scan {_} _ _.
Arguments cancelled {_} _.
Arguments pause {_} _.
Arguments is_administrator {_} _.

Section Controller.
Context `{Sha256} `{PythonText} `{UuidText} {W : Type} (N : NativeWifi W) (P : Policy).

Definition on_journal {A} (m : SE Store A) : SE (Controller W) A := λ c,
  let '(r, s) := m (journal c) in (r, MkController s (wifi c) (issued c)).
Definition on_wifi {A} (m : SE W A) : SE (Controller W) A := λ c,
  let '(r, w) := m (wifi c) in (r, MkController (journal c) w (issued c)).
(** A command is issued when its call begins, whatever becomes of it. *)
Definition issue (cmd : Command) : SE (Controller W) unit :=
  modify (λ c, MkController (journal c) (wifi c) (issued c ++ [cmd])).
Definition do_connect (g profile : string) : SE (Controller W) unit :=
  issue (CmdConnect g profile) ;; on_wifi (native_connect N g profile).
Definition do_disconnect (g : string) : SE (Controller W) unit :=
  issue (CmdDisconnect g) ;; on_wifi (native_disconnect N g).

Definition authorize (interface_guid : string) (confirmed : bool) : SE (Controller W) string :=
  raise_if (negb (enabled P)) (PermissionError "local Wi-Fi control is disabled by policy") ;;
  raise_if (negb confirmed) (PermissionError "explicit administrative confirmation is required") ;;
  elevated ← on_wifi (is_administrator N);
  raise_if (negb elevated) (PermissionError "local Wi-Fi control requires an elevated administrator") ;;
  normalized ← lift (guid interface_guid);
  raise_if (negb (str_in normalized (allowed_interface_guids P)))
    (PermissionError "interface GUID is not locally allowlisted") ;;
  mret normalized.

Definition available_profiles (g : string) : SE (Controller W) (list string) :=
  found ← on_wifi (profiles N g);
  mret (List.filter (λ p, str_in p (allowed_profiles P)) found).
Definition list_profiles (interface_guid : string) (confirmed : bool) : SE (Controller W) (list string) :=
  normalized ← authorize interface_guid confirmed;
  available_profiles normalized.

(** [str(connection.get("profile_name") or "")], or nothing. *)
Definition profile_name (kvs : list (string * json)) : option string :=
  match dict_get kvs "profile_name" with
  | Some v => if json_truthy v
              then (if String.eqb (json_text v) EmptyString then None else Some (json_text v))
              else None
  | None => None
  end.
Definition current_profile (g : string) : SE (Controller W) (option string) :=
  catch (kvs ← on_wifi (connection N g); mret (profile_name kvs))
    (λ e, if decide (e = NativeWifiError "invalid_state") then mret None else raise e).

(** [_wait_for_profile]: [polls] rounds fit in the time limit. *)
Fixpoint wait_for_profile (polls : nat) (g : string) (expected : option string) (token : SE (Controller W) bool)
    : SE (Controller W) unit :=
  match polls with
  | O => raise TimeoutError
  | S polls' =>
      stop ← token;
      raise_if stop CancelledError ;;
      current ← current_profile g;
      if bool_decide (current = expected) then mret tt
      else on_wifi (pause N) ;; wait_for_profile polls' g expected token
  end.

(** [_rollback]; its token is never cancelled. *)
Definition rollback_to (polls : nat) (g : string) (previous : option string) : SE (Controller W) bool :=
  match previous with
  | None => mret false
  | Some profile =>
      if negb (str_in profile (allowed_profiles P)) then mret false
      else
        catch (do_connect g profile ;; wait_for_profile polls g (Some profile) (mret false) ;; mret true)
          (λ e, if ordinary e then mret false else raise e)
  end.

Definition transition (now key : string) (current : list WinState) (target : WinState)
    (result last_error : option string) : SE (Controller W) WindowsRow :=
  on_journal (transition_windows_operation now key current target result last_error).

(** The time stamps and the identifier one call is given. *)
Record ControllerInputs := { operation_id : string; begin_time : string; move_time : nat → string }.

Definition operation_key (key : string) : result string :=
  of_option (ValueError "badly formed hexadecimal UUID string") (uuid_text key).

(** The state a failed command ends in. *)
Definition undone (rolled_back : bool) (otherwise : WinState) : WinState :=
  if rolled_back then WS_ROLLED_BACK else otherwise.
Definition restored (rolled_back : bool) : option string :=
  if rolled_back then Some "previous_profile_restored" else None.

(** [connect], from the [try] on. *)
Definition connect_attempt (i : ControllerInputs) (polls : nat) (g profile_name key : string)
    (previous : option string) : SE (Controller W) WindowsRow :=
  catch
    (stop ← on_wifi (cancelled N);
     raise_if stop CancelledError ;;
     do_connect g profile_name ;;
     wait_for_profile polls g (Some profile_name) (on_wifi (cancelled N)) ;;
     transition (move_time i 1) key [WS_RUNNING] WS_COMPLETED None None)
    (λ e,
       if ordinary e then
         rolled_back ← rollback_to polls g previous;
         transition (move_time i 2) key [WS_RUNNING] (undone rolled_back WS_FAILED) (restored rolled_back)
           (Some (type_name e))
       else
         rollback_to polls g previous ;;
         transition (move_time i 2) key [WS_RUNNING] WS_CANCELLED (Some "rollback_attempted") None).

Definition connect (i : ControllerInputs) (interface_guid profile_name key : string) (confirmed : bool)
    (polls : nat) : SE (Controller W) WindowsRow :=
  normalized ← authorize interface_guid confirmed;
  lift (operation_key key) ;;
  raise_if (negb (str_in profile_name (allowed_profiles P)))
    (PermissionError "profile is not locally allowlisted") ;;
  available ← available_profiles normalized;
  raise_if (negb (str_in profile_name available))
    (PermissionError "allowlisted profile does not exist on interface") ;;
  previous ← current_profile normalized;
  operation ← on_journal (begin_windows_operation (begin_time i) (operation_id i) key W_CONNECT normalized
                            (Some profile_name) previous);
  if win_terminal (wo_state operation) then mret operation
  else if bool_decide (previous = Some profile_name) then
    transition (move_time i 0) key [WS_INTENT_RECORDED; WS_RUNNING; WS_RECONCILING] WS_COMPLETED
      (Some "target_already_connected") None
  else
    transition (move_time i 0) key [WS_INTENT_RECORDED; WS_RECONCILING] WS_RUNNING None None ;;
    connect_attempt i polls normalized profile_name key previous.

(** [disconnect], from the [try] on. *)
Definition disconnect_attempt (i : ControllerInputs) (polls : nat) (g key : string) (previous : option string)
    : SE (Controller W) WindowsRow :=
  catch
    (stop ← on_wifi (cancelled N);
     raise_if stop CancelledError ;;
     do_disconnect g ;;
     wait_for_profile polls g None (on_wifi (cancelled N)) ;;
     transition (move_time i 1) key [WS_RUNNING] WS_COMPLETED None None)
    (λ e,
       rolled_back ← rollback_to polls g previous;
       if ordinary e then
         transition (move_time i 2) key [WS_RUNNING] (undone rolled_back WS_FAILED) (restored rolled_back)
           (Some (type_name e))
       else
         transition (move_time i 2) key [WS_RUNNING] (undone rolled_back WS_CANCELLED) (restored rolled_back) None).

Definition disconnect (i : ControllerInputs) (interface_guid key : string) (confirmed : bool) (polls : nat)
    : SE (Controller W) WindowsRow :=
  normalized ← authorize interface_guid confirmed;
  lift (operation_key key) ;;
  previous ← current_profile normalized;
  operation ← on_journal (begin_windows_operation (begin_time i) (operation_id i) key W_DISCONNECT normalized
                            None previous);
  if win_terminal (wo_state operation) then mret operation
  else match previous with
  | None =>
      transition (move_time i 0) key [WS_INTENT_RECORDED; WS_RUNNING; WS_RECONCILING] WS_COMPLETED
        (Some "interface_already_disconnected") None
  | Some _ =>
      transition (move_time i 0) key [WS_INTENT_RECORDED; WS_RECONCILING] WS_RUNNING None None ;;
      disconnect_attempt i polls normalized key previous
  end.

(** What reconciliation makes of one operation, given the profile in use. *)
Definition reconcile_verdict (polls : nat) (operation : WindowsRow) (current : option string)
    : SE (Controller W) (WinState * string) :=
  match wo_action operation with
  | W_CONNECT =>
      if bool_decide (current = wo_target_profile operation)
      then mret (WS_COMPLETED, "target_connected_after_restart")
      else rolled_back ← rollback_to polls (wo_interface_guid operation) (wo_previous_profile operation);
           mret (undone rolled_back WS_FAILED, if rolled_back then "previous_profile_restored" else "state_ambiguous")
  | W_DISCONNECT =>
      if bool_decide (current = None)
      then mret (WS_COMPLETED, "interface_disconnected_after_restart")
      else rolled_back ← rollback_to polls (wo_interface_guid operation) (wo_previous_profile operation);
           mret (undone rolled_back WS_FAILED, if rolled_back then "previous_profile_restored" else "state_ambiguous")
  | W_SCAN =>
      rolled_back ← rollback_to polls (wo_interface_guid operation) (wo_previous_profile operation);
      mret (undone rolled_back WS_FAILED, if rolled_back then "previous_profile_restored" else "state_ambiguous")
  end.

Definition reconcile_one (now : string → nat → string) (polls : nat) (operation : WindowsRow)
    : SE (Controller W) unit :=
  let key := wo_idempotency_key operation in
  transition (now key 0%nat) key [WS_INTENT_RECORDED; WS_RUNNING; WS_RECONCILING] WS_RECONCILING None None ;;
  current ← current_profile (wo_interface_guid operation);
  '(state, result) ← reconcile_verdict polls operation current;
  transition (now key 1%nat) key [WS_RECONCILING] state (Some result) None ;;
  mret tt.

(** [reconcile_incomplete] returns how many there were. *)
Definition reconcile_incomplete (now : string → nat → string) (polls : nat) : SE (Controller W) nat :=
  operations ← on_journal incomplete_windows_operations;
  for_each operations (reconcile_one now polls) ;;
  mret (length operations).

Definition request_scan (i : ControllerInputs) (interface_guid key : string) (confirmed : bool)
    : SE (Controller W) Scan :=
  normalized ← authorize interface_guid confirmed;
  lift (operation_key key) ;;
  operation ← on_journal (begin_windows_operation (begin_time i) (operation_id i) key W_SCAN normalized None None);
  if win_terminal (wo_state operation) then
    mret {| scan_interface := normalized; scan_reason := Some "skipped"; scan_entries := JList [] |}
  else
    transition (move_time i 0) key [WS_INTENT_RECORDED; WS_RECONCILING] WS_RUNNING None None ;;
    catch
      (found ← on_wifi (native_scan N normalized);
       transition (move_time i 1) key [WS_RUNNING]
         (match scan_reason found with None => WS_COMPLETED | Some _ => WS_FAILED end) None (scan_reason found) ;;
       mret found)
      (λ e,
         if ordinary e then raise e
         else transition (move_time i 2) key [WS_RUNNING] WS_CANCELLED None None ;; raise e).
End Controller.
