(* ===== verification/ControllerTheorems.v ===== *)
(** * What the Windows network controller guarantees

    Commands only go to allowlisted interfaces and profiles, never before their
    intent is in the journal and never again once it is terminal; and
    reconciliation leaves nothing incomplete. *)

From S2P Require Export StateTheorems AgentIdentityTheorems Controller.

(** ** The journal *)

Section Journal.
Context `{Sha256} `{EnvelopeCodec}.

Definition operation_of (key : string) (s : Store) : option WindowsRow :=
  select_one (key_is wo_idempotency_key key) (windows_network_operations s).

Lemma begin_outcome now oid key act g tp pp s :
  reachable s →
  let '(r, s') := begin_windows_operation now oid key act g tp pp s in
  reachable s' ∧
  match r with
  | Err _ => s' = s
  | Ok w => operation_of key s' = Some w ∧ (operation_of key s = Some w ∧ s' = s
              ∨ operation_of key s = None ∧ wo_state w = WS_INTENT_RECORDED
                ∧ s' = set_windows (windows_network_operations s ++ [w]) s ∧ wo_interface_guid w = g)
  end.
Proof.
  intros Hr.
  assert (reachable (begin_windows_operation now oid key act g tp pp s).2) as Hr'
    by (eapply store_step_reachable; [exact Hr|constructor]).
  destruct (begin_windows_operation _ _ _ _ _ _ _ s) as [r s'] eqn:E. simpl in Hr'. split; [done|]. clear Hr Hr'.
  revert E. unfold begin_windows_operation, windows_operation, operation_of. run_tx.
  destruct (select_one _ (windows_network_operations s)) as [w|] eqn:Ew.
  - destruct (negb _); simpl; intros [= <- <-]; [done|]. split; [done|by left].
  - cbn [committed working in_tx]. match goal with |- context [insert_windows ?row s] => destruct (insert_windows row s) as [[[] s1]|e] eqn:Ei end;
      simpl; [|by intros [= <- <-]].
    unfold insert_windows in Ei. inserted Ei. simpl.
    rewrite select_one_snoc; [|done|by unfold key_is; rewrite String.eqb_refl]. simpl. intros [= <- <-]. simpl.
    rewrite select_one_snoc; [|done|by unfold key_is; rewrite String.eqb_refl]. split; [done|]. right. done.
Qed.

(** A transition moves the one row of its key, or writes nothing. *)
Lemma transition_outcome now key current target rr le s :
  reachable s → current ≠ [] →
  let '(r, s') := transition_windows_operation now key current target rr le s in
  reachable s' ∧
  match r with
  | Err _ => s' = s
  | Ok w => operation_of key s' = Some w ∧ ∃ w0, operation_of key s = Some w0 ∧ wo_state w0 ∈ current
      ∧ w = win_update target now rr le w0
      ∧ s' = set_windows (update_rows (key_is wo_idempotency_key key) (win_update target now rr le)
                            (windows_network_operations s)) s
  end.
Proof.
  intros Hr Hc.
  assert (reachable (transition_windows_operation now key current target rr le s).2) as Hr'
    by (eapply store_step_reachable; [exact Hr|constructor]).
  rewrite transition_windows_operation_cas in * by done. unfold operation_of.
  destruct (select_one _ (windows_network_operations s)) as [w0|] eqn:Ew; [|done].
  destruct (bool_decide (wo_state w0 ∈ current)) eqn:Es; [|done]. apply bool_decide_eq_true in Es.
  split; [done|]. simpl. split; [|by exists w0].
  by rewrite select_one_update, Ew.
Qed.
End Journal.

(** ** Effects on the journal and on the commands *)

Section Operations.
Context `{Sha256} `{EnvelopeCodec} `{PythonText} `{UuidText} {W : Type} (N : NativeWifi W) (P : Policy).

(** Neither writes the journal nor issues a command. *)
Definition quiet_call {A} (m : SE (Controller W) A) : Prop :=
  ∀ J L, preserves (λ c, journal c = J ∧ issued c = L) m.
(** Does not write the journal. *)
Definition still {A} (m : SE (Controller W) A) : Prop := ∀ J, preserves (λ c, journal c = J) m.

Lemma quiet_still {A} (m : SE (Controller W) A) : quiet_call m → still m.
Proof. intros Hm J c Hc. by destruct (Hm J (issued c) c (conj Hc eq_refl)). Qed.
Lemma on_wifi_quiet {A} (m : SE W A) : quiet_call (on_wifi m).
Proof. intros J L c Hc. unfold on_wifi. by destruct (m (wifi c)). Qed.

Ltac quietly :=
  intros J L; repeat (first
    [ apply on_wifi_quiet | apply preserves_ret | apply preserves_raise | apply preserves_raise_if
    | apply preserves_lift | apply preserves_catch; [|intros ?] | apply preserves_bind; [|intros ?]
    | progress case_match ]).

Lemma authorize_quiet g confirmed : quiet_call (authorize N P g confirmed).
Proof. unfold authorize. quietly. Qed.
Lemma available_profiles_quiet g : quiet_call (available_profiles N P g).
Proof. unfold available_profiles. quietly. Qed.
Lemma current_profile_quiet g : quiet_call (current_profile N g).
Proof. unfold current_profile. quietly. Qed.
Lemma wait_quiet polls g expected token : quiet_call token → quiet_call (wait_for_profile N polls g expected token).
Proof.
  intros Ht. induction polls as [|polls IH]; intros J L; simpl; [apply preserves_raise|].
  apply preserves_bind; [apply Ht|]. intros stop. apply preserves_bind; [apply preserves_raise_if|]. intros _.
  apply preserves_bind; [apply current_profile_quiet|]. intros current. case_match; [apply preserves_ret|].
  apply preserves_bind; [apply on_wifi_quiet|]. intros _. apply IH.
Qed.
Lemma do_connect_still g p : still (do_connect N g p).
Proof.
  intros J. unfold do_connect, issue. apply preserves_bind; [by intros c|].
  intros _ c Hc. unfold on_wifi. by destruct (native_connect _ _ _ _).
Qed.
Lemma do_disconnect_still g : still (do_disconnect N g).
Proof.
  intros J. unfold do_disconnect, issue. apply preserves_bind; [by intros c|].
  intros _ c Hc. unfold on_wifi. by destruct (native_disconnect _ _ _).
Qed.
Lemma rollback_still polls g previous : still (rollback_to N P polls g previous).
Proof.
  intros J. unfold rollback_to. destruct previous as [p|]; [|apply preserves_ret].
  case_match; [apply preserves_ret|]. apply preserves_catch.
  - apply preserves_bind; [apply do_connect_still|]. intros _. apply preserves_bind; [|intros _; apply preserves_ret].
    apply quiet_still, wait_quiet. intros J' L. apply preserves_ret.
  - intros e. case_match; [apply preserves_ret|apply preserves_raise].
Qed.

(** A transition from the operation's own state succeeds. *)
Lemma transition_succeeds now key current target rr le (c : Controller W) w :
  reachable (journal c) → operation_of key (journal c) = Some w → wo_state w ∈ current →
  ∃ c', transition now key current target rr le c = (Ok (win_update target now rr le w), c')
    ∧ reachable (journal c') ∧ operation_of key (journal c') = Some (win_update target now rr le w)
    ∧ ∀ k, k ≠ key → operation_of k (journal c') = operation_of k (journal c).
Proof.
  intros Hr Hw Hs. assert (current ≠ []) as Hc by (intros ->; by apply not_elem_of_nil in Hs).
  assert (reachable (transition_windows_operation now key current target rr le (journal c)).2) as Hr'
    by (eapply store_step_reachable; [exact Hr|constructor]).
  unfold transition, on_journal. rewrite transition_windows_operation_cas in * by done.
  unfold operation_of in *. rewrite Hw in *. rewrite bool_decide_true in * by done.
  eexists. split; [done|]. split; [exact Hr'|]. simpl. split.
  - by rewrite select_one_update, Hw.
  - intros k Hk. rewrite select_one_updated by done.
    destruct (select_one (key_is wo_idempotency_key k) _) as [w'|] eqn:E; [|done]. simpl.
    apply select_one_Some in E as [_ Hk'%key_is_true].
    destruct (key_is wo_idempotency_key key w') eqn:Ek; [|done]. apply key_is_true in Ek. congruence.
Qed.

(** ** Settling an operation *)

Definition is_settled (key : string) (op : WindowsRow) (s : Store) : Prop :=
  operation_of key s = Some op ∧ win_terminal (wo_state op) = true.

(** Ends with the operation of the key terminal in the journal, or raises and
    leaves the journal alone. *)
Definition settles (key : string) (m : SE (Controller W) WindowsRow) : Prop :=
  ∀ c, reachable (journal c) →
    let '(r, c') := m c in
    reachable (journal c') ∧ match r with Ok op => is_settled key op (journal c') | Err _ => journal c' = journal c end.

Lemma settles_transition now key current target rr le :
  current ≠ [] → win_terminal target = true → settles key (transition now key current target rr le).
Proof.
  intros Hc Ht c Hr. unfold transition, on_journal.
  pose proof (transition_outcome now key current target rr le (journal c) Hr Hc) as Ho.
  destruct (transition_windows_operation _ _ _ _ _ _ _) as [[w|e] s']; destruct Ho as [Hr' Ho]; [|done].
  destruct Ho as (Hw & w0 & _ & _ & -> & _). split; [done|]. by split.
Qed.
Lemma settles_bind {A} key (m : SE (Controller W) A) f :
  still m → (∀ a, settles key (f a)) → settles key (m ≫= f).
Proof.
  intros Hm Hf c Hr. rewrite bind_state. pose proof (Hm (journal c) c eq_refl) as Hj.
  destruct (m c) as [[a|e] c1]; simpl in Hj; [|by rewrite Hj]. rewrite <- Hj in Hr |- *. by apply Hf.
Qed.
Lemma settles_catch key m h : settles key m → (∀ e, settles key (h e)) → settles key (catch m h).
Proof.
  intros Hm Hh c Hr. unfold catch. specialize (Hm c Hr). destruct (m c) as [[op|e] c1]; [done|].
  destruct Hm as [Hr1 Hj]. rewrite <- Hj. by apply Hh.
Qed.

Lemma undone_terminal b st : win_terminal st = true → win_terminal (undone b st) = true.
Proof. by destruct b. Qed.

Lemma connect_attempt_settles i polls g p key previous : settles key (connect_attempt N P i polls g p key previous).
Proof.
  unfold connect_attempt. apply settles_catch.
  - apply settles_bind; [apply quiet_still, on_wifi_quiet|]. intros stop.
    apply settles_bind; [intros J; apply preserves_raise_if|]. intros _.
    apply settles_bind; [apply do_connect_still|]. intros _.
    apply settles_bind; [apply quiet_still, wait_quiet, on_wifi_quiet|]. intros _. by apply settles_transition.
  - intros e. case_match; (apply settles_bind; [apply rollback_still|]); intros rb; apply settles_transition; try done.
    by apply undone_terminal.
Qed.
Lemma disconnect_attempt_settles i polls g key previous : settles key (disconnect_attempt N P i polls g key previous).
Proof.
  unfold disconnect_attempt. apply settles_catch.
  - apply settles_bind; [apply quiet_still, on_wifi_quiet|]. intros stop.
    apply settles_bind; [intros J; apply preserves_raise_if|]. intros _.
    apply settles_bind; [apply do_disconnect_still|]. intros _.
    apply settles_bind; [apply quiet_still, wait_quiet, on_wifi_quiet|]. intros _. by apply settles_transition.
  - intros e. apply settles_bind; [apply rollback_still|]. intros rb.
    case_match; apply settles_transition; try done; by apply undone_terminal.
Qed.

(** ** Accounting for the commands of one call *)

Definition underway (key : string) (s : Store) : Prop :=
  ∃ w, operation_of key s = Some w ∧ (wo_state w = WS_RUNNING ∨ win_terminal (wo_state w) = true).

(** What one call answers and issues is accounted for by the journal. *)
Definition accounted (key : string) (r : result WindowsRow) (c c' : Controller W) : Prop :=
  reachable (journal c')
  ∧ (∀ op, r = Ok op → is_settled key op (journal c'))
  ∧ (issued c' = issued c ∨ underway key (journal c')).
Definition drives (key : string) (m : SE (Controller W) WindowsRow) : Prop :=
  ∀ c, reachable (journal c) → accounted key (m c).1 c (m c).2.

Lemma settled_underway key op s : is_settled key op s → underway key s.
Proof. intros [Ho Ht]. exists op. by split; [|right]. Qed.

(** Running in the journal first, then commands. *)
Lemma drives_attempt now key current rr le m :
  current ≠ [] → settles key m →
  drives key (transition now key current WS_RUNNING rr le ;; m).
Proof.
  intros Hc Hm c Hr. rewrite bind_state. unfold transition, on_journal.
  pose proof (transition_outcome now key current WS_RUNNING rr le (journal c) Hr Hc) as Ho.
  destruct (transition_windows_operation _ _ _ _ _ _ _) as [[w|e] s1]; destruct Ho as [Hr1 Ho]; [|by split_and!; try left].
  destruct Ho as (Hw & w0 & _ & _ & -> & _). specialize (Hm (MkController s1 (wifi c) (issued c)) Hr1).
  destruct (m _) as [[op|e] c']; destruct Hm as [Hr' Hm].
  - split_and!; [done| by intros ? [= <-]|]. right. by eapply settled_underway.
  - split_and!; [done|done|]. right. simpl in *. rewrite Hm. eexists; by split; [|left].
Qed.
Lemma drives_transition now key current target rr le :
  current ≠ [] → win_terminal target = true → drives key (transition now key current target rr le).
Proof.
  intros Hc Ht c Hr. pose proof (settles_transition now key current target rr le Hc Ht c Hr) as Hs.
  assert (issued (transition now key current target rr le c).2 = issued c) as Hi
    by (unfold transition, on_journal; by destruct (transition_windows_operation _ _ _ _ _ _ _)).
  destruct (transition _ _ _ _ _ _ c) as [[op|e] c']; destruct Hs as [Hr' Hs]; simpl in *; split_and!; try done; try by left.
  by intros ? [= <-].
Qed.

(** The operation of the key was already terminal: nothing happens. *)
Definition spared (key : string) (r : result WindowsRow) (c c' : Controller W) : Prop :=
  ∀ op, is_settled key op (journal c) →
    journal c' = journal c ∧ issued c' = issued c ∧ (∀ op', r = Ok op' → op' = op).
Definition journaled (key : string) (m : SE (Controller W) WindowsRow) : Prop :=
  ∀ c, reachable (journal c) → accounted key (m c).1 c (m c).2 ∧ spared key (m c).1 c (m c).2.

Lemma journaled_bind {A} key (m : SE (Controller W) A) f :
  quiet_call m → (∀ a, journaled key (f a)) → journaled key (m ≫= f).
Proof.
  intros Hm Hf c Hr. rewrite bind_state. destruct (Hm (journal c) (issued c) c (conj eq_refl eq_refl)) as [Hj Hi].
  destruct (m c) as [[a|e] c1]; simpl in Hj, Hi.
  - rewrite <- Hj in Hr. unfold accounted, spared. rewrite <- Hj, <- Hi. by apply Hf.
  - unfold accounted, spared. simpl. rewrite Hj, Hi. split_and!; try done; by left.
Qed.
Lemma journaled_begin now oid key act g tp pp f :
  (∀ op, win_terminal (wo_state op) = false → drives key (f op)) →
  journaled key (op ← on_journal (begin_windows_operation now oid key act g tp pp);
                 if win_terminal (wo_state op) then mret op else f op).
Proof.
  intros Hf c Hr. rewrite bind_state. unfold on_journal.
  pose proof (begin_outcome now oid key act g tp pp (journal c) Hr) as Hb.
  destruct (begin_windows_operation _ _ _ _ _ _ _ _) as [[w|e] s1]; destruct Hb as [Hr1 Hb].
  2: { subst s1. split; [by split_and!; try left|]. by intros op Hop. }
  destruct Hb as [Hw Hb]. destruct (win_terminal (wo_state w)) eqn:Et.
  - split; [split_and!; [done|by intros ? [= <-]|by left]|]. intros op [Ho _]. simpl in *.
    destruct Hb as [[Hw0 ->]|[Hw0 _]]; simplify_eq. split_and!; try done. by intros ? [= <-].
  - specialize (Hf w Et (MkController s1 (wifi c) (issued c)) Hr1). split; [exact Hf|].
    intros op [Ho Hop]. exfalso. destruct Hb as [[Hw0 _]|[Hw0 _]]; congruence.
Qed.

Ltac quiet_first := first
  [ apply authorize_quiet | apply available_profiles_quiet | apply current_profile_quiet
  | intros ? ?; first [apply preserves_lift | apply preserves_raise_if] ].

(** C26: connecting is journaled: an operation it answers with is terminal and is
    the one the journal holds under the key; a command was only issued if the
    journal holds the operation as running or terminal; and a key whose operation
    was terminal issues no command and writes nothing. *)
Theorem connect_journaled i g p key confirmed polls c :
  reachable (journal c) →
  accounted key (connect N P i g p key confirmed polls c).1 c (connect N P i g p key confirmed polls c).2
  ∧ spared key (connect N P i g p key confirmed polls c).1 c (connect N P i g p key confirmed polls c).2.
Proof.
  revert c. change (journaled key (connect N P i g p key confirmed polls)). unfold connect.
  do 6 (apply journaled_bind; [quiet_first|intros ?]). apply journaled_begin. intros op _.
  case_match; [by apply drives_transition|]. apply drives_attempt; [done|]. apply connect_attempt_settles.
Qed.
Lemma disconnect_journaled i g key confirmed polls : journaled key (disconnect N P i g key confirmed polls).
Proof.
  unfold disconnect. do 3 (apply journaled_bind; [quiet_first|intros ?]). apply journaled_begin. intros op _.
  case_match; [|by apply drives_transition]. apply drives_attempt; [done|]. apply disconnect_attempt_settles.
Qed.
End Operations.

(** ** Allowlists *)

Section Allowlists.
Context `{Sha256} `{EnvelopeCodec} `{PythonText} `{UuidText} {W : Type} (N : NativeWifi W) (P : Policy).

Definition listed_command (cmd : Command) : Prop :=
  match cmd with
  | CmdConnect g profile => g ∈ allowed_interface_guids P ∧ profile ∈ allowed_profiles P
  | CmdDisconnect g => g ∈ allowed_interface_guids P
  end.
Definition listed_row (w : WindowsRow) : Prop := wo_interface_guid w ∈ allowed_interface_guids P.
Definition listed (c : Controller W) : Prop :=
  reachable (journal c)
  ∧ (∀ w, w ∈ windows_network_operations (journal c) → listed_row w)
  ∧ Forall listed_command (issued c).

(** Keeps the allowlists, and answers a value that satisfies [Q]. *)
Definition keeps {A} (Q : A → Prop) (m : SE (Controller W) A) : Prop :=
  ∀ c, listed c → listed (m c).2 ∧ ∀ a, (m c).1 = Ok a → Q a.
Definition anything {A} (_ : A) : Prop := True.

Lemma keeps_bind {A B} (Q : A → Prop) (R : B → Prop) m f :
  keeps Q m → (∀ a, Q a → keeps R (f a)) → keeps R (m ≫= f).
Proof.
  intros Hm Hf c Hc. rewrite bind_state. destruct (Hm c Hc) as [Hl Hq].
  destruct (m c) as [[a|e] c1]; simpl in *; [|done]. by apply Hf; [apply Hq|].
Qed.
Lemma keeps_step {A B} (R : B → Prop) (m : SE (Controller W) A) f :
  keeps anything m → (∀ a, keeps R (f a)) → keeps R (m ≫= f).
Proof. intros Hm Hf. by eapply keeps_bind; [exact Hm|]. Qed.
Lemma keeps_catch {A} (R : A → Prop) m h : keeps R m → (∀ e, keeps R (h e)) → keeps R (catch m h).
Proof.
  intros Hm Hh c Hc. unfold catch. destruct (Hm c Hc) as [Hl Hq].
  destruct (m c) as [[a|e] c1]; simpl in *; [done|]. by apply Hh.
Qed.
Lemma keeps_ret {A} (R : A → Prop) a : R a → keeps R (mret a).
Proof. intros Ha c Hc. split; [done|]. by intros ? [= <-]. Qed.
Lemma keeps_raise {A} (R : A → Prop) e : keeps R (raise e).
Proof. by intros c Hc. Qed.
Lemma keeps_weaken {A} (Q : A → Prop) m : keeps Q m → keeps anything m.
Proof. intros Hm c Hc. by split; [apply Hm|]. Qed.
Lemma keeps_quiet {A} (m : SE (Controller W) A) : quiet_call m → keeps anything m.
Proof.
  intros Hm c (Hr & Hw & Hi). split; [|done].
  destruct (Hm (journal c) (issued c) c (conj eq_refl eq_refl)) as [Hj Hl]. unfold listed. by rewrite Hj, Hl.
Qed.
Lemma keeps_raise_if b e : keeps (λ _, b = false) (raise_if b e).
Proof. intros c Hc. unfold raise_if. by destruct b. Qed.
Lemma keeps_lift {A} (r : result A) : keeps anything (lift r).
Proof. by intros c Hc. Qed.
Lemma keeps_issue cmd : listed_command cmd → keeps anything (issue cmd).
Proof.
  intros Hcmd c (Hr & Hw & Hi). split; [|done]. split_and!; [done|done|]. simpl. by rewrite Forall_app, Forall_singleton.
Qed.

Lemma keeps_authorize g confirmed :
  keeps (λ n, n ∈ allowed_interface_guids P) (authorize N P g confirmed).
Proof.
  unfold authorize. do 2 (eapply keeps_bind; [apply keeps_raise_if|intros _ _]).
  apply keeps_step; [apply keeps_quiet, on_wifi_quiet|]. intros elevated.
  eapply keeps_bind; [apply keeps_raise_if|]. intros _ _. apply keeps_step; [apply keeps_lift|]. intros n.
  eapply keeps_bind; [apply keeps_raise_if|]. intros _ Hn%negb_false_iff%str_in_spec. by apply keeps_ret.
Qed.
Lemma keeps_begin now oid key act g tp pp :
  g ∈ allowed_interface_guids P → keeps listed_row (on_journal (begin_windows_operation now oid key act g tp pp)).
Proof.
  intros Hg c (Hr & Hw & Hi). unfold on_journal.
  pose proof (begin_outcome now oid key act g tp pp (journal c) Hr) as Hb.
  destruct (begin_windows_operation _ _ _ _ _ _ _ _) as [[w|e] s1]; destruct Hb as [Hr1 Hb]; [|by subst s1].
  destruct Hb as [Hw1%select_one_Some Hb].
  assert (∀ x, x ∈ windows_network_operations s1 → listed_row x) as Hx.
  { destruct Hb as [[_ ->]|(_ & _ & -> & Ha)]; [done|]. simpl. intros x [Hx| ->%list_elem_of_singleton]%elem_of_app; [by apply Hw|].
    unfold listed_row. by rewrite Ha. }
  split; [done|]. intros a Ha. injection Ha as <-. apply Hx, Hw1.
Qed.
Lemma keeps_transition now key current target rr le :
  current ≠ [] → keeps anything (transition (W := W) now key current target rr le).
Proof.
  intros Hc c (Hr & Hw & Hi). split; [|done]. unfold transition, on_journal.
  pose proof (transition_outcome now key current target rr le (journal c) Hr Hc) as Ho.
  destruct (transition_windows_operation _ _ _ _ _ _ _) as [[w|e] s1]; destruct Ho as [Hr1 Ho]; [|by subst s1].
  destruct Ho as (_ & _ & _ & _ & _ & ->). split_and!; [done| |done]. simpl.
  intros x (y & Hy & ->)%elem_of_update_rows. apply Hw in Hy. by case_match.
Qed.
Lemma keeps_connect g p :
  g ∈ allowed_interface_guids P → p ∈ allowed_profiles P → keeps anything (do_connect N g p).
Proof. intros. apply keeps_step; [by apply keeps_issue|]. intros _. apply keeps_quiet, on_wifi_quiet. Qed.
Lemma keeps_disconnect g : g ∈ allowed_interface_guids P → keeps anything (do_disconnect N g).
Proof. intros. apply keeps_step; [by apply keeps_issue|]. intros _. apply keeps_quiet, on_wifi_quiet. Qed.
Lemma keeps_rollback polls g previous : g ∈ allowed_interface_guids P → keeps anything (rollback_to N P polls g previous).
Proof.
  intros Hg. unfold rollback_to. destruct previous as [p|]; [|by apply keeps_ret].
  destruct (str_in p _) eqn:Hp; simpl; [|by apply keeps_ret]. apply str_in_spec in Hp. apply keeps_catch.
  - apply keeps_step; [by apply keeps_connect|]. intros _. apply keeps_step; [|intros _; by apply keeps_ret].
    apply keeps_quiet, wait_quiet. intros J L. apply preserves_ret.
  - intros e. case_match; [by apply keeps_ret|apply keeps_raise].
Qed.

Lemma keeps_stop {A} (R : A → Prop) b e (f : unit → SE (Controller W) A) :
  keeps R (f tt) → keeps R (raise_if b e ≫= f).
Proof. intros Hf. eapply keeps_bind; [apply keeps_raise_if|]. by intros [] _. Qed.
Lemma keeps_wait polls g expected : keeps anything (wait_for_profile N polls g expected (on_wifi (cancelled N))).
Proof. apply keeps_quiet, wait_quiet, on_wifi_quiet. Qed.
Lemma keeps_read {A} (m : SE W A) : keeps anything (on_wifi m).
Proof. apply keeps_quiet, on_wifi_quiet. Qed.

Lemma keeps_connect_attempt i polls g p key previous :
  g ∈ allowed_interface_guids P → p ∈ allowed_profiles P →
  keeps anything (connect_attempt N P i polls g p key previous).
Proof.
  intros Hg Hp. unfold connect_attempt. apply keeps_catch.
  - apply keeps_step; [apply keeps_read|]. intros stop. apply keeps_stop.
    apply keeps_step; [by apply keeps_connect|]. intros _.
    apply keeps_step; [apply keeps_wait|]. intros _. by apply keeps_transition.
  - intros e. case_match; (apply keeps_step; [by apply keeps_rollback|]); intros rb; by apply keeps_transition.
Qed.
Lemma keeps_disconnect_attempt i polls g key previous :
  g ∈ allowed_interface_guids P → keeps anything (disconnect_attempt N P i polls g key previous).
Proof.
  intros Hg. unfold disconnect_attempt. apply keeps_catch.
  - apply keeps_step; [apply keeps_read|]. intros stop. apply keeps_stop.
    apply keeps_step; [by apply keeps_disconnect|]. intros _.
    apply keeps_step; [apply keeps_wait|]. intros _. by apply keeps_transition.
  - intros e. apply keeps_step; [by apply keeps_rollback|]. intros rb. case_match; by apply keeps_transition.
Qed.
Lemma connect_listed i g p key confirmed polls : keeps anything (connect N P i g p key confirmed polls).
Proof.
  unfold connect. eapply keeps_bind; [apply keeps_authorize|]. intros n Hn.
  apply keeps_step; [apply keeps_lift|]. intros _. eapply keeps_bind; [apply keeps_raise_if|].
  intros _ Hp%negb_false_iff%str_in_spec. apply keeps_step; [apply keeps_quiet, available_profiles_quiet|].
  intros found. apply keeps_stop. apply keeps_step; [apply keeps_quiet, current_profile_quiet|]. intros previous.
  eapply keeps_bind; [by apply keeps_begin|]. intros w _. case_match; [by apply keeps_ret|].
  case_match; [by apply keeps_transition|]. apply keeps_step; [by apply keeps_transition|]. intros _.
  by apply keeps_connect_attempt.
Qed.
Lemma disconnect_listed i g key confirmed polls : keeps anything (disconnect N P i g key confirmed polls).
Proof.
  unfold disconnect. eapply keeps_bind; [apply keeps_authorize|]. intros n Hn.
  apply keeps_step; [apply keeps_lift|]. intros _. apply keeps_step; [apply keeps_quiet, current_profile_quiet|].
  intros previous. eapply keeps_bind; [by apply keeps_begin|]. intros w _. case_match; [by apply keeps_ret|].
  case_match; [|by apply keeps_transition]. apply keeps_step; [by apply keeps_transition|]. intros _.
  by apply keeps_disconnect_attempt.
Qed.
Lemma request_scan_listed i g key confirmed : keeps anything (request_scan N P i g key confirmed).
Proof.
  unfold request_scan. eapply keeps_bind; [apply keeps_authorize|]. intros n Hn.
  apply keeps_step; [apply keeps_lift|]. intros _. eapply keeps_bind; [by apply keeps_begin|]. intros w _.
  case_match; [by apply keeps_ret|]. apply keeps_step; [by apply keeps_transition|]. intros _. apply keeps_catch.
  - apply keeps_step; [apply keeps_read|]. intros found. apply keeps_step; [by apply keeps_transition|].
    intros _. by apply keeps_ret.
  - intros e. case_match; [apply keeps_raise|]. apply keeps_step; [by apply keeps_transition|].
    intros _. apply keeps_raise.
Qed.
Lemma reconcile_one_listed now polls w : listed_row w → keeps anything (reconcile_one N P now polls w).
Proof.
  intros Hw. unfold reconcile_one. apply keeps_step; [by apply keeps_transition|]. intros _.
  apply keeps_step; [apply keeps_quiet, current_profile_quiet|]. intros current.
  apply keeps_step; [|intros []; apply keeps_step; [by apply keeps_transition|]; intros _; by apply keeps_ret].
  unfold reconcile_verdict.
  repeat case_match; first [by apply keeps_ret | apply keeps_step; [by apply keeps_rollback|]; intros rb; by apply keeps_ret].
Qed.
Lemma keeps_for_each {A} (Q : A → Prop) xs body :
  Forall Q xs → (∀ x, Q x → keeps anything (body x)) → keeps anything (for_each xs body).
Proof.
  intros Hx Hb. induction Hx as [|x xs Hq _ IH]; simpl; [by apply keeps_ret|].
  apply keeps_step; [by apply Hb|]. intros _. exact IH.
Qed.
Lemma reconcile_listed now polls : keeps anything (reconcile_incomplete N P now polls).
Proof.
  unfold reconcile_incomplete. eapply (keeps_bind (Forall listed_row)).
  - intros c Hc. split; [by destruct c|]. intros ops [= <-]. apply Forall_forall.
    intros w [Hw _]%elem_of_order_by%elem_of_select. destruct Hc as (_ & Hl & _). by apply Hl.
  - intros ops Hops. apply keeps_step; [|intros _; by apply keeps_ret].
    eapply keeps_for_each; [exact Hops|]. apply reconcile_one_listed.
Qed.
End Allowlists.

(** ** Histories of the controller *)

Section Histories.
Context `{Sha256} `{EnvelopeCodec} `{PythonText} `{UuidText} {W : Type} (N : NativeWifi W) (P : Policy) (polls : nat).

(** One call of the controller, or anything the world of Wi-Fi does by itself. *)
Inductive controller_step : Controller W → Controller W → Prop :=
  | step_connect i g p key confirmed c : controller_step c (connect N P i g p key confirmed polls c).2
  | step_disconnect i g key confirmed c : controller_step c (disconnect N P i g key confirmed polls c).2
  | step_scan i g key confirmed c : controller_step c (request_scan N P i g key confirmed c).2
  | step_reconcile now c : controller_step c (reconcile_incomplete N P now polls c).2
  | step_wifi w c : controller_step c (MkController (journal c) w (issued c)).

(** C27: whatever the calls, their order and what the Wi-Fi interface answers,
    every command the controller issues, rollbacks and reconciliation after a
    restart included, is on an allowlisted interface, and every connection it
    asks for is to an allowlisted profile. *)
Theorem commands_stay_allowlisted s w c' :
  reachable s → windows_network_operations s = [] →
  rtc controller_step (MkController s w []) c' → Forall (listed_command P) (issued c').
Proof.
  intros Hr Hw Hc. enough (listed P c') as (_ & _ & Hi) by exact Hi.
  assert (listed P (MkController s w [])) as Hl by (split_and!; [done| |done]; simpl; rewrite Hw; intros x Hx; by apply not_elem_of_nil in Hx).
  revert Hl. induction Hc as [|c0 c1 c2 Hs _ IH]; [done|]. intros Hl. apply IH. destruct Hs.
  - by apply connect_listed.
  - by apply disconnect_listed.
  - by apply request_scan_listed.
  - by apply reconcile_listed.
  - exact Hl.
Qed.
End Histories.

(** ** Reconciliation completes *)

Section Reconciliation.
Context `{Sha256} `{EnvelopeCodec} `{PythonText} `{UuidText} {W : Type} (N : NativeWifi W) (P : Policy).
(** The interface can be read, and the process is not cancelled. *)
Hypothesis connection_answers : ∀ g w e, (connection N g w).1 = Err e → e = NativeWifiError "invalid_state".
Hypothesis connect_ordinary : ∀ g p w e, (native_connect N g p w).1 = Err e → ordinary e = true.
Hypothesis pause_ordinary : ∀ w e, (pause N w).1 = Err e → ordinary e = true.

Definition only_raises (E : exc → Prop) {A} (m : SE (Controller W) A) : Prop := ∀ c e, (m c).1 = Err e → E e.
Definition ordinary_only {A} (m : SE (Controller W) A) : Prop := only_raises (λ e, ordinary e = true) m.
Definition never_raises {A} (m : SE (Controller W) A) : Prop := only_raises (λ _, False) m.

Lemma only_bind E {A B} (m : SE (Controller W) A) (f : A → SE (Controller W) B) :
  only_raises E m → (∀ a, only_raises E (f a)) → only_raises E (m ≫= f).
Proof.
  intros Hm Hf c e. rewrite bind_state. specialize (Hm c). destruct (m c) as [[a|e'] c1]; [by apply Hf|].
  intros [= ->]. by apply Hm.
Qed.
Lemma only_ret E {A} (a : A) : only_raises E (mret a).
Proof. by intros c e. Qed.
Lemma only_weaken (E E' : exc → Prop) {A} (m : SE (Controller W) A) :
  (∀ e, E e → E' e) → only_raises E m → only_raises E' m.
Proof. intros He Hm c e Hc. by eapply He, Hm. Qed.
Lemma on_wifi_only E {A} (m : SE W A) : (∀ w e, (m w).1 = Err e → E e) → only_raises E (on_wifi m).
Proof. intros Hm c e. unfold on_wifi. specialize (Hm (wifi c)). destruct (m (wifi c)) as [r w]. apply Hm. Qed.

Lemma current_profile_total g : never_raises (current_profile N g).
Proof.
  intros c e. unfold current_profile, catch. rewrite bind_state. unfold on_wifi.
  pose proof (connection_answers g (wifi c)) as Hg. destruct (connection N g (wifi c)) as [[kvs|e'] w]; [done|].
  rewrite (Hg e' eq_refl). by rewrite decide_True.
Qed.
Lemma wait_ordinary polls g expected : ordinary_only (wait_for_profile N polls g expected (mret false)).
Proof.
  induction polls as [|polls IH]; simpl; [by intros c e [= <-]|].
  apply (only_bind (λ e, ordinary e = true) (current_profile N g)).
  - eapply only_weaken, current_profile_total. done.
  - intros current. case_match; [apply only_ret|]. apply only_bind; [by apply on_wifi_only|]. intros _. exact IH.
Qed.
Lemma rollback_total polls g previous : never_raises (rollback_to N P polls g previous).
Proof.
  unfold rollback_to. destruct previous as [p|]; [|apply only_ret]. case_match; [apply only_ret|].
  assert (ordinary_only (do_connect N g p ;; wait_for_profile N polls g (Some p) (mret false) ;; mret true)) as Ho.
  { apply only_bind.
    - apply only_bind; [by intros c e|]. intros _. apply on_wifi_only. apply connect_ordinary.
    - intros _. apply only_bind; [apply wait_ordinary|]. intros _. apply only_ret. }
  intros c e. unfold catch. specialize (Ho c).
  destruct ((do_connect N g p ;; wait_for_profile N polls g (Some p) (mret false) ;; mret true) c) as [[b|e'] c1]; [done|].
  by rewrite (Ho e' eq_refl).
Qed.
Lemma verdict_total polls w current :
  never_raises (reconcile_verdict N P polls w current).
Proof.
  unfold reconcile_verdict.
  repeat case_match; first [apply only_ret | apply only_bind; [apply rollback_total|]; intros rb; apply only_ret].
Qed.
Definition ends_terminal (m : SE (Controller W) (WinState * string)) : Prop :=
  ∀ c v, (m c).1 = Ok v → win_terminal v.1 = true.
Lemma verdict_terminal polls w current : ends_terminal (reconcile_verdict N P polls w current).
Proof.
  intros c v. unfold reconcile_verdict.
  repeat case_match; first [by intros [= <-] | rewrite bind_state; destruct (rollback_to _ _ _ _ _ c) as [[[]|e] c1]; by intros [= <-]].
Qed.
Lemma verdict_still polls w current : still (reconcile_verdict N P polls w current).
Proof.
  intros J. unfold reconcile_verdict.
  repeat case_match; first [apply preserves_ret | apply preserves_bind; [apply rollback_still|]; intros rb; apply preserves_ret].
Qed.

Definition incomplete (w : WindowsRow) : bool := bool_decide (wo_state w ∈ [WS_INTENT_RECORDED; WS_RUNNING; WS_RECONCILING]).

(** One operation moves to a terminal state, the others stay. *)
Lemma reconcile_one_completes now polls w c :
  reachable (journal c) → operation_of (wo_idempotency_key w) (journal c) = Some w → incomplete w = true →
  ∃ c' w', reconcile_one N P now polls w c = (Ok tt, c') ∧ reachable (journal c')
    ∧ is_settled (wo_idempotency_key w) w' (journal c')
    ∧ ∀ k, k ≠ wo_idempotency_key w → operation_of k (journal c') = operation_of k (journal c).
Proof.
  intros Hr Hw Hi%bool_decide_eq_true. set (key := wo_idempotency_key w) in *.
  unfold reconcile_one. fold key. rewrite bind_state.
  destruct (transition_succeeds (now key 0%nat) key [WS_INTENT_RECORDED; WS_RUNNING; WS_RECONCILING] WS_RECONCILING
              None None c w Hr Hw Hi) as (c1 & -> & Hr1 & Hk1 & Ho1).
  rewrite bind_state. pose proof (current_profile_total (wo_interface_guid w) c1) as Ht2.
  pose proof (quiet_still _ (current_profile_quiet N (wo_interface_guid w)) (journal c1) c1 eq_refl) as Hj2.
  destruct (current_profile _ _ c1) as [[current|e] c2]; [|by destruct (Ht2 e eq_refl)]. simpl in Hj2.
  rewrite bind_state. pose proof (verdict_total polls w current c2) as Ht3.
  pose proof (verdict_terminal polls w current c2) as Hv. pose proof (verdict_still polls w current (journal c1) c2 Hj2) as Hj3.
  destruct (reconcile_verdict _ _ _ _ _ c2) as [[[st res]|e] c3]; [|by destruct (Ht3 e eq_refl)]. simpl in Hj3.
  specialize (Hv _ eq_refl). simpl in Hv. rewrite bind_state. rewrite <- Hj3 in Hr1, Hk1.
  destruct (transition_succeeds (now key 1%nat) key [WS_RECONCILING] st (Some res) None c3 _ Hr1 Hk1)
    as (c4 & -> & Hr4 & Hk4 & Ho4); [by left|].
  exists c4. eexists. split; [done|]. split; [done|]. split; [by split; [exact Hk4|]|].
  intros k Hk. rewrite Ho4, Hj3 by done. by apply Ho1.
Qed.

Lemma reconcile_all_complete now polls ws c :
  reachable (journal c) → NoDup (map wo_idempotency_key ws) →
  (∀ w, w ∈ ws → operation_of (wo_idempotency_key w) (journal c) = Some w ∧ incomplete w = true) →
  ∃ c', for_each ws (reconcile_one N P now polls) c = (Ok tt, c') ∧ reachable (journal c')
    ∧ (∀ w, w ∈ ws → ∃ w', is_settled (wo_idempotency_key w) w' (journal c'))
    ∧ ∀ k, k ∉ map wo_idempotency_key ws → operation_of k (journal c') = operation_of k (journal c).
Proof.
  revert c. induction ws as [|w ws IH]; intros c Hr Hnd Hws; simpl.
  { exists c. split_and!; try done. intros w Hw. by apply not_elem_of_nil in Hw. }
  simpl in Hnd. apply NoDup_cons in Hnd as [Hn Hnd]. destruct (Hws w) as [Hw Hi]; [by left|].
  destruct (reconcile_one_completes now polls w c Hr Hw Hi) as (c1 & w' & E1 & Hr1 & Hs1 & Ho1).
  rewrite bind_state, E1. destruct (IH c1 Hr1 Hnd) as (c' & -> & Hr' & Hs' & Ho').
  { intros x Hx. destruct (Hws x) as [Hxo Hxi]; [by right|]. split; [|done]. rewrite Ho1; [done|].
    intros E. apply Hn. rewrite <- E. by apply list_elem_of_In, in_map, list_elem_of_In. }
  exists c'. split_and!; [done|done| |].
  - intros x [->|Hx]%elem_of_cons; [|by apply Hs']. exists w'. destruct Hs1 as [Hs1 Ht1]. split; [|done]. by rewrite Ho'.
  - intros k [Hk Hks]%not_elem_of_cons. by rewrite Ho', Ho1.
Qed.

Lemma win_state_cases w : incomplete w = negb (win_terminal (wo_state w)).
Proof. unfold incomplete, win_terminal. by destruct (wo_state w). Qed.

Lemma operation_of_row s w :
  reachable s → w ∈ windows_network_operations s → operation_of (wo_idempotency_key w) s = Some w.
Proof. intros Hr Hw. by apply select_one_key; [apply windows_keys_unique|..]. Qed.

Lemma incomplete_unique le s :
  reachable s → NoDup (map wo_idempotency_key (order_by le (select incomplete (windows_network_operations s)))).
Proof.
  intros Hr. rewrite (Permutation_map wo_idempotency_key (order_by_Permutation le _)).
  pose proof (unique_key_delete wo_idempotency_key _ (λ w, negb (incomplete w)) (windows_keys_unique s Hr)) as Hu.
  unfold unique_key, delete_rows in Hu. unfold select. erewrite List.filter_ext; [exact Hu|]. intros w. simpl. by destruct (incomplete w).
Qed.

(** C28: while the interface can be read and the process is not cancelled,
    reconciliation after a restart finishes: it answers how many operations were
    incomplete, whatever becomes of each rollback; afterwards every operation of
    the journal is terminal, and the ones that already were are as they were. *)
Theorem reconcile_completes now polls c :
  reachable (journal c) →
  ∃ c', reconcile_incomplete N P now polls c
        = (Ok (rowcount incomplete (windows_network_operations (journal c))), c')
    ∧ (∀ w, w ∈ windows_network_operations (journal c') → win_terminal (wo_state w) = true)
    ∧ ∀ w, w ∈ windows_network_operations (journal c) → win_terminal (wo_state w) = true →
           w ∈ windows_network_operations (journal c').
Proof.
  intros Hr. set (s := journal c). unfold reconcile_incomplete. rewrite bind_state.
  set (ws := order_by (λ a b, str_leb (wo_started_at a) (wo_started_at b)) (select incomplete (windows_network_operations s))).
  assert (on_journal incomplete_windows_operations c = (Ok ws, c)) as -> by (by destruct c).
  destruct (reconcile_all_complete now polls ws c Hr (incomplete_unique _ s Hr)) as (c' & E & Hr' & Hs & Ho).
  { intros w [Hw Hi]%elem_of_order_by%elem_of_select. split; [by apply operation_of_row|done]. }
  rewrite bind_state, E. exists c'. split_and!.
  - unfold ws, rowcount. by rewrite (Permutation_length (order_by_Permutation _ _)).
  - intros w Hw%operation_of_row; [|done].
    destruct (decide (wo_idempotency_key w ∈ map wo_idempotency_key ws)) as [(x & Hk & Hx)%list_elem_of_In%in_map_iff|Hk].
    + destruct (Hs x) as (w' & Hw' & Ht); [by apply list_elem_of_In|]. rewrite Hk in Hw'. by simplify_eq.
    + rewrite Ho in Hw by done. apply not_false_is_true. intros Ht. apply Hk, list_elem_of_In, in_map, list_elem_of_In.
      apply elem_of_order_by, elem_of_select. apply select_one_Some in Hw as [Hw _]. split; [done|]. by rewrite win_state_cases, Ht.
  - intros w Hw Ht. assert (wo_idempotency_key w ∉ map wo_idempotency_key ws) as Hk.
    { intros (x & Hk & [Hx Hi]%list_elem_of_In%elem_of_order_by%elem_of_select)%list_elem_of_In%in_map_iff.
      apply operation_of_row in Hx, Hw; [|done..]. rewrite Hk in Hx. simplify_eq. rewrite win_state_cases in Hi. by rewrite Ht in Hi. }
    apply operation_of_row in Hw; [|done]. rewrite <- Ho in Hw by done. by apply select_one_Some in Hw as [? _].
Qed.
End Reconciliation.

(** ** A laptop with two networks *)

#[local] Existing Instances example_text example_uuid.

(** The world is the network in use and whether new connections are refused. *)
Definition Laptop : Type := option string * bool.
Definition example_native : NativeWifi Laptop := {|
  profiles := λ _, mret ["home"; "lab"; "cafe"];
  connection := λ _, active ← get fst;
    match active with Some p => mret [("profile_name", JStr p)] | None => raise (NativeWifiError "invalid_state") end;
  native_connect := λ _ p, refused ← get snd;
    raise_if (refused && negb (String.eqb p "home")) (NativeWifiError "access_denied") ;; modify (λ w, (Some p, snd w));
  native_disconnect := λ _, modify (λ w, (None, snd w));
  native_scan := λ g, mret {| scan_interface := g; scan_reason := None; scan_entries := JList [] |};
  cancelled := mret false;
  pause := mret tt;
  is_administrator := mret true |}.
Definition example_guid : string := "6c9d1b8e-0f8a-4e0e-9a51-0d7f3d1c2b4a".
Definition example_policy : Policy :=
  {| allowed_interface_guids := [example_guid]; allowed_profiles := ["home"; "lab"]; enabled := true |}.
Definition example_inputs : ControllerInputs :=
  {| operation_id := "o"; begin_time := "t0"; move_time := λ n, match n with O => "t1" | _ => "t2" end |}.
Definition a_key : string := "11111111-2222-4333-8444-555555555555".
Definition laptop (w : Laptop) : Controller Laptop := MkController empty_store w [].
Definition connected (w : Laptop) : result WindowsRow * Controller Laptop :=
  connect example_native example_policy example_inputs example_guid "lab" a_key true 3 (laptop w).
Definition outcome (o : result WindowsRow * Controller Laptop) : option WinState * Laptop * list Command :=
  (match o.1 with Ok w => Some (wo_state w) | Err _ => None end, wifi o.2, issued o.2).

Example connect_completes :
  outcome (connected (Some "home", false))
  = (Some WS_COMPLETED, (Some "lab", false), [CmdConnect example_guid "lab"]).
Proof. vm_compute. reflexivity. Qed.
Example connect_rolls_back :
  outcome (connected (Some "home", true))
  = (Some WS_ROLLED_BACK, (Some "home", true), [CmdConnect example_guid "lab"; CmdConnect example_guid "home"]).
Proof. vm_compute. reflexivity. Qed.
Example connect_again :
  outcome (connect example_native example_policy example_inputs example_guid "lab" a_key true 3 (connected (None, true)).2)
  = (Some WS_FAILED, (None, true), [CmdConnect example_guid "lab"]).
Proof. vm_compute. reflexivity. Qed.
Example profile_refused :
  outcome (connect example_native example_policy example_inputs example_guid "cafe" a_key true 3 (laptop (None, false)))
  = (None, (None, false), []).
Proof. vm_compute. reflexivity. Qed.

(** Connecting is refused and rolled back; the same key is then used again. *)
Local Abbreviation connect_lab c := (connect example_native example_policy example_inputs example_guid "lab" a_key true 3 c).
Lemma first_connect_answers :
  match connect_lab (laptop (Some "home", true)) with
  | (Ok op, c) => wo_state op = WS_ROLLED_BACK ∧ length (issued c) = 2%nat
  | (Err _, _) => False
  end.
Proof. vm_compute. by split. Qed.
Lemma second_connect_answers :
  is_ok (connect_lab (connect_lab (laptop (Some "home", true))).2).1 = true.
Proof. by vm_compute. Qed.
Lemma connect_journaled_witness :
  match connect_lab (laptop (Some "home", true)) with
  | (Ok op, c) =>
      is_settled a_key op (journal c) ∧ wo_state op = WS_ROLLED_BACK
      ∧ issued c ≠ issued (laptop (Some "home", true)) ∧ underway a_key (journal c)
      ∧ let '(r, c') := connect_lab c in journal c' = journal c ∧ issued c' = issued c ∧ r = Ok op
  | (Err _, _) => False
  end.
Proof.
  pose proof first_connect_answers as Hfirst. pose proof second_connect_answers as Hsecond.
  destruct (connect_journaled example_native example_policy example_inputs example_guid "lab" a_key true 3
              (laptop (Some "home", true)) (rtc_refl _ _)) as [(Hreach & Hanswer & Hissued) _].
  destruct (connect_lab (laptop (Some "home", true))) as [[op|e] c]; [|exact Hfirst]. destruct Hfirst as [Hstate Hlen].
  cbn [fst snd] in *. assert (issued c ≠ issued (laptop (Some "home", true))) as Hne by (intros Hi; rewrite Hi in Hlen; discriminate Hlen).
  split; [exact (Hanswer op eq_refl)|]. split; [exact Hstate|]. split; [exact Hne|].
  split; [destruct Hissued as [Hi|Hu]; [destruct (Hne Hi)|exact Hu]|].
  destruct (connect_journaled example_native example_policy example_inputs example_guid "lab" a_key true 3 c Hreach) as [_ Hspared].
  destruct (Hspared op (Hanswer op eq_refl)) as (Hj & Hi & Hop).
  destruct (connect_lab c) as [[op'|e] c']; [|discriminate Hsecond].
  split; [exact Hj|]. split; [exact Hi|]. cbn [fst] in Hop. by rewrite (Hop op' eq_refl).
Defined.

Lemma commands_stay_allowlisted_witness :
  Forall (listed_command example_policy) (issued (connected (Some "home", true)).2).
Proof.
  eapply (commands_stay_allowlisted example_native example_policy 3 empty_store (Some "home", true)); [constructor|reflexivity|].
  apply rtc_once. apply (step_connect example_native example_policy 3 example_inputs example_guid "lab" a_key true (laptop (Some "home", true))).
Defined.

(** A crash after the intent was recorded. *)
Definition interrupted : Store :=
  (begin_windows_operation "t" "o" a_key W_CONNECT example_guid (Some "lab") (Some "home") empty_store).2.

Lemma reconcile_completes_witness :
  ∃ c', reconcile_incomplete example_native example_policy (λ _ _, "later") 3 (MkController interrupted (None, false) [])
        = (Ok 1%nat, c')
    ∧ (∀ w, w ∈ windows_network_operations (journal c') → win_terminal (wo_state w) = true)
    ∧ ∀ w, w ∈ windows_network_operations interrupted → win_terminal (wo_state w) = true →
           w ∈ windows_network_operations (journal c').
Proof.
  apply (reconcile_completes example_native example_policy) with (c := MkController interrupted (None, false) []).
  - intros g [[p|] b] e; simpl; intros [= <-]; reflexivity.
  - intros g p [u []] e; simpl; [|intros [=]]. unfold raise_if. destruct (String.eqb p "home"); simpl; by intros [= <-].
  - by intros w e.
  - eapply store_step_reachable; [constructor|constructor].
Defined.
