(* ===== verification/SecureFs.v ===== *)
(** * Descriptor-anchored files

    [platforms/linux/secure_fs.py] over a model of the POSIX file system: two
    directories of names and some beside them, inodes with mode and contents, and what of it is on the
    disk.  Every system call may fail; a process that is killed is one whose calls
    all fail from then on.  A directory or a file that has not been synchronised
    may, after a loss of power, be found in any state it had since the last
    [fsync]. *)

From Stdlib Require Import Ascii.
From S2P Require Export StoreArtifacts.

(** ** What is on the disk *)

Record Durable (A : Type) := MkDurable { latest : A; unsynced : list A }.
Arguments MkDurable {_} _ _.
Arguments latest {_} _.
Arguments unsynced {_} _.

(** What a loss of power may leave. *)
Definition versions {A} (v : Durable A) : list A := latest v :: unsynced v.
Definition synced {A} (a : A) : Durable A := MkDurable a [].
Definition overwrite {A} (f : A → A) (v : Durable A) : Durable A :=
  MkDurable (f (latest v)) (latest v :: unsynced v).
Definition sync {A} (v : Durable A) : Durable A := synced (latest v).

(** ** Files and directories *)

Record Body := { st_mode : Z; contents : string }.
Record Inode := {
  st_dev : Z; st_uid : Z; st_nlink : Z; st_mtime_ns : Z; st_ctime_ns : Z;
  body : Durable Body;
}.
Record stat_result := {
  md_dev : Z; md_ino : nat; md_mode : Z; md_uid : Z; md_nlink : Z; md_size : Z;
  md_mtime_ns : Z; md_ctime_ns : Z;
}.

(** The directories beside the outbox and its intents: the journal of pruning and
    the files of captures. *)
Inductive Subfolder :=
  | PRUNE_INTENTS | PRUNE_ACTIVE | PRUNE_RETIRED | PRUNE_CONFLICTS | CAPTURE_MARKERS | CAPTURE_BINDINGS.
#[global] Instance Subfolder_eq_dec : EqDecision Subfolder.
Proof. solve_decision. Defined.
Inductive Folder := OUTBOX | INTENTS | SUB (f : Subfolder).
#[global] Instance Folder_eq_dec : EqDecision Folder.
Proof. solve_decision. Defined.

Abbreviation Names := (gmap string nat).
Record Disk := MkDisk {
  inodes : gmap nat Inode;
  outbox : Durable Names;
  intents : Durable Names;
  others : Subfolder → Durable Names;
  calls : nat;               (** system calls so far *)
}.
Definition folder (f : Folder) (d : Disk) : Durable Names :=
  match f with OUTBOX => outbox d | INTENTS => intents d | SUB g => others d g end.
Definition set_folder (f : Folder) (v : Durable Names) (d : Disk) : Disk :=
  match f with
  | OUTBOX => MkDisk (inodes d) v (intents d) (others d) (calls d)
  | INTENTS => MkDisk (inodes d) (outbox d) v (others d) (calls d)
  | SUB g => MkDisk (inodes d) (outbox d) (intents d) (λ h, if decide (h = g) then v else others d h) (calls d)
  end.
Definition set_inodes (m : gmap nat Inode) (d : Disk) : Disk := MkDisk m (outbox d) (intents d) (others d) (calls d).
Definition set_body (b : Durable Body) (i : Inode) : Inode :=
  Build_Inode (st_dev i) (st_uid i) (st_nlink i) (st_mtime_ns i) (st_ctime_ns i) b.
Definition touch (n : nat) (i : Inode) : Inode :=
  Build_Inode (st_dev i) (st_uid i) (st_nlink i) (Z.of_nat n) (Z.of_nat n) (body i).

(** ** The system *)

(** What the process cannot choose: failures, random tokens, the amount a
    [read] or [write] moves, the clock and what other threads set, by the number
    of the system call. *)
Record Env := {
  euid : Z;
  umask : Z;
  directory_stat : Folder → Z * Z;      (** device and inode number *)
  fault : nat → option exc;
  token_hex : nat → string;
  fresh_inode : gmap nat Inode → nat;
  moved : nat → nat → nat;              (** of [n] bytes *)
  wall_clock : nat → string;
  listing : Names → list string;        (** [os.scandir] *)
  new_uuid : nat → string;
}.

Definition OSError (msg : string) : exc := DomainError "OSError".
Definition FileNotFoundError : exc := DomainError "FileNotFoundError".
Definition FileExistsError : exc := DomainError "FileExistsError".
Definition EOFError : exc := DomainError "EOFError".
Definition SecureFilesystemError : exc := DomainError "SecureFilesystemError".
Definition EntryIdentityMismatchError : exc := DomainError "EntryIdentityMismatchError".
Definition SecureQuarantineError : exc := DomainError "SecureQuarantineError".

Definition S_IFREG : Z := 32768.
Definition S_IFLNK : Z := 40960.
Definition S_IFMT (mode : Z) : Z := Z.land mode 61440.
Definition S_IMODE (mode : Z) : Z := Z.land mode 4095.
Definition S_ISREG (mode : Z) : bool := S_IFMT mode =? S_IFREG.

Section SecureFs.
Context (E : Env).

(** One system call: it may fail before it does anything. *)
Definition syscall {A} (m : SE Disk A) : SE Disk A := λ d,
  let d' := MkDisk (inodes d) (outbox d) (intents d) (others d) (S (calls d)) in
  match fault E (calls d) with Some e => (Err e, d') | None => m d' end.

Definition tick {A} (f : nat → A) : SE Disk A := get (λ d, f (calls d)).

(** *** System calls

    A file descriptor is the inode it was opened on. *)

Definition stat_of (n : nat) (i : Inode) : stat_result := {|
  md_dev := st_dev i; md_ino := n; md_mode := st_mode (latest (body i)); md_uid := st_uid i;
  md_nlink := st_nlink i; md_size := Z.of_nat (String.length (contents (latest (body i))));
  md_mtime_ns := st_mtime_ns i; md_ctime_ns := st_ctime_ns i |}.

Definition named (f : Folder) (name : string) (d : Disk) : option nat := latest (folder f d) !! name.

Definition inode (n : nat) : SE Disk Inode :=
  i ← get (λ d, inodes d !! n); lift (of_option (OSError "EBADF") i).
Definition update_inode (g : Inode → Inode) (n : nat) : SE Disk unit :=
  modify (λ d, set_inodes (alter g n (inodes d)) d).

(** [os.fstat] and [os.stat(name, dir_fd, follow_symlinks=False)] *)
Definition fstat (n : nat) : SE Disk stat_result := syscall (i ← inode n; mret (stat_of n i)).
Definition stat_name (f : Folder) (name : string) : SE Disk stat_result :=
  syscall (n ← get (named f name); n ← lift (of_option FileNotFoundError n);
           i ← inode n; mret (stat_of n i)).

(** [os.open(name, O_RDONLY | O_CLOEXEC | O_NOFOLLOW, dir_fd)] *)
Definition open_read (f : Folder) (name : string) : SE Disk nat :=
  syscall (n ← get (named f name); n ← lift (of_option FileNotFoundError n); i ← inode n;
           raise_if (S_IFMT (st_mode (latest (body i))) =? S_IFLNK) (OSError "ELOOP") ;; mret n).

Definition new_file (f : Folder) (mode : Z) (now : nat) : Inode :=
  Build_Inode (directory_stat E f).1 (euid E) 1 (Z.of_nat now) (Z.of_nat now)
    (synced {| st_mode := Z.lor S_IFREG (Z.land mode (Z.lnot (umask E))); contents := EmptyString |}).
(** [os.open(name, O_WRONLY | O_CREAT | O_EXCL | ..., mode, dir_fd)] *)
Definition open_create (f : Folder) (name : string) (mode : Z) : SE Disk nat :=
  syscall (n ← get (named f name);
           raise_if (opt_is_some n) FileExistsError ;;
           n ← get (λ d, fresh_inode E (inodes d));
           used ← get (λ d, inodes d !! n);
           raise_if (opt_is_some used) (OSError "ENOSPC") ;;
           modify (λ d, set_folder f (overwrite <[name := n]> (folder f d))
                          (set_inodes (<[n := new_file f mode (calls d)]> (inodes d)) d)) ;;
           mret n).

Definition write_body (s : string) (b : Body) : Body :=
  {| st_mode := st_mode b; contents := contents b +:+ s |}.
(** How much one call moves of [n > 0] bytes: between 1 and all. *)
Definition portion (now n : nat) : nat := Nat.max 1 (Nat.min n (moved E now n)).
(** [os.write] at the end of a file; the number of bytes written. *)
Definition write (n : nat) (payload : string) : SE Disk nat :=
  syscall (i ← inode n; now ← tick id;
           let k := portion now (String.length payload) in
           update_inode (λ i, touch now (set_body (overwrite (write_body (String.substring 0 k payload)) (body i)) i)) n ;;
           mret k).
(** [os.read] at an offset. *)
Definition read (n offset : nat) (count : Z) : SE Disk string :=
  syscall (i ← inode n; now ← tick id;
           let rest := String.substring offset (String.length (contents (latest (body i)))) (contents (latest (body i))) in
           mret (String.substring 0 (portion now (Z.to_nat (Z.min count (Z.of_nat (String.length rest))))) rest)).
(** [os.fsync] of a file and of a directory. *)
Definition fsync (n : nat) : SE Disk unit :=
  syscall (i ← inode n; update_inode (λ i, set_body (sync (body i)) i) n).
Definition fsync_folder (f : Folder) : SE Disk unit :=
  syscall (modify (λ d, set_folder f (sync (folder f d)) d)).
(** [os.fchmod] *)
Definition fchmod (n : nat) (mode : Z) : SE Disk unit :=
  syscall (i ← inode n; now ← tick id;
           update_inode (λ i, touch now (set_body (overwrite (λ b,
             {| st_mode := Z.lor (S_IFMT (st_mode b)) (S_IMODE mode); contents := contents b |}) (body i)) i)) n).
(** [os.close]: the descriptor is gone even when it fails. *)
Definition close (n : nat) : SE Disk unit := syscall (mret tt).

(** ** [secure_fs] *)

Definition validate_component (name label : string) : SE Disk unit :=
  raise_if (str_in name [EmptyString; "."; ".."]) (ValueError (label +:+ " is invalid")) ;;
  raise_if (opt_is_some (String.index 0 "/" name) || opt_is_some (String.index 0 (String zero EmptyString) name))
    (ValueError (label +:+ " must be one POSIX path component")).

(** [RENAME_NOREPLACE] within one directory *)
Definition rename_noreplace (f : Folder) (source destination : string) : SE Disk unit :=
  validate_component source "source name" ;;
  validate_component destination "destination name" ;;
  syscall (n ← get (named f source); n ← lift (of_option FileNotFoundError n);
           taken ← get (named f destination);
           raise_if (opt_is_some taken) FileExistsError ;;
           now ← tick id;
           modify (λ d, set_folder f (overwrite (λ names, <[destination := n]> (delete source names)) (folder f d)) d) ;;
           update_inode (touch now) n).

Record FileIdentity := {
  dir_fd : Folder; directory_dev : Z; directory_ino : Z; relative_name : string;
  id_dev : Z; id_ino : nat; id_uid : Z; file_type : Z; id_mode : Z; id_nlink : Z; id_size : Z;
}.
(** [_file_metadata_identity] *)
Definition file_metadata_identity (md : stat_result) : Z * nat * Z * Z * Z * Z :=
  (md_dev md, md_ino md, md_uid md, S_IFMT (md_mode md), S_IMODE (md_mode md), md_nlink md).
Definition matches (expected : FileIdentity) (md : stat_result) : bool :=
  bool_decide ((id_dev expected, id_ino expected, id_uid expected, file_type expected, id_mode expected,
                id_nlink expected) = file_metadata_identity md).

Definition validate_regular_file (md : stat_result) (expected_uid expected_mode : option Z) : SE Disk unit :=
  raise_if (negb (S_ISREG (md_mode md))) SecureFilesystemError ;;
  raise_if (negb (md_nlink md =? 1)) SecureFilesystemError ;;
  raise_if (match expected_uid with Some u => negb (md_uid md =? u) | None => false end) SecureFilesystemError ;;
  raise_if (match expected_mode with Some m => negb (S_IMODE (md_mode md) =? m) | None => false end) SecureFilesystemError.

Definition identity_of (f : Folder) (name : string) (md : stat_result) : FileIdentity := {|
  dir_fd := f; directory_dev := (directory_stat E f).1; directory_ino := (directory_stat E f).2;
  relative_name := name; id_dev := md_dev md; id_ino := md_ino md; id_uid := md_uid md;
  file_type := S_IFMT (md_mode md); id_mode := S_IMODE (md_mode md); id_nlink := md_nlink md; id_size := md_size md |}.

Definition capture_file_identity (f : Folder) (name : string) (fd : nat) (expected_uid expected_mode : option Z)
    : SE Disk FileIdentity :=
  validate_component name "file name" ;;
  syscall (mret tt) ;;                        (* fstat of the directory *)
  md ← fstat fd;
  validate_regular_file md expected_uid expected_mode ;;
  by_name ← stat_name f name;
  raise_if (negb (bool_decide (file_metadata_identity md = file_metadata_identity by_name))) EntryIdentityMismatchError ;;
  mret (identity_of f name md).

(** *** Logical quarantine *)

Definition QUARANTINE_ATTEMPTS : nat := 16.
Definition QUARANTINE_TOKEN_BYTES : nat := 32.

Record QuarantinePlan := { plan_prefix : string; plan_name : string }.
Record QuarantinedObject := {
  logical_delete_completed : bool; physical_delete_pending : bool; directory_synced : bool;
  restored : bool; manual_recovery_required : bool; original_name : string;
  quarantine_name : option string; qo_identity : FileIdentity; issues : list string;
}.
Definition logical_deletion_confirmed (o : QuarantinedObject) : bool :=
  logical_delete_completed o && physical_delete_pending o && directory_synced o
  && negb (manual_recovery_required o) && bool_decide (issues o = []) && opt_is_some (quarantine_name o).

Definition starts_with (p s : string) : bool := opt_is_some (after_prefix p s).

Definition validate_quarantine_prefix (prefix : string) : SE Disk unit :=
  validate_component prefix "quarantine prefix" ;;
  raise_if (negb (starts_with "." prefix)) (ValueError "quarantine prefix must be an internal dot name") ;;
  raise_if (240 <? String.length prefix + 2 * QUARANTINE_TOKEN_BYTES)%nat (ValueError "quarantine prefix is too long").

Definition validate_quarantine_plan (plan : QuarantinePlan) (prefix : string) : SE Disk unit :=
  raise_if (negb (String.eqb (plan_prefix plan) prefix))
    (ValueError "secure quarantine plan prefix does not match the operation") ;;
  validate_component (plan_name plan) "quarantine plan name" ;;
  match after_prefix prefix (plan_name plan) with
  | None => raise (ValueError "secure quarantine plan name has an invalid prefix")
  | Some token =>
      raise_if (negb ((String.length token =? 2 * QUARANTINE_TOKEN_BYTES)%nat
                      && all_chars is_lower_hex token))
        (ValueError "secure quarantine plan token is invalid")
  end.

Definition plan_quarantine_name (prefix : string) : SE Disk QuarantinePlan :=
  validate_quarantine_prefix prefix ;;
  token ← tick (token_hex E);
  mret {| plan_prefix := prefix; plan_name := prefix +:+ token |}.

Definition validate_identity_anchor (expected : FileIdentity) : SE Disk unit :=
  validate_component (relative_name expected) "file name" ;;
  raise_if (negb (id_nlink expected =? 1)) SecureFilesystemError ;;
  raise_if (negb (file_type expected =? S_IFREG)) SecureFilesystemError ;;
  syscall (mret tt) ;;                        (* fstat of the directory *)
  raise_if (negb (bool_decide (directory_stat E (dir_fd expected) = (directory_dev expected, directory_ino expected))))
    EntryIdentityMismatchError.

(** [_move_to_quarantine] *)
Fixpoint move_to_random (attempts : nat) (expected : FileIdentity) (prefix : string) : SE Disk string :=
  match attempts with
  | O => raise SecureFilesystemError
  | S attempts' =>
      token ← tick (token_hex E);
      catch (rename_noreplace (dir_fd expected) (relative_name expected) (prefix +:+ token) ;; mret (prefix +:+ token))
        (λ e, if decide (e = FileExistsError) then move_to_random attempts' expected prefix else raise e)
  end.
Definition move_to_quarantine (expected : FileIdentity) (prefix : string) (plan : option QuarantinePlan)
    : SE Disk string :=
  match plan with
  | Some p => rename_noreplace (dir_fd expected) (relative_name expected) (plan_name p) ;; mret (plan_name p)
  | None => move_to_random QUARANTINE_ATTEMPTS expected prefix
  end.

(** [_issue] *)
Definition issue_text (name : string) (e : exc) : string := name +:+ ":" +:+ type_name e.

(** What the check of the moved entry found: whether it is the expected inode,
    whether the directory was synchronised, the first error and the issues. *)
Record Checked := { identity_match : option bool; was_synced : bool; first_error : option exc; found : list string }.

(** Opening the quarantined entry, comparing it and synchronising the directory. *)
Definition check_quarantined (expected : FileIdentity) (name : string) : SE Disk Checked :=
  opened ← attempt (open_read (dir_fd expected) name);
  match opened with
  | Err e => mret {| identity_match := None; was_synced := false; first_error := Some e;
                     found := [issue_text "quarantine_validation_failed" e] |}
  | Ok fd =>
      observed ← attempt (fstat fd);
      outcome ← (match observed with
        | Err e => mret {| identity_match := None; was_synced := false; first_error := Some e;
                           found := [issue_text "quarantine_validation_failed" e] |}
        | Ok md =>
            if negb (matches expected md) then
              mret {| identity_match := Some false; was_synced := false; first_error := Some EntryIdentityMismatchError;
                      found := [issue_text "entry_identity_mismatch" EntryIdentityMismatchError] |}
            else
              flushed ← attempt (fsync_folder (dir_fd expected));
              mret (match flushed with
                | Err e => {| identity_match := Some true; was_synced := false; first_error := Some e;
                              found := [issue_text "quarantine_validation_failed" e] |}
                | Ok _ => {| identity_match := Some true; was_synced := true; first_error := None; found := [] |}
                end)
        end);
      closed ← attempt (close fd);
      mret (match closed with
        | Ok _ => outcome
        | Err e => {| identity_match := identity_match outcome; was_synced := was_synced outcome;
                      first_error := match first_error outcome with None => Some e | o => o end;
                      found := found outcome ++ [issue_text "quarantine_descriptor_close_failed" e] |}
        end)
  end.

Definition or_error (o : option exc) (e : exc) : option exc := match o with None => Some e | _ => o end.

(** Renaming an entry back that is not the expected one, then synchronising. *)
Definition restore_entry (expected : FileIdentity) (name : string) (c : Checked) : SE Disk (bool * Checked) :=
  back ← attempt (rename_noreplace (dir_fd expected) name (relative_name expected));
  let '(ok, c1) := match back with
    | Ok _ => (true, c)
    | Err e => (false, {| identity_match := identity_match c; was_synced := was_synced c;
                          first_error := or_error (first_error c) e;
                          found := found c ++ [issue_text "quarantine_restore_failed" e] |})
    end in
  flushed ← attempt (fsync_folder (dir_fd expected));
  mret (ok, match flushed with
    | Ok _ => c1
    | Err e => {| identity_match := identity_match c1; was_synced := was_synced c1;
                  first_error := or_error (first_error c1) e;
                  found := found c1 ++ [issue_text "recovery_directory_fsync_failed" e] |}
    end).
Definition sync_again (expected : FileIdentity) (c : Checked) : SE Disk Checked :=
  flushed ← attempt (fsync_folder (dir_fd expected));
  mret (match flushed with
    | Ok _ => c
    | Err e => {| identity_match := identity_match c; was_synced := was_synced c;
                  first_error := or_error (first_error c) e;
                  found := found c ++ [issue_text "recovery_directory_fsync_failed" e] |}
    end).

(** The result, returned or raised; with a primary error it is always returned,
    and only noted on that error. *)
Definition conclude_quarantine (primary_error : bool) (expected : FileIdentity) (quarantined done back : bool)
    (name : option string) (c : Checked) : SE Disk QuarantinedObject :=
  let o := {| logical_delete_completed := done; physical_delete_pending := done; directory_synced := was_synced c;
              restored := back;
              manual_recovery_required := opt_is_some (first_error c) || (quarantined && negb done)
                || bool_decide (identity_match c = Some false) || (done && negb (was_synced c));
              original_name := relative_name expected; quarantine_name := name; qo_identity := expected;
              issues := found c |} in
  match first_error c with
  | None => mret o
  | Some _ => if primary_error then mret o else raise SecureQuarantineError
  end.

Definition logical_quarantine (expected : FileIdentity) (prefix : string) (plan : option QuarantinePlan)
    (primary_error : bool) : SE Disk QuarantinedObject :=
  validate_quarantine_prefix prefix ;;
  (match plan with Some p => validate_quarantine_plan p prefix | None => mret tt end) ;;
  anchor ← attempt (validate_identity_anchor expected);
  match anchor with
  | Err e => conclude_quarantine primary_error expected false false false None
               {| identity_match := None; was_synced := false; first_error := Some e;
                  found := [issue_text "identity_anchor_validation_failed" e] |}
  | Ok _ =>
      moved ← attempt (move_to_quarantine expected prefix plan);
      match moved with
      | Err e => conclude_quarantine primary_error expected false false false None
                   {| identity_match := None; was_synced := false; first_error := Some e;
                      found := [issue_text "quarantine_rename_failed" e] |}
      | Ok name =>
          c ← check_quarantined expected name;
          if negb (bool_decide (identity_match c = Some true)) then
            '(back, c') ← restore_entry expected name c;
            conclude_quarantine primary_error expected true false back (if back : bool then None else Some name) c'
          else if was_synced c then conclude_quarantine primary_error expected true true false (Some name) c
          else c' ← sync_again expected c; conclude_quarantine primary_error expected true false false (Some name) c'
      end
  end.
End SecureFs.
