(* ===== verification/Staging.v ===== *)
(** * Staging of artifacts

    [class SQLiteArtifactStager] of [application/artifacts.py], without pruning:
    the staging transaction and its race with cancellation, the private copy of a
    source into the outbox under a durable intent, its publication and its row in
    [pending_uploads], and the reconciliation of what an interruption left.  The
    source file belongs to others: what the process reads of it is arbitrary.  The
    managed directories are opened by one system call that may fail. *)

From Stdlib Require Import Ascii.
From S2P Require Export SecureFs AgentServices JsonAscii.

Definition StagingCancelled : exc := DomainError "_StagingCancelled".
Definition ReconciliationCancelled : exc := DomainError "_ReconciliationCancelled".
Definition ReconciliationLimitExceeded : exc := DomainError "_ReconciliationLimitExceeded".
Definition ArtifactReconciliationError : exc := DomainError "ArtifactReconciliationError".
Definition ContractValidationError : exc := DomainError "ContractValidationError".

(** ** The staging transaction *)

Inductive StagingState := COPYING | READY_TO_COMMIT | COMMITTING | COMMITTED | ABORTED.
#[global] Instance StagingState_eq_dec : EqDecision StagingState.
Proof. solve_decision. Defined.

Record Transaction := { tx_state : StagingState; tx_stop : bool; tx_answers : list bool }.
Definition new_transaction : Transaction := {| tx_state := COPYING; tx_stop := false; tx_answers := [] |}.
Definition abort (t : Transaction) : Transaction :=
  {| tx_state := ABORTED; tx_stop := true; tx_answers := tx_answers t |}.
Definition enter (st : StagingState) (t : Transaction) : Transaction :=
  {| tx_state := st; tx_stop := tx_stop t; tx_answers := tx_answers t |}.

(** [request_cancel], under the lock *)
Definition request_cancel (t : Transaction) : bool * Transaction :=
  match tx_state t with
  | COPYING | READY_TO_COMMIT => (false, abort t)
  | COMMITTING | COMMITTED => (true, t)
  | ABORTED => (false, t)
  end.
Definition commit_started (t : Transaction) : bool :=
  match tx_state t with COMMITTING | COMMITTED => true | _ => false end.

(** ** The stager *)

Record Stager := MkStager {
  disk : Disk; db : Store; transaction : Transaction;
  entries_inspected : Z; bytes_inspected : Z;        (** of the reconciliation *)
  maintenance : list string;
}.
Definition set_disk (d : Disk) (w : Stager) : Stager :=
  MkStager d (db w) (transaction w) (entries_inspected w) (bytes_inspected w) (maintenance w).
Definition set_db (s : Store) (w : Stager) : Stager :=
  MkStager (disk w) s (transaction w) (entries_inspected w) (bytes_inspected w) (maintenance w).
Definition set_transaction (t : Transaction) (w : Stager) : Stager :=
  MkStager (disk w) (db w) t (entries_inspected w) (bytes_inspected w) (maintenance w).
Definition set_inspected (n b : Z) (w : Stager) : Stager :=
  MkStager (disk w) (db w) (transaction w) n b (maintenance w).
Definition set_maintenance (l : list string) (w : Stager) : Stager :=
  MkStager (disk w) (db w) (transaction w) (entries_inspected w) (bytes_inspected w) l.

(** What other threads and the clock do, by the number of the call. *)
Record Signals := {
  cancel_requested : nat → bool;     (** someone calls [request_cancel] *)
  token_cancelled : nat → bool;      (** [cancellation.cancelled] *)
  stop_set : nat → bool;             (** the stop event of a reconciliation *)
  deadline_passed : nat → bool;
}.
Record Limits := { maximum_entries : Z; maximum_bytes : Z }.

(** The artifact to stage, as others keep it. *)
Record Source := {
  open_source : result unit;
  source_stat : nat → result stat_result;
  source_read : nat → result string;
}.

Record StagedArtifact := { staged_path : string; staged_manifest : list (string * json) }.

Record ArtifactIntent := {
  intent_name : string; temporary_name : string; final_name : string; intent_task_id : string;
  manifest : list (string * json); intent_identity : FileIdentity;
  capture_authority : option (list (string * json));
}.
Definition relative_path_of (final : string) : string := "outbox/" +:+ final.

Definition chunk_size : Z := 1048576.
Definition maximum_intent_bytes : Z := 1048576.
Definition temporary_mode : Z := 384.       (* 0o600 *)
Definition final_mode : Z := 256.           (* 0o400 *)
Definition stable_identity_fields : list string :=
  ["schema_version"; "artifact_id"; "execution_id"; "artifact_type"; "media_type"; "idempotency_key"].
Definition intent_quarantine_prefix : string := ".artifact-intent-quarantine-".
Definition authority_fields : list string :=
  ["task_id"; "execution_id"; "idempotency_key"; "fingerprint_version"; "fingerprint_sha256"; "operation_token"].
Definition intent_fields : list string :=
  ["version"; "recorded_at"; "task_id"; "artifact_id"; "execution_id"; "temporary_name"; "final_name";
   "size_bytes"; "sha256"; "media_type"; "manifest"].
(** [set(document) == set(names)] for a [dict] *)
Definition has_exactly (names : list string) (kvs : list (string * json)) : bool :=
  forallb (λ kv, str_in kv.1 names) kvs && forallb (λ n, opt_is_some (dict_get kvs n)) names.
Definition ends_with (p s : string) : bool :=
  (String.length p <=? String.length s)%nat
  && String.eqb (String.substring (String.length s - String.length p) (String.length p) s) p.
Definition contains_slash (s : string) : bool := opt_is_some (String.index 0 "/" s).
(** [re.fullmatch("[0-9a-f]{n}", s)] *)
Definition hex_of_length (n : nat) (s : string) : bool := (String.length s =? n)%nat && all_chars is_lower_hex s.

(** [_is_safe_outbox_relative] *)
Definition is_safe_outbox_relative (value : string) : bool :=
  negb (opt_is_some (String.index 0 (String zero EmptyString) value))
  && negb (is_absolute value)
  && match posix_parts value with
     | [a; b] => String.eqb a "outbox" && negb (str_in b [EmptyString; "."; ".."])
     | _ => false
     end
  && String.eqb (as_posix value) value.

Section Staging.
Context `{Sha256} `{PythonText} `{UuidText}.
Context (float_equal : json → json → bool) (valid_manifest : json → bool).
Context (E : Env) (G : Signals) (L : Limits).

Definition on_disk {A} (m : SE Disk A) : SE Stager A := λ w,
  let '(r, d) := m (disk w) in (r, set_disk d w).
(** A transaction of the database, which may fail before it does anything. *)
Definition with_db {A} (m : SE Store A) : SE Stager A := λ w, let '(r, s) := m (db w) in (r, set_db s w).
Definition on_db {A} (m : SE Store A) : SE Stager A := on_disk (syscall E (mret tt)) ;; with_db m.
(** Reading what others decide. *)
Definition observe {A} (f : nat → A) : SE Stager A := λ w,
  (Ok (f (calls (disk w))), set_disk (MkDisk (inodes (disk w)) (outbox (disk w)) (intents (disk w)) (others (disk w)) (S (calls (disk w)))) w).
Definition any_call : SE Stager unit := on_disk (syscall E (mret tt)).
Definition raise_type_error {A} : SE Stager A := raise (DomainError "TypeError").

(** *** Methods of the transaction *)

Definition on_transaction (f : Transaction → Transaction) : SE Stager unit :=
  modify (λ w, set_transaction (f (transaction w)) w).
(** Before a worker takes the lock, another thread may have asked to cancel. *)
Definition outsider : SE Stager unit :=
  asked ← observe (cancel_requested G);
  if asked : bool then on_transaction (λ t, let '(b, t') := request_cancel t in
    {| tx_state := tx_state t'; tx_stop := tx_stop t'; tx_answers := tx_answers t' ++ [b] |})
  else mret tt.
Definition in_state (st : StagingState) (t : Transaction) : bool := bool_decide (tx_state t = st).

Definition tx_check : SE Stager unit :=
  outsider ;;
  t ← get transaction;
  cancelled ← observe (token_cancelled G);
  if in_state ABORTED t || cancelled || tx_stop t then
    on_transaction (λ t, (request_cancel t).2) ;; raise StagingCancelled
  else
    late ← observe (deadline_passed G);
    if late : bool then on_transaction (λ t, (request_cancel t).2) ;; raise TimeoutError else mret tt.

(** [ready] and [begin_commit]: from one state to the next. *)
Definition advance (from to : StagingState) : SE Stager unit :=
  outsider ;;
  t ← get transaction;
  cancelled ← observe (token_cancelled G);
  if negb (in_state from t) || cancelled || tx_stop t then
    on_transaction abort ;; raise StagingCancelled
  else
    late ← observe (deadline_passed G);
    if late : bool then on_transaction abort ;; raise TimeoutError
    else on_transaction (enter to).
Definition ready : SE Stager unit := advance COPYING READY_TO_COMMIT.
Definition begin_commit : SE Stager unit := advance READY_TO_COMMIT COMMITTING.
Definition committed : SE Stager unit :=
  outsider ;;
  t ← get transaction;
  raise_if (negb (in_state COMMITTING t)) (RuntimeError "artifact staging commit state is invalid") ;;
  on_transaction (enter COMMITTED).

(** *** [_ReconciliationControl] *)

Definition control_check : SE Stager unit :=
  stopped ← observe (stop_set G);
  raise_if stopped ReconciliationCancelled ;;
  late ← observe (deadline_passed G);
  raise_if late TimeoutError.
Definition inspect_entry : SE Stager unit :=
  control_check ;;
  modify (λ w, set_inspected (entries_inspected w + 1) (bytes_inspected w) w) ;;
  n ← get entries_inspected;
  raise_if (maximum_entries L <? n) ReconciliationLimitExceeded.
Definition inspect_bytes (size : Z) : SE Stager unit :=
  control_check ;;
  modify (λ w, set_inspected (entries_inspected w) (bytes_inspected w + size) w) ;;
  n ← get bytes_inspected;
  raise_if (maximum_bytes L <? n) ReconciliationLimitExceeded.
(** [_raise_if_reconciliation_stopped] *)
Definition reconciliation_stopped (e : exc) : bool :=
  bool_decide (e ∈ [ReconciliationCancelled; ReconciliationLimitExceeded; TimeoutError]).

(** *** Files *)

(** [_close_descriptors] of [n] descriptors in a [finally]: all are closed, the
    first failure is raised if there is no error yet. *)
Fixpoint close_all (n : nat) : SE Stager (option exc) :=
  match n with
  | O => mret None
  | S n' => closed ← attempt (on_disk (close E 0)); rest ← close_all n';
            mret (match closed with Err e => Some e | Ok _ => rest end)
  end.
Definition finally_close {A} (n : nat) (m : SE Stager A) : SE Stager A :=
  r ← attempt m;
  failed ← close_all n;
  match r, failed with
  | Err e, _ => raise e
  | Ok _, Some e => raise e
  | Ok a, None => mret a
  end.
(** A descriptor that is still open when [m] raises. *)
Definition on_error_close {A} (m : SE Stager A) : SE Stager A :=
  catch m (λ e, attempt (on_disk (close E 0)) ;; raise e).

Definition open_managed_tree : SE Stager unit := any_call.

(** [_write_all] *)
Fixpoint write_all (fuel fd : nat) (payload : string) : SE Disk unit :=
  match fuel with
  | O => mret tt
  | S fuel' =>
      if String.eqb payload EmptyString then mret tt
      else n ← write E fd payload;
           write_all fuel' fd (String.substring n (String.length payload) payload)
  end.
(** [_read_exact_file]; [size] rounds are enough. *)
Fixpoint read_exact (fuel fd size : nat) (acc : string) : SE Disk string :=
  if (size <=? String.length acc)%nat then mret acc
  else match fuel with
  | O => mret acc
  | S fuel' =>
      chunk ← read E fd (String.length acc) (Z.of_nat (size - String.length acc));
      raise_if (String.eqb chunk EmptyString) EOFError ;;
      read_exact fuel' fd size (acc +:+ chunk)
  end.
(** [_hash_descriptor], the contents standing for their digest *)
Fixpoint hash_contents (controlled : bool) (fuel fd : nat) (acc : string) : SE Stager string :=
  match fuel with
  | O => mret acc
  | S fuel' =>
      (if controlled then control_check else mret tt) ;;
      chunk ← on_disk (read E fd (String.length acc) chunk_size);
      if String.eqb chunk EmptyString then mret acc
      else
        (if controlled then inspect_bytes (Z.of_nat (String.length chunk)) else mret tt) ;;
        hash_contents controlled fuel' fd (acc +:+ chunk)
  end.
Definition hash_descriptor (controlled : bool) (fd : nat) : SE Stager (string * Z) :=
  any_call ;;
  size ← get (λ w, match inodes (disk w) !! fd with Some i => String.length (contents (latest (body i))) | None => O end);
  data ← hash_contents controlled (S size) fd EmptyString;
  mret (sha256_hex data, Z.of_nat (String.length data)).

Definition validate_private_file (md : stat_result) (expected_mode : Z) : SE Stager unit :=
  raise_if (negb (S_ISREG (md_mode md))) (PermissionError "artifact object is not a regular file") ;;
  raise_if (negb (md_uid md =? euid E)) (PermissionError "artifact object owner does not match service account") ;;
  raise_if (negb (md_nlink md =? 1)) (PermissionError "artifact object must have one hard link") ;;
  raise_if (negb (S_IMODE (md_mode md) =? expected_mode)) (PermissionError "artifact object mode is invalid").

(** [_source_fingerprint] *)
Definition source_fingerprint (md : stat_result) : Z * nat * Z * Z * Z * Z * Z * Z :=
  (md_dev md, md_ino md, md_mode md, md_uid md, md_nlink md, md_size md, md_mtime_ns md, md_ctime_ns md).

Definition validate_named_artifact (controlled : bool) (name : string) (expected_size : Z) (expected_sha256 : string)
    : SE Stager FileIdentity :=
  fd ← on_disk (open_read E OUTBOX name);
  finally_close 1 (
    md ← on_disk (fstat E fd);
    validate_private_file md final_mode ;;
    identity ← on_disk (capture_file_identity E OUTBOX name fd (Some (euid E)) (Some final_mode));
    raise_if (negb (md_size md =? expected_size)) (RuntimeError "queued artifact size changed") ;;
    '(digest, size) ← hash_descriptor controlled fd;
    raise_if (negb (size =? expected_size) || negb (String.eqb digest expected_sha256))
      (RuntimeError "queued artifact integrity changed") ;;
    after ← on_disk (fstat E fd);
    raise_if (negb (bool_decide (source_fingerprint md = source_fingerprint after)))
      (RuntimeError "queued artifact changed during validation") ;;
    mret identity).

Definition validate_owned_regular (name : string) : SE Stager FileIdentity :=
  fd ← on_disk (open_read E OUTBOX name);
  finally_close 1 (
    md ← on_disk (fstat E fd);
    raise_if (negb (S_ISREG (md_mode md))) (PermissionError "untracked artifact is not a regular file") ;;
    raise_if (negb (md_uid md =? euid E) || negb (md_nlink md =? 1))
      (PermissionError "untracked artifact ownership is invalid") ;;
    on_disk (capture_file_identity E OUTBOX name fd (Some (euid E)) (Some (S_IMODE (md_mode md))))).

(** [_entry_exists] *)
Definition entry_exists (name : string) : SE Stager bool :=
  catch (on_disk (stat_name E OUTBOX name) ;; mret true)
    (λ e, if decide (e = FileNotFoundError) then mret false else raise e).

Definition record_quarantine (name context : string) : SE Stager unit :=
  modify (λ w, let issue := context +:+ ":physical_delete_pending:" +:+ name in
    if str_in issue (maintenance w) then w else set_maintenance (maintenance w ++ [issue]) w).

(** Quarantining an entry that has to be gone afterwards. *)
Definition remove_durably (identity : FileIdentity) (prefix message context : string) : SE Stager unit :=
  o ← on_disk (logical_quarantine E identity prefix None false);
  if logical_deletion_confirmed o then
    match quarantine_name o with Some name => record_quarantine name context | None => raise AssertionError end
  else raise (RuntimeError message).
Definition remove_intent (identity : FileIdentity) : SE Stager unit :=
  remove_durably identity intent_quarantine_prefix "artifact intent quarantine was not durable" "artifact_intent".

(** [_publish_without_overwrite] *)
Definition publish_without_overwrite (temporary final : string) : SE Stager unit :=
  on_disk (rename_noreplace E OUTBOX temporary final).

(** [store.ensure_artifact_queued(task_id, relative_path, media_type, payload)] *)
Definition ensure_queued (task_id relative_path : string) (payload : list (string * json)) : SE Stager unit :=
  media_type ← lift (text_at "media_type" (JObj payload));
  artifact_id ← lift (text_at "artifact_id" (JObj payload));
  size ← lift (int_at "size_bytes" (JObj payload));
  sha256 ← lift (text_at "sha256" (JObj payload));
  now ← observe (wall_clock E);
  upload_id ← observe (new_uuid E);
  on_db (ensure_artifact_queued now upload_id task_id relative_path media_type artifact_id size sha256 (JObj payload)) ;;
  mret tt.

(** *** Intents *)

(** [_validate_capture_intent_authority] *)
Definition validate_capture_intent_authority (authority : list (string * json)) (task_id : string)
    (manifest : list (string * json)) : SE Stager unit :=
  let check_id name (expected : option json) : SE Stager unit :=
    match dict_get authority name, expected with
    | Some (JStr observed), Some (JStr wanted) =>
        raise_if (negb (String.eqb observed wanted)) (ValueError "artifact intent capture authority is inconsistent") ;;
        raise_if (negb (bool_decide (uuid_text observed = Some observed)))
          (ValueError "artifact intent capture authority is invalid")
    | _, _ => raise (ValueError "artifact intent capture authority is inconsistent")
    end in
  check_id "task_id" (Some (JStr task_id)) ;;
  check_id "execution_id" (dict_get manifest "execution_id") ;;
  check_id "idempotency_key" (dict_get manifest "idempotency_key") ;;
  raise_if (negb (match dict_get manifest "artifact_id", dict_get authority "idempotency_key" with
                  | Some a, Some k => py_equal float_equal a k | _, _ => false end))
    (ValueError "artifact intent capture artifact id is inconsistent") ;;
  match dict_get authority "fingerprint_version", dict_get authority "fingerprint_sha256",
        dict_get authority "operation_token" with
  | Some (JStr v), Some (JStr f), Some (JStr o) =>
      raise_if (String.eqb v EmptyString || negb (hex_of_length 64 f) || negb (hex_of_length 32 o))
        (ValueError "artifact intent capture fingerprint authority is invalid")
  | _, _, _ => raise (ValueError "artifact intent capture fingerprint authority is invalid")
  end.

(** The document of an intent. *)
Definition intent_document (recorded_at task_id temporary final : string) (manifest : list (string * json))
    (authority : option (list (string * json))) : result json :=
  artifact_id ← at_key "artifact_id" (JObj manifest);
  execution_id ← at_key "execution_id" (JObj manifest);
  size ← at_key "size_bytes" (JObj manifest);
  sha256 ← at_key "sha256" (JObj manifest);
  media_type ← at_key "media_type" (JObj manifest);
  mret (JObj ([("version", JInt (match authority with Some _ => 2 | None => 1 end)); ("recorded_at", JStr recorded_at);
               ("task_id", JStr task_id); ("artifact_id", artifact_id); ("execution_id", execution_id);
               ("temporary_name", JStr temporary); ("final_name", JStr final); ("size_bytes", size);
               ("sha256", sha256); ("media_type", media_type); ("manifest", JObj manifest)]
              ++ match authority with Some a => [("capture_authority", JObj a)] | None => [] end)).

(** Quarantining an intent that could not be made durable; the error goes on. *)
Definition discard_intent {A} (identity : FileIdentity) (e : exc) : SE Stager A :=
  o ← on_disk (logical_quarantine E identity intent_quarantine_prefix None true);
  (if logical_deletion_confirmed o then
     match quarantine_name o with Some name => record_quarantine name "artifact_intent" | None => raise AssertionError end
   else mret tt) ;;
  raise e.

(** [_write_intent] *)
Definition write_intent (task_id temporary final : string) (manifest : list (string * json))
    (authority : option (list (string * json))) : SE Stager ArtifactIntent :=
  token ← observe (token_hex E);
  recorded_at ← observe (wall_clock E);
  let name := "intent-" +:+ token +:+ ".json" in
  payload ← lift (intent_document recorded_at task_id temporary final manifest authority);
  (match authority with
   | Some a =>
       raise_if (negb (has_exactly authority_fields a)) (ValueError "capture artifact intent authority is invalid") ;;
       validate_capture_intent_authority a task_id manifest
   | None => mret tt
   end) ;;
  let encoded := ascii_json payload in
  raise_if (maximum_intent_bytes <? Z.of_nat (String.length encoded)) (RuntimeError "artifact intent is too large") ;;
  fd ← on_disk (open_create E INTENTS name temporary_mode);
  captured ← attempt (on_disk (capture_file_identity E INTENTS name fd (Some (euid E)) (Some temporary_mode)));
  match captured with
  | Err e => attempt (on_disk (close E fd)) ;; raise e
  | Ok identity =>
      written ← attempt (on_disk (write_all (String.length encoded) fd encoded ;; fsync E fd));
      closed ← attempt (on_disk (close E fd));
      match written, closed with
      | Err e, _ | Ok _, Err e => discard_intent identity e
      | Ok _, Ok _ =>
          flushed ← attempt (on_disk (fsync_folder E INTENTS));
          match flushed with
          | Err e => discard_intent identity e
          | Ok _ => mret {| intent_name := name; temporary_name := temporary; final_name := final;
                            intent_task_id := task_id; manifest := manifest; intent_identity := identity;
                            capture_authority := authority |}
          end
      end
  end.

(** The checks of [_read_intent] on a decoded document. *)
Definition parse_intent (name : string) (identity : FileIdentity) (payload : option json) : SE Stager ArtifactIntent :=
  match payload with
  | Some (JObj kvs) =>
      match dict_get kvs "version" with
      | None => raise (ValueError "artifact intent payload is invalid")
      | Some (JList _) | Some (JObj _) => raise_type_error
      | Some version =>
          raise_if (negb (py_equal float_equal version (JInt 1) || py_equal float_equal version (JInt 2)))
            (ValueError "artifact intent payload is invalid") ;;
          let second := py_equal float_equal version (JInt 2) in
          authority ← (if second then
              match dict_get kvs "capture_authority" with
              | Some (JObj a) =>
                  raise_if (negb (has_exactly authority_fields a))
                    (ValueError "artifact intent capture authority is invalid") ;; mret (Some a)
              | _ => raise (ValueError "artifact intent capture authority is invalid")
              end
            else mret None);
          raise_if (negb (has_exactly (intent_fields ++ if second then ["capture_authority"] else []) kvs))
            (ValueError "artifact intent payload is invalid") ;;
          match dict_get kvs "temporary_name", dict_get kvs "final_name", dict_get kvs "task_id", dict_get kvs "manifest" with
          | Some (JStr temporary), Some (JStr final), Some (JStr task_id), Some (JObj m) =>
              raise_if (negb (starts_with ".staging-" temporary) || contains_slash temporary
                        || negb (starts_with "artifact-" final) || contains_slash final)
                (ValueError "artifact intent fields are invalid") ;;
              raise_if (negb (valid_manifest (JObj m))) ContractValidationError ;;
              for_each ["artifact_id"; "execution_id"; "size_bytes"; "sha256"; "media_type"] (λ key,
                a ← lift (at_key key (JObj kvs)); b ← lift (at_key key (JObj m));
                raise_if (negb (py_equal float_equal a b)) (ValueError "artifact intent manifest is inconsistent")) ;;
              (match authority with Some a => validate_capture_intent_authority a task_id m | None => mret tt end) ;;
              mret {| intent_name := name; temporary_name := temporary; final_name := final; intent_task_id := task_id;
                      manifest := m; intent_identity := identity; capture_authority := authority |}
          | _, _, _, _ => raise (ValueError "artifact intent fields are invalid")
          end
      end
  | _ => raise (ValueError "artifact intent payload is invalid")
  end.

(** [_read_intent] *)
Definition read_intent (name : string) : SE Stager ArtifactIntent :=
  raise_if (negb (starts_with "intent-" name) || negb (ends_with ".json" name) || contains_slash name)
    (ValueError "artifact intent name is invalid") ;;
  fd ← on_disk (open_read E INTENTS name);
  '(identity, payload) ← finally_close 1 (
    md ← on_disk (fstat E fd);
    validate_private_file md temporary_mode ;;
    identity ← on_disk (capture_file_identity E INTENTS name fd (Some (euid E)) (Some temporary_mode));
    raise_if ((md_size md <=? 0) || (maximum_intent_bytes <? md_size md)) (RuntimeError "artifact intent size is invalid") ;;
    inspect_bytes (md_size md) ;;
    encoded ← on_disk (read_exact (Z.to_nat (md_size md)) fd (Z.to_nat (md_size md)) EmptyString);
    raise_if (negb (is_utf8 encoded)) (ValueError "UnicodeDecodeError") ;;
    payload ← lift (of_option (ValueError "JSONDecodeError") (json_loads encoded));
    mret (identity, payload));
  parse_intent name identity (Some payload).
End Staging.
