(* ===== verification/Stager.v ===== *)
(** * The artifact stager

    The operations of [class SQLiteArtifactStager] built from the parts of
    [Staging]: reconciling an intent, reconciling before a lookup, finding what is
    already staged, and staging itself.  The worker threads run to their end; the
    cancellation of the caller reaches them through the transaction. *)

From S2P Require Export Staging.

Section Stager.
Context `{Sha256} `{PythonText} `{UuidText}.
Context (float_equal : json → json → bool) (valid_manifest : json → bool).
Context (E : Env) (G : Signals) (L : Limits).

Abbreviation validate_named_artifact := (validate_named_artifact E G L).
Abbreviation remove_intent := (remove_intent E).
Abbreviation entry_exists := (entry_exists E).
Abbreviation ensure_queued := (ensure_queued E).
Abbreviation control_check := (control_check G).

(** ** Reconciliation *)

(** [cast(int, manifest["size_bytes"])] and [str(manifest["sha256"])] *)
Definition expected_size (i : ArtifactIntent) : result Z := int_at "size_bytes" (JObj (manifest i)).
Definition expected_sha256 (i : ArtifactIntent) : result string := text_at "sha256" (JObj (manifest i)).
Definition validate_staged (i : ArtifactIntent) (name : string) : SE Stager FileIdentity :=
  size ← lift (expected_size i);
  sha256 ← lift (expected_sha256 i);
  validate_named_artifact true name size sha256.
Definition queue_intent (i : ArtifactIntent) : SE Stager unit :=
  ensure_queued (intent_task_id i) (relative_path_of (final_name i)) (manifest i).
Definition remove_temporary (identity : FileIdentity) : SE Stager unit :=
  remove_durably E identity ".artifact-reconcile-quarantine-" "artifact temporary quarantine was not durable"
    "artifact_temporary".

(** [_reconcile_intent]; the set of protected temporaries is only read by the
    full reconciliation. *)
Definition reconcile_intent (i : ArtifactIntent) : SE Stager unit :=
  published ← entry_exists (final_name i);
  if published : bool then
    validate_staged i (final_name i) ;;
    control_check ;;
    queue_intent i ;;
    remnant ← entry_exists (temporary_name i);
    (if remnant : bool then
       identity ← validate_owned_regular E (temporary_name i);
       control_check ;;
       remove_temporary identity
     else mret tt) ;;
    control_check ;;
    remove_intent (intent_identity i)
  else
    staged ← entry_exists (temporary_name i);
    if staged : bool then
      identity ← validate_staged i (temporary_name i);
      control_check ;;
      match capture_authority i with
      | None =>
          remove_temporary identity ;;
          control_check ;;
          remove_intent (intent_identity i)
      | Some _ =>
          publish_without_overwrite E (temporary_name i) (final_name i) ;;
          on_disk (fsync_folder E OUTBOX) ;;
          validate_staged i (final_name i) ;;
          control_check ;;
          queue_intent i ;;
          control_check ;;
          remove_intent (intent_identity i)
      end
    else
      raise_if (opt_is_some (capture_authority i))
        (RuntimeError "capture artifact intent has neither staged nor published bytes") ;;
      control_check ;;
      remove_intent (intent_identity i).

(** [error]s of one entry are collected unless they stop the reconciliation. *)
Definition collect (name : string) (m : SE Stager (list string)) : SE Stager (list string) :=
  catch m (λ e, if reconciliation_stopped e then raise e else mret [name +:+ ":" +:+ type_name e]).

(** The loop over the intents, for those of the artifact or its execution. *)
Fixpoint reconcile_entries (artifact_id execution_id : option string) (names : list string)
    : SE Stager (list string) :=
  match names with
  | [] => mret []
  | name :: names' =>
      inspect_entry G L ;;
      issues ← (if starts_with intent_quarantine_prefix name then
                  record_quarantine name "artifact_intent" ;; mret []
                else collect name (
                  i ← read_intent float_equal valid_manifest E G L name;
                  artifact ← lift (text_at "artifact_id" (JObj (manifest i)));
                  (if bool_decide (artifact_id = Some artifact)
                      || (match dict_get (manifest i) "execution_id", execution_id with
                          | Some (JStr x), Some y => String.eqb x y
                          | None, None | Some JNull, None => true
                          | _, _ => false
                          end)
                   then reconcile_intent i else mret tt) ;; mret []));
      rest ← reconcile_entries artifact_id execution_id names';
      mret (issues ++ rest)
  end.

(** The check of a row and its file, in both reconciliations. *)
Definition check_row (u : UploadRow) : SE Stager (list string) :=
  let relative := pu_relative_path u in
  if negb (is_safe_outbox_relative relative) then mret [relative +:+ ":unsafe_sqlite_path"]
  else
    present ← entry_exists (posix_name relative);
    if negb present then mret [relative +:+ ":sqlite_artifact_missing"]
    else collect (posix_name relative) (
      validate_named_artifact true (posix_name relative) (pu_size_bytes u) (pu_sha256 u) ;; mret []).
(** The row already queued for the artifact. *)
Definition reconcile_row (artifact_id : string) : SE Stager (list string) :=
  inspect_entry G L ;;
  row ← on_db E (artifact_upload artifact_id);
  match row with
  | None => mret []
  | Some u => check_row u
  end.

(** [_reconcile_relevant_sync] *)
Definition reconcile_relevant (artifact_id execution_id : option string) : SE Stager unit :=
  open_managed_tree E ;;
  finally_close E 4 (
    names ← (any_call E ;; get (λ w, listing E (latest (intents (disk w)))));
    issues ← reconcile_entries artifact_id execution_id names;
    more ← match artifact_id with Some a => reconcile_row a | None => mret [] end;
    raise_if (negb (bool_decide (issues ++ more = []))) ArtifactReconciliationError).

(** *** At startup

    The directories are opened and synchronised, then every intent is recovered
    and the rows that still have to be uploaded are checked.  Nothing is pruned in
    this model, so the journal of pruning is empty and has nothing to reconcile. *)

(** The loop of [_reconcile_startup_sync] over all intents *)
Fixpoint reconcile_intents (names : list string) : SE Stager (list string) :=
  match names with
  | [] => mret []
  | name :: names' =>
      inspect_entry G L ;;
      issues ← (if starts_with intent_quarantine_prefix name then
                  record_quarantine name "artifact_intent" ;; mret []
                else collect name (
                  i ← read_intent float_equal valid_manifest E G L name;
                  reconcile_intent i ;; mret []));
      rest ← reconcile_intents names';
      mret (issues ++ rest)
  end.
Fixpoint check_rows (rows : list UploadRow) : SE Stager (list string) :=
  match rows with
  | [] => mret []
  | u :: rows' => inspect_entry G L ;; issues ← check_row u; rest ← check_rows rows'; mret (issues ++ rest)
  end.
Definition active_states : list DeliveryState := [D_PENDING; D_IN_FLIGHT; D_FAILED].
(** [_reconcile_startup_sync] *)
Definition reconcile_startup : SE Stager unit :=
  open_managed_tree E ;;
  finally_close E 8 (
    names ← (any_call E ;; get (λ w, listing E (latest (intents (disk w)))));
    issues ← reconcile_intents names;
    inspected ← get entries_inspected;
    let remaining := Z.max 1 (maximum_entries L - inspected) in
    control_check ;;
    count ← on_db E (artifact_upload_count active_states);
    raise_if (remaining <? count) ReconciliationLimitExceeded ;;
    control_check ;;
    rows ← on_db E (artifact_uploads active_states (Z.min 10000 remaining));
    more ← check_rows rows;
    raise_if (negb (bool_decide (issues ++ more = []))) ArtifactReconciliationError).
(** [__init__], from the opened directories on *)
Definition start_stager : SE Stager unit :=
  open_managed_tree E ;;
  finally_close E 8 (on_disk (fsync_folder E OUTBOX)) ;;
  modify (set_inspected 0 0) ;;
  reconcile_startup.

(** ** What is staged already *)

(** [_validate_row_payload] *)
Definition validate_row_payload (u : UploadRow) : SE Stager (list (string * json)) :=
  payload ← lift (of_option (ValueError "JSONDecodeError") (json_loads (pu_payload u)));
  match payload with
  | JObj kvs =>
      size ← lift (json_int (default (JInt (-1)) (dict_get kvs "size_bytes")));
      raise_if (negb (size =? pu_size_bytes u)
                || negb (String.eqb (json_text (default JNull (dict_get kvs "sha256"))) (pu_sha256 u)))
        (RuntimeError "queued artifact manifest is inconsistent") ;;
      raise_if (negb (valid_manifest payload)) ContractValidationError ;;
      mret kvs
  | _ => raise (RuntimeError "queued artifact manifest is inconsistent")
  end.

(** [_validate_upload_row]; paths are relative to the artifact root. *)
Definition validate_upload_row (controlled : bool) (u : UploadRow) : SE Stager string :=
  let relative := pu_relative_path u in
  raise_if (negb (is_safe_outbox_relative relative)) (ValueError "queued artifact path is unsafe") ;;
  open_managed_tree E ;;
  finally_close E 4 (
    validate_named_artifact controlled (posix_name relative) (pu_size_bytes u) (pu_sha256 u)) ;;
  validate_row_payload u ;;
  mret relative.

(** [validate_for_upload] *)
Definition validate_for_upload (artifact_id : string) : SE Stager string :=
  row ← on_db E (artifact_upload artifact_id);
  match row with
  | None => raise FileNotFoundError
  | Some u => validate_upload_row false u
  end.

(** [_existing_staged] *)
Definition existing_staged (supplied : list (string * json)) (task_id : string) : SE Stager (option StagedArtifact) :=
  match dict_get supplied "artifact_id" with
  | Some (JStr artifact_id) =>
      row ← on_db E (artifact_upload artifact_id);
      match row with
      | None => mret None
      | Some u =>
          raise_if (negb (String.eqb (pu_task_id u) task_id)) (RuntimeError "artifact idempotency conflict: task_id") ;;
          payload ← lift (of_option (ValueError "JSONDecodeError") (json_loads (pu_payload u)));
          match payload with
          | JObj kvs =>
              for_each stable_identity_fields (λ field,
                raise_if (negb (py_equal float_equal (default JNull (dict_get kvs field))
                                  (default JNull (dict_get supplied field))))
                  (RuntimeError ("artifact idempotency conflict: " +:+ field))) ;;
              path ← validate_upload_row true u;
              mret (Some {| staged_path := path; staged_manifest := kvs |})
          | _ => raise (RuntimeError "artifact idempotency conflict: persisted_manifest")
          end
      end
  | _ => mret None
  end.

Definition optional_text (kvs : list (string * json)) (key : string) : option string :=
  match dict_get kvs key with Some (JStr s) => Some s | _ => None end.

(** [_reconcile_and_find_existing] under a new control *)
Definition reconcile_and_find_existing (supplied : list (string * json)) (task_id : string)
    : SE Stager (option StagedArtifact) :=
  modify (set_inspected 0 0) ;;
  reconcile_relevant (optional_text supplied "artifact_id") (optional_text supplied "execution_id") ;;
  control_check ;;
  existing_staged supplied task_id.

(** ** Staging *)

(** [_validate_source] *)
Definition validate_source (md : stat_result) (maximum_size : Z) : SE Stager unit :=
  raise_if (negb (S_ISREG (md_mode md))) (RuntimeError "artifact source is not a regular file") ;;
  raise_if (negb (md_nlink md =? 1)) (PermissionError "artifact source must have exactly one hard link") ;;
  raise_if ((md_size md <=? 0) || (maximum_size <? md_size md)) (RuntimeError "artifact size limit was violated") ;;
  raise_if (negb (md_uid md =? euid E)) (PermissionError "artifact source owner does not match the service account") ;;
  raise_if (negb (Z.land (S_IMODE (md_mode md)) 63 =? 0))
    (PermissionError "artifact source has group/world permissions").

Definition ask {A} (f : nat → result A) : SE Stager A := any_call E ;; r ← observe f; lift r.

(** The copy loop: each round moves at least one byte, so [fuel] above the
    maximum size is never used up. *)
Fixpoint copy_chunks (fuel : nat) (S : Source) (maximum_size : Z) (destination : nat) (copied : string)
    : SE Stager string :=
  match fuel with
  | O => raise AssertionError
  | S fuel' =>
      tx_check G ;;
      chunk ← ask (source_read S);
      if String.eqb chunk EmptyString then mret copied
      else
        let copied' := copied +:+ chunk in
        raise_if (maximum_size <? Z.of_nat (String.length copied'))
          (RuntimeError "artifact size limit was violated during staging") ;;
        on_disk (write_all E (String.length chunk) destination chunk) ;;
        copy_chunks fuel' S maximum_size destination copied'
  end.
Definition copy_fuel (maximum_size : Z) : nat := S (S (Z.to_nat maximum_size)).

(** The cleanup of an unpublished attempt: failures are only noted. *)
Definition clean_up {A} (identities : list FileIdentity) (m : SE Stager A) : SE Stager A :=
  catch m (λ e,
    for_each identities (λ identity,
      attempt (remove_durably E identity ".artifact-cleanup-quarantine-" "artifact cleanup quarantine was not durable"
                 "artifact_cleanup") ;; mret tt) ;;
    raise e).

Definition finished_manifest (supplied : list (string * json)) (copied : string) : list (string * json) :=
  dict_set (dict_set supplied "size_bytes" (JInt (Z.of_nat (String.length copied)))) "sha256" (JStr (sha256_hex copied)).
Definition artifact_suffix (supplied : list (string * json)) : string :=
  match dict_get supplied "artifact_type" with
  | Some v => if String.eqb (json_text v) "pcapng" then ".pcapng" else ".pcap"
  | None => ".pcap"
  end.

(** From the first byte to the private, read-only copy. *)
Definition copy_source (supplied : list (string * json)) (S : Source) (maximum_size : Z)
    (expected : option FileIdentity) (before : stat_result) (temporary : string) (destination : nat)
    : SE Stager (list (string * json) * string * FileIdentity) :=
  copied ← copy_chunks (copy_fuel maximum_size) S maximum_size destination EmptyString;
  raise_if (String.eqb copied EmptyString) (RuntimeError "empty artifacts cannot be staged") ;;
  after ← ask (source_stat S);
  raise_if (match expected with Some x => negb (matches x after) | None => false end)
    (RuntimeError "artifact source descriptor identity changed during staging") ;;
  raise_if (negb (bool_decide (source_fingerprint before = source_fingerprint after)))
    (RuntimeError "artifact source changed during staging") ;;
  raise_if (negb (Z.of_nat (String.length copied) =? md_size before))
    (RuntimeError "artifact source size changed during staging") ;;
  let final_manifest := finished_manifest supplied copied in
  raise_if (negb (valid_manifest (JObj final_manifest))) ContractValidationError ;;
  on_disk (fchmod E destination final_mode) ;;
  identity ← on_disk (capture_file_identity E OUTBOX temporary destination (Some (euid E)) (Some final_mode));
  mret (final_manifest, copied, identity).

(** From the published name on: nothing is cleaned up any more. *)
Definition finish_published (task_id : string) (i : ArtifactIntent) (copied : string) : SE Stager StagedArtifact :=
  on_disk (fsync_folder E OUTBOX) ;;
  validate_named_artifact false (final_name i) (Z.of_nat (String.length copied)) (sha256_hex copied) ;;
  ensure_queued task_id (relative_path_of (final_name i)) (manifest i) ;;
  remove_intent (intent_identity i) ;;
  committed G ;;
  mret {| staged_path := relative_path_of (final_name i); staged_manifest := manifest i |}.

(** [_stage_sync]; [intent_durable] is the caller's callback. *)
Definition stage_sync (supplied : list (string * json)) (S : Source) (task_id : string) (maximum_size : Z)
    (expected : option FileIdentity) (authority : option (list (string * json)))
    (intent_durable : ArtifactIntent → stat_result → string → SE Stager unit) : SE Stager StagedArtifact :=
  open_managed_tree E ;;
  finally_close E 5 (
    any_call E ;; lift (open_source S) ;;
    before ← ask (source_stat S);
    validate_source before maximum_size ;;
    raise_if (match expected with Some x => negb (matches x before) | None => false end)
      (RuntimeError "artifact source descriptor identity changed") ;;
    any_call E ;;
    token ← observe (token_hex E);
    let temporary := ".staging-" +:+ token in
    token ← observe (token_hex E);
    let final := "artifact-" +:+ token +:+ artifact_suffix supplied in
    destination ← on_disk (open_create E OUTBOX temporary temporary_mode);
    '(final_manifest, copied, identity) ← on_error_close E (
      first ← on_disk (capture_file_identity E OUTBOX temporary destination (Some (euid E)) (Some temporary_mode));
      '(final_manifest, copied, identity) ←
        clean_up [first] (copy_source supplied S maximum_size expected before temporary destination);
      clean_up [identity] (on_disk (fsync E destination)) ;;
      mret (final_manifest, copied, identity));
    i ← clean_up [identity] (
      on_disk (close E destination) ;;
      write_intent float_equal E task_id temporary final final_manifest authority);
    clean_up [identity; intent_identity i] (
      intent_durable i before (sha256_hex copied) ;;
      ready G ;;
      begin_commit G ;;
      publish_without_overwrite E temporary final) ;;
    finish_published task_id i copied).

(** The first request to cancel of the transaction, which is the caller's, and its
    answer. *)
Definition first_answer (t : Transaction) : option bool := List.hd_error (tx_answers t).

(** [_stage_exclusive], by one caller at a time: what is staged already is returned,
    else a new transaction is run.  A caller that is cancelled waits for the worker,
    and when the commit had begun it returns what was staged, after a
    reconciliation when the worker failed. *)
Definition stage_exclusive (supplied : list (string * json)) (S : Source) (task_id : string) (maximum_size : Z)
    (expected : option FileIdentity) (authority : option (list (string * json)))
    (intent_durable : ArtifactIntent → stat_result → string → SE Stager unit) : SE Stager StagedArtifact :=
  existing ← reconcile_and_find_existing supplied task_id;
  match existing with
  | Some a => mret a
  | None =>
      modify (set_transaction new_transaction) ;;
      r ← attempt (stage_sync supplied S task_id maximum_size expected authority intent_durable);
      t ← get transaction;
      match r, first_answer t with
      | Ok a, None => mret a
      | Ok a, Some begun => if begun && in_state COMMITTED t then mret a else raise CancelledError
      | Err e, None => if decide (e = StagingCancelled) then raise CancelledError else raise e
      | Err e, Some begun =>
          if bool_decide (e = StagingCancelled) || negb begun then raise CancelledError
          else
            recovered ← attempt (reconcile_and_find_existing supplied task_id);
            match recovered with
            | Ok (Some a) => (if in_state COMMITTED t then mret tt else committed G) ;; mret a
            | _ => raise CancelledError
            end
      end
  end.
(** [stage] and [stage_from_descriptor] *)
Definition stage (supplied : list (string * json)) (S : Source) (task_id : string) (maximum_size : Z)
    (expected : option FileIdentity) (authority : option (list (string * json)))
    (intent_durable : ArtifactIntent → stat_result → string → SE Stager unit) : SE Stager StagedArtifact :=
  raise_if (maximum_size <=? 0) (ValueError "artifact size limit must be positive") ;;
  stage_exclusive supplied S task_id maximum_size expected authority intent_durable.
End Stager.
