(* ===== verification/SecureFsTheorems.v ===== *)
(** * Files that stay

    A published file, durable or only in the view of the running kernel, is not
    touched by system calls on other names and other inodes; logical quarantine
    is such a call for every internal name. *)

From S2P Require Export SecureFs.

(** What the kernel shows, or whatever a loss of power may leave. *)
Definition views {A} (durably : bool) (v : Durable A) : list A :=
  if durably then versions v else [latest v].

Lemma views_overwrite {A} durably (f : A → A) v x :
  x ∈ views durably (overwrite f v) → x = f (latest v) ∨ x ∈ views durably v.
Proof.
  destruct durably; simpl; [|intros ->%list_elem_of_singleton; by left].
  unfold versions. simpl. intros [->|Hx]%elem_of_cons; [by left|by right].
Qed.
Lemma views_sync {A} durably (v : Durable A) x : x ∈ views durably (sync v) → x ∈ views durably v.
Proof.
  destruct durably; simpl; [|done]. unfold versions. simpl. intros ->%list_elem_of_singleton. by left.
Qed.
Lemma views_latest {A} durably (v : Durable A) : latest v ∈ views durably v.
Proof. destruct durably; by left. Qed.
Lemma views_synced {A} durably (a : A) : views durably (synced a) = [a].
Proof. by destruct durably. Qed.

(** [name] is [ino] in the outbox, and [ino] has such a body; each of the two
    in the view of the kernel or durably. *)
Definition file_at (durably : bool * bool) (name : string) (ino : nat) (fits : Body → Prop) (d : Disk) : Prop :=
  (∀ names, names ∈ views durably.1 (outbox d) → names !! name = Some ino)
  ∧ ∃ i, inodes d !! ino = Some i ∧ ∀ b, b ∈ views durably.2 (body i) → fits b.

(** ** Renaming *)

(** [validate_component] lets it pass. *)
Definition component (s : string) : bool :=
  negb (str_in s [EmptyString; "."; ".."])
  && negb (opt_is_some (String.index 0 "/" s) || opt_is_some (String.index 0 (String Ascii.zero EmptyString) s)).
Lemma validate_component_eq s label d :
  validate_component s label d = (if component s then Ok tt else
    Err (if str_in s [EmptyString; "."; ".."] then ValueError (label +:+ " is invalid")
         else ValueError (label +:+ " must be one POSIX path component")), d).
Proof.
  unfold validate_component, component. rewrite bind_state. unfold raise_if.
  destruct (str_in s _); simpl; [done|]. by destruct (_ || _).
Qed.

Definition at_call (n : nat) (d : Disk) : Disk := MkDisk (inodes d) (outbox d) (intents d) (others d) n.
Lemma named_at_call f s n d : named f s (at_call n d) = named f s d.
Proof. by destruct f. Qed.
Definition renamed (f : Folder) (source destination : string) (n : nat) (d : Disk) : Disk :=
  (update_inode (touch (calls d)) n
     (set_folder f (overwrite (λ names, <[destination := n]> (delete source names)) (folder f d)) d)).2.

(** A renaming fails and changes nothing, or moves the one name to a free one. *)
Lemma rename_effect E f source destination d :
  ∃ k, (∃ e, rename_noreplace E f source destination d = (Err e, at_call k d))
    ∨ ∃ n, named f source d = Some n ∧ named f destination d = None ∧ component destination = true ∧ k = S (calls d)
        ∧ rename_noreplace E f source destination d = (Ok tt, renamed f source destination n (at_call k d)).
Proof.
  assert (d = at_call (calls d) d) as Hd by (by destruct d).
  unfold rename_noreplace. rewrite bind_state, validate_component_eq.
  destruct (component source); [|exists (calls d); left; eexists; by f_equal].
  rewrite bind_state, validate_component_eq.
  destruct (component destination); [|exists (calls d); left; eexists; by f_equal].
  exists (S (calls d)). unfold syscall. destruct (fault E (calls d)) as [e|]; [left; by eexists|].
  fold (at_call (S (calls d)) d).
  unfold mbind, SE_bind, get, lift, tick, raise_if, modify, mret, SE_ret. rewrite !named_at_call.
  destruct (named f source d) as [n|]; simpl; [|left; by eexists].
  rewrite ?named_at_call. destruct (named f destination d); [left; by eexists|]. right. exists n. by repeat split.
Qed.

Section Frames.
Context (E : Env) (durably : bool * bool) (name : string) (ino : nat) (fits : Body → Prop).
Abbreviation here := (file_at durably name ino fits).

Lemma syscall_keeps (P : Disk → Prop) {A} (m : SE Disk A) :
  (∀ n d, P d → P (MkDisk (inodes d) (outbox d) (intents d) (others d) n)) → preserves P m → preserves P (syscall E m).
Proof. intros HP Hm d Hd. unfold syscall. destruct (fault E _); [by apply HP|]. by apply Hm, HP. Qed.
Lemma syscall_here {A} (m : SE Disk A) : preserves here m → preserves here (syscall E m).
Proof. by apply syscall_keeps. Qed.

Lemma tick_here {A} (f : nat → A) : preserves here (tick f).
Proof. apply preserves_get. Qed.
Lemma inode_here n : preserves here (inode n).
Proof. apply preserves_bind; [apply preserves_get|intros i; apply preserves_lift]. Qed.
Lemma update_here g n : (∀ i, body (g i) = body i) ∨ n ≠ ino → preserves here (update_inode g n).
Proof.
  intros Hg d (Hn & i & Hi & Hb). split; [done|]. simpl. destruct (decide (n = ino)) as [->|Hne].
  - destruct Hg as [Hg|]; [|done]. exists (g i). rewrite lookup_alter_eq, Hi. split; [done|]. by rewrite Hg.
  - exists i. by rewrite lookup_alter_ne.
Qed.
Lemma set_folder_here f g :
  f ≠ OUTBOX ∨ (∀ names, names !! name = Some ino → g names !! name = Some ino) →
  preserves here (modify (λ d, set_folder f (overwrite g (folder f d)) d)).
Proof.
  intros Hg d (Hn & Hi). destruct f; [|by split|by split]. destruct Hg as [|Hg]; [done|]. split; [|done]. simpl.
  intros names [->|Hx]%views_overwrite; [|by apply Hn]. apply Hg, Hn, views_latest.
Qed.

Ltac calls := repeat (first
  [ apply syscall_here | apply tick_here | apply inode_here | apply preserves_ret | apply preserves_raise
  | apply preserves_raise_if | apply preserves_lift | apply preserves_get | apply preserves_bind; [|intros ?] ]).

Lemma fstat_here n : preserves here (fstat E n).
Proof. unfold fstat. calls. Qed.
Lemma stat_name_here f s : preserves here (stat_name E f s).
Proof. unfold stat_name. calls. Qed.
Lemma open_read_here f s : preserves here (open_read E f s).
Proof. unfold open_read. calls. Qed.
Lemma read_here n offset count : preserves here (read E n offset count).
Proof. unfold read. calls. Qed.
Lemma close_here n : preserves here (close E n).
Proof. unfold close. calls. Qed.
Lemma write_here n payload : n ≠ ino → preserves here (write E n payload).
Proof. intros Hn. unfold write. calls. apply update_here. by right. Qed.
Lemma fchmod_here n mode : n ≠ ino → preserves here (fchmod E n mode).
Proof. intros Hn. unfold fchmod. calls. apply update_here. by right. Qed.
Lemma fsync_here n : preserves here (fsync E n).
Proof.
  unfold fsync. calls. intros d (Hn & i' & Hi & Hb). split; [done|]. simpl.
  destruct (decide (n = ino)) as [->|Hne]; [|by exists i'; rewrite lookup_alter_ne].
  exists (set_body (sync (body i')) i'). rewrite lookup_alter_eq, Hi. split; [done|]. intros b Hb'. by apply Hb, views_sync.
Qed.
Lemma fsync_folder_here f : preserves here (fsync_folder E f).
Proof.
  unfold fsync_folder. calls. intros d (Hn & Hi). destruct f; [|by split|by split]. split; [|done]. intros names Hx. by apply Hn, views_sync.
Qed.
Lemma validate_component_here s label : preserves here (validate_component s label).
Proof. unfold validate_component. calls. Qed.
Lemma rename_here f source destination :
  f ≠ OUTBOX ∨ source ≠ name → preserves here (rename_noreplace E f source destination).
Proof.
  intros Hs d Hd. destruct (rename_effect E f source destination d) as [k [[e ->]|(n & En & Et & _ & _ & ->)]]; [done|]. simpl.
  assert (here (MkDisk (inodes d) (outbox d) (intents d) (others d) k)) as Hk by done. revert Hk.
  unfold renamed. intros Hk. apply (update_here (touch _) n); [by left|].
  apply (set_folder_here f (λ names, <[destination := n]> (delete source names))); [|done].
  destruct f; [|by left|by left]. right. destruct Hs as [|Hs]; [done|]. intros names Hn.
  destruct (decide (destination = name)) as [->|Hd']; [|by rewrite lookup_insert_ne, lookup_delete_ne].
  unfold named in Et. simpl in Et. destruct Hd as [Hd _]. by rewrite (Hd _ (views_latest _ _)) in Et.
Qed.

Lemma regular_here md u m : preserves here (validate_regular_file md u m).
Proof. unfold validate_regular_file. calls. Qed.
Lemma capture_here f s n u m : preserves here (capture_file_identity E f s n u m).
Proof.
  unfold capture_file_identity. repeat first [apply validate_component_here | apply regular_here | apply fstat_here
    | apply stat_name_here | progress calls]; done.
Qed.

(** *** Quarantine of internal names *)

Definition elsewhere (expected : FileIdentity) : Prop := dir_fd expected ≠ OUTBOX ∨ relative_name expected ≠ name.

Lemma anchor_here expected : preserves here (validate_identity_anchor E expected).
Proof. unfold validate_identity_anchor. repeat first [apply validate_component_here | progress calls]. Qed.
Lemma move_to_random_here attempts expected prefix :
  elsewhere expected → (∀ token, prefix +:+ token ≠ name) →
  triple here (move_to_random E attempts expected prefix) (λ s d, here d ∧ s ≠ name) (λ _, here).
Proof.
  intros Hx Hp. induction attempts as [|attempts IH]; simpl; [by apply triple_raise|].
  eapply triple_bind; [apply triple_preserves, tick_here|]. intros token. eapply triple_catch.
  - eapply triple_bind; [by apply triple_preserves, rename_here|]. intros []. apply triple_ret. intros d Hd. by split; [|apply Hp].
  - intros e. case_match; [exact IH|by apply triple_raise].
Qed.
Lemma move_here expected prefix plan :
  elsewhere expected → (∀ token, prefix +:+ token ≠ name) → (∀ p, plan = Some p → plan_name p ≠ name) →
  triple here (move_to_quarantine E expected prefix plan) (λ s d, here d ∧ s ≠ name) (λ _, here).
Proof.
  intros Hx Hp Hplan. unfold move_to_quarantine. destruct plan as [p|]; [|by apply move_to_random_here].
  eapply triple_bind; [by apply triple_preserves, rename_here|]. intros []. apply triple_ret. intros d Hd. split; [done|by apply Hplan].
Qed.
Lemma check_here expected s : preserves here (check_quarantined E expected s).
Proof.
  unfold check_quarantined. apply preserves_bind; [apply preserves_attempt, open_read_here|]. intros [fd|e]; [|apply preserves_ret].
  apply preserves_bind; [apply preserves_attempt, fstat_here|]. intros observed.
  apply preserves_bind; [|intros o; apply preserves_bind; [apply preserves_attempt, close_here|intros c; case_match; apply preserves_ret]].
  destruct observed as [md|e]; [|apply preserves_ret]. case_match; [apply preserves_ret|].
  apply preserves_bind; [apply preserves_attempt, fsync_folder_here|]. intros r. case_match; apply preserves_ret.
Qed.
Lemma restore_here expected s c : s ≠ name → preserves here (restore_entry E expected s c).
Proof.
  intros Hs. unfold restore_entry. apply preserves_bind; [apply preserves_attempt, rename_here; by right|]. intros back.
  destruct back; (apply preserves_bind; [apply preserves_attempt, fsync_folder_here|]; intros r; case_match; apply preserves_ret).
Qed.
Lemma conclude_here b expected q dn back s c : preserves here (conclude_quarantine b expected q dn back s c).
Proof. unfold conclude_quarantine. repeat case_match; first [apply preserves_ret|apply preserves_raise]. Qed.
Lemma quarantine_here expected prefix plan primary :
  elsewhere expected → (∀ token, prefix +:+ token ≠ name) → (∀ p, plan = Some p → plan_name p ≠ name) →
  preserves here (logical_quarantine E expected prefix plan primary).
Proof.
  intros Hx Hp Hplan. unfold logical_quarantine.
  apply preserves_bind; [unfold validate_quarantine_prefix; repeat first [apply validate_component_here|progress calls]|intros _].
  apply preserves_bind.
  { destruct plan as [p|]; [|apply preserves_ret]. unfold validate_quarantine_plan.
    repeat first [apply validate_component_here | progress calls | case_match]. }
  intros _. apply preserves_bind; [apply preserves_attempt, anchor_here|]. intros [[]|e]; [|apply conclude_here].
  apply triple_preserves. eapply triple_bind; [by apply triple_attempt, move_here|].
  intros [s|e]; [|apply triple_preserves, conclude_here].
  intros d [Hd Hs]. revert d Hd. change (triple here (c ← check_quarantined E expected s;
    if negb (bool_decide (identity_match c = Some true)) then
      '(back, c') ← restore_entry E expected s c;
      conclude_quarantine primary expected true false back (if back : bool then None else Some s) c'
    else if was_synced c then conclude_quarantine primary expected true true false (Some s) c
    else c' ← sync_again E expected c; conclude_quarantine primary expected true false false (Some s) c') (λ _, here) (λ _, here)).
  apply triple_preserves, preserves_bind; [apply check_here|]. intros c. case_match.
  - apply preserves_bind; [by apply restore_here|]. intros [back c']. apply conclude_here.
  - case_match; [apply conclude_here|]. apply preserves_bind; [|intros c'; apply conclude_here].
    unfold sync_again. apply preserves_bind; [apply preserves_attempt, fsync_folder_here|]. intros r. case_match; apply preserves_ret.
Qed.
End Frames.
