(* ===== verification/StagerFrame.v ===== *)
(** * What the operations of the stager leave alone

    Every operation keeps a published file, together with the table of uploads,
    except where it publishes or queues itself. *)

From S2P Require Export SecureFsTheorems Stager.

(** ** Names *)

Definition published (name : string) : Prop := starts_with "artifact-" name = true ∧ contains_slash name = false.

Lemma published_cons name : published name → ∃ s, name = "a" +:+ s.
Proof.
  intros [Hs _]. unfold starts_with in Hs. destruct (after_prefix "artifact-" name) as [r|] eqn:Ea; [|done].
  apply after_prefix_Some in Ea as ->. by exists ("rtifact-" +:+ r).
Qed.
Lemma dot_not_published prefix token name : published name → starts_with "." prefix = true → prefix +:+ token ≠ name.
Proof.
  intros [s ->]%published_cons Hp. unfold starts_with in Hp.
  destruct (after_prefix "." prefix) as [r|] eqn:Ea; [|done]. by apply after_prefix_Some in Ea as ->.
Qed.
Lemma dotted_not_published name name' : published name → starts_with "." name' = true → name' ≠ name.
Proof.
  intros [s ->]%published_cons Hp. unfold starts_with in Hp.
  destruct (after_prefix "." name') as [r|] eqn:Ea; [|done]. by apply after_prefix_Some in Ea as ->.
Qed.

(** ** Frames *)

Section Frame.
Context `{Sha256} `{PythonText} `{UuidText}.
Context (float_equal : json → json → bool) (valid_manifest : json → bool).
Context (E : Env) (G : Signals) (L : Limits).

(** Keeps every published file but the inode [busy], and the table of uploads. *)
Definition untouched durably name ino fits (U : list UploadRow) (w : Stager) : Prop :=
  file_at durably name ino fits (disk w) ∧ pending_uploads (db w) = U.
Definition same_uploads (U : list UploadRow) (w : Stager) : Prop := pending_uploads (db w) = U.
Definition frame (busy : option nat) {A} (m : SE Stager A) : Prop :=
  (∀ U, preserves (same_uploads U) m)
  ∧ ∀ durably name ino fits U, published name → Some ino ≠ busy → preserves (untouched durably name ino fits U) m.

Ltac frame_rule := split; intros; unfold same_uploads; auto with preserves.
Lemma frame_bind busy {A B} (m : SE Stager A) (f : A → SE Stager B) :
  frame busy m → (∀ a, frame busy (f a)) → frame busy (m ≫= f).
Proof.
  intros [Hm Hm'] Hf. split; intros; apply preserves_bind; [apply Hm| |by apply Hm'|]; intros a; destruct (Hf a) as [Hu Hk];
    [apply Hu|by apply Hk].
Qed.
Lemma frame_ret busy {A} (a : A) : frame busy (mret a).
Proof. frame_rule. Qed.
Lemma frame_raise busy {A} e : frame busy (raise e : SE Stager A).
Proof. frame_rule. Qed.
Lemma frame_raise_if busy b e : frame busy (raise_if b e).
Proof. frame_rule. Qed.
Lemma frame_lift busy {A} (r : result A) : frame busy (lift r).
Proof. frame_rule. Qed.
Lemma frame_get busy {A} (f : Stager → A) : frame busy (get f).
Proof. frame_rule. Qed.
Lemma frame_catch busy {A} (m : SE Stager A) h : frame busy m → (∀ e, frame busy (h e)) → frame busy (catch m h).
Proof.
  intros [Hm Hm'] Hh. split; intros; apply preserves_catch; [apply Hm| |by apply Hm'|]; intros e; destruct (Hh e) as [Hu Hk];
    [apply Hu|by apply Hk].
Qed.
Lemma frame_attempt busy {A} (m : SE Stager A) : frame busy m → frame busy (attempt m).
Proof. intros [Hm Hm']. split; intros; apply preserves_attempt; [apply Hm|by apply Hm']. Qed.
Lemma frame_for_each busy {A} (xs : list A) body : (∀ x, frame busy (body x)) → frame busy (for_each xs body).
Proof. intros Hb. split; intros; apply preserves_for_each; intros x; destruct (Hb x) as [Hu Hk]; [apply Hu|by apply Hk]. Qed.
Lemma frame_modify busy g : (∀ w, disk (g w) = disk w ∧ db (g w) = db w) → frame busy (modify g).
Proof.
  intros Hg. split; intros; intros w Hw; destruct (Hg w) as [Hd Hs]; unfold same_uploads, untouched, modify in *; simpl;
    by rewrite Hs, ?Hd.
Qed.
Lemma frame_weaken busy {A} (m : SE Stager A) : frame None m → frame busy m.
Proof. intros [Hm Hm']. split; [done|]. intros ? ? ? ? ? Hn _. by apply Hm'. Qed.
Lemma frame_disk busy {A} (m : SE Disk A) :
  (∀ durably name ino fits, published name → Some ino ≠ busy → preserves (file_at durably name ino fits) m) →
  frame busy (on_disk m).
Proof.
  intros Hm. split; [intros U w Hw; unfold on_disk; by destruct (m (disk w))|].
  intros durably name ino fits U Hn Hb w [Hf Hu]. unfold on_disk. specialize (Hm durably name ino fits Hn Hb (disk w) Hf).
  by destruct (m (disk w)).
Qed.
Lemma frame_observe busy {A} (f : nat → A) : frame busy (observe f).
Proof. by split; intros; intros w. Qed.
Lemma frame_any_call busy : frame busy (any_call E).
Proof. apply frame_disk. intros. apply syscall_here, preserves_ret. Qed.
Lemma frame_read_db busy {A} (m : SE Store A) : (∀ s, (m s).2 = s) → frame busy (on_db E m).
Proof.
  intros Hm. apply frame_bind; [apply frame_any_call|]. intros _. split; intros; intros w Hw; unfold with_db;
    specialize (Hm (db w)); destruct (m (db w)) as [r s]; simpl in Hm; subst s; by destruct w.
Qed.
Lemma artifact_upload_reads aid s : (artifact_upload aid s).2 = s.
Proof. done. Qed.
Lemma artifact_uploads_reads states n s : (artifact_uploads states n s).2 = s.
Proof. unfold artifact_uploads, raise_if. by repeat (case_match; try done). Qed.
Lemma artifact_upload_count_reads states s : (artifact_upload_count states s).2 = s.
Proof. unfold artifact_upload_count, raise_if. by repeat (case_match; try done). Qed.
End Frame.

Create HintDb frames.
#[export] Hint Resolve frame_ret frame_raise frame_raise_if frame_lift frame_get frame_observe frame_any_call
  frame_attempt frame_bind frame_catch frame_for_each frame_modify frame_read_db artifact_upload_reads
  artifact_uploads_reads artifact_upload_count_reads : frames.
(** Splits a computation at its binds and guards. *)
Ltac framed := repeat (first
  [ progress intros | apply frame_ret | apply frame_raise | apply frame_raise_if | apply frame_lift | apply frame_get
  | apply frame_observe | apply frame_any_call | apply frame_attempt | apply frame_for_each | apply frame_catch
  | apply frame_bind | apply frame_modify; by intros | apply frame_read_db; by intros
  | progress case_match | progress case_decide ]; eauto with frames).

Section Parts.
Context `{Sha256} `{PythonText} `{UuidText}.
Context (float_equal : json → json → bool) (valid_manifest : json → bool).
Context (E : Env) (G : Signals) (L : Limits) (busy : option nat).

Lemma frame_disk_reads {A} (m : SE Disk A) :
  (∀ durably name ino fits, preserves (file_at durably name ino fits) m) → frame busy (on_disk m).
Proof. intros Hm. apply frame_disk. intros. apply Hm. Qed.

Lemma frame_outsider : frame busy (outsider G).
Proof. unfold outsider, on_transaction. framed. Qed.
Lemma frame_on_transaction g : frame busy (on_transaction g).
Proof. unfold on_transaction. framed. Qed.
Hint Resolve frame_outsider frame_on_transaction : frames.
Lemma frame_tx_check : frame busy (tx_check G).
Proof. unfold tx_check. framed. Qed.
Lemma frame_advance from to : frame busy (advance G from to).
Proof. unfold advance. framed. Qed.
Lemma frame_committed : frame busy (committed G).
Proof. unfold committed. framed. Qed.
Lemma frame_control_check : frame busy (control_check G).
Proof. unfold control_check. framed. Qed.
Hint Resolve frame_control_check : frames.
Lemma frame_inspect_entry : frame busy (inspect_entry G L).
Proof. unfold inspect_entry. framed. Qed.
Lemma frame_inspect_bytes n : frame busy (inspect_bytes G L n).
Proof. unfold inspect_bytes. framed. Qed.
Hint Resolve frame_inspect_bytes : frames.
Lemma frame_close n : frame busy (on_disk (close E n)).
Proof. apply frame_disk_reads. intros. apply close_here. Qed.
Hint Resolve frame_close : frames.
Lemma frame_close_all n : frame busy (close_all E n).
Proof. induction n as [|n IH]; simpl; framed. Qed.
Hint Resolve frame_close_all : frames.
Lemma frame_finally_close {A} n (m : SE Stager A) : frame busy m → frame busy (finally_close E n m).
Proof. intros Hm. unfold finally_close. framed. Qed.
Lemma frame_on_error_close {A} (m : SE Stager A) : frame busy m → frame busy (on_error_close E m).
Proof. intros Hm. unfold on_error_close. framed. Qed.
Lemma frame_open_read f s : frame busy (on_disk (open_read E f s)).
Proof. apply frame_disk_reads. intros. apply open_read_here. Qed.
Lemma frame_fstat n : frame busy (on_disk (fstat E n)).
Proof. apply frame_disk_reads. intros. apply fstat_here. Qed.
Lemma frame_stat_name f s : frame busy (on_disk (stat_name E f s)).
Proof. apply frame_disk_reads. intros. apply stat_name_here. Qed.
Lemma frame_capture f s n u m : frame busy (on_disk (capture_file_identity E f s n u m)).
Proof. apply frame_disk_reads. intros. apply capture_here. Qed.
Lemma frame_read n o c : frame busy (on_disk (read E n o c)).
Proof. apply frame_disk_reads. intros. apply read_here. Qed.
Lemma frame_fsync n : frame busy (on_disk (fsync E n)).
Proof. apply frame_disk_reads. intros. apply fsync_here. Qed.
Lemma frame_fsync_folder f : frame busy (on_disk (fsync_folder E f)).
Proof. apply frame_disk_reads. intros. apply fsync_folder_here. Qed.
Hint Resolve frame_open_read frame_fstat frame_stat_name frame_capture frame_read frame_fsync frame_fsync_folder : frames.
Lemma frame_read_exact fuel n size acc : frame busy (on_disk (read_exact E fuel n size acc)).
Proof.
  apply frame_disk_reads. intros durably name ino fits. revert acc.
  induction fuel as [|fuel IH]; intros acc; simpl; (case_match; [apply preserves_ret|]); [apply preserves_ret|].
  apply preserves_bind; [apply read_here|]. intros chunk. apply preserves_bind; [apply preserves_raise_if|]. intros _. apply IH.
Qed.
Lemma frame_hash_contents c fuel n acc : frame busy (hash_contents E G L c fuel n acc).
Proof. revert acc. induction fuel as [|fuel IH]; intros acc; simpl; framed; destruct c; framed. Qed.
Hint Resolve frame_hash_contents : frames.
Lemma frame_hash_descriptor c n : frame busy (hash_descriptor E G L c n).
Proof. unfold hash_descriptor. framed. Qed.
Lemma frame_validate_private md mode : frame busy (validate_private_file E md mode).
Proof. unfold validate_private_file. framed. Qed.
Hint Resolve frame_read_exact frame_hash_descriptor frame_validate_private : frames.
Lemma frame_validate_named c s size sha : frame busy (validate_named_artifact E G L c s size sha).
Proof.
  unfold validate_named_artifact. apply frame_bind; [apply frame_open_read|]. intros fd. apply frame_finally_close. framed.
Qed.
Lemma frame_validate_owned s : frame busy (validate_owned_regular E s).
Proof.
  unfold validate_owned_regular. apply frame_bind; [apply frame_open_read|]. intros fd. apply frame_finally_close. framed.
Qed.
Lemma frame_entry_exists s : frame busy (entry_exists E s).
Proof. unfold entry_exists. framed. Qed.
Lemma frame_record s c : frame busy (record_quarantine s c).
Proof. unfold record_quarantine. apply frame_modify. intros w. cbv zeta. by case_match. Qed.
Hint Resolve frame_record : frames.

(** An identity below the intents, or of an internal name. *)
Definition internal (identity : FileIdentity) : Prop :=
  dir_fd identity ≠ OUTBOX ∨ starts_with "." (relative_name identity) = true.
Lemma frame_quarantine identity prefix primary :
  internal identity → starts_with "." prefix = true →
  frame busy (on_disk (logical_quarantine E identity prefix None primary)).
Proof.
  intros Hi Hp. apply frame_disk. intros durably name ino fits Hn _. apply quarantine_here; [|by intros token; apply dot_not_published|done].
  destruct Hi as [Hi|Hi]; [by left|right]. by apply dotted_not_published.
Qed.
Lemma frame_remove_durably identity prefix message context :
  internal identity → starts_with "." prefix = true → frame busy (remove_durably E identity prefix message context).
Proof. intros Hi Hp. unfold remove_durably. apply frame_bind; [by apply frame_quarantine|]. framed. Qed.
Lemma frame_remove_intent identity : internal identity → frame busy (remove_intent E identity).
Proof. intros Hi. by apply frame_remove_durably. Qed.
Lemma frame_clean_up {A} identities (m : SE Stager A) :
  Forall internal identities → frame busy m → frame busy (clean_up E identities m).
Proof.
  intros Hi Hm. unfold clean_up. apply frame_catch; [done|]. intros e. apply frame_bind; [|framed].
  induction Hi as [|identity identities Hx _ IH]; simpl; [framed|]. apply frame_bind; [|by intros _].
  apply frame_bind; [by apply frame_attempt, frame_remove_durably|]. framed.
Qed.
Lemma frame_discard {A} identity e : internal identity → frame busy (discard_intent E identity e : SE Stager A).
Proof. intros Hi. unfold discard_intent. apply frame_bind; [by apply frame_quarantine|]. framed. Qed.

Lemma frame_rename f source destination :
  f ≠ OUTBOX ∨ starts_with "." source = true → frame busy (on_disk (rename_noreplace E f source destination)).
Proof.
  intros Hs. apply frame_disk. intros durably name ino fits Hn _. apply rename_here.
  destruct Hs as [Hs|Hs]; [by left|right]. by apply dotted_not_published.
Qed.
Lemma frame_validate_authority a t m : frame busy (validate_capture_intent_authority float_equal a t m).
Proof. unfold validate_capture_intent_authority. framed. Qed.
Hint Resolve frame_validate_authority : frames.
Lemma frame_parse_intent s identity p : frame busy (parse_intent float_equal valid_manifest s identity p).
Proof. unfold parse_intent, raise_type_error. framed. Qed.
Lemma frame_read_intent s : frame busy (read_intent float_equal valid_manifest E G L s).
Proof.
  unfold read_intent. apply frame_bind; [framed|]. intros _. apply frame_bind; [apply frame_open_read|]. intros fd.
  apply frame_bind; [apply frame_finally_close; framed|]. intros [identity p]. apply frame_parse_intent.
Qed.
Lemma frame_validate_staged i s : frame busy (validate_staged E G L i s).
Proof. unfold validate_staged. framed. Qed.
Lemma frame_ask {A} (f : nat → result A) : frame busy (ask E f).
Proof. unfold ask. framed. Qed.
Lemma frame_validate_source md n : frame busy (validate_source E md n).
Proof. unfold validate_source. framed. Qed.
Lemma frame_check_row u : frame busy (check_row E G L u).
Proof.
  unfold check_row. case_match; [framed|]. apply frame_bind; [apply frame_entry_exists|]. intros b. case_match; [framed|].
  unfold collect. apply frame_catch; [|framed]. apply frame_bind; [apply frame_validate_named|framed].
Qed.
Lemma frame_reconcile_row aid : frame busy (reconcile_row E G L aid).
Proof.
  unfold reconcile_row. apply frame_bind; [apply frame_inspect_entry|]. intros _. apply frame_bind; [framed|]. intros [u|]; [|framed].
  apply frame_check_row.
Qed.
Lemma frame_check_rows rows : frame busy (check_rows E G L rows).
Proof.
  induction rows as [|u rows IH]; simpl; [framed|]. apply frame_bind; [apply frame_inspect_entry|]. intros _.
  apply frame_bind; [apply frame_check_row|]. intros issues. apply frame_bind; [exact IH|framed].
Qed.
Lemma frame_validate_upload_row c u : frame busy (validate_upload_row valid_manifest E G L c u).
Proof.
  unfold validate_upload_row, open_managed_tree, validate_row_payload. apply frame_bind; [framed|]. intros _.
  apply frame_bind; [framed|]. intros _. apply frame_bind; [apply frame_finally_close, frame_validate_named|]. framed.
Qed.
Lemma frame_validate_for_upload aid : frame busy (validate_for_upload valid_manifest E G L aid).
Proof. pose proof frame_validate_upload_row. unfold validate_for_upload. framed. Qed.
Lemma frame_existing_staged supplied t : frame busy (existing_staged float_equal valid_manifest E G L supplied t).
Proof. pose proof frame_validate_upload_row. unfold existing_staged. framed. Qed.
End Parts.
