(* ===== verification/StagerKept.v ===== *)
(** * What every operation of the stager keeps

    Validation means that the file is there, private and with the right contents;
    and a property of files and uploads that frames keep, new inodes do not break
    and queueing a visible file restores, is kept by reconciliation and staging. *)

From S2P Require Export StagerFrame.

(** ** Validation of a published file *)

(** The contents an upload row describes, private and read-only. *)
Definition fits (size : Z) (sha256 : string) `{Sha256} (b : Body) : Prop :=
  Z.of_nat (String.length (contents b)) = size ∧ sha256_hex (contents b) = sha256 ∧ S_IMODE (st_mode b) = final_mode.

Lemma triple_and {S A} (P P' : S → Prop) (m : SE S A) Q Q' X X' :
  triple P m Q X → triple P' m Q' X' →
  triple (λ s, P s ∧ P' s) m (λ a s, Q a s ∧ Q' a s) (λ e s, X e s ∧ X' e s).
Proof. intros H1 H2 s [Hs Hs']. specialize (H1 s Hs). specialize (H2 s Hs'). by destruct (m s) as [[a|e] s']. Qed.

Lemma substring_all n s : (String.length s ≤ n)%nat → String.substring 0 n s = s.
Proof.
  revert n. induction s as [|c s IH]; intros n Hn; [by destruct n|].
  destruct n as [|n]; simpl in *; [lia|]. by rewrite IH by lia.
Qed.
Lemma append_empty s : s +:+ EmptyString = s.
Proof. induction s as [|c s IH]; [done|]. rewrite append_cons. by rewrite IH. Qed.
Lemma append_assoc_string s t u : s +:+ (t +:+ u) = (s +:+ t) +:+ u.
Proof. induction s as [|c s IH]; [done|]. rewrite !append_cons. by rewrite IH. Qed.
(** A beginning of [s], and the rest of it. *)
Lemma substring_beginning n s : (n ≤ String.length s)%nat → ∃ rest, s = String.substring 0 n s +:+ rest.
Proof. intros Hn. destruct (substring_split n s Hn) as [Hs _]. by eexists. Qed.

Section Validation.
Context `{Sha256}.
Context (E : Env) (G : Signals) (L : Limits).

Section One.
Context (name : string) (fd : nat) (b0 : Body).
(** The file is [fd], its body [b0]. *)
Definition shows (w : Stager) : Prop := file_at (false, false) name fd (λ b, b = b0) (disk w).

Lemma shows_inode w : shows w → ∃ i, inodes (disk w) !! fd = Some i ∧ latest (body i) = b0.
Proof. intros (_ & i & Hi & Hb). exists i. split; [done|]. apply Hb, views_latest. Qed.
Lemma frame_shows {A} (m : SE Stager A) : published name → frame None m → preserves shows m.
Proof. intros Hn [_ Hm] w Hw. apply (Hm (false, false) name fd _ (pending_uploads (db w)) Hn ltac:(done) w). by split. Qed.

Lemma fstat_shows :
  published name →
  triple shows (on_disk (fstat E fd)) (λ md w, shows w ∧ md_mode md = st_mode b0) (λ _ _, True).
Proof.
  intros Hn w Hw. pose proof (frame_shows _ Hn (frame_fstat E None fd) w Hw) as Hp.
  destruct (shows_inode w Hw) as (i & Hi & Hb). unfold on_disk, fstat, syscall in *.
  destruct (fault E _); [done|]. unfold mbind, SE_bind, inode, get, lift, mret, SE_ret in *. simpl in *.
  rewrite Hi in *. simpl in *. split; [done|]. by rewrite <- Hb.
Qed.

(** A read at the end of what was read so far: the beginning of the rest, and
    empty only when nothing is left. *)
Lemma read_shows acc rest :
  published name → contents b0 = acc +:+ rest →
  triple shows (on_disk (read E fd (String.length acc) chunk_size))
    (λ chunk w, shows w ∧ (∃ rest', rest = chunk +:+ rest') ∧ (chunk = EmptyString → rest = EmptyString)) (λ _ _, True).
Proof.
  intros Hn Hc w Hw. pose proof (frame_shows _ Hn (frame_read E None fd (String.length acc) chunk_size) w Hw) as Hp.
  destruct (shows_inode w Hw) as (i & Hi & Hb). unfold on_disk, read, syscall in *.
  destruct (fault E _); [done|]. unfold mbind, SE_bind, inode, tick, get, lift, mret, SE_ret in *. simpl in *.
  rewrite Hi in *. simpl in *. split; [done|]. rewrite Hb, Hc, substring_rest, (substring_all (String.length (acc +:+ rest)) rest)
    by (rewrite length_append; lia).
  set (k := portion _ _ _). destruct (decide (String.length rest = 0%nat)) as [H0|H0].
  { assert (rest = EmptyString) as -> by (by destruct rest). split; [|done]. exists EmptyString. by destruct k. }
  assert (1 ≤ k ≤ String.length rest)%nat as Hk.
  { unfold k, portion, chunk_size. lia. }
  split; [apply substring_beginning; lia|]. intros He. destruct (substring_split k rest) as [_ Hl]; [lia|].
  rewrite He in Hl. simpl in Hl. lia.
Qed.
Lemma hash_contents_shows c fuel acc rest :
  published name → contents b0 = acc +:+ rest → (String.length rest < fuel)%nat →
  triple shows (hash_contents E G L c fuel fd acc) (λ data w, shows w ∧ data = contents b0) (λ _ _, True).
Proof.
  intros Hn. revert acc rest. induction fuel as [|fuel IH]; intros acc rest Hc Hf; [lia|]. simpl.
  eapply (triple_bind _ (λ _, shows)).
  { eapply triple_weaken; [apply triple_preserves, frame_shows; [done|]|done..]. destruct c; [apply frame_control_check|apply frame_ret]. }
  intros []. eapply triple_bind; [by apply read_shows|]. intros chunk w (Hw & (rest' & Hr) & He). revert w Hw.
  destruct (String.eqb_spec chunk EmptyString) as [->|Hne].
  { intros w Hw. split; [done|]. rewrite Hc, (He eq_refl). by rewrite append_empty. }
  eapply (triple_bind _ (λ _, shows)).
  { eapply triple_weaken; [apply triple_preserves, frame_shows; [done|]|done..]. destruct c; [apply frame_inspect_bytes|apply frame_ret]. }
  intros []. apply (IH _ rest'); [by rewrite Hc, Hr, append_assoc_string|]. rewrite Hr, length_append in Hf.
  destruct chunk; [done|]. simpl in Hf. lia.
Qed.
Lemma hash_descriptor_shows c :
  published name →
  triple shows (hash_descriptor E G L c fd)
    (λ r w, shows w ∧ r = (sha256_hex (contents b0), Z.of_nat (String.length (contents b0)))) (λ _ _, True).
Proof.
  intros Hn. unfold hash_descriptor. eapply (triple_bind _ (λ _, shows)).
  { eapply triple_weaken; [apply triple_preserves, frame_shows, frame_any_call|..]; done. }
  intros []. eapply (triple_bind _ (λ n w, shows w ∧ n = String.length (contents b0))).
  { apply triple_get. intros w Hw. split; [done|]. by destruct (shows_inode w Hw) as (i & -> & ->). }
  intros n w [Hw ->]. revert w Hw. eapply triple_bind; [by apply (hash_contents_shows c _ _ (contents b0)); [| |lia]|].
  intros data. apply triple_ret. intros w [Hw ->]. done.
Qed.
End One.

Lemma triple_finally {A} n (P : Stager → Prop) (Q : A → Stager → Prop) (m : SE Stager A) :
  (∀ a, preserves (Q a) (close_all E n)) →
  triple P m Q (λ _ _, True) → triple P (finally_close E n m) Q (λ _ _, True).
Proof.
  intros Hc Hm w Hw. unfold finally_close. rewrite bind_state. unfold attempt. specialize (Hm w Hw).
  destruct (m w) as [[a|e] w1]; rewrite bind_state.
  - specialize (Hc a w1 Hm). destruct (close_all E n w1) as [[[x|]|x] w2]; done.
  - by destruct (close_all E n w1) as [[[x|]|x] w2].
Qed.

(** What is at the name in the outbox fits. *)
Definition visible (size : Z) (sha256 : string) (name : string) (w : Stager) : Prop :=
  ∃ ino, file_at (false, false) name ino (fits size sha256) (disk w).
Lemma frame_visible size sha256 name {A} (m : SE Stager A) :
  published name → frame None m → preserves (visible size sha256 name) m.
Proof.
  intros Hn [_ Hm] w [ino Hi]. exists ino. apply (Hm (false, false) name ino _ (pending_uploads (db w)) Hn ltac:(done) w). by split.
Qed.

Lemma open_read_shows name :
  triple (λ _, True) (on_disk (open_read E OUTBOX name)) (λ fd w, ∃ b0, shows name fd b0 w) (λ _ _, True).
Proof.
  intros w _. unfold on_disk, open_read, syscall. destruct (fault E _); [done|].
  unfold mbind, SE_bind, inode, get, lift, mret, SE_ret, raise_if. simpl.
  destruct (named _ _ _) as [n|] eqn:En; [|done]. simpl. destruct (inodes (disk w) !! n) as [i|] eqn:Ei; [|done]. simpl.
  destruct (S_IFMT _ =? S_IFLNK); [done|]. exists (latest (body i)). split; simpl.
  - by intros names ->%list_elem_of_singleton.
  - exists i. split; [done|]. by intros b ->%list_elem_of_singleton.
Qed.

Lemma triple_guard {A} (P : Stager → Prop) b e (f : unit → SE Stager A) Q :
  (b = false → triple P (f tt) Q (λ _ _, True)) → triple P (raise_if b e ≫= f) Q (λ _ _, True).
Proof. intros Hf w Hw. rewrite bind_state. unfold raise_if. destruct b; [done|]. by apply Hf. Qed.
Lemma triple_step {A B} (P : Stager → Prop) (m : SE Stager A) (f : A → SE Stager B) Q :
  preserves P m → (∀ a, triple P (f a) Q (λ _ _, True)) → triple P (m ≫= f) Q (λ _ _, True).
Proof.
  intros Hm Hf. eapply (triple_bind _ (λ _, P)); [|exact Hf].
  eapply triple_weaken; [by apply triple_preserves|done..].
Qed.

Lemma validate_private_ok md mode (P : Stager → Prop) :
  triple P (validate_private_file E md mode) (λ _ w, P w ∧ S_IMODE (md_mode md) = mode) (λ _ _, True).
Proof.
  unfold validate_private_file. do 3 (apply triple_guard; intros _).
  apply triple_raise_if; [done|]. intros w Hw Hm%negb_false_iff%Z.eqb_eq. done.
Qed.

(** A validated artifact is there, private and with the right contents. *)
Lemma validate_visible c name size sha256 :
  published name →
  triple (λ _, True) (validate_named_artifact E G L c name size sha256) (λ _, visible size sha256 name) (λ _ _, True).
Proof.
  intros Hn. unfold validate_named_artifact. eapply triple_bind; [apply open_read_shows|]. intros fd.
  apply triple_finally; [intros identity; apply frame_visible; [done|apply frame_close_all]|].
  intros w [b0 Hw]. revert w Hw. eapply triple_bind; [by apply fstat_shows|]. intros md w [Hw Hmd]. revert w Hw.
  eapply triple_bind; [apply validate_private_ok|]. intros [] w [Hw Hmode]. revert w Hw. rewrite Hmd in Hmode.
  apply triple_step; [apply frame_shows, frame_capture; done|]. intros identity. apply triple_guard. intros _.
  eapply triple_bind; [by apply hash_descriptor_shows|]. intros [digest n] w [Hw Hr]. simplify_eq/=. revert w Hw.
  apply triple_guard. intros [Hs%negb_false_iff%Z.eqb_eq Hd%negb_false_iff%String.eqb_eq]%orb_false_iff.
  apply triple_step; [apply frame_shows, frame_fstat; done|]. intros after. apply triple_guard. intros _. apply triple_ret.
  intros w (Hnames & i & Hi & Hb). exists fd. split; [done|]. exists i. split; [done|]. intros b Hx. by rewrite (Hb b Hx).
Qed.

(** The identity of a validated or captured file is the one of its name. *)
Definition names_it (f : Folder) (name : string) (identity : FileIdentity) : Prop :=
  dir_fd identity = f ∧ relative_name identity = name.
Lemma capture_names f name fd u m :
  triple (λ _, True) (on_disk (capture_file_identity E f name fd u m)) (λ identity _, names_it f name identity) (λ _ _, True).
Proof.
  intros w _. unfold on_disk.
  assert (triple (λ _ : Disk, True) (capture_file_identity E f name fd u m) (λ identity _, names_it f name identity) (λ _ _, True)) as Hc.
  { unfold capture_file_identity. do 6 (eapply (triple_bind _ (λ _ _, True)); [apply triple_pure|intros ?]).
    by apply triple_ret. }
  specialize (Hc (disk w) I). by destruct (capture_file_identity _ _ _ _ _ _ _) as [[]].
Qed.
Lemma capture_internal f name fd u m :
  f ≠ OUTBOX ∨ starts_with "." name = true →
  triple (λ _, True) (on_disk (capture_file_identity E f name fd u m)) (λ identity _, internal identity) (λ _ _, True).
Proof.
  intros Hn w Hw. pose proof (capture_names f name fd u m w Hw) as Hc. destruct (on_disk _ w) as [[identity|e] w']; [|done].
  destruct Hc as [Hd Hr]. destruct Hn as [Hn|Hn]; [left; by rewrite Hd|right; by rewrite Hr].
Qed.
Lemma validate_names c name size sha256 :
  triple (λ _, True) (validate_named_artifact E G L c name size sha256) (λ identity _, names_it OUTBOX name identity) (λ _ _, True).
Proof.
  unfold validate_named_artifact. eapply triple_bind; [apply triple_pure|]. intros fd.
  apply triple_finally; [by intros identity w|]. do 2 (eapply triple_bind; [apply triple_pure|intros ?]).
  eapply triple_bind; [apply capture_names|]. intros identity. apply triple_guard. intros _.
  eapply triple_bind; [apply triple_pure|]. intros [digest n]. apply triple_guard. intros _.
  eapply triple_bind; [apply triple_pure|]. intros after. apply triple_guard. intros _. by apply triple_ret.
Qed.
Lemma validate_owned_names name :
  triple (λ _, True) (validate_owned_regular E name) (λ identity _, names_it OUTBOX name identity) (λ _ _, True).
Proof.
  unfold validate_owned_regular. eapply triple_bind; [apply triple_pure|]. intros fd.
  apply triple_finally; [by intros identity w|]. eapply triple_bind; [apply triple_pure|]. intros md.
  do 2 (apply triple_guard; intros _). apply capture_names.
Qed.
End Validation.

(** ** Operations keep what queueing establishes *)

Section Kept.
Context `{Sha256} `{PythonText} `{UuidText}.
Context (float_equal : json → json → bool) (valid_manifest : json → bool).
Context (E : Env) (G : Signals) (L : Limits).

(** A property of published files and uploads: frames keep it, a new inode may be
    written to, and a row is only queued for a file that is there. *)
Context (P : option nat → Stager → Prop).
Hypothesis P_frame : ∀ busy A (m : SE Stager A), frame busy m → preserves (P busy) m.
Hypothesis P_free : ∀ n w, P (Some n) w → P None w.
Hypothesis P_create : ∀ f s mode,
  triple (P None) (on_disk (open_create E f s mode)) (λ n, P (Some n)) (λ _, P None).
Hypothesis P_queue : ∀ t final payload size sha256,
  published final → int_at "size_bytes" (JObj payload) = Ok size → text_at "sha256" (JObj payload) = Ok sha256 →
  triple (λ w, P None w ∧ visible size sha256 final w) (ensure_queued E t (relative_path_of final) payload)
    (λ _, P None) (λ _, P None).

Abbreviation keeps := (preserves (P None)).

Lemma kept_frame {A} (m : SE Stager A) : frame None m → keeps m.
Proof. apply P_frame. Qed.
Lemma kept_visible size sha256 name {A} (m : SE Stager A) :
  published name → frame None m →
  triple (λ w, P None w ∧ visible size sha256 name w) m (λ _ w, P None w ∧ visible size sha256 name w) (λ _, P None).
Proof.
  intros Hn Hm. eapply triple_weaken.
  - apply triple_and; apply triple_preserves; [by apply kept_frame|by apply (frame_visible size sha256 name)].
  - by intros.
  - by intros.
  - by intros e w [? _].
Qed.
Lemma validate_kept c name size sha256 :
  published name →
  triple (P None) (validate_named_artifact E G L c name size sha256) (λ _ w, P None w ∧ visible size sha256 name w) (λ _, P None).
Proof.
  intros Hn. eapply triple_weaken.
  - apply triple_and; [apply triple_preserves, kept_frame, frame_validate_named|by apply validate_visible].
  - by intros w Hw.
  - by intros.
  - by intros e w [? _].
Qed.
Lemma validate_internal c name size sha256 :
  starts_with "." name = true →
  triple (P None) (validate_named_artifact E G L c name size sha256) (λ identity w, P None w ∧ internal identity) (λ _, P None).
Proof.
  intros Hn. eapply triple_weaken.
  - apply triple_and; [apply triple_preserves, kept_frame, frame_validate_named|apply validate_names].
  - by intros w Hw.
  - intros identity w [Hw [_ Hr]]. split; [done|]. right. by rewrite Hr.
  - by intros e w [? _].
Qed.

Lemma staged_internal i name :
  starts_with "." name = true →
  triple (P None) (validate_staged E G L i name) (λ identity w, P None w ∧ internal identity) (λ _, P None).
Proof.
  intros Hn. unfold validate_staged. do 2 (eapply triple_bind; [apply triple_preserves, kept_frame, frame_lift|intros ?]).
  by apply validate_internal.
Qed.

(** *** Reconciliation *)

Record proper (i : ArtifactIntent) : Prop := {
  proper_final : published (final_name i);
  proper_temporary : starts_with "." (temporary_name i) = true;
  proper_identity : internal (intent_identity i);
}.

Lemma staged_then_queue i {A} (f : unit → SE Stager A) :
  proper i → (∀ u, keeps (f u)) →
  keeps (validate_staged E G L i (final_name i) ;; control_check G ;; queue_intent E i ≫= f).
Proof.
  intros [Hf _ _] Hk. apply triple_preserves. unfold validate_staged, expected_size, expected_sha256.
  destruct (int_at "size_bytes" (JObj (manifest i))) as [size|e] eqn:Es; [|by intros w Hw].
  destruct (text_at "sha256" (JObj (manifest i))) as [sha256|e] eqn:Ed; [|by intros w Hw].
  eapply triple_bind; [by apply (validate_kept true _ size sha256)|]. intros identity.
  eapply triple_bind; [apply kept_visible, frame_control_check; done|]. intros [].
  eapply triple_bind; [by apply P_queue|]. intros u. apply triple_preserves, Hk.
Qed.

Lemma remove_intent_kept i : proper i → keeps (control_check G ;; remove_intent E (intent_identity i)).
Proof.
  intros Hi. apply preserves_bind; [apply kept_frame, frame_control_check|]. intros _.
  apply kept_frame, frame_remove_intent. by destruct Hi.
Qed.
Lemma owned_internal name :
  starts_with "." name = true →
  triple (P None) (validate_owned_regular E name) (λ identity w, P None w ∧ internal identity) (λ _, P None).
Proof.
  intros Hn. eapply triple_weaken.
  - apply triple_and; [apply triple_preserves, kept_frame, frame_validate_owned|apply validate_owned_names].
  - by intros w Hw.
  - intros identity w [Hw [_ Hr]]. split; [done|]. right. by rewrite Hr.
  - by intros e w [? _].
Qed.
Lemma removed_kept identity {A} (f : unit → SE Stager A) :
  (∀ u, keeps (f u)) →
  triple (λ w, P None w ∧ internal identity) (control_check G ;; remove_temporary E identity ≫= f) (λ _, P None) (λ _, P None).
Proof.
  intros Hf w [Hw Hi]. revert w Hw. apply triple_preserves. apply preserves_bind; [apply kept_frame, frame_control_check|]. intros _.
  apply preserves_bind; [|done]. by apply kept_frame, frame_remove_durably.
Qed.
Lemma reconcile_intent_kept i : proper i → keeps (reconcile_intent E G L i).
Proof.
  intros Hi. pose proof Hi as [Hf Ht Hid]. unfold reconcile_intent.
  apply preserves_bind; [apply kept_frame, frame_entry_exists|]. intros [].
  - apply staged_then_queue; [done|]. intros _. apply preserves_bind; [apply kept_frame, frame_entry_exists|]. intros remnant.
    apply preserves_bind; [|intros _; by apply remove_intent_kept]. destruct remnant; [|apply preserves_ret].
    apply triple_preserves. eapply triple_bind; [by apply owned_internal|]. intros identity w [Hw Hx]. revert w Hw.
    apply triple_preserves. apply preserves_bind; [apply kept_frame, frame_control_check|]. intros _.
    by apply kept_frame, frame_remove_durably.
  - apply preserves_bind; [apply kept_frame, frame_entry_exists|]. intros [].
    + apply triple_preserves. eapply triple_bind; [by apply staged_internal|]. intros identity.
      destruct (capture_authority i).
      * intros w [Hw Hx]. revert w Hw. apply triple_preserves.
        apply preserves_bind; [apply kept_frame, frame_control_check|]. intros _.
        apply preserves_bind; [apply kept_frame, frame_rename; by right|]. intros _.
        apply preserves_bind; [apply kept_frame, frame_fsync_folder|]. intros _.
        apply staged_then_queue; [done|]. intros _. by apply remove_intent_kept.
      * apply removed_kept. intros _. by apply remove_intent_kept.
    + apply preserves_bind; [apply kept_frame, frame_raise_if|]. intros _. by apply remove_intent_kept.
Qed.

(** What [read_intent] returns is proper. *)
Lemma starts_with_app p q s : starts_with (p +:+ q) s = true → starts_with p s = true.
Proof.
  unfold starts_with. destruct (after_prefix (p +:+ q) s) as [r|] eqn:Ea; [|done]. intros _.
  apply after_prefix_Some in Ea. assert (after_prefix p s = Some (q +:+ r)) as ->; [|done].
  apply after_prefix_Some. by rewrite append_assoc_string.
Qed.
Lemma parse_proper name identity p :
  internal identity →
  triple (λ _, True) (parse_intent float_equal valid_manifest name identity p) (λ i _, proper i) (λ _ _, True).
Proof.
  intros Hid. unfold parse_intent.
  destruct p as [[| | | | | |kvs]|]; try (by intros w). destruct (dict_get kvs "version") as [version|]; [|by intros w].
  assert (∀ m : SE Stager ArtifactIntent, triple (λ _, True) m (λ i _, proper i) (λ _ _, True) →
    triple (λ _, True) (match version with JList _ | JObj _ => raise_type_error | _ => m end) (λ i _, proper i) (λ _ _, True)) as Hv
    by (intros m Hm; destruct version; try exact Hm; by intros w).
  apply Hv. clear Hv. apply triple_guard. intros _. eapply triple_bind; [apply triple_pure|]. intros authority.
  apply triple_guard. intros _.
  destruct (dict_get kvs "temporary_name") as [[| | | |temporary| |]|]; try (by intros w).
  destruct (dict_get kvs "final_name") as [[| | | |final| |]|]; try (by intros w).
  destruct (dict_get kvs "task_id") as [[| | | |t| |]|]; try (by intros w).
  destruct (dict_get kvs "manifest") as [[| | | | | |m]|]; try (by intros w).
  apply triple_guard. intros [[[Ht%negb_false_iff _]%orb_false_iff Hf%negb_false_iff]%orb_false_iff Hs]%orb_false_iff.
  apply triple_guard. intros _. do 2 (eapply triple_bind; [apply triple_pure|intros ?]).
  apply triple_ret. intros w _. split; [done|by apply (starts_with_app "." "staging-")|done].
Qed.
Lemma read_intent_kept name :
  triple (P None) (read_intent float_equal valid_manifest E G L name) (λ i w, P None w ∧ proper i) (λ _, P None).
Proof.
  eapply triple_weaken.
  - apply triple_and; [apply triple_preserves, kept_frame, frame_read_intent|].
    instantiate (1 := λ _ _, True). instantiate (1 := λ i _, proper i). instantiate (1 := λ _, True).
    unfold read_intent. apply triple_guard. intros _. eapply triple_bind; [apply triple_pure|]. intros fd.
    eapply (triple_bind _ (λ p _, names_it INTENTS name p.1)).
    + apply triple_finally; [by intros [identity p] w|]. do 2 (eapply triple_bind; [apply triple_pure|intros ?]).
      eapply triple_bind; [apply capture_names|]. intros identity. apply triple_guard. intros _.
      do 2 (eapply triple_bind; [apply triple_pure|intros ?]). apply triple_guard. intros _.
      eapply triple_bind; [apply triple_pure|]. intros p. by apply triple_ret.
    + intros [identity p] w [Hd _]. simpl in Hd. revert w. 
      assert (triple (λ _ : Stager, True) (parse_intent float_equal valid_manifest name identity (Some p)) (λ i _, proper i) (λ _ _, True)) as Hp
        by (apply parse_proper; left; by rewrite Hd).
      intros w. exact (Hp w I).
  - by intros w Hw.
  - by intros.
  - by intros e w [? _].
Qed.

Lemma reconcile_entries_kept aid eid names :
  keeps (reconcile_entries float_equal valid_manifest E G L aid eid names).
Proof.
  induction names as [|name names IH]; simpl; [apply preserves_ret|].
  apply preserves_bind; [apply kept_frame, frame_inspect_entry|]. intros _.
  apply preserves_bind; [|intros issues; apply preserves_bind; [exact IH|intros rest; apply preserves_ret]].
  case_match; [apply preserves_bind; [apply kept_frame, frame_record|intros _; apply preserves_ret]|].
  unfold collect. apply preserves_catch; [|intros e; case_match; [apply preserves_raise|apply preserves_ret]].
  apply triple_preserves. eapply triple_bind; [apply read_intent_kept|]. intros i w [Hw Hi]. revert w Hw.
  apply triple_preserves. apply preserves_bind; [apply preserves_lift|]. intros artifact.
  apply preserves_bind; [|intros _; apply preserves_ret]. case_match; [by apply reconcile_intent_kept|apply preserves_ret].
Qed.
Lemma kept_finally {A} n (m : SE Stager A) : keeps m → keeps (finally_close E n m).
Proof.
  intros Hm. unfold finally_close. apply preserves_bind; [by apply preserves_attempt|]. intros r.
  apply preserves_bind; [apply kept_frame, frame_close_all|]. intros failed.
  repeat case_match; first [apply preserves_ret|apply preserves_raise].
Qed.
Lemma reconcile_and_find_kept supplied t :
  keeps (reconcile_and_find_existing float_equal valid_manifest E G L supplied t).
Proof.
  unfold reconcile_and_find_existing. apply preserves_bind; [apply kept_frame; framed|]. intros _.
  apply preserves_bind.
  - unfold reconcile_relevant, open_managed_tree. apply preserves_bind; [apply kept_frame, frame_any_call|]. intros _.
    apply kept_finally. apply preserves_bind; [apply kept_frame; framed|]. intros names.
    apply preserves_bind; [apply reconcile_entries_kept|]. intros issues.
    apply preserves_bind; [|intros more; apply preserves_raise_if].
    case_match; [apply kept_frame, frame_reconcile_row|apply preserves_ret].
  - intros _. apply preserves_bind; [apply kept_frame, frame_control_check|]. intros _. apply kept_frame, frame_existing_staged.
Qed.

Lemma reconcile_intents_kept names : keeps (reconcile_intents float_equal valid_manifest E G L names).
Proof.
  induction names as [|name names IH]; simpl; [apply preserves_ret|].
  apply preserves_bind; [apply kept_frame, frame_inspect_entry|]. intros _.
  apply preserves_bind; [|intros issues; apply preserves_bind; [exact IH|intros rest; apply preserves_ret]].
  case_match; [apply preserves_bind; [apply kept_frame, frame_record|intros _; apply preserves_ret]|].
  unfold collect. apply preserves_catch; [|intros e; case_match; [apply preserves_raise|apply preserves_ret]].
  apply triple_preserves. eapply triple_bind; [apply read_intent_kept|]. intros i w [Hw Hi]. revert w Hw.
  apply triple_preserves. apply preserves_bind; [by apply reconcile_intent_kept|intros _; apply preserves_ret].
Qed.
Lemma start_stager_kept : keeps (start_stager float_equal valid_manifest E G L).
Proof.
  unfold start_stager, open_managed_tree. apply preserves_bind; [apply kept_frame, frame_any_call|]. intros _.
  apply preserves_bind; [apply kept_frame, frame_finally_close, frame_fsync_folder|]. intros _.
  apply preserves_bind; [apply kept_frame; framed|]. intros _.
  unfold reconcile_startup, open_managed_tree. apply preserves_bind; [apply kept_frame, frame_any_call|]. intros _.
  apply kept_finally. apply preserves_bind; [apply kept_frame; framed|]. intros names.
  apply preserves_bind; [apply reconcile_intents_kept|]. intros issues. apply kept_frame.
  pose proof frame_check_rows. pose proof frame_control_check. framed.
Qed.

(** *** Staging *)

Lemma clean_up_keeps busy {A} identities (m : SE Stager A) (Q : A → Stager → Prop) :
  Forall internal identities → triple (P busy) m Q (λ _, P busy) → triple (P busy) (clean_up E identities m) Q (λ _, P busy).
Proof.
  intros Hi Hm. unfold clean_up. eapply triple_catch; [exact Hm|]. intros e. eapply triple_bind.
  - apply triple_preserves, P_frame.
    induction Hi as [|identity identities Hx _ IH]; simpl; [apply frame_ret|]. apply frame_bind; [|by intros _].
    apply frame_bind; [by apply frame_attempt, frame_remove_durably|]. intros r. apply frame_ret.
  - intros []. by apply triple_raise.
Qed.
Lemma on_error_close_keeps busy {A} (m : SE Stager A) (Q : A → Stager → Prop) :
  triple (P busy) m Q (λ _, P busy) → triple (P busy) (on_error_close E m) Q (λ _, P busy).
Proof.
  intros Hm. unfold on_error_close. eapply triple_catch; [exact Hm|]. intros e. eapply triple_bind.
  - apply triple_preserves, P_frame, frame_attempt, frame_close.
  - intros r. by apply triple_raise.
Qed.
Lemma frame_write_all n fuel payload : frame (Some n) (on_disk (write_all E fuel n payload)).
Proof.
  apply frame_disk. intros durably name ino F _ Hb. revert payload.
  induction fuel as [|fuel IH]; intros payload; simpl; [apply preserves_ret|]. case_match; [apply preserves_ret|].
  apply preserves_bind; [apply write_here; congruence|]. intros k. apply IH.
Qed.
Lemma on_disk_bind {A B} (m : SE Disk A) (f : A → SE Disk B) w :
  on_disk (m ≫= f) w = (on_disk m ≫= λ a, on_disk (f a)) w.
Proof.
  rewrite bind_state. unfold on_disk. rewrite bind_state. destruct (m (disk w)) as [[a|e] d]; simpl; [|done].
  by destruct (f a d).
Qed.
Lemma frame_write_sync n fuel payload : frame (Some n) (on_disk (write_all E fuel n payload ;; fsync E n)).
Proof.
  assert (frame (Some n) (on_disk (write_all E fuel n payload) ;; on_disk (fsync E n))) as [Hu Hk]
    by (apply frame_bind; [apply frame_write_all|intros _; apply frame_fsync]).
  split; intros; intros w Hw; rewrite on_disk_bind; [by apply Hu|by apply Hk].
Qed.
Lemma frame_copy_chunks n fuel S maximum copied : frame (Some n) (copy_chunks E G fuel S maximum n copied).
Proof.
  revert copied. induction fuel as [|fuel IH]; intros copied; simpl; [apply frame_raise|].
  apply frame_bind; [apply frame_tx_check|]. intros _. apply frame_bind; [apply frame_ask|]. intros chunk.
  case_match; [apply frame_ret|]. apply frame_bind; [apply frame_raise_if|]. intros _.
  apply frame_bind; [apply frame_write_all|]. intros _. apply IH.
Qed.
(** Whatever a frame returns, with a fact about the value alone. *)
Lemma frame_with busy {A} (m : SE Stager A) (K : A → Prop) :
  frame busy m → triple (λ _, True) m (λ a _, K a) (λ _ _, True) →
  triple (P busy) m (λ a w, P busy w ∧ K a) (λ _, P busy).
Proof.
  intros Hm Hk w Hw. pose proof (P_frame _ _ _ Hm w Hw) as Hp. specialize (Hk w I). by destruct (m w) as [[a|e] w'].
Qed.
Lemma copy_source_value supplied S maximum expected before temporary n :
  starts_with "." temporary = true →
  triple (λ _, True) (copy_source valid_manifest E G supplied S maximum expected before temporary n)
    (λ r _, r.1.1 = finished_manifest supplied r.1.2 ∧ internal r.2) (λ _ _, True).
Proof.
  intros Ht. unfold copy_source. eapply triple_bind; [apply triple_pure|]. intros copied. apply triple_guard. intros _.
  eapply triple_bind; [apply triple_pure|]. intros after. do 4 (apply triple_guard; intros _).
  eapply triple_bind; [apply triple_pure|]. intros []. eapply triple_bind; [apply capture_internal; by right|].
  intros identity. by apply triple_ret.
Qed.
Lemma copy_source_kept supplied S maximum expected before temporary n :
  starts_with "." temporary = true →
  triple (P (Some n)) (copy_source valid_manifest E G supplied S maximum expected before temporary n)
    (λ r w, P (Some n) w ∧ r.1.1 = finished_manifest supplied r.1.2 ∧ internal r.2) (λ _, P (Some n)).
Proof.
  intros Ht. apply frame_with; [|by apply copy_source_value].
  unfold copy_source. apply frame_bind; [apply frame_copy_chunks|]. intros copied.
  apply frame_bind; [apply frame_raise_if|]. intros _. apply frame_bind; [apply frame_ask|]. intros after.
  do 4 (apply frame_bind; [apply frame_raise_if|]; intros _).
  apply frame_bind; [|intros _; apply frame_bind; [apply frame_capture|intros identity; apply frame_ret]].
  apply frame_disk. intros durably name ino F _ Hb. apply fchmod_here. congruence.
Qed.
Lemma first_copy_kept supplied S maximum expected before temporary n :
  starts_with "." temporary = true →
  triple (P (Some n))
    (on_error_close E (
      first ← on_disk (capture_file_identity E OUTBOX temporary n (Some (euid E)) (Some temporary_mode));
      '(final_manifest, copied, identity) ←
        clean_up E [first] (copy_source valid_manifest E G supplied S maximum expected before temporary n);
      clean_up E [identity] (on_disk (fsync E n)) ;;
      mret (final_manifest, copied, identity)))
    (λ r w, P None w ∧ r.1.1 = finished_manifest supplied r.1.2 ∧ internal r.2) (λ _, P None).
Proof.
  intros Ht. eapply triple_weaken.
  - apply (on_error_close_keeps (Some n) _ (λ r w, P (Some n) w ∧ r.1.1 = finished_manifest supplied r.1.2 ∧ internal r.2)).
    eapply triple_bind; [apply (frame_with (Some n) _ internal)|].
    + apply frame_capture.
    + apply capture_internal. by right.
    + intros first w [Hw Hfirst]. revert w Hw. eapply triple_bind.
      { apply clean_up_keeps; [by constructor|]. by apply copy_source_kept. }
      intros [[fm copied] identity] w (Hw & Hfm & Hid). simpl in *. revert w Hw. eapply triple_bind.
      { apply clean_up_keeps; [by constructor|]. apply triple_preserves, P_frame, frame_fsync. }
      intros []. apply triple_ret. intros w Hw. done.
  - done.
  - intros r w [Hw Hr]. split; [by apply (P_free n)|done].
  - intros e w Hw. by apply (P_free n).
Qed.

(** A frame on a new inode ends in [P None], with or without a value. *)
Lemma frame_fresh n {A} (m : SE Stager A) : frame (Some n) m → triple (P (Some n)) m (λ _, P None) (λ _, P None).
Proof.
  intros Hm. eapply triple_weaken; [apply triple_preserves, P_frame, Hm|done|..]; intros a w Hw; by apply (P_free n).
Qed.
(** A frame in front. *)
Lemma kept_bind {A B} (m : SE Stager A) (f : A → SE Stager B) Q :
  frame None m → (∀ a, triple (P None) (f a) Q (λ _, P None)) → triple (P None) (m ≫= f) Q (λ _, P None).
Proof. intros Hm Hf. eapply triple_bind; [apply triple_preserves, P_frame, Hm|exact Hf]. Qed.
Lemma discard_kept {A} identity (e : exc) (Q : A → Stager → Prop) :
  internal identity → triple (P None) (discard_intent E identity e) Q (λ _, P None).
Proof.
  intros Hi. unfold discard_intent. apply kept_bind; [by apply frame_quarantine|]. intros o.
  apply kept_bind; [repeat case_match; first [apply frame_record|framed]|]. intros []. by apply triple_raise.
Qed.

Definition intent_of (i : ArtifactIntent) (m : list (string * json)) (final temporary : string) : Prop :=
  internal (intent_identity i) ∧ manifest i = m ∧ final_name i = final ∧ temporary_name i = temporary.
Lemma write_intent_kept t temporary final m authority :
  triple (P None) (write_intent float_equal E t temporary final m authority)
    (λ i w, P None w ∧ intent_of i m final temporary) (λ _, P None).
Proof.
  unfold write_intent. do 3 (apply kept_bind; [framed|intros ?]).
  apply kept_bind; [destruct authority; [apply frame_bind; [framed|intros _; apply frame_validate_authority]|framed]|]. intros [].
  apply kept_bind; [framed|]. intros []. eapply triple_bind; [apply P_create|]. intros n.
  eapply triple_bind.
  { apply triple_attempt, (frame_with (Some n) _ internal); [apply frame_capture|by apply capture_internal; left]. }
  intros [identity|e].
  - intros w [Hw Hi]. revert w Hw. eapply triple_bind.
    { apply frame_fresh, frame_attempt, frame_write_sync. }
    intros written. apply kept_bind; [apply frame_attempt, frame_close|]. intros closed.
    destruct written as [[]|e]; [destruct closed as [[]|e]|]; try by apply discard_kept.
    apply kept_bind; [apply frame_attempt, frame_fsync_folder|]. intros [[]|e]; [|by apply discard_kept].
    apply triple_ret. intros w Hw. by repeat split.
  - eapply triple_bind; [apply frame_fresh, frame_attempt, frame_close|]. intros r. by apply triple_raise.
Qed.

Lemma rename_component f source destination :
  triple (λ _, True) (on_disk (rename_noreplace E f source destination))
    (λ _ _, contains_slash destination = false) (λ _ _, True).
Proof.
  intros w _. unfold on_disk. destruct (rename_effect E f source destination (disk w)) as [k [[e ->]|(n & _ & _ & Hc & _ & ->)]]; [done|].
  unfold component in Hc. apply andb_true_iff in Hc as [_ Hc%negb_true_iff]. by apply orb_false_iff in Hc as [Hc _].
Qed.
Lemma triple_keep_pure {A} (K : Prop) (m : SE Stager A) (Q : A → Stager → Prop) busy :
  (K → triple (P busy) m Q (λ _, P None)) → triple (λ w, P busy w ∧ K) m Q (λ _, P None).
Proof. intros Hm w [Hw Hk]. by apply Hm. Qed.

Context (intent_durable : ArtifactIntent → stat_result → string → SE Stager unit).
(** The caller's callback keeps the outbox and the uploads. *)
Hypothesis callback_frame : ∀ i md sha256, frame None (intent_durable i md sha256).

Lemma dict_get_set_same d k v : dict_get (dict_set d k v) k = Some v.
Proof.
  induction d as [|[k' v'] d IH]; simpl; unfold dict_get in *; simpl; [by rewrite String.eqb_refl|].
  destruct (String.eqb k' k) eqn:Ek; simpl; [by rewrite String.eqb_refl|by rewrite Ek].
Qed.
Lemma dict_get_set_other d k k' v : k ≠ k' → dict_get (dict_set d k v) k' = dict_get d k'.
Proof.
  intros Hk. induction d as [|[k0 v0] d IH]; simpl; unfold dict_get in *; simpl.
  { by destruct (String.eqb_spec k k'). }
  destruct (String.eqb_spec k0 k) as [->|]; simpl.
  - by destruct (String.eqb_spec k k').
  - destruct (String.eqb_spec k0 k'); [done|exact IH].
Qed.
Lemma finished_size supplied copied :
  int_at "size_bytes" (JObj (finished_manifest supplied copied)) = Ok (Z.of_nat (String.length copied)).
Proof.
  unfold int_at, at_key, finished_manifest. rewrite dict_get_set_other by done. by rewrite dict_get_set_same.
Qed.
Lemma finished_sha256 supplied copied :
  text_at "sha256" (JObj (finished_manifest supplied copied)) = Ok (sha256_hex copied).
Proof. unfold text_at, at_key, finished_manifest. by rewrite dict_get_set_same. Qed.

Lemma published_final supplied token :
  contains_slash ("artifact-" +:+ token +:+ artifact_suffix supplied) = false →
  published ("artifact-" +:+ token +:+ artifact_suffix supplied).
Proof.
  intros Hs. split; [|done]. unfold starts_with. assert (after_prefix "artifact-" ("artifact-" +:+ token +:+ artifact_suffix supplied)
    = Some (token +:+ artifact_suffix supplied)) as ->; [by apply after_prefix_Some|done].
Qed.

Lemma finish_kept t i supplied copied :
  published (final_name i) → internal (intent_identity i) → manifest i = finished_manifest supplied copied →
  preserves (P None) (finish_published E G L t i copied).
Proof.
  intros Hn Hi Hm. unfold finish_published. apply triple_preserves.
  apply kept_bind; [apply frame_fsync_folder|]. intros [].
  eapply triple_bind; [by apply validate_kept|]. intros identity.
  eapply triple_bind; [apply P_queue; [done|by rewrite Hm, finished_size|by rewrite Hm, finished_sha256]|]. intros u.
  apply kept_bind; [by apply frame_remove_intent|]. intros [].
  apply kept_bind; [apply frame_committed|]. intros []. by apply triple_ret.
Qed.

(** From the durable intent to the published name. *)
Lemma publish_kept identities i before sha256 temporary final :
  Forall internal identities → starts_with "." temporary = true →
  triple (P None)
    (clean_up E identities (
      intent_durable i before sha256 ;; ready G ;; begin_commit G ;; publish_without_overwrite E temporary final))
    (λ _ w, P None w ∧ contains_slash final = false) (λ _, P None).
Proof.
  intros Hi Ht. apply clean_up_keeps; [done|]. apply kept_bind; [apply callback_frame|]. intros [].
  apply kept_bind; [apply frame_advance|]. intros []. apply kept_bind; [apply frame_advance|]. intros [].
  apply (frame_with None); [by apply frame_rename; right|apply rename_component].
Qed.

Lemma staging_name token : starts_with "." (".staging-" +:+ token) = true.
Proof. unfold starts_with. by assert (after_prefix "." (".staging-" +:+ token) = Some ("staging-" +:+ token)) as -> by by apply after_prefix_Some. Qed.

Lemma stage_sync_kept supplied S t maximum expected authority :
  keeps (stage_sync float_equal valid_manifest E G L supplied S t maximum expected authority intent_durable).
Proof.
  unfold stage_sync, open_managed_tree. apply preserves_bind; [apply kept_frame, frame_any_call|]. intros _.
  apply kept_finally, triple_preserves. do 2 (apply kept_bind; [framed|intros ?]).
  apply kept_bind; [apply frame_ask|]. intros before. apply kept_bind; [apply frame_validate_source|]. intros [].
  do 4 (apply kept_bind; [framed|intros ?]).
  eapply triple_bind; [apply P_create|]. intros n. eapply triple_bind; [by apply first_copy_kept, staging_name|].
  intros [[fm copied] identity]. simpl. apply triple_keep_pure. intros [Hfm Hid].
  eapply triple_bind.
  { apply clean_up_keeps; [by constructor|]. apply kept_bind; [apply frame_close|]. intros []. apply write_intent_kept. }
  intros i. apply triple_keep_pure. intros (Hint & Hm & Hf & Ht).
  eapply triple_bind; [apply publish_kept; [by apply Forall_cons_2; [|apply Forall_singleton]|apply staging_name]|]. intros [].
  apply triple_keep_pure. intros Hs. apply triple_preserves. eapply finish_kept; [|done|by rewrite Hm].
  rewrite Hf. by apply published_final.
Qed.

Lemma stage_kept supplied S t maximum expected authority :
  keeps (stage float_equal valid_manifest E G L supplied S t maximum expected authority intent_durable).
Proof.
  unfold stage, stage_exclusive. apply preserves_bind; [apply preserves_raise_if|]. intros _.
  apply preserves_bind; [apply reconcile_and_find_kept|]. intros [a|]; [apply preserves_ret|].
  apply preserves_bind; [apply kept_frame; framed|]. intros _.
  apply preserves_bind; [apply preserves_attempt, stage_sync_kept|]. intros r.
  apply preserves_bind; [apply preserves_get|]. intros tr.
  destruct r as [a|e], (first_answer tr) as [begun|]; try apply preserves_ret; try (case_match; first [apply preserves_ret|apply preserves_raise]).
  case_match; [apply preserves_raise|].
  apply preserves_bind; [apply preserves_attempt, reconcile_and_find_kept|]. intros [[a|]|e']; try apply preserves_raise.
  apply preserves_bind; [|intros _; apply preserves_ret]. destruct (in_state COMMITTED tr); [apply preserves_ret|apply kept_frame, frame_committed].
Qed.
End Kept.
