(* ===== verification/StagerTheorems.v ===== *)
(** * What staging guarantees

    Every row of [pending_uploads] has its file, whatever fails and wherever the
    process is killed; what staging has confirmed survives a loss of power; and a
    cancellation that was answered as accepted publishes nothing. *)

From Stdlib Require Import Ascii.
From S2P Require Export StagerKept.

(** ** Creating files and queueing rows *)

Section Instances.
Context `{Sha256} `{PythonText} `{UuidText}.
Context (E : Env).

Lemma open_create_effect f s mode d :
  ∃ k, (∃ e, open_create E f s mode d = (Err e, at_call k d))
    ∨ ∃ n i, inodes d !! n = None ∧ named f s d = None ∧ body i = synced (latest (body i))
        ∧ open_create E f s mode d
          = (Ok n, at_call k (set_folder f (overwrite <[s := n]> (folder f d)) (set_inodes (<[n := i]> (inodes d)) d))).
Proof.
  exists (S (calls d)). unfold open_create, syscall. destruct (fault E (calls d)) as [e|]; [left; by exists e|].
  fold (at_call (S (calls d)) d). unfold mbind, SE_bind, get, raise_if, modify, mret, SE_ret. rewrite !named_at_call.
  destruct (named f s d) as [n|]; [left; by eexists|]. simpl. set (n := fresh_inode E (inodes d)).
  destruct (inodes d !! n) as [i|] eqn:Ei; [left; by eexists|]. simpl. right.
  exists n, (new_file E f mode (S (calls d))). split_and!; try done. by destruct f.
Qed.
Lemma create_here durably name ino F f s mode :
  triple (file_at durably name ino F) (open_create E f s mode)
    (λ n d, file_at durably name ino F d ∧ n ≠ ino) (λ _, file_at durably name ino F).
Proof.
  intros d Hd. destruct (open_create_effect f s mode d) as [k [[e ->]|(n & i & Hn & Hs & _ & ->)]]; [done|].
  destruct Hd as (Hnames & i' & Hi & Hb). assert (n ≠ ino) as Hne by (intros ->; congruence). split; [|done].
  split; [|exists i'; split; [|done]; destruct f; simpl; by rewrite lookup_insert_ne].
  destruct f; [|done|done]. simpl. intros names [->|Hx]%views_overwrite; [|by apply Hnames].
  assert (s ≠ name) as Hsn. { intros ->. unfold named in Hs. simpl in Hs. by rewrite (Hnames _ (views_latest _ _)) in Hs. }
  rewrite lookup_insert_ne by done. apply Hnames, views_latest.
Qed.

(** [ensure_artifact_queued] adds at most the row it is asked for; when it
    returns, there is such a row. *)
Definition row_for (path : string) (size : Z) (sha256 : string) (u : UploadRow) : Prop :=
  pu_relative_path u = as_posix path ∧ pu_size_bytes u = size ∧ pu_sha256 u = sha256.
Lemma ensure_uploads now uid t path mt aid size sha256 p s :
  let '(r, s') := ensure_artifact_queued now uid t path mt aid size sha256 p s in
  (pending_uploads s' = pending_uploads s ∨ ∃ u, pending_uploads s' = pending_uploads s ++ [u] ∧ row_for path size sha256 u)
  ∧ (is_ok r = true → ∃ u, u ∈ pending_uploads s' ∧ row_for path size sha256 u).
Proof.
  unfold ensure_artifact_queued. run_tx. destruct (unsafe_relative path); [by split; [left|]|]. simpl.
  destruct (select_one _ (pending_uploads s)) as [u|] eqn:Eu.
  - destruct (same_upload _ _ _ _ _ _ u) eqn:Es; simpl; (split; [by left|]); [|done]. intros _. exists u.
    apply select_one_Some in Eu as [Hu _]. split; [done|]. unfold same_upload in Es. bool_simp. by repeat split.
  - cbn [committed working in_tx]. match goal with |- context [insert_upload ?row s] => destruct (insert_upload row s) as [[[] s1]|e] eqn:Ei end;
      simpl; [|by split; [left|]]. unfold insert_upload in Ei. inserted Ei. simpl.
    match goal with |- context [_ ++ [?row]] => assert (row_for path size sha256 row) by done end.
    split; [right; by eexists|]. intros _. eexists. split; [|done]. apply elem_of_app. right. by left.
Qed.
Lemma contains_slash_cons c s : contains_slash (String c s) = Ascii.eqb c slash || contains_slash s.
Proof.
  unfold contains_slash. assert (String.index 0 "/" (String c s)
    = if Ascii.eqb c slash then Some 0%nat else S <$> String.index 0 "/" s) as ->; [|destruct (Ascii.eqb c slash); [done|by destruct (String.index 0 "/" s)]].
  destruct c as [[] [] [] [] [] [] [] []]; simpl; first [reflexivity | by destruct s | by destruct (String.index 0 "/" s)].
Qed.
Lemma no_slash s : contains_slash s = false → all_chars (λ c, negb (Ascii.eqb c slash)) s = true.
Proof.
  induction s as [|c s IH]; [done|]. rewrite contains_slash_cons. intros [Hc Hs]%orb_false_iff.
  simpl. by rewrite Hc, IH.
Qed.
Lemma as_posix_relative name : published name → as_posix (relative_path_of name) = relative_path_of name.
Proof.
  intros Hn. pose proof Hn as [_ Hs]. apply published_cons in Hn as [r ->].
  assert (all_chars (λ c, negb (Ascii.eqb c slash)) ("a" +:+ r) = true) as Hc by (by apply no_slash).
  unfold as_posix, relative_path_of, is_absolute, posix_names.
  change ("outbox/" +:+ "a" +:+ r) with ("outbox" +:+ String slash ("a" +:+ r)).
  rewrite split_slash_cons, split_slash_none by done. simpl. done.
Qed.

(** *** Files of rows *)

Definition uploads (w : Stager) : list UploadRow := pending_uploads (db w).
(** The row's file is in the outbox, on another inode than [busy], with the
    contents the row describes. *)
Definition stored (durably : bool * bool) (busy : option nat) (u : UploadRow) (w : Stager) : Prop :=
  ∃ name ino, published name ∧ pu_relative_path u = relative_path_of name ∧ Some ino ≠ busy
    ∧ file_at durably name ino (fits (pu_size_bytes u) (pu_sha256 u)) (disk w).
Definition all_stored (busy : option nat) (w : Stager) : Prop :=
  ∀ u, u ∈ uploads w → stored (false, false) busy u w.
Definition row_kept (u : UploadRow) (busy : option nat) (w : Stager) : Prop :=
  u ∈ uploads w ∧ stored (true, true) busy u w.

Lemma uploads_frame busy {A} (m : SE Stager A) w : frame busy m → uploads (m w).2 = uploads w.
Proof. intros [Hu _]. by apply (Hu (uploads w) w). Qed.
Lemma stored_frame durably busy u {A} (m : SE Stager A) : frame busy m → preserves (stored durably busy u) m.
Proof.
  intros [_ Hm] w (name & ino & Hn & Hp & Hb & Hf).
  destruct (Hm durably name ino _ (uploads w) Hn Hb w (conj Hf eq_refl)) as [Hf' Hu]. by exists name, ino.
Qed.
Lemma all_stored_frame busy A (m : SE Stager A) : frame busy m → preserves (all_stored busy) m.
Proof.
  intros Hm w Hw u Hu. rewrite (uploads_frame busy m w Hm) in Hu. apply stored_frame; [done|]. by apply Hw.
Qed.
Lemma row_kept_frame u busy A (m : SE Stager A) : frame busy m → preserves (row_kept u busy) m.
Proof. intros Hm w [Hu Hw]. split; [by rewrite (uploads_frame busy m w Hm)|by apply stored_frame]. Qed.

Lemma stored_free durably n u w : stored durably (Some n) u w → stored durably None u w.
Proof. intros (name & ino & Hn & Hp & _ & Hf). by exists name, ino. Qed.
Lemma stored_create durably u f s mode w :
  stored durably None u w →
  let '(r, w') := on_disk (open_create E f s mode) w in
  uploads w' = uploads w ∧ match r with Ok n => stored durably (Some n) u w' | Err _ => stored durably None u w' end.
Proof.
  intros (name & ino & Hn & Hp & _ & Hf). unfold on_disk. pose proof (create_here durably name ino _ f s mode (disk w) Hf) as Hc.
  destruct (open_create E f s mode (disk w)) as [[n|e] d]; (split; [done|]); [destruct Hc as [Hc Hne]|]; exists name, ino; split_and!; congruence || done.
Qed.
Lemma create_uploads f s mode w : uploads (on_disk (open_create E f s mode) w).2 = uploads w.
Proof. unfold on_disk. by destruct (open_create E f s mode (disk w)). Qed.
Lemma all_stored_create f s mode :
  triple (all_stored None) (on_disk (open_create E f s mode)) (λ n, all_stored (Some n)) (λ _, all_stored None).
Proof.
  intros w Hw. pose proof (create_uploads f s mode w) as Hx.
  assert (∀ u, u ∈ uploads w → stored (false, false) None u w) as Hw' by exact Hw.
  pose proof (λ u Hu, stored_create (false, false) u f s mode w (Hw' u Hu)) as Hc.
  destruct (on_disk (open_create E f s mode) w) as [[n|e] w']; intros u Hu; simpl in Hx; rewrite Hx in Hu; by apply Hc.
Qed.
Lemma row_kept_create u f s mode :
  triple (row_kept u None) (on_disk (open_create E f s mode)) (λ n, row_kept u (Some n)) (λ _, row_kept u None).
Proof.
  intros w [Hu Hw]. pose proof (stored_create (true, true) u f s mode w Hw) as Hc.
  destruct (on_disk (open_create E f s mode) w) as [[n|e] w']; destruct Hc as [Hx Hc]; split; try done; by rewrite Hx.
Qed.

(** Queueing leaves the disk and adds at most a row for the visible file. *)
Lemma ensure_queued_effect t final payload size sha256 w :
  int_at "size_bytes" (JObj payload) = Ok size → text_at "sha256" (JObj payload) = Ok sha256 →
  let '(r, w') := ensure_queued E t (relative_path_of final) payload w in
  (∃ k, disk w' = at_call k (disk w))
  ∧ (uploads w' = uploads w ∨ ∃ u, uploads w' = uploads w ++ [u] ∧ row_for (relative_path_of final) size sha256 u)
  ∧ (is_ok r = true → ∃ u, u ∈ uploads w' ∧ row_for (relative_path_of final) size sha256 u).
Proof.
  intros Hs Hd. unfold ensure_queued. rewrite Hs, Hd. unfold observe, on_db, with_db, on_disk, lift, syscall, mret, SE_ret, uploads.
  rewrite bind_state. destruct (text_at "media_type" _) as [mt|e]; [|split_and!; [by exists (calls (disk w)); destruct (disk w)|by left|done]].
  rewrite bind_state. destruct (text_at "artifact_id" _) as [aid|e]; [|split_and!; [by exists (calls (disk w)); destruct (disk w)|by left|done]].
  rewrite !bind_state. simpl. destruct (fault E _) as [e|]; simpl; [split_and!; [by eexists|by left|done]|].
  match goal with |- context [ensure_artifact_queued ?a ?b ?c ?d ?x ?y ?z ?v ?p ?s] =>
    pose proof (ensure_uploads a b c d x y z v p s) as Hu; destruct (ensure_artifact_queued a b c d x y z v p s) as [[b0|e0] s'] end;
  simpl; destruct Hu as [Hu Hr]; (split_and!; [by eexists|exact Hu|exact Hr]).
Qed.
Lemma at_call_file durably name ino F k d : file_at durably name ino F (at_call k d) ↔ file_at durably name ino F d.
Proof. done. Qed.
Lemma all_stored_queue t final payload size sha256 :
  published final → int_at "size_bytes" (JObj payload) = Ok size → text_at "sha256" (JObj payload) = Ok sha256 →
  triple (λ w, all_stored None w ∧ visible size sha256 final w) (ensure_queued E t (relative_path_of final) payload)
    (λ _, all_stored None) (λ _, all_stored None).
Proof.
  intros Hn Hs Hd w [Hw [ino Hv]]. pose proof (ensure_queued_effect t final payload size sha256 w Hs Hd) as He.
  destruct (ensure_queued E t (relative_path_of final) payload w) as [r w'].
  assert (all_stored None w') as Ha; [|by destruct r]. destruct He as ([k Hk] & Hu & _).
  intros u Hx. destruct Hu as [Hu|(u' & Hu & Hp & Hz & Hh)]; rewrite Hu in Hx; [|apply elem_of_app in Hx as [Hx|Hx%list_elem_of_singleton]].
  1,2: destruct (Hw u Hx) as (name & i & Hn' & Hp' & Hb & Hf); exists name, i; by rewrite Hk.
  subst u'. exists final, ino. rewrite Hk, Hz, Hh, Hp, as_posix_relative by done. by split_and!.
Qed.
Lemma row_kept_queue u t final payload size sha256 :
  published final → int_at "size_bytes" (JObj payload) = Ok size → text_at "sha256" (JObj payload) = Ok sha256 →
  triple (λ w, row_kept u None w ∧ visible size sha256 final w) (ensure_queued E t (relative_path_of final) payload)
    (λ _, row_kept u None) (λ _, row_kept u None).
Proof.
  intros Hn Hs Hd w [[Hu Hf] _]. pose proof (ensure_queued_effect t final payload size sha256 w Hs Hd) as He.
  destruct (ensure_queued E t (relative_path_of final) payload w) as [r w'].
  assert (row_kept u None w') as Ha; [|by destruct r]. destruct He as ([k Hk] & Hx & _). split.
  - destruct Hx as [->|(u' & -> & _)]; [done|]. apply elem_of_app. by left.
  - destruct Hf as (name & i & Hn' & Hp' & Hb & Hf). exists name, i. by rewrite Hk.
Qed.
End Instances.
