(* ===== verification/CaptureMarkerLog.v ===== *)
(** * The marker of a capture

    [CaptureMarker] and the markers of [CaptureRecoveryStore] in
    [platforms/linux/capture_recovery.py], over the file system of [SecureFs]: a
    file of JSON lines, one per event, each with the digest of the line before it.
    A marker is appended to and synchronised, read back and checked from its first
    line to its last, and renamed away when it is retired.  The lock of the file is
    one system call that may fail, as is every [lseek].  A marker object is a value
    that an operation replaces when it returns; when it raises, the caller still has
    the old one, as in Python. *)

From Stdlib Require Import Ascii.
From S2P Require Import CaptureRollback.
From S2P Require Export JsonAsciiRoundTrip Staging.

(** ** Events *)

Definition marker_state_text (s : CaptureMarkerState) : string :=
  match s with
  | RESERVATION_PLANNED => "RESERVATION_PLANNED" | RESERVED => "RESERVED" | CAPTURE_COMPLETE => "CAPTURE_COMPLETE"
  | ROLLBACK_VERIFICATION_PENDING => "ROLLBACK_VERIFICATION_PENDING" | INTERFACE_RESTORED => "INTERFACE_RESTORED"
  | STAGING_INTENT_DURABLE => "STAGING_INTENT_DURABLE" | LOCAL_ARTIFACT_COMMITTED => "LOCAL_ARTIFACT_COMMITTED"
  | BINDING_PUBLISHED => "BINDING_PUBLISHED" | RETIRED => "RETIRED"
  end.
Definition marker_states : list CaptureMarkerState :=
  [RESERVATION_PLANNED; RESERVED; CAPTURE_COMPLETE; ROLLBACK_VERIFICATION_PENDING; INTERFACE_RESTORED;
   STAGING_INTENT_DURABLE; LOCAL_ARTIFACT_COMMITTED; BINDING_PUBLISHED; RETIRED].
(** [_SUCCESSOR] *)
Definition successor (s : CaptureMarkerState) : option CaptureMarkerState :=
  match s with
  | RESERVATION_PLANNED => Some RESERVED
  | RESERVED => Some CAPTURE_COMPLETE
  | CAPTURE_COMPLETE => Some ROLLBACK_VERIFICATION_PENDING
  | ROLLBACK_VERIFICATION_PENDING => Some INTERFACE_RESTORED
  | INTERFACE_RESTORED => Some STAGING_INTENT_DURABLE
  | STAGING_INTENT_DURABLE => Some LOCAL_ARTIFACT_COMMITTED
  | LOCAL_ARTIFACT_COMMITTED => Some BINDING_PUBLISHED
  | BINDING_PUBLISHED => Some RETIRED
  | RETIRED => None
  end.
(** [_DETAIL_FIELDS] *)
Definition detail_fields (s : CaptureMarkerState) : list string :=
  match s with
  | RESERVATION_PLANNED =>
      ["request"; "source_name"; "capture_format"; "artifact_root"; "artifact_root_dev"; "artifact_root_ino"]
  | RESERVED =>
      ["directory_dev"; "directory_ino"; "st_dev"; "st_ino"; "st_uid"; "file_type"; "mode"; "st_nlink"]
  | CAPTURE_COMPLETE => ["size_bytes"; "sha256"; "st_mtime_ns"; "st_ctime_ns"; "started_at"]
  | ROLLBACK_VERIFICATION_PENDING => ["rollback"]
  | INTERFACE_RESTORED => ["rollback"; "metadata"]
  | STAGING_INTENT_DURABLE => ["intent_name"; "source_st_dev"; "source_st_ino"; "source_sha256"]
  | LOCAL_ARTIFACT_COMMITTED => ["artifact_path"; "artifact_relative_path"; "manifest"; "metadata"; "rollback"]
  | BINDING_PUBLISHED => ["binding_name"]
  | RETIRED => ["reason"; "source_quarantine_name"; "marker_quarantine_name"]
  end.
Definition event_fields : list string :=
  ["version"; "sequence"; "state"; "previous_digest"; "recorded_at"; "task_id"; "execution_id"; "idempotency_key";
   "fingerprint_version"; "fingerprint_sha256"; "operation_token"; "details"].

Record CaptureFingerprint := { fp_version : string; fp_sha256 : string }.
#[global] Instance CaptureFingerprint_eq_dec : EqDecision CaptureFingerprint.
Proof. solve_decision. Defined.
Record CaptureAuthority := {
  au_task_id : string; au_execution_id : string; au_idempotency_key : string;
  au_fingerprint : CaptureFingerprint; au_operation_token : string;
}.
#[global] Instance CaptureAuthority_eq_dec : EqDecision CaptureAuthority.
Proof. solve_decision. Defined.
#[global] Instance FileIdentity_eq_dec : EqDecision FileIdentity.
Proof. solve_decision. Defined.

(** The fields of one state. *)
Abbreviation Details := (list (string * json)).
(** The details of the states that were reached, the newest first. *)
Record CaptureMarkerSnapshot := MkSnapshot {
  authority : CaptureAuthority; sn_state : CaptureMarkerState; sequence : Z; event_digest : string;
  details : list (CaptureMarkerState * Details);
}.
Definition detail (s : CaptureMarkerSnapshot) (st : CaptureMarkerState) : option Details :=
  snd <$> find (λ e, bool_decide (e.1 = st)) (details s).

Definition maximum_marker_bytes : Z := 4194304.
Definition capture_error : exc := DomainError "CaptureRecoveryError".
Definition idempotency_conflict : exc := DomainError "CaptureIdempotencyConflict".
Definition newline : string := String (ascii_of_nat 10) EmptyString.

(** One event as the document that is written. *)
Definition event_document (a : CaptureAuthority) (seq : Z) (st : CaptureMarkerState) (previous : option string)
    (recorded_at : string) (d : Details) : json :=
  JObj [("version", JInt 1); ("sequence", JInt seq); ("state", JStr (marker_state_text st));
        ("previous_digest", match previous with Some p => JStr p | None => JNull end); ("recorded_at", JStr recorded_at);
        ("task_id", JStr (au_task_id a)); ("execution_id", JStr (au_execution_id a));
        ("idempotency_key", JStr (au_idempotency_key a)); ("fingerprint_version", JStr (fp_version (au_fingerprint a)));
        ("fingerprint_sha256", JStr (fp_sha256 (au_fingerprint a))); ("operation_token", JStr (au_operation_token a));
        ("details", JObj d)].
(** [_canonical_json(event)], without its line break *)
Definition event_line a seq st previous recorded_at d : string :=
  ascii_json (event_document a seq st previous recorded_at d).

(** [bytes.splitlines] *)
Fixpoint splitlines (s : string) : list string :=
  match s with
  | EmptyString => []
  | String c s' =>
      if is_char 10 c then EmptyString :: splitlines s'
      else if is_char 13 c then
        EmptyString :: match s' with
                       | String d s'' => if is_char 10 d then splitlines s'' else splitlines s'
                       | EmptyString => []
                       end
      else match splitlines s' with
           | l :: ls => String c l :: ls
           | [] => [String c EmptyString]
           end
  end.

(** ** Names *)

Section Names.
Context `{UuidText}.

(** [marker_name] and [source_name] *)
Definition marker_name (idempotency_key : string) : result string :=
  if canonical_uuid idempotency_key then Ok (idempotency_key +:+ ".jsonl")
  else Err (ValueError "capture marker idempotency key is invalid").
Definition source_name (execution_id capture_format operation_token : string) : result string :=
  if negb (str_in capture_format ["pcap"; "pcapng"]) then Err (ValueError "capture source format is invalid")
  else if negb (hex_of_length 32 operation_token) then Err (ValueError "capture source operation token is invalid")
  else Ok ("capture-" +:+ execution_id +:+ "-" +:+ operation_token +:+ "." +:+ capture_format).

(** [CaptureFingerprint.__post_init__] and [CaptureAuthority.__post_init__] *)
Definition valid_fingerprint (f : CaptureFingerprint) : bool :=
  negb (String.eqb (fp_version f) EmptyString) && hex_of_length 64 (fp_sha256 f).
Definition valid_authority (a : CaptureAuthority) : bool :=
  valid_fingerprint (au_fingerprint a)
  && canonical_uuid (au_task_id a) && canonical_uuid (au_execution_id a) && canonical_uuid (au_idempotency_key a)
  && hex_of_length 32 (au_operation_token a).
(** [_assert_authority] *)
Definition assert_authority (observed expected : CaptureAuthority) (compare_token : bool) : result unit :=
  if negb (String.eqb (au_task_id observed) (au_task_id expected)
           && String.eqb (au_execution_id observed) (au_execution_id expected)
           && String.eqb (au_idempotency_key observed) (au_idempotency_key expected)
           && bool_decide (au_fingerprint observed = au_fingerprint expected))
  then Err idempotency_conflict
  else if compare_token && negb (String.eqb (au_operation_token observed) (au_operation_token expected))
  then Err (manual_recovery "capture operation token is inconsistent")
  else Ok tt.
End Names.

(** ** Reading *)

Section Reading.
Context `{Sha256} `{PythonText} `{UuidText} (float_equal : json → json → bool).

(** What was read so far: the authority of the first event, and the snapshot. *)
Definition field (kvs : Details) (key : string) : json := default JNull (dict_get kvs key).

(** Which state may follow which, for the reader. *)
Definition may_follow (last next : CaptureMarkerState) : bool :=
  bool_decide (successor last = Some next) || bool_decide (next = RETIRED)
  || bool_decide (last = ROLLBACK_VERIFICATION_PENDING ∧ next = ROLLBACK_VERIFICATION_PENDING)
  || bool_decide (last = RESERVED ∧ next = ROLLBACK_VERIFICATION_PENDING).

Record Event := {
  ev_authority : CaptureAuthority; ev_state : CaptureMarkerState; ev_sequence : Z; ev_details : Details;
  ev_digest : string;
}.
(** One line on its own: its fields, its state and its authority. *)
Definition parse_event (sequence : Z) (previous : option string) (raw_line : string) : result Event :=
  payload ← of_option (manual_recovery "capture marker JSON is corrupt")
    (if is_utf8 raw_line then json_loads raw_line else None);
  match payload with
  | JObj kvs =>
      if negb (has_exactly event_fields kvs) then Err (manual_recovery "capture marker fields are invalid")
      else
        let a := {| au_task_id := json_text (field kvs "task_id"); au_execution_id := json_text (field kvs "execution_id");
                    au_idempotency_key := json_text (field kvs "idempotency_key");
                    au_fingerprint := {| fp_version := json_text (field kvs "fingerprint_version");
                                         fp_sha256 := json_text (field kvs "fingerprint_sha256") |};
                    au_operation_token := json_text (field kvs "operation_token") |} in
        match find (λ s, String.eqb (json_text (field kvs "state")) (marker_state_text s)) marker_states, valid_authority a with
        | Some st, true =>
            match field kvs "sequence", field kvs "details" with
            | JInt n, JObj d =>
                if py_equal float_equal (field kvs "version") (JInt 1) && (n =? sequence + 1)
                   && has_exactly (detail_fields st) d
                   && py_equal float_equal (field kvs "previous_digest")
                        (match previous with Some p => JStr p | None => JNull end)
                then Ok {| ev_authority := a; ev_state := st; ev_sequence := n; ev_details := d;
                           ev_digest := sha256_hex raw_line |}
                else Err (manual_recovery "capture marker event chain is invalid")
            | _, _ => Err (manual_recovery "capture marker event chain is invalid")
            end
        | _, _ => Err (manual_recovery "capture marker authority is invalid")
        end
  | _ => Err (manual_recovery "capture marker fields are invalid")
  end.
(** One turn of the loop: the snapshot after the line. *)
Definition read_line (before : option CaptureMarkerSnapshot) (raw_line : string) : result CaptureMarkerSnapshot :=
  e ← parse_event (match before with Some s => sequence s | None => -1 end) (event_digest <$> before) raw_line;
  match before with
  | None =>
      if decide (ev_state e = RESERVATION_PLANNED)
      then Ok (MkSnapshot (ev_authority e) (ev_state e) (ev_sequence e) (ev_digest e) [(ev_state e, ev_details e)])
      else Err (manual_recovery "capture marker lacks planned state")
  | Some s =>
      assert_authority (ev_authority e) (authority s) true ;;
      if may_follow (sn_state s) (ev_state e)
      then Ok (MkSnapshot (authority s) (ev_state e) (ev_sequence e) (ev_digest e) ((ev_state e, ev_details e) :: details s))
      else Err (manual_recovery "capture marker transition is invalid")
  end.
Fixpoint read_lines (before : option CaptureMarkerSnapshot) (lines : list string) : result (option CaptureMarkerSnapshot) :=
  match lines with
  | [] => Ok before
  | l :: lines' => s ← read_line before l; read_lines (Some s) lines'
  end.
(** The snapshot a text holds. *)
Definition parse_marker (encoded : string) : result CaptureMarkerSnapshot :=
  if negb (ends_with newline encoded) then Err (manual_recovery "capture marker has an incomplete event")
  else
    s ← read_lines None (splitlines encoded);
    of_option (manual_recovery "capture marker is empty") s.
End Reading.

(** ** The file *)

Record CaptureMarker := MkMarker {
  mk_descriptor : nat; mk_identity : FileIdentity; mk_snapshot : CaptureMarkerSnapshot; mk_closed : bool;
}.
(** The disk and the marker object of a caller. *)
Record Marking := MkMarking { mk_disk : Disk; mk_marker : CaptureMarker }.

Definition private_file_mode : Z := 384.     (* 0o600 *)
Definition marker_retired_prefix : string := ".capture-marker-retired-".
Definition matches_with_size (expected : FileIdentity) (md : stat_result) : bool :=
  matches expected md && (id_size expected =? md_size md).

Section Markers.
Context `{Sha256} `{PythonText} `{UuidText} (float_equal : json → json → bool) (E : Env).
Abbreviation MARKERS := (SUB CAPTURE_MARKERS).

Definition system_call : SE Disk unit := syscall E (mret tt).
Definition on_marker_disk {A} (m : SE Disk A) : SE Marking A := λ w,
  let '(r, d) := m (mk_disk w) in (r, MkMarking d (mk_marker w)).
Definition set_marker (m : CaptureMarker) : SE Marking unit := modify (λ w, MkMarking (mk_disk w) m).
(** A descriptor that is still open when [m] raises. *)
Definition closing {A} (fd : nat) (m : SE Disk A) : SE Disk A :=
  catch m (λ e, attempt (close E fd) ;; raise e).

(** *** Reading it back *)

(** The loop of [_read_marker_snapshot]; each round reads at least one byte. *)
Fixpoint read_whole (fuel fd size : nat) (acc : string) : SE Disk string :=
  if (size <=? String.length acc)%nat then mret acc
  else match fuel with
  | O => mret acc
  | S fuel' =>
      chunk ← read E fd (String.length acc) (Z.of_nat (size - String.length acc));
      raise_if (String.eqb chunk EmptyString) (manual_recovery "capture marker is truncated") ;;
      read_whole fuel' fd size (acc +:+ chunk)
  end.
Definition read_marker_snapshot (fd : nat) (identity : FileIdentity) : SE Disk CaptureMarkerSnapshot :=
  before ← fstat E fd;
  raise_if ((md_size before <=? 0) || (maximum_marker_bytes <? md_size before))
    (manual_recovery "capture marker size is invalid") ;;
  system_call ;;
  encoded ← read_whole (Z.to_nat (md_size before)) fd (Z.to_nat (md_size before)) EmptyString;
  more ← read E fd (String.length encoded) 1;
  raise_if (negb (String.eqb more EmptyString) || negb (ends_with newline encoded))
    (manual_recovery "capture marker has an incomplete event") ;;
  after ← fstat E fd;
  raise_if (negb (matches_with_size identity after)
            || negb (bool_decide ((md_mtime_ns before, md_ctime_ns before) = (md_mtime_ns after, md_ctime_ns after))))
    (manual_recovery "capture marker changed during inspection") ;;
  lift (parse_marker float_equal encoded).

(** [open_marker] *)
Definition open_marker (idempotency_key : string) : SE Disk CaptureMarker :=
  name ← lift (marker_name idempotency_key);
  fd ← open_read E MARKERS name;
  closing fd (
    system_call ;;                             (* the lock *)
    fstat E fd ;;
    identity ← capture_file_identity E MARKERS name fd (Some (euid E)) (Some private_file_mode);
    s ← read_marker_snapshot fd identity;
    mret (MkMarker fd identity s false)).
Definition marker_exists (idempotency_key : string) : SE Disk bool :=
  name ← lift (marker_name idempotency_key);
  catch (stat_name E MARKERS name ;; mret true) (λ e, if decide (e = FileNotFoundError) then mret false else raise e).

(** [begin_marker]: the marker, and whether it is new. *)
Definition begin_marker (task_id execution_id idempotency_key : string) (fingerprint : CaptureFingerprint)
    (request : Details) (capture_format artifact_root : string) (root_identity : Z * Z) : SE Disk (CaptureMarker * bool) :=
  name ← lift (marker_name idempotency_key);
  token ← tick (token_hex E);
  let a := {| au_task_id := task_id; au_execution_id := execution_id; au_idempotency_key := idempotency_key;
              au_fingerprint := fingerprint; au_operation_token := token |} in
  raise_if (negb (valid_authority a)) (ValueError "capture authority UUID is not canonical") ;;
  source ← lift (source_name execution_id capture_format token);
  created ← attempt (open_create E MARKERS name private_file_mode);
  match created with
  | Err e =>
      if decide (e = FileExistsError) then
        m ← open_marker idempotency_key;
        closing (mk_descriptor m) (lift (assert_authority (authority (mk_snapshot m)) a false) ;; mret (m, false))
      else raise e
  | Ok fd =>
      closing fd (
        system_call ;;                         (* the lock *)
        fstat E fd ;;
        capture_file_identity E MARKERS name fd (Some (euid E)) (Some private_file_mode) ;;
        let d := [("request", JObj request); ("source_name", JStr source); ("capture_format", JStr capture_format);
                  ("artifact_root", JStr artifact_root); ("artifact_root_dev", JInt root_identity.1);
                  ("artifact_root_ino", JInt root_identity.2)] in
        recorded_at ← tick (wall_clock E);
        let line := event_line a 0 RESERVATION_PLANNED None recorded_at d in
        write_all E (String.length (line +:+ newline)) fd (line +:+ newline) ;;
        fsync E fd ;;
        fsync_folder E MARKERS ;;
        identity ← capture_file_identity E MARKERS name fd (Some (euid E)) (Some private_file_mode);
        mret (MkMarker fd identity
                (MkSnapshot a RESERVATION_PLANNED 0 (sha256_hex line) [(RESERVATION_PLANNED, d)]) false, true))
  end.

(** *** Appending to it *)

(** [_validate_open_identity] *)
Definition validate_open_identity (m : CaptureMarker) : SE Disk unit :=
  raise_if (mk_closed m) capture_error ;;
  md ← fstat E (mk_descriptor m);
  raise_if (negb (matches_with_size (mk_identity m) md)) (manual_recovery "capture marker inode changed") ;;
  current ← capture_file_identity E MARKERS (relative_name (mk_identity m)) (mk_descriptor m)
              (Some (id_uid (mk_identity m))) (Some private_file_mode);
  raise_if (negb (bool_decide (current = mk_identity m))) (manual_recovery "capture marker name changed").

(** [_append], from the checks of the details to the new identity: the digest of
    the line and the identity. *)
Definition append_line (m : CaptureMarker) (st : CaptureMarkerState) (d : Details) : SE Disk (string * FileIdentity) :=
  let s := mk_snapshot m in
  raise_if (negb (has_exactly (detail_fields st) d))
    (ValueError ("capture marker " +:+ marker_state_text st +:+ " details are invalid")) ;;
  validate_open_identity m ;;
  recorded_at ← tick (wall_clock E);
  let line := event_line (authority s) (sequence s + 1) st (Some (event_digest s)) recorded_at d in
  md ← fstat E (mk_descriptor m);
  raise_if (maximum_marker_bytes <? md_size md + Z.of_nat (String.length (line +:+ newline))) capture_error ;;
  system_call ;;
  write_all E (String.length (line +:+ newline)) (mk_descriptor m) (line +:+ newline) ;;
  fsync E (mk_descriptor m) ;;
  refreshed ← capture_file_identity E MARKERS (relative_name (mk_identity m)) (mk_descriptor m)
                (Some (id_uid (mk_identity m))) (Some private_file_mode);
  mret (sha256_hex line, refreshed).
Definition appended (m : CaptureMarker) (st : CaptureMarkerState) (d : Details) (digest : string) (refreshed : FileIdentity)
    : CaptureMarker :=
  let s := mk_snapshot m in
  MkMarker (mk_descriptor m) refreshed
    (MkSnapshot (authority s) st (sequence s + 1) digest ((st, d) :: details s)) (mk_closed m).
Definition append_event (st : CaptureMarkerState) (d : Details) : SE Marking unit :=
  m ← get mk_marker;
  '(digest, refreshed) ← on_marker_disk (append_line m st d);
  set_marker (appended m st d digest refreshed).

Definition current_state : SE Marking CaptureMarkerState := get (λ w, sn_state (mk_snapshot (mk_marker w))).
(** [advance] *)
Definition advance_marker (st : CaptureMarkerState) (d : Details) : SE Marking unit :=
  current ← current_state;
  raise_if (negb (bool_decide (successor current = Some st))) capture_error ;;
  append_event st d.
(** [note_intent_durable] *)
Definition note_intent_durable (d : Details) : SE Marking unit :=
  current ← current_state;
  if decide (current = STAGING_INTENT_DURABLE) then
    persisted ← get (λ w, detail (mk_snapshot (mk_marker w)) STAGING_INTENT_DURABLE);
    raise_if (negb match persisted with Some p => py_equal float_equal (JObj p) (JObj d) | None => false end)
      (manual_recovery "artifact intent authority differs from the capture marker")
  else advance_marker STAGING_INTENT_DURABLE d.
(** [note_rollback_verification] *)
Definition note_rollback (rollback : Details) : SE Marking unit :=
  let d := [("rollback", JObj rollback)] in
  current ← current_state;
  match current with
  | CAPTURE_COMPLETE => advance_marker ROLLBACK_VERIFICATION_PENDING d
  | RESERVED | ROLLBACK_VERIFICATION_PENDING => append_event ROLLBACK_VERIFICATION_PENDING d
  | _ => raise capture_error
  end.

(** *** Retiring it *)

Definition set_relative_name (name : string) (i : FileIdentity) : FileIdentity := {|
  dir_fd := dir_fd i; directory_dev := directory_dev i; directory_ino := directory_ino i; relative_name := name;
  id_dev := id_dev i; id_ino := id_ino i; id_uid := id_uid i; file_type := file_type i; id_mode := id_mode i;
  id_nlink := id_nlink i; id_size := id_size i |}.
(** [_MARKER_RETIRED_NAME] *)
Definition is_retired_name (name : string) : bool :=
  match after_prefix marker_retired_prefix name with Some token => hex_of_length 64 token | None => false end.
(** [_logical_retire] *)
Definition logical_retire (reason : string) (source_quarantine_name : option string) : SE Marking unit :=
  m ← get mk_marker;
  on_marker_disk (validate_open_identity m) ;;
  outcome ← on_marker_disk (logical_quarantine E (mk_identity m) marker_retired_prefix None false);
  match quarantine_name outcome with
  | Some name =>
      raise_if (negb (logical_deletion_confirmed outcome)) (manual_recovery "capture marker retirement was not durable") ;;
      raise_if (negb (is_retired_name name)) (manual_recovery "capture marker retired name is invalid") ;;
      set_marker (MkMarker (mk_descriptor m) (set_relative_name name (mk_identity m)) (mk_snapshot m) (mk_closed m)) ;;
      let d := [("reason", JStr reason);
                ("source_quarantine_name", match source_quarantine_name with Some q => JStr q | None => JNull end);
                ("marker_quarantine_name", JStr name)] in
      (if decide (successor (sn_state (mk_snapshot m)) = Some RETIRED) then advance_marker RETIRED d else append_event RETIRED d) ;;
      on_marker_disk (fsync_folder E MARKERS)
  | None => raise (manual_recovery "capture marker retirement was not durable")
  end.
Definition retire (reason : string) (source_quarantine_name : option string) : SE Marking unit :=
  current ← current_state;
  raise_if (negb (bool_decide (current = BINDING_PUBLISHED))) capture_error ;;
  logical_retire reason source_quarantine_name.
Definition retire_aborted (reason : string) (source_quarantine_name : option string) : SE Marking unit :=
  current ← current_state;
  if decide (current = RETIRED) then mret tt else logical_retire reason source_quarantine_name.
Definition close_marker : SE Marking unit :=
  m ← get mk_marker;
  if mk_closed m then mret tt
  else set_marker (MkMarker (mk_descriptor m) (mk_identity m) (mk_snapshot m) true) ;; on_marker_disk (close E (mk_descriptor m)).
End Markers.
