(* ===== verification/CaptureMarkerFrames.v ===== *)
(** * The text of a marker

    What a file of events reads as, which snapshots follow which, what an appended
    event adds, and what every operation of markers leaves of a file: it may be
    appended to and synchronised, and nothing else. *)

From Stdlib Require Import Ascii.
From S2P Require Import CaptureRollback.
From S2P Require Export CaptureMarkerLog StagerTheorems.

(** ** Lines *)

(** No line break. *)
Definition unbroken (c : ascii) : bool := negb (is_char 10 c || is_char 13 c).
Lemma printable_unbroken s : all_chars printable s = true → all_chars unbroken s = true.
Proof. apply all_chars_impl. intros c. destruct c as [[] [] [] [] [] [] [] []]; vm_compute; congruence. Qed.

Lemma splitlines_nonempty c s : splitlines (String c s) ≠ [].
Proof. simpl. repeat case_match; congruence. Qed.
Lemma splitlines_line l rest :
  all_chars unbroken l = true → splitlines (l +:+ newline +:+ rest) = l :: splitlines rest.
Proof.
  induction l as [|c l IH]; [done|]. cbn [all_chars]. unfold unbroken at 1.
  intros [[H10 H13]%negb_true_iff%orb_false_iff Hl]%andb_true_iff. rewrite app_string_cons. cbn [splitlines].
  by rewrite H10, H13, IH.
Qed.
Lemma splitlines_break c rest : splitlines (c +:+ newline +:+ rest) = splitlines (c +:+ newline) ++ splitlines rest.
Proof.
  induction c as [c IH] using (induction_ltof1 _ String.length). unfold ltof in IH.
  destruct c as [|x c]; [done|]. rewrite !app_string_cons. cbn [splitlines].
  destruct (is_char 10 x); [by rewrite IH by (simpl; lia)|]. destruct (is_char 13 x).
  - destruct c as [|y c]; [done|]. rewrite !app_string_cons. destruct (is_char 10 y); [by rewrite IH by (simpl; lia)|].
    rewrite <- !app_string_cons. by rewrite IH by (simpl; lia).
  - rewrite IH by (simpl; lia). destruct (splitlines (c +:+ newline)) eqn:E; [|done].
    exfalso. revert E. destruct c; apply splitlines_nonempty.
Qed.

(** A text that ends with a line break, or is empty, ends with a whole line. *)
Definition whole (c : string) : Prop := c = EmptyString ∨ ∃ b, c = b +:+ newline.
Lemma splitlines_whole c rest : whole c → splitlines (c +:+ rest) = splitlines c ++ splitlines rest.
Proof. intros [->|(b & ->)]; [done|]. rewrite app_string_assoc. apply splitlines_break. Qed.

Lemma substring_app_tail a b : String.substring (String.length a) (String.length b) (a +:+ b) = b.
Proof.
  induction a as [|c a IH]; [by apply substring_all|]. rewrite app_string_cons. exact IH.
Qed.
Lemma string_snoc c : c ≠ EmptyString → ∃ b x, c = b +:+ String x EmptyString.
Proof.
  induction c as [|x c IH]; [done|]. intros _. destruct (decide (c = EmptyString)) as [->|Hc]; [by exists EmptyString, x|].
  destruct (IH Hc) as (b & y & ->). by exists (String x b), y.
Qed.
Lemma ends_with_newline c : ends_with newline c = true ↔ ∃ b, c = b +:+ newline.
Proof.
  unfold ends_with. rewrite andb_true_iff, Nat.leb_le, String.eqb_eq. change (String.length newline) with 1%nat. split.
  - intros [Hl Hs]. destruct (string_snoc c) as (b & x & ->); [by destruct c; simpl in Hl; [lia|]|].
    pose proof (substring_app_tail b (String x EmptyString)) as Ht. change (String.length (String x EmptyString)) with 1%nat in Ht.
    rewrite length_app_string in Hs. change (String.length (String x EmptyString)) with 1%nat in Hs. rewrite Nat.add_sub, Ht in Hs.
    exists b. by rewrite Hs.
  - intros [b ->]. rewrite length_app_string. change (String.length newline) with 1%nat. rewrite Nat.add_sub. split; [lia|].
    apply (substring_app_tail b newline).
Qed.
(** The beginning of a line and its break that is not the whole of it does not end
    with a break. *)
Lemma torn_line l p q b :
  all_chars unbroken l = true → l +:+ newline = p +:+ q → q ≠ EmptyString → p = b +:+ newline → False.
Proof.
  intros Hl Hp Hq ->. assert (∃ q', l = b +:+ newline +:+ q') as [q' ->].
  { clear Hl. revert l Hp. induction b as [|c b IH]; intros l Hp.
    - destruct l as [|d l]; [exfalso; by destruct q|]. injection Hp as -> Hp. by exists l.
    - destruct l as [|d l]; [exfalso; injection Hp as _ Hp; by destruct b|].
      rewrite !app_string_cons in Hp. injection Hp as -> Hp. destruct (IH l Hp) as [q' ->]. by exists q'. }
  rewrite !all_chars_append in Hl. cbn in Hl. rewrite andb_comm in Hl. by destruct (all_chars unbroken q').
Qed.

(** ** Documents with sorted keys *)

Lemma sorted_idem j : sorted_json (sorted_json j) = sorted_json j.
Proof.
  induction j as [|[]|z|r|s|xs IH|kvs IH] using json_nested_ind; try done.
  - cbn [sorted_json]. rewrite map_map. f_equal. rewrite Forall_forall in IH. apply map_ext_in.
    intros x Hx%list_elem_of_In. auto.
  - rewrite sorted_obj, sorted_obj. f_equal.
    rewrite (sort_kvs_id (map _ (sort_kvs kvs))); [|rewrite <- (sort_kvs_map sorted_json); apply sort_kvs_sorted].
    rewrite map_map. apply map_ext_in. intros kv Hkv%list_elem_of_In. rewrite sort_kvs_perm in Hkv.
    rewrite Forall_forall in IH. cbn [fst snd]. by rewrite IH.
Qed.

(** The details as they are read back. *)
Definition sorted_details (d : Details) : Details := sort_kvs (map (λ kv, (kv.1, sorted_json kv.2)) d).
Lemma sorted_details_json d : sorted_json (JObj d) = JObj (sorted_details d).
Proof. reflexivity. Qed.
Lemma sorted_details_idem d : sorted_details (sorted_details d) = sorted_details d.
Proof. pose proof (sorted_idem (JObj d)) as Hd. rewrite !sorted_details_json in Hd. by injection Hd. Qed.
Lemma dict_get_some (kvs : Details) k : opt_is_some (dict_get kvs k) = true ↔ k ∈ map fst kvs.
Proof.
  unfold dict_get. induction kvs as [|[k' v] kvs IH]; simpl; [split; [done|by intros ?%elem_of_nil]|].
  rewrite elem_of_cons. destruct (String.eqb_spec k' k) as [->|Hk]; simpl; [split; [by left|done]|].
  rewrite IH. split; [by right|by intros [?|?]].
Qed.
Lemma has_exactly_spec names (kvs : Details) :
  has_exactly names kvs = true ↔ (∀ k, k ∈ map fst kvs → k ∈ names) ∧ (∀ n, n ∈ names → n ∈ map fst kvs).
Proof.
  unfold has_exactly. rewrite andb_true_iff, !forallb_forall. split; intros [H1 H2]; split.
  - intros k (kv & -> & Hkv%list_elem_of_In)%list_elem_of_fmap. by apply str_in_spec, H1.
  - intros n Hn%list_elem_of_In. by apply dict_get_some, H2.
  - intros kv Hkv%list_elem_of_In. apply str_in_spec, H1, list_elem_of_fmap. by exists kv.
  - intros n Hn%list_elem_of_In. by apply dict_get_some, H2.
Qed.
Lemma sorted_details_keys d k : k ∈ map fst (sorted_details d) ↔ k ∈ map fst d.
Proof.
  unfold sorted_details. rewrite sort_kvs_perm, map_map. done.
Qed.
Lemma has_exactly_sorted names d : has_exactly names d = true → has_exactly names (sorted_details d) = true.
Proof.
  rewrite !has_exactly_spec. intros [H1 H2]. split; intros k Hk; [by apply H1, sorted_details_keys|by apply sorted_details_keys, H2].
Qed.

(** ** Snapshots *)

(** The snapshot up to the order of keys, as [==] of Python has it. *)
Definition read_back (s : CaptureMarkerSnapshot) : CaptureMarkerSnapshot :=
  MkSnapshot (authority s) (sn_state s) (sequence s) (event_digest s) (map (λ e, (e.1, sorted_details e.2)) (details s)).
Definition same_snapshot (s s' : CaptureMarkerSnapshot) : Prop := read_back s = read_back s'.
(** A snapshot after any number of further events. *)
Definition extends (s s' : CaptureMarkerSnapshot) : Prop :=
  authority s' = authority s
  ∧ ∃ more, details s' = more ++ details s ∧ sequence s' = sequence s + Z.of_nat (length more) ∧ (more = [] → s' = s).

Lemma extends_refl s : extends s s.
Proof. split; [done|]. exists []. split_and!; [done|simpl; lia|done]. Qed.
Lemma extends_trans s1 s2 s3 : extends s1 s2 → extends s2 s3 → extends s1 s3.
Proof.
  intros [Ha (m & Hd & Hs & He)] [Ha' (m' & Hd' & Hs' & He')]. split; [congruence|]. exists (m' ++ m).
  split_and!; [by rewrite Hd', Hd, app_assoc|rewrite length_app; lia|].
  intros [-> ->]%app_eq_nil. by rewrite He', He.
Qed.

Section Parsing.
Context `{Sha256} `{PythonText} `{UuidText} (float_equal : json → json → bool).
Abbreviation read_line := (read_line float_equal).
Abbreviation read_lines := (read_lines float_equal).
Abbreviation parse_marker := (parse_marker float_equal).

Lemma parse_event_sequence n p l e : parse_event float_equal n p l = Ok e → ev_sequence e = n + 1.
Proof.
  unfold parse_event. rewrite result_bind_Ok. intros (j & _ & He). repeat (case_match; try discriminate).
  all: injection He as <-; simpl; bool_simp; lia.
Qed.
Lemma read_line_extends s l s' :
  read_line (Some s) l = Ok s' → authority s' = authority s ∧ sequence s' = sequence s + 1 ∧ ∃ e, details s' = e :: details s.
Proof.
  unfold CaptureMarkerLog.read_line. destruct (parse_event _ _ _ _) as [e|] eqn:Ee; [|done]. apply parse_event_sequence in Ee. cbn.
  destruct (assert_authority _ _ _); [|done]. cbn. case_match; [|done]. intros [= <-]. split_and!; [done..|by eexists].
Qed.
Lemma read_lines_extends ls s s' : read_lines (Some s) ls = Ok s' → ∃ s1, s' = Some s1 ∧ extends s s1.
Proof.
  revert s. induction ls as [|l ls IH]; intros s; [intros [= <-]; eexists; split; [done|apply extends_refl]|].
  cbn [CaptureMarkerLog.read_lines]. destruct (read_line (Some s) l) as [s1|] eqn:E; [|done]. cbn. intros Hr.
  destruct (IH s1 Hr) as (s2 & -> & Hx). exists s2. split; [done|]. eapply extends_trans; [|done].
  apply read_line_extends in E as (Ha & Hs & e & Hd). split; [done|]. exists [e]. by split_and!.
Qed.
Lemma read_lines_app b ls ls' : read_lines b (ls ++ ls') = (s ← read_lines b ls; read_lines s ls').
Proof.
  revert b. induction ls as [|l ls IH]; intros b; [done|]. cbn [CaptureMarkerLog.read_lines app].
  destruct (CaptureMarkerLog.read_line _ b l); [|done]. cbn. apply IH.
Qed.

Lemma parse_marker_Ok c s :
  parse_marker c = Ok s ↔ ends_with newline c = true ∧ read_lines None (splitlines c) = Ok (Some s).
Proof.
  unfold CaptureMarkerLog.parse_marker. destruct (ends_with newline c); simpl; [|by split; [|intros []]].
  destruct (read_lines None (splitlines c)) as [[s'|]|]; simpl; naive_solver.
Qed.
Lemma parse_whole c s : parse_marker c = Ok s → whole c.
Proof. intros [Hc%ends_with_newline _]%parse_marker_Ok. by right. Qed.
(** What is added to a text that reads as [s] extends [s]. *)
Lemma parse_extends c r s s' : parse_marker c = Ok s → parse_marker (c +:+ r) = Ok s' → extends s s'.
Proof.
  intros Hs Hs'. pose proof (parse_whole _ _ Hs) as Hw. apply parse_marker_Ok in Hs as [_ Hs]. apply parse_marker_Ok in Hs' as [_ Hs'].
  rewrite splitlines_whole, read_lines_app, Hs in Hs' by done. cbn in Hs'. apply read_lines_extends in Hs' as (s1 & [= <-] & Hx). done.
Qed.

(** *** What was written *)

Definition utf8_authority (a : CaptureAuthority) : Prop :=
  is_utf8 (au_task_id a) = true ∧ is_utf8 (au_execution_id a) = true ∧ is_utf8 (au_idempotency_key a) = true
  ∧ is_utf8 (fp_version (au_fingerprint a)) = true ∧ is_utf8 (fp_sha256 (au_fingerprint a)) = true
  ∧ is_utf8 (au_operation_token a) = true.
(** Details that are values of Python with texts of UTF-8. *)
Definition proper_details (d : Details) : Prop := well_formed (JObj d) = true ∧ utf8_json (JObj d) = true.
Lemma event_proper a n st p at' d :
  proper_details d → utf8_authority a → match p with Some x => is_utf8 x = true | None => True end → is_utf8 at' = true →
  well_formed (event_document a n st p at' d) = true ∧ utf8_json (event_document a n st p at' d) = true.
Proof.
  intros [Hw Hu] (U1 & U2 & U3 & U4 & U5 & U6) Hp Hat. split.
  - unfold event_document. cbn [well_formed]. apply andb_true_iff. split; [apply bool_decide_eq_true_2; vm_compute; repeat constructor; set_solver|].
    cbn [forallb fst snd]. rewrite Hw. by destruct p.
  - unfold event_document. cbn [utf8_json forallb fst snd]. rewrite U1, U2, U3, U4, U5, U6, Hat.
    cbn [utf8_json] in Hu. rewrite Hu.
    assert (is_utf8 (marker_state_text st) = true) as -> by (by destruct st).
    destruct p; cbn [utf8_json]; [by rewrite Hp|done].
Qed.
Lemma sorted_event a n st p at' d :
  sorted_json (event_document a n st p at' d) =
  JObj [("details", JObj (sorted_details d)); ("execution_id", JStr (au_execution_id a));
        ("fingerprint_sha256", JStr (fp_sha256 (au_fingerprint a))); ("fingerprint_version", JStr (fp_version (au_fingerprint a)));
        ("idempotency_key", JStr (au_idempotency_key a)); ("operation_token", JStr (au_operation_token a));
        ("previous_digest", match p with Some x => JStr x | None => JNull end); ("recorded_at", JStr at');
        ("sequence", JInt n); ("state", JStr (marker_state_text st)); ("task_id", JStr (au_task_id a)); ("version", JInt 1)].
Proof. by destruct p. Qed.
Lemma find_state st : find (λ s, String.eqb (marker_state_text st) (marker_state_text s)) marker_states = Some st.
Proof. by destruct st. Qed.

Section Written.
Context (a : CaptureAuthority) (st : CaptureMarkerState) (at' : string) (d : Details).
Context (Hd : proper_details d) (Hf : has_exactly (detail_fields st) d = true).
Context (Ha : valid_authority a = true) (Hau : utf8_authority a) (Hat : is_utf8 at' = true).

Definition utf8_digest (p : option string) : Prop := match p with Some x => is_utf8 x = true | None => True end.
Lemma event_line_printable n p : utf8_digest p → all_chars printable (event_line a n st p at' d) = true.
Proof. intros Hp. destruct (event_proper a n st p at' d) as [Hw Hu]; [done..|]. by apply ascii_json_printable. Qed.
Lemma parse_written n p :
  utf8_digest p →
  parse_event float_equal n p (event_line a (n + 1) st p at' d) =
  Ok {| ev_authority := a; ev_state := st; ev_sequence := n + 1; ev_details := sorted_details d;
        ev_digest := sha256_hex (event_line a (n + 1) st p at' d) |}.
Proof.
  intros Hp. unfold parse_event. rewrite printable_utf8 by (by apply event_line_printable).
  destruct (event_proper a (n + 1) st p at' d) as [Hw _]; [done..|].
  pose proof (json_loads_ascii _ Hw) as Hj. fold (event_line a (n + 1) st p at' d) in Hj. rewrite Hj, sorted_event. clear Hj.
  cbn [of_option mbind result_bind].
  replace (has_exactly event_fields _) with true by (by destruct p).
  set (kvs := [("details", _); _; _; _; _; _; _; _; _; _; _; _]).
  change (field kvs "task_id") with (JStr (au_task_id a)). change (field kvs "execution_id") with (JStr (au_execution_id a)).
  change (field kvs "idempotency_key") with (JStr (au_idempotency_key a)). change (field kvs "fingerprint_version") with (JStr (fp_version (au_fingerprint a))).
  change (field kvs "fingerprint_sha256") with (JStr (fp_sha256 (au_fingerprint a))).
  change (field kvs "operation_token") with (JStr (au_operation_token a)). change (field kvs "state") with (JStr (marker_state_text st)).
  change (field kvs "sequence") with (JInt (n + 1)). change (field kvs "details") with (JObj (sorted_details d)).
  change (field kvs "version") with (JInt 1). change (field kvs "previous_digest") with (match p with Some x => JStr x | None => JNull end).
  cbn [negb json_text]. rewrite find_state.
  assert ({| au_task_id := au_task_id a; au_execution_id := au_execution_id a; au_idempotency_key := au_idempotency_key a;
            au_fingerprint := {| fp_version := fp_version (au_fingerprint a); fp_sha256 := fp_sha256 (au_fingerprint a) |};
            au_operation_token := au_operation_token a |} = a) as -> by (by destruct a as [? ? ? [] ?]).
  rewrite Ha, has_exactly_sorted, Z.eqb_refl by done. destruct p as [x|]; simpl; [|done]. by rewrite String.eqb_refl.
Qed.
End Written.

Lemma assert_same a : assert_authority a a true = Ok tt.
Proof. unfold assert_authority. by rewrite !String.eqb_refl, bool_decide_eq_true_2. Qed.
(** The snapshot after one more event. *)
Definition with_event (s : CaptureMarkerSnapshot) (st : CaptureMarkerState) (d : Details) (line : string) : CaptureMarkerSnapshot :=
  MkSnapshot (authority s) st (sequence s + 1) (sha256_hex line) ((st, d) :: details s).

Lemma read_first a at' d :
  proper_details d → has_exactly (detail_fields RESERVATION_PLANNED) d = true → valid_authority a = true → utf8_authority a →
  is_utf8 at' = true →
  let line := event_line a 0 RESERVATION_PLANNED None at' d in
  read_line None line = Ok (MkSnapshot a RESERVATION_PLANNED 0 (sha256_hex line) [(RESERVATION_PLANNED, sorted_details d)]).
Proof. intros Hd Hf Ha Hau Hat line.
  unfold CaptureMarkerLog.read_line. cbn -[parse_event event_line].
  pose proof (parse_written a _ at' d Hd Hf Ha Hau Hat (-1) None I) as Hp. change (-1 + 1) with 0 in Hp. subst line. by rewrite Hp.
Qed.
Lemma read_next s st at' d :
  proper_details d → has_exactly (detail_fields st) d = true → valid_authority (authority s) = true → utf8_authority (authority s) →
  is_utf8 at' = true → is_utf8 (event_digest s) = true → may_follow (sn_state s) st = true →
  let line := event_line (authority s) (sequence s + 1) st (Some (event_digest s)) at' d in
  read_line (Some s) line = Ok (with_event s st (sorted_details d) line).
Proof.
  intros Hd Hf Ha Hau Hat Hdig Hm line. subst line. unfold CaptureMarkerLog.read_line. cbn -[parse_event event_line].
  rewrite (parse_written _ st at' d Hd Hf Ha Hau Hat (sequence s) (Some _)) by done. cbn. by rewrite assert_same, Hm.
Qed.
End Parsing.

(** ** What happens to one file

    Nothing in these operations shortens or overwrites a file. *)

Section Files.
Context (E : Env) (n : nat) (Q : Durable Body → Prop).
Hypothesis Q_sync : ∀ v, Q v → Q (sync v).
Hypothesis Q_write : ∀ s v, Q v → Q (overwrite (write_body s) v).

Definition at_inode (d : Disk) : Prop := ∃ i, inodes d !! n = Some i ∧ Q (body i).

Lemma file_syscall {A} (m : SE Disk A) : preserves at_inode m → preserves at_inode (syscall E m).
Proof. intros Hm d Hd. unfold syscall. destruct (fault E _); [exact Hd|]. by apply (Hm (MkDisk _ _ _ _ _)). Qed.
Lemma file_tick {A} (f : nat → A) : preserves at_inode (tick f).
Proof. apply preserves_get. Qed.
Lemma file_inode k : preserves at_inode (inode k).
Proof. unfold inode. auto with preserves. Qed.
Lemma file_update g k : (∀ i, Q (body i) → Q (body (g i))) → preserves at_inode (update_inode g k).
Proof.
  intros Hg d (i & Hi & Hq). unfold at_inode. simpl. destruct (decide (k = n)) as [->|Hk].
  - exists (g i). rewrite lookup_alter_eq, Hi. split; [done|by apply Hg].
  - exists i. by rewrite lookup_alter_ne.
Qed.
Lemma file_set_folder f (h : Names → Names) : preserves at_inode (modify (λ d, set_folder f (overwrite h (folder f d)) d)).
Proof. intros d Hd. by destruct f. Qed.

Ltac single := first
  [ apply file_syscall | apply file_tick | apply file_inode | apply preserves_ret | apply preserves_raise
  | apply preserves_raise_if | apply preserves_lift | apply preserves_get | apply file_set_folder | apply preserves_attempt
  | apply preserves_bind; [|intros ?] ].
Ltac calls := repeat single.

Lemma file_system_call : preserves at_inode (system_call E).
Proof. unfold system_call. calls. Qed.
Lemma file_fstat k : preserves at_inode (fstat E k).
Proof. unfold fstat. calls. Qed.
Lemma file_stat_name f s : preserves at_inode (stat_name E f s).
Proof. unfold stat_name. calls. Qed.
Lemma file_open_read f s : preserves at_inode (open_read E f s).
Proof. unfold open_read. calls. Qed.
Lemma file_read k o c : preserves at_inode (read E k o c).
Proof. unfold read. calls. Qed.
Lemma file_close k : preserves at_inode (close E k).
Proof. unfold close. calls. Qed.
Lemma file_write k s : preserves at_inode (write E k s).
Proof. unfold write. calls. apply file_update. intros i Hi. by apply Q_write. Qed.
Lemma file_fsync k : preserves at_inode (fsync E k).
Proof. unfold fsync. calls. apply file_update. intros i Hi. by apply Q_sync. Qed.
Lemma file_fsync_folder f : preserves at_inode (fsync_folder E f).
Proof. unfold fsync_folder. calls. intros d Hd. by destruct f. Qed.
Lemma file_open_create f s mode : preserves at_inode (open_create E f s mode).
Proof.
  intros d (i & Hi & Hq). destruct (open_create_effect E f s mode d) as [k [[e ->]|(m & j & Hm & _ & _ & ->)]]; [by exists i|].
  exists i. split; [|done]. cbn. destruct f; cbn; rewrite lookup_insert_ne by congruence; done.
Qed.
Lemma file_component s label : preserves at_inode (validate_component s label).
Proof. unfold validate_component. calls. Qed.
Lemma file_rename f a b : preserves at_inode (rename_noreplace E f a b).
Proof.
  unfold rename_noreplace. repeat first [apply file_component | single]. by apply file_update.
Qed.
Lemma file_capture f s k u m : preserves at_inode (capture_file_identity E f s k u m).
Proof.
  unfold capture_file_identity, validate_regular_file.
  repeat first [apply file_component | apply file_fstat | apply file_stat_name | single].
Qed.

Lemma file_quarantine identity prefix plan primary : preserves at_inode (logical_quarantine E identity prefix plan primary).
Proof.
  assert (∀ k, preserves at_inode (move_to_random E k identity prefix)) as Hrandom.
  { induction k as [|k IH]; simpl; [apply preserves_raise|]. apply preserves_bind; [apply file_tick|]. intros token.
    apply preserves_catch; [apply preserves_bind; [apply file_rename|]; intros []; apply preserves_ret|].
    intros e. case_match; [apply IH|apply preserves_raise]. }
  unfold logical_quarantine, validate_quarantine_prefix, validate_quarantine_plan, validate_identity_anchor, move_to_quarantine,
    check_quarantined, restore_entry, sync_again, conclude_quarantine.
  repeat first [apply file_component | apply file_rename | apply file_open_read | apply file_fstat | apply file_fsync_folder
    | apply file_close | apply Hrandom | single | case_match].
Qed.
Lemma file_write_all fuel k s : preserves at_inode (write_all E fuel k s).
Proof.
  revert s. induction fuel as [|fuel IH]; intros s; simpl; [calls|]. case_match; [calls|].
  apply preserves_bind; [apply file_write|]. intros j. apply IH.
Qed.
Lemma file_read_whole fuel k size acc : preserves at_inode (read_whole E fuel k size acc).
Proof.
  revert acc. induction fuel as [|fuel IH]; intros acc; simpl; case_match; try apply preserves_ret.
  apply preserves_bind; [apply file_read|]. intros c. apply preserves_bind; [apply preserves_raise_if|]. intros []. apply IH.
Qed.
Lemma file_closing {A} k (m : SE Disk A) : preserves at_inode m → preserves at_inode (closing E k m).
Proof. intros Hm. unfold closing. apply preserves_catch; [done|]. intros e. calls. Qed.

(** *** The operations of markers *)

Context `{Sha256} `{PythonText} `{UuidText} (float_equal : json → json → bool).

Ltac part := first
  [ apply file_closing | apply file_open_read | apply file_system_call | apply file_fstat | apply file_capture | apply file_read_whole
  | apply file_read | apply file_write_all | apply file_fsync | apply file_fsync_folder | apply file_open_create
  | single | case_match ].
Ltac parts := repeat part.
Lemma file_read_snapshot k identity : preserves at_inode (read_marker_snapshot float_equal E k identity).
Proof. unfold read_marker_snapshot. parts. Qed.
Lemma file_open_marker key : preserves at_inode (open_marker float_equal E key).
Proof. unfold open_marker. repeat first [apply file_read_snapshot | part]. Qed.
Lemma file_begin_marker t x key fp r fmt root ri : preserves at_inode (begin_marker float_equal E t x key fp r fmt root ri).
Proof. unfold begin_marker. repeat first [apply file_open_marker | part]. Qed.
Lemma file_validate_open m : preserves at_inode (validate_open_identity E m).
Proof. unfold validate_open_identity. parts. Qed.
Lemma file_append_line m st d : preserves at_inode (append_line E m st d).
Proof. unfold append_line. repeat first [apply file_validate_open | part]. Qed.

(** The disk of a caller with a marker object. *)
Definition at_marking (w : Marking) : Prop := at_inode (mk_disk w).
Lemma file_on_disk {A} (m : SE Disk A) : preserves at_inode m → preserves at_marking (on_marker_disk m).
Proof. intros Hm w Hw. unfold on_marker_disk. specialize (Hm (mk_disk w) Hw). by destruct (m (mk_disk w)). Qed.
Lemma file_set_marker m : preserves at_marking (set_marker m).
Proof. by intros w Hw. Qed.
Lemma file_append_event st d : preserves at_marking (append_event E st d).
Proof.
  unfold append_event. apply preserves_bind; [apply preserves_get|]. intros m.
  apply preserves_bind; [apply file_on_disk, file_append_line|]. intros [digest refreshed]. apply file_set_marker.
Qed.
Lemma file_advance st d : preserves at_marking (advance_marker E st d).
Proof.
  unfold advance_marker, current_state. apply preserves_bind; [apply preserves_get|]. intros c.
  apply preserves_bind; [apply preserves_raise_if|]. intros _. apply file_append_event.
Qed.
Lemma file_note_intent d : preserves at_marking (note_intent_durable float_equal E d).
Proof.
  unfold note_intent_durable, current_state. apply preserves_bind; [apply preserves_get|]. intros c. case_match; [|apply file_advance].
  apply preserves_bind; [apply preserves_get|]. intros p. apply preserves_raise_if.
Qed.
Lemma file_note_rollback r : preserves at_marking (note_rollback E r).
Proof.
  unfold note_rollback, current_state. apply preserves_bind; [apply preserves_get|]. intros c.
  case_match; first [apply file_advance | apply file_append_event | apply preserves_raise].
Qed.
Lemma file_logical_retire reason q : preserves at_marking (logical_retire E reason q).
Proof.
  unfold logical_retire. apply preserves_bind; [apply preserves_get|]. intros m.
  apply preserves_bind; [apply file_on_disk, file_validate_open|]. intros [].
  apply preserves_bind; [apply file_on_disk, file_quarantine|]. intros o. case_match; [|apply preserves_raise].
  do 2 (apply preserves_bind; [apply preserves_raise_if|]; intros []).
  apply preserves_bind; [apply file_set_marker|]. intros [].
  apply preserves_bind; [case_match; [apply file_advance|apply file_append_event]|]. intros []. apply file_on_disk, file_fsync_folder.
Qed.
Lemma file_retire reason q : preserves at_marking (retire E reason q).
Proof.
  unfold retire, current_state. apply preserves_bind; [apply preserves_get|]. intros c.
  apply preserves_bind; [apply preserves_raise_if|]. intros []. apply file_logical_retire.
Qed.
Lemma file_retire_aborted reason q : preserves at_marking (retire_aborted E reason q).
Proof.
  unfold retire_aborted, current_state. apply preserves_bind; [apply preserves_get|]. intros c.
  case_match; [apply preserves_ret|apply file_logical_retire].
Qed.
Lemma file_close_marker : preserves at_marking (close_marker E).
Proof.
  unfold close_marker. apply preserves_bind; [apply preserves_get|]. intros m. case_match; [apply preserves_ret|].
  apply preserves_bind; [apply file_set_marker|]. intros []. apply file_on_disk, file_close.
Qed.
End Files.

(** ** The text of a file *)

Definition text_is (t : string) : Durable Body → Prop := λ v, contents (latest v) = t.
(** Nothing else is left of it after a loss of power. *)
Definition settled (t : string) : Durable Body → Prop := λ v, ∀ b, b ∈ versions v → contents b = t.
Lemma settled_text t v : settled t v → text_is t v.
Proof. intros Hv. apply Hv. by left. Qed.

Section Texts.
Context (E : Env) (n : nat) (Q : Durable Body → Prop) (t : string).
Hypothesis Q_text : ∀ v, Q v → text_is t v.
Abbreviation here := (at_inode n Q).

Lemma fstat_size :
  triple here (fstat E n) (λ md d, here d ∧ md_size md = Z.of_nat (String.length t)) (λ _, here).
Proof.
  intros d Hd. unfold fstat, syscall. destruct (fault E _); [done|]. destruct Hd as (i & Hi & Hq).
  unfold mbind, SE_bind, inode, get, lift, mret, SE_ret. simpl. rewrite Hi. simpl.
  split; [by exists i|]. by rewrite (Q_text _ Hq).
Qed.
Lemma capture_size f s u md :
  triple here (capture_file_identity E f s n u md) (λ i d, here d ∧ id_size i = Z.of_nat (String.length t)) (λ _, here).
Proof.
  unfold capture_file_identity.
  eapply triple_bind; [apply triple_preserves, file_component|]. intros [].
  eapply triple_bind; [apply triple_preserves, file_syscall, preserves_ret|]. intros [].
  eapply triple_bind; [apply fstat_size|]. intros x.
  assert (∀ A (m : SE Disk A), preserves here m →
    triple (λ d, here d ∧ md_size x = Z.of_nat (String.length t)) m (λ _ d, here d ∧ md_size x = Z.of_nat (String.length t)) (λ _, here)) as Hstep.
  { intros A m Hm d [Hd Hx]. specialize (Hm d Hd). destruct (m d) as [[a|e] d']; done. }
  eapply triple_bind; [apply Hstep; unfold validate_regular_file; auto with preserves|]. intros [].
  eapply triple_bind; [apply Hstep, file_stat_name|]. intros y.
  eapply triple_bind; [apply Hstep, preserves_raise_if|]. intros []. by apply triple_ret.
Qed.
Lemma validate_open_size m :
  mk_descriptor m = n →
  triple here (validate_open_identity E m) (λ _ d, here d ∧ id_size (mk_identity m) = Z.of_nat (String.length t)) (λ _, here).
Proof.
  intros Hn. unfold validate_open_identity. rewrite Hn.
  eapply triple_bind; [apply triple_preserves, preserves_raise_if|]. intros [].
  eapply triple_bind; [apply fstat_size|]. intros md.
  eapply (triple_bind _ (λ _ d, here d ∧ id_size (mk_identity m) = Z.of_nat (String.length t))).
  - apply triple_raise_if; [by intros d [Hd _]|]. intros d [Hd Hx] Hm. split; [done|].
    apply negb_false_iff in Hm. unfold matches_with_size in Hm. bool_simp. by rewrite <- Hx.
  - intros [] d [Hd Hx]. rewrite bind_state.
    pose proof (file_capture E _ Q (SUB CAPTURE_MARKERS) (relative_name (mk_identity m)) n (Some (id_uid (mk_identity m))) (Some private_file_mode) d Hd) as Hc.
    destruct (capture_file_identity _ _ _ _ _ _ d) as [[i|e] d']; simpl in Hc; [|done]. unfold raise_if. by destruct (negb _).
Qed.
End Texts.

Lemma substring_whole s : String.substring 0 (String.length s) s = s.
Proof. by apply substring_all. Qed.
(** Writing all of it, or a beginning of it. *)
Lemma write_all_text E n t fuel payload :
  (String.length payload ≤ fuel)%nat →
  triple (at_inode n (text_is t)) (write_all E fuel n payload)
    (λ _, at_inode n (text_is (t +:+ payload))) (λ _ d, ∃ p q, payload = p +:+ q ∧ at_inode n (text_is (t +:+ p)) d).
Proof.
  revert t payload. induction fuel as [|fuel IH]; intros t payload Hf; simpl.
  { destruct payload; [|simpl in Hf; lia]. apply triple_ret. by rewrite append_empty. }
  destruct (String.eqb_spec payload EmptyString) as [->|Hne]; [apply triple_ret; by rewrite append_empty|].
  assert (1 ≤ String.length payload)%nat as Hlen by (destruct payload; simpl; [done|lia]).
  intros d (i & Hi & Ht). rewrite bind_state. unfold write, syscall.
  destruct (fault E _); [exists EmptyString, payload; split; [done|]; exists i; by rewrite append_empty|].
  unfold mbind, SE_bind, inode, tick, get, lift, mret, SE_ret, update_inode, modify. simpl. rewrite Hi. simpl.
  set (k := portion _ _ _). assert (1 ≤ k ≤ String.length payload)%nat as Hk by (unfold k, portion; lia).
  set (d1 := set_inodes _ _). assert (at_inode n (text_is (t +:+ String.substring 0 k payload)) d1) as Hd1.
  { eexists. unfold d1. simpl. rewrite lookup_alter_eq, Hi. split; [done|]. unfold text_is in *. simpl. by rewrite Ht. }
  destruct (substring_split k payload ltac:(lia)) as [Hsplit Hlk].
  specialize (IH (t +:+ String.substring 0 k payload) (String.substring k (String.length payload) payload)).
  assert (String.substring 0 k payload +:+ String.substring k (String.length payload) payload = payload) as Hp.
  { set (a := String.substring 0 k payload) in *. set (b := String.substring k (String.length payload - k) payload) in *.
    rewrite Hsplit at 2. rewrite <- Hlk, substring_rest, (substring_all _ b); [done|].
    rewrite Hsplit, length_append. lia. }
  assert (String.length (String.substring k (String.length payload) payload) ≤ fuel)%nat as Hfuel.
  { apply (f_equal String.length) in Hp. rewrite length_append, Hlk in Hp. lia. }
  specialize (IH Hfuel d1 Hd1). destruct (write_all E fuel n _ d1) as [[[]|e] d2].
  - by rewrite <- append_assoc_string, Hp in IH.
  - destruct IH as (p & q & Hpq & Hd2). exists (String.substring 0 k payload +:+ p), q. split.
    + by rewrite <- append_assoc_string, <- Hpq.
    + by rewrite append_assoc_string.
Qed.
Lemma fsync_settles E n t :
  triple (at_inode n (text_is t)) (fsync E n) (λ _, at_inode n (settled t)) (λ _, at_inode n (text_is t)).
Proof.
  intros d (i & Hi & Ht). unfold fsync, syscall. destruct (fault E _); [by exists i|].
  unfold mbind, SE_bind, inode, get, lift, update_inode, modify. simpl. rewrite Hi. simpl.
  eexists. simpl. rewrite lookup_alter_eq, Hi. split; [done|]. intros b Hb. simpl in Hb. apply list_elem_of_singleton in Hb as ->. done.
Qed.
