(* ===== verification/StagerDurable.v ===== *)
(** * Why a staged artifact is on the disk

    On the way to a confirmed staging nothing but the publication touches the
    outbox, the bytes are synchronised before the intent and the directory after
    the publication: what is then queued is there in whatever a loss of power may
    leave. *)

From S2P Require Export StagerTheorems.

Section Resting.
Context `{Sha256} `{PythonText} `{UuidText}.
Context (float_equal : json → json → bool) (valid_manifest : json → bool).
Context (E : Env) (G : Signals) (L : Limits).

(** The outbox is [O], and the body of the inode [kept] is synchronised. *)
Definition resting (O : Durable Names) (kept : option (nat * Body)) (d : Disk) : Prop :=
  outbox d = O ∧ match kept with
                 | Some (n, b) => ∃ i, inodes d !! n = Some i ∧ body i = synced b
                 | None => True
                 end.
Definition avoids (busy : option nat) (kept : option (nat * Body)) : Prop :=
  ∀ n b, kept = Some (n, b) → busy ≠ Some n.
(** When it returns, it has left them alone; [busy] may have been written. *)
Definition rests (busy : option nat) {A} (m : SE Stager A) : Prop :=
  ∀ O kept, avoids busy kept →
  triple (λ w, resting O kept (disk w)) m (λ _ w, resting O kept (disk w)) (λ _ _, True).
Definition rests_disk (busy : option nat) {A} (m : SE Disk A) : Prop :=
  ∀ O kept, avoids busy kept → triple (resting O kept) m (λ _, resting O kept) (λ _ _, True).

Lemma rests_on_disk busy {A} (m : SE Disk A) : rests_disk busy m → rests busy (on_disk m).
Proof.
  intros Hm O kept Hk w Hw. unfold on_disk. specialize (Hm O kept Hk (disk w) Hw). by destruct (m (disk w)) as [[a|e] d].
Qed.
Lemma rests_bind busy {A B} (m : SE Stager A) (f : A → SE Stager B) :
  rests busy m → (∀ a, rests busy (f a)) → rests busy (m ≫= f).
Proof. intros Hm Hf O kept Hk. eapply triple_bind; [by apply Hm|]. intros a. by apply Hf. Qed.
Lemma rests_disk_bind busy {A B} (m : SE Disk A) (f : A → SE Disk B) :
  rests_disk busy m → (∀ a, rests_disk busy (f a)) → rests_disk busy (m ≫= f).
Proof. intros Hm Hf O kept Hk. eapply triple_bind; [by apply Hm|]. intros a. by apply Hf. Qed.
(** Computations that do not touch the disk but for the number of calls. *)
Lemma rests_same busy {A} (m : SE Stager A) : (∀ w, ∃ k, disk (m w).2 = at_call k (disk w)) → rests busy m.
Proof. intros Hm O kept _ w Hw. destruct (Hm w) as [k Hk]. destruct (m w) as [[a|e] w']; [|done]. simpl in Hk. by rewrite Hk. Qed.
Lemma rests_pure busy {A} (m : SE Stager A) : (∀ w, (m w).2 = w) → rests busy m.
Proof. intros Hm. apply rests_same. intros w. exists (calls (disk w)). rewrite Hm. by destruct (disk w). Qed.
Lemma rests_raise busy {A} e : rests busy (raise e : SE Stager A).
Proof. by apply rests_pure. Qed.
Lemma rests_ret busy {A} (a : A) : rests busy (mret a).
Proof. by apply rests_pure. Qed.
Lemma rests_raise_if busy b e : rests busy (raise_if b e).
Proof. apply rests_pure. intros w. unfold raise_if. by destruct b. Qed.
Lemma rests_lift busy {A} (r : result A) : rests busy (lift r).
Proof. by apply rests_pure. Qed.
Lemma rests_get busy {A} (f : Stager → A) : rests busy (get f).
Proof. by apply rests_pure. Qed.
Lemma rests_observe busy {A} (f : nat → A) : rests busy (observe f).
Proof. apply rests_same. intros w. by eexists. Qed.
Lemma rests_on_transaction busy g : rests busy (on_transaction g).
Proof. apply rests_same. intros w. exists (calls (disk w)). by destruct w as [[]]. Qed.
(** *** System calls *)

Lemma rests_syscall busy {A} (m : SE Disk A) : rests_disk busy m → rests_disk busy (syscall E m).
Proof.
  intros Hm O kept Hk d Hd. unfold syscall. destruct (fault E _); [done|]. by apply (Hm O kept Hk (at_call (S (calls d)) d)).
Qed.
Lemma rests_disk_pure busy {A} (m : SE Disk A) : (∀ d, (m d).2 = d) → rests_disk busy m.
Proof. intros Hm O kept _ d Hd. specialize (Hm d). destruct (m d) as [[a|e] d']; [|done]. simpl in Hm. by rewrite Hm. Qed.
Lemma rests_reads busy {A} (m : SE Disk A) : (∀ d, (m d).2 = d) → rests_disk busy (syscall E m).
Proof. intros Hm. by apply rests_syscall, rests_disk_pure. Qed.
Lemma rests_update g n : rests_disk (Some n) (update_inode g n).
Proof.
  intros O kept Hk d [HO Hd]. split; [done|]. destruct kept as [[n' b]|]; [|done]. destruct Hd as (i & Hi & Hb). exists i.
  simpl. rewrite lookup_alter_ne; [done|]. specialize (Hk n' b eq_refl). congruence.
Qed.
Ltac disk_steps := repeat (first
  [ apply rests_syscall | apply rests_update | apply rests_disk_bind; [|intros ?]
  | apply rests_disk_pure; intros ?; unfold raise_if; by repeat case_match
  | apply rests_disk_pure; by intros ? ]).
Lemma inode_reads n d : (inode n d).2 = d.
Proof. unfold inode, mbind, SE_bind, get, lift. by destruct (inodes d !! n). Qed.
Lemma rests_inode busy n : rests_disk busy (inode n).
Proof. apply rests_disk_pure, inode_reads. Qed.
Lemma rests_fstat busy n : rests_disk busy (fstat E n).
Proof. unfold fstat. repeat first [apply rests_inode | progress disk_steps]. Qed.
Lemma rests_stat_name busy f s : rests_disk busy (stat_name E f s).
Proof. unfold stat_name. repeat first [apply rests_inode | progress disk_steps]. Qed.
Lemma rests_close busy n : rests_disk busy (close E n).
Proof. unfold close. disk_steps. Qed.
Lemma rests_write n payload : rests_disk (Some n) (write E n payload).
Proof. unfold write. repeat first [apply rests_inode | progress disk_steps]. Qed.
Lemma rests_fchmod n mode : rests_disk (Some n) (fchmod E n mode).
Proof. unfold fchmod. repeat first [apply rests_inode | progress disk_steps]. Qed.
Lemma rests_fsync n : rests_disk (Some n) (fsync E n).
Proof. unfold fsync. repeat first [apply rests_inode | progress disk_steps]. Qed.
Lemma rests_fsync_intents busy : rests_disk busy (fsync_folder E INTENTS).
Proof. unfold fsync_folder. apply rests_syscall. by intros O kept _ d Hd. Qed.
Lemma rests_capture busy f s n u m : rests_disk busy (capture_file_identity E f s n u m).
Proof.
  unfold capture_file_identity, validate_component, validate_regular_file.
  repeat first [apply rests_fstat | apply rests_stat_name | progress disk_steps].
Qed.
Lemma rests_write_all n fuel payload : rests_disk (Some n) (write_all E fuel n payload).
Proof.
  revert payload. induction fuel as [|fuel IH]; intros payload; simpl; [by apply rests_disk_pure|].
  destruct (String.eqb payload EmptyString); [by apply rests_disk_pure|].
  apply rests_disk_bind; [apply rests_write|]. intros k. apply IH.
Qed.
Lemma create_intent_resting O kept name mode :
  triple (λ w, resting O kept (disk w)) (on_disk (open_create E INTENTS name mode))
    (λ n w, resting O kept (disk w) ∧ avoids (Some n) kept) (λ _ _, True).
Proof.
  intros w [HO Hk]. unfold on_disk.
  destruct (open_create_effect E INTENTS name mode (disk w)) as [c [[e ->]|(n & i & Hn & _ & _ & ->)]]; [done|].
  assert (avoids (Some n) kept) as Ha by (intros n' b -> [= ->]; destruct Hk as (i' & Hi & _); congruence).
  split; [|done]. split; [done|]. destruct kept as [[n' b]|]; [|done]. destruct Hk as (i' & Hi & Hb). exists i'. simpl.
  rewrite lookup_insert_ne; [done|]. intros ->. by apply (Ha n' b).
Qed.

(** *** Parts of staging *)

Lemma rests_outsider busy : rests busy (outsider G).
Proof. unfold outsider. apply rests_bind; [apply rests_observe|]. intros []; [apply rests_on_transaction|apply rests_ret]. Qed.
Ltac rest_steps := repeat (first
  [ apply rests_outsider | apply rests_observe | apply rests_on_transaction | apply rests_ret | apply rests_raise
  | apply rests_raise_if | apply rests_lift | apply rests_get | apply rests_bind; [|intros ?] | progress case_match ]).
Lemma rests_tx_check busy : rests busy (tx_check G).
Proof. unfold tx_check. rest_steps. Qed.
Lemma rests_advance busy from to : rests busy (advance G from to).
Proof. unfold advance. rest_steps. Qed.
Lemma rests_any_call busy : rests busy (any_call E).
Proof. apply rests_on_disk. disk_steps. Qed.
Lemma rests_ask busy {A} (f : nat → result A) : rests busy (ask E f).
Proof. unfold ask. repeat first [apply rests_any_call | progress rest_steps]. Qed.
Lemma rests_copy_chunks n fuel S maximum copied : rests (Some n) (copy_chunks E G fuel S maximum n copied).
Proof.
  revert copied. induction fuel as [|fuel IH]; intros copied; simpl; [apply rests_raise|].
  apply rests_bind; [apply rests_tx_check|]. intros _. apply rests_bind; [apply rests_ask|]. intros chunk.
  case_match; [apply rests_ret|]. apply rests_bind; [apply rests_raise_if|]. intros _.
  apply rests_bind; [apply rests_on_disk, rests_write_all|]. intros _. apply IH.
Qed.
Lemma rests_copy_source supplied S maximum expected before temporary n :
  rests (Some n) (copy_source valid_manifest E G supplied S maximum expected before temporary n).
Proof.
  unfold copy_source. apply rests_bind; [apply rests_copy_chunks|]. intros copied. apply rests_bind; [apply rests_raise_if|].
  intros _. apply rests_bind; [apply rests_ask|]. intros after. do 4 (apply rests_bind; [apply rests_raise_if|intros _]).
  apply rests_bind; [apply rests_on_disk, rests_fchmod|]. intros _.
  apply rests_bind; [apply rests_on_disk, rests_capture|]. intros identity. apply rests_ret.
Qed.
(** Cleaning up never returns a value. *)
Lemma clean_up_returns {A} identities (m : SE Stager A) P Q :
  triple P m Q (λ _ _, True) → triple P (clean_up E identities m) Q (λ _ _, True).
Proof.
  intros Hm. unfold clean_up. eapply triple_catch; [exact Hm|]. intros e. eapply (triple_bind _ (λ _ _, True)); [apply triple_pure|].
  intros _. by apply triple_raise.
Qed.
Lemma on_error_close_returns {A} (m : SE Stager A) P Q :
  triple P m Q (λ _ _, True) → triple P (on_error_close E m) Q (λ _ _, True).
Proof.
  intros Hm. unfold on_error_close. eapply triple_catch; [exact Hm|]. intros e. eapply (triple_bind _ (λ _ _, True)); [apply triple_pure|].
  intros _. by apply triple_raise.
Qed.
Lemma rests_clean_up busy {A} identities (m : SE Stager A) : rests busy m → rests busy (clean_up E identities m).
Proof. intros Hm O kept Hk. by apply clean_up_returns, Hm. Qed.

(** After [fsync] the body is synchronised. *)
Lemma fsync_resting O n :
  triple (λ w, resting O None (disk w)) (on_disk (fsync E n)) (λ _ w, ∃ b, resting O (Some (n, b)) (disk w)) (λ _ _, True).
Proof.
  intros w [HO _]. unfold on_disk, fsync, syscall. destruct (fault E _); [done|].
  unfold mbind, SE_bind, inode, get, lift, update_inode, modify. simpl.
  destruct (inodes (disk w) !! n) as [i|] eqn:Ei; [|done]. simpl. exists (latest (body i)). split; [done|].
  eexists. simpl. split; [by rewrite lookup_alter_eq, Ei|done].
Qed.

Lemma discard_never {A} identity (e : exc) P (Q : A → Stager → Prop) :
  triple P (discard_intent E identity e) Q (λ _ _, True).
Proof.
  unfold discard_intent. do 2 (eapply triple_bind; [apply triple_true|intros ?]). by apply triple_raise.
Qed.

Lemma write_intent_resting t temporary final m authority O n b :
  triple (λ w, resting O (Some (n, b)) (disk w))
    (write_intent float_equal E t temporary final m authority)
    (λ i w, resting O (Some (n, b)) (disk w) ∧ manifest i = m ∧ final_name i = final ∧ internal (intent_identity i))
    (λ _ _, True).
Proof.
  unfold write_intent. set (R := λ w : Stager, resting O (Some (n, b)) (disk w)).
  assert (∀ A (m : SE Stager A), rests None m → triple R m (λ _, R) (λ _ _, True)) as Hrest by (intros A m' Hm; by apply Hm).
  do 3 (eapply triple_bind; [apply Hrest; rest_steps|intros ?]).
  eapply (triple_bind _ (λ _, R)).
  { destruct authority; [|by apply triple_ret]. eapply triple_bind; [apply Hrest; rest_steps|]. intros [].
    apply Hrest. unfold validate_capture_intent_authority. rest_steps. }
  intros []. eapply triple_bind; [apply Hrest; rest_steps|]. intros [].
  eapply triple_bind; [apply create_intent_resting|]. intros n' w [Hw Ha]. revert w Hw.
  eapply triple_bind.
  { apply (triple_attempt _ (λ identity w, resting O (Some (n, b)) (disk w) ∧ internal identity) (λ _ _, True)).
    eapply triple_weaken; [apply triple_and; [apply (rests_on_disk None); [apply rests_capture|done]|by apply capture_internal; left]|..]; done. }
  intros [identity|e]; [|eapply triple_bind; [apply triple_true|]; intros r; by apply triple_raise].
  intros w [Hw Hi]. revert w Hw. eapply triple_bind.
  { apply (triple_attempt _ (λ _ w, resting O (Some (n, b)) (disk w)) (λ _ _, True)). apply (rests_on_disk (Some n')); [|done].
    apply rests_disk_bind; [apply rests_write_all|]. intros _. apply rests_fsync. }
  intros [[]|e]; [|eapply triple_bind; [apply triple_true|]; intros [[]|]; apply discard_never].
  eapply triple_bind.
  { apply (triple_attempt _ (λ _ w, resting O (Some (n, b)) (disk w)) (λ _ _, True)). apply (rests_on_disk None); [apply rests_close|done]. }
  intros [[]|e]; [|apply discard_never]. eapply triple_bind.
  { apply (triple_attempt _ (λ _ w, resting O (Some (n, b)) (disk w)) (λ _ _, True)). apply (rests_on_disk None); [apply rests_fsync_intents|done]. }
  intros [[]|e]; [|apply discard_never]. apply triple_ret. intros w Hw. by split_and!.
Qed.

(** *** Publication and confirmation *)

Lemma publish_durable O n b temporary final :
  latest O !! temporary = Some n →
  triple (λ w, resting O (Some (n, b)) (disk w)) (publish_without_overwrite E temporary final)
    (λ _ w, file_at (false, true) final n (λ b', b' = b) (disk w) ∧ contains_slash final = false) (λ _ _, True).
Proof.
  intros Ht w (HO & i & Hi & Hb). unfold publish_without_overwrite, on_disk.
  destruct (rename_effect E OUTBOX temporary final (disk w)) as [k [[e ->]|(n' & Hn & _ & Hc & _ & ->)]]; [done|].
  unfold named in Hn. simpl in Hn. rewrite HO, Ht in Hn. injection Hn as <-. split.
  - split; simpl.
    + intros names ->%list_elem_of_singleton. by rewrite lookup_insert_eq.
    + exists (touch k i). rewrite lookup_alter_eq, Hi. split; [done|]. simpl. rewrite Hb. by intros b' ->%list_elem_of_singleton.
  - unfold component in Hc. apply andb_true_iff in Hc as [_ Hc%negb_true_iff]. by apply orb_false_iff in Hc as [Hc _].
Qed.
Lemma sync_durable name n F :
  triple (λ w, file_at (false, true) name n F (disk w)) (on_disk (fsync_folder E OUTBOX))
    (λ _ w, file_at (true, true) name n F (disk w)) (λ _ _, True).
Proof.
  intros w [Hn Hf]. unfold on_disk, fsync_folder, syscall. destruct (fault E _); [done|]. split; [|done]. simpl.
  intros names ->%list_elem_of_singleton. apply Hn. by left.
Qed.
Lemma durable_frame durably name n F {A} (m : SE Stager A) :
  published name → frame None m → preserves (λ w, file_at durably name n F (disk w)) m.
Proof. intros Hn [_ Hm] w Hw. by apply (Hm durably name n F (uploads w) Hn). Qed.

Definition confirmed (a : StagedArtifact) (w : Stager) : Prop :=
  ∃ u, pu_relative_path u = staged_path a ∧ row_kept u None w.

Lemma finish_durable t i supplied copied n b :
  published (final_name i) → internal (intent_identity i) → manifest i = finished_manifest supplied copied →
  triple (λ w, file_at (false, true) (final_name i) n (λ b', b' = b) (disk w)) (finish_published E G L t i copied)
    confirmed (λ _ _, True).
Proof.
  intros Hn Hi Hm. unfold finish_published. eapply triple_bind; [apply sync_durable|]. intros [].
  set (J := λ w : Stager, file_at (true, true) (final_name i) n (λ b', b' = b) (disk w)).
  eapply (triple_bind _ (λ _ w, J w ∧ fits (Z.of_nat (String.length copied)) (sha256_hex copied) b)).
  { eapply triple_weaken.
    - apply triple_and; [apply triple_preserves, (durable_frame (true, true)); [done|apply frame_validate_named]|by apply validate_visible].
    - by intros w Hw.
    - intros identity w [Hj (ino & Hnames & i' & Hi' & Hb)]. split; [done|]. destruct Hj as (Hnames' & i'' & Hi'' & Hb'').
      assert (ino = n) as -> by (pose proof (Hnames _ (views_latest _ _)); pose proof (Hnames' _ (views_latest _ _)); congruence).
      rewrite Hi'' in Hi'. injection Hi' as <-. rewrite <- (Hb'' (latest (body i''))) by apply views_latest. apply Hb, views_latest.
    - done. }
  intros identity w [Hw Hfits]. revert w Hw.
  eapply (triple_bind _ (λ _ w, ∃ u, pu_relative_path u = relative_path_of (final_name i) ∧ row_kept u None w)).
  { intros w Hw. pose proof (ensure_queued_effect E t (final_name i) (manifest i) _ _ w
      ltac:(by rewrite Hm, finished_size) ltac:(by rewrite Hm, finished_sha256)) as He.
    destruct (ensure_queued _ _ _ _ w) as [[[]|e] w']; [|done]. destruct He as ([k Hk] & _ & Hu).
    destruct (Hu eq_refl) as (u & Hx & Hp & Hz & Hh). exists u. rewrite as_posix_relative in Hp by done. split; [done|]. split; [done|].
    exists (final_name i), n. split_and!; [done|done|done|]. rewrite Hk, Hz, Hh. destruct Hw as (Hnames & i' & Hi' & Hb').
    split; [done|]. exists i'. split; [done|]. intros b' Hx'. by rewrite (Hb' b' Hx'). }
  intros []. apply triple_step.
  { intros w (u & Hp & Hu). exists u. split; [done|]. by apply row_kept_frame; [apply frame_remove_intent|]. }
  intros []. apply triple_step.
  { intros w (u & Hp & Hu). exists u. split; [done|]. by apply row_kept_frame; [apply frame_committed|]. }
  intros []. by apply triple_ret.
Qed.

Context (intent_durable : ArtifactIntent → stat_result → string → SE Stager unit).
(** The callback works elsewhere. *)
Definition works_elsewhere (m : SE Stager unit) : Prop :=
  ∀ w, ∃ k, (m w).2 = set_disk (at_call k (disk w)) w.
Hypothesis callback_elsewhere : ∀ i md sha256, works_elsewhere (intent_durable i md sha256).
Lemma rests_elsewhere m : works_elsewhere m → rests None m.
Proof. intros Hm. apply rests_same. intros w. destruct (Hm w) as [k Hk]. exists k. by rewrite Hk. Qed.
Lemma frame_elsewhere m : works_elsewhere m → frame None m.
Proof.
  intros Hm. split.
  - intros U w Hw. destruct (Hm w) as [k Hk]. by rewrite Hk.
  - intros durably name ino F U _ _ w Hw. destruct (Hm w) as [k Hk]. by rewrite Hk.
Qed.

Lemma create_outbox_resting name mode :
  triple (λ _, True) (on_disk (open_create E OUTBOX name mode))
    (λ n w, ∃ O, latest O !! name = Some n ∧ resting O None (disk w)) (λ _ _, True).
Proof.
  intros w _. unfold on_disk. destruct (open_create_effect E OUTBOX name mode (disk w)) as [k [[e ->]|(n & i & _ & _ & _ & ->)]]; [done|].
  exists (overwrite <[name := n]> (outbox (disk w))). split; [|done]. simpl. by rewrite lookup_insert_eq.
Qed.

Lemma first_copy_resting supplied S maximum expected before temporary n O :
  starts_with "." temporary = true →
  triple (λ w, resting O None (disk w))
    (on_error_close E (
      first ← on_disk (capture_file_identity E OUTBOX temporary n (Some (euid E)) (Some temporary_mode));
      '(final_manifest, copied, identity) ←
        clean_up E [first] (copy_source valid_manifest E G supplied S maximum expected before temporary n);
      clean_up E [identity] (on_disk (fsync E n)) ;;
      mret (final_manifest, copied, identity)))
    (λ r w, (∃ b, resting O (Some (n, b)) (disk w)) ∧ r.1.1 = finished_manifest supplied r.1.2) (λ _ _, True).
Proof.
  intros Ht. apply on_error_close_returns. eapply triple_bind; [apply (rests_on_disk None); [apply rests_capture|done]|].
  intros first. eapply triple_bind.
  { apply clean_up_returns. eapply triple_weaken.
    - apply triple_and; [by apply (rests_copy_source supplied S maximum expected before temporary n O None)|by apply copy_source_value].
    - by intros w Hw.
    - by intros r w Hw.
    - by intros. }
  intros [[fm copied] identity] w [Hw [Hfm _]]. revert w Hw. eapply triple_bind; [apply clean_up_returns, fsync_resting|].
  intros []. by apply triple_ret.
Qed.
Lemma publish_step_durable identities i before sha256 temporary final O n b :
  latest O !! temporary = Some n →
  triple (λ w, resting O (Some (n, b)) (disk w))
    (clean_up E identities (
      intent_durable i before sha256 ;; ready G ;; begin_commit G ;; publish_without_overwrite E temporary final))
    (λ _ w, file_at (false, true) final n (λ b', b' = b) (disk w) ∧ contains_slash final = false) (λ _ _, True).
Proof.
  intros Ht. apply clean_up_returns. eapply triple_bind; [by apply (rests_elsewhere _ (callback_elsewhere i before sha256))|]. intros [].
  do 2 (eapply triple_bind; [by apply (rests_advance None)|intros []]). by apply publish_durable.
Qed.
Lemma stage_sync_confirms supplied S t maximum expected authority :
  triple (λ _, True) (stage_sync float_equal valid_manifest E G L supplied S t maximum expected authority intent_durable)
    confirmed (λ _ _, True).
Proof.
  unfold stage_sync. eapply triple_bind; [apply triple_true|]. intros [].
  apply triple_finally.
  { intros a w (u & Hp & Hu). exists u. split; [done|]. by apply row_kept_frame; [apply frame_close_all|]. }
  do 8 (eapply triple_bind; [apply triple_true|intros ?]).
  eapply triple_bind; [apply create_outbox_resting|]. intros n w (O & HO & Hw). revert w Hw.
  eapply triple_bind; [apply first_copy_resting, staging_name|]. intros [[fm copied] identity] w ([b Hw] & Hfm). simpl in Hfm.
  revert w Hw. eapply triple_bind.
  { apply clean_up_returns. eapply triple_bind; [apply (rests_on_disk None); [apply rests_close|done]|]. intros [].
    apply write_intent_resting. }
  intros i w (Hw & Hm & Hf & Hi). revert w Hw. eapply triple_bind; [by apply publish_step_durable|]. intros [] w [Hw Hs]. revert w Hw.
  rewrite <- Hf. eapply finish_durable; [|done|by rewrite Hm]. rewrite Hf in *. by apply published_final.
Qed.
End Resting.
