(* ===== verification/StagerExamples.v ===== *)
(** * A concrete system

    A service account whose umask hides everything, calls that fail where asked,
    and a source of three bytes: the inputs of the stager's witnesses. *)

From S2P Require Export Stager Examples AgentIdentityTheorems.

#[global] Existing Instances example_text example_uuid.

Fixpoint letters (n : nat) : string := match n with O => EmptyString | S n' => "a" +:+ letters n' end.
Definition example_env (fails : nat → option exc) : Env := {|
  euid := 1000; umask := 63; directory_stat := λ f, match f with OUTBOX => (1, 2) | INTENTS => (1, 3) | SUB _ => (1, 4) end;
  fault := fails; token_hex := letters; fresh_inode := size; moved := λ _ n, n;
  wall_clock := λ _, "2026-01-01T00:00:00Z"; listing := λ names, map fst (map_to_list names); new_uuid := letters |}.
Definition no_fault (n : nat) : option exc := None.
(** One call fails; the process is killed at a call. *)
Definition fails_at (k n : nat) : option exc := if Nat.eqb n k then Some (OSError "EIO") else None.
Definition killed_at (k n : nat) : option exc := if (k <=? n)%nat then Some (OSError "killed") else None.

Definition no_signal : Signals := {|
  cancel_requested := λ _, false; token_cancelled := λ _, false; stop_set := λ _, false; deadline_passed := λ _, false |}.
Definition example_limits : Limits := {| maximum_entries := 10000; maximum_bytes := 4294967296 |}.
(** Someone asks to cancel at one call. *)
Definition cancelled_at (k : nat) : Signals := {|
  cancel_requested := Nat.eqb k; token_cancelled := λ _, false; stop_set := λ _, false; deadline_passed := λ _, false |}.

Definition example_source_stat : stat_result := {|
  md_dev := 1; md_ino := 99; md_mode := 33152; md_uid := 1000; md_nlink := 1; md_size := 3; md_mtime_ns := 0; md_ctime_ns := 0 |}.
(** The bytes are read by the first call until [k]. *)
Definition example_source (k : nat) : Source := {|
  open_source := Ok tt; source_stat := λ _, Ok example_source_stat;
  source_read := λ n, Ok (if (n <=? k)%nat then "abc" else EmptyString) |}.
Definition example_identity : list (string * json) :=
  [("schema_version", JStr "1.0"); ("artifact_id", JStr "a1"); ("execution_id", JStr "e1"); ("artifact_type", JStr "pcap");
   ("media_type", JStr "application/vnd.tcpdump.pcap"); ("idempotency_key", JStr "k1")].
Definition never_equal (a b : json) : bool := false.
Definition any_manifest (j : json) : bool := true.
Definition no_callback (i : ArtifactIntent) (md : stat_result) (sha256 : string) : SE Stager unit := mret tt.
