(* ===== verification/StagerHistory.v ===== *)
(** * Histories of the stager

    Staging, lookups, validations, restarts and the other work on the database in
    any order, with failures and kills wherever they happen, and losses of power
    between them.  A restart or a loss of power forgets what the process had in
    memory; a loss of power leaves any unsynchronised version of each directory
    and file. *)

From S2P Require Export StagerDurable StagerExamples.

(** Related lists relate their elements. *)
Lemma related_left {A B} (R : A → B → Prop) xs ys x : Forall2 R xs ys → x ∈ xs → ∃ y, R x y ∧ y ∈ ys.
Proof.
  intros Hf [i Hx]%list_elem_of_lookup. destruct (Forall2_lookup_l _ _ _ _ _ Hf Hx) as (y & Hy & Hr).
  exists y. split; [done|]. by eapply list_elem_of_lookup_2.
Qed.
Lemma related_right {A B} (R : A → B → Prop) xs ys y : Forall2 R xs ys → y ∈ ys → ∃ x, R x y ∧ x ∈ xs.
Proof. rewrite <- Forall2_flip. apply (related_left (flip R)). Qed.

(** A process starts with nothing in memory. *)
Definition new_stager (d : Disk) (s : Store) : Stager := MkStager d s new_transaction 0 0 [].
Definition no_files : Disk := MkDisk ∅ (synced ∅) (synced ∅) (λ _, synced ∅) 0.

(** Each directory and each file is found in one of its versions.  A file that no
    directory names any more keeps its inode here, so a statement about an inode says
    what its contents are, and one about a name that it is found. *)
Record loses_power (d d' : Disk) : Prop := {
  loses_outbox : ∃ names, names ∈ versions (outbox d) ∧ outbox d' = synced names;
  loses_intents : ∃ names, names ∈ versions (intents d) ∧ intents d' = synced names;
  loses_others : ∀ g, ∃ names, names ∈ versions (others d g) ∧ others d' g = synced names;
  loses_inodes : ∀ n i, inodes d !! n = Some i →
    ∃ b, b ∈ versions (body i) ∧ inodes d' !! n = Some (set_body (synced b) i);
}.

Section Histories.
Context `{Sha256} `{EnvelopeCodec} `{PythonText} `{UuidText}.
Context (float_equal : json → json → bool) (valid_manifest : json → bool).

Definition same_file (u u' : UploadRow) : Prop :=
  pu_relative_path u' = pu_relative_path u ∧ pu_size_bytes u' = pu_size_bytes u ∧ pu_sha256 u' = pu_sha256 u.

(** One call, under any system and any behaviour of the other threads; the caller's
    callback works outside of the staging directories. *)
Inductive staging_step (w : Stager) : Stager → Prop :=
| stages E G L supplied S task_id maximum_size expected authority callback :
    (∀ i md sha256, works_elsewhere (callback i md sha256)) →
    staging_step w (stage float_equal valid_manifest E G L supplied S task_id maximum_size expected authority callback w).2
| looks_up E G L supplied task_id :
    staging_step w (reconcile_and_find_existing float_equal valid_manifest E G L supplied task_id w).2
| validates E G L artifact_id : staging_step w (validate_for_upload valid_manifest E G L artifact_id w).2
| restarts E G L :
    staging_step w (start_stager float_equal valid_manifest E G L (new_stager (disk w) (db w))).2
| other_call s' :
    store_step (db w) s' → Forall2 same_file (pending_uploads (db w)) (pending_uploads s') →
    staging_step w (set_db s' w).
Definition staging_history : relation Stager := rtc staging_step.

Inductive loss (w : Stager) : Stager → Prop :=
| power_is_lost d' : loses_power (disk w) d' → loss w (new_stager d' (db w)).
Definition history_with_losses : relation Stager := rtc (λ w w', staging_step w w' ∨ loss w w').
End Histories.

(** ** A concrete history *)

Definition example_start : Stager := new_stager no_files store_queued.
Definition stage_example (G : Signals) (fails : nat → option exc) (k : nat) (w : Stager) : result StagedArtifact * Stager :=
  stage never_equal any_manifest (example_env fails) G example_limits example_identity (example_source k) "t1" 100 None None
    no_callback w.
Definition stage_sync_example (G : Signals) (fails : nat → option exc) : result StagedArtifact * Stager :=
  stage_sync never_equal any_manifest (example_env fails) G example_limits example_identity (example_source 18) "t1" 100 None None
    no_callback example_start.

(** The oldest version of the outbox, the newest of everything else. *)
Definition oldest {A} (v : Durable A) : A := List.last (versions v) (latest v).
Definition forget (names : Names) (d : Disk) : Disk :=
  MkDisk ((λ i, set_body (synced (latest (body i))) i) <$> inodes d) (synced names) (synced (latest (intents d)))
    (λ g, synced (latest (others d g))) 0.
Definition first_upload (w : Stager) : UploadRow := List.hd (MkUpload "" "" "" "" "" 0 "" "" "" D_PENDING "" None) (uploads w).

(** ** What no history loses *)

Section Survival.
Context `{Sha256} `{EnvelopeCodec} `{PythonText} `{UuidText}.
Context (float_equal : json → json → bool) (valid_manifest : json → bool).

(** A property of the files of rows that operations keep, as in [StagerKept], and
    that depends on nothing else. *)
Context (P : option nat → Stager → Prop).
Hypothesis P_frame : ∀ busy A (m : SE Stager A), frame busy m → preserves (P busy) m.
Hypothesis P_free : ∀ n w, P (Some n) w → P None w.
Hypothesis P_create : ∀ E f s mode,
  triple (P None) (on_disk (open_create E f s mode)) (λ n, P (Some n)) (λ _, P None).
Hypothesis P_queue : ∀ E t final payload size sha256,
  published final → int_at "size_bytes" (JObj payload) = Ok size → text_at "sha256" (JObj payload) = Ok sha256 →
  triple (λ w, P None w ∧ visible size sha256 final w) (ensure_queued E t (relative_path_of final) payload)
    (λ _, P None) (λ _, P None).
Hypothesis P_memory : ∀ w, P None w → P None (new_stager (disk w) (db w)).
Hypothesis P_rows : ∀ w s',
  Forall2 same_file (pending_uploads (db w)) (pending_uploads s') → P None w → P None (set_db s' w).

Lemma step_keeps w w' : staging_step float_equal valid_manifest w w' → P None w → P None w'.
Proof.
  intros Hs Hw. destruct Hs as [E G L supplied S t maximum expected authority callback Hc|E G L supplied t|E G L aid|E G L|s' _ Hf].
  - apply (stage_kept float_equal valid_manifest E G L P P_frame P_free (P_create E) (P_queue E)); [|done].
    intros i md sha256. by apply frame_elsewhere.
  - by apply (reconcile_and_find_kept float_equal valid_manifest E G L P P_frame (P_queue E)).
  - apply (P_frame None); [|done]. apply frame_validate_for_upload.
  - apply (start_stager_kept float_equal valid_manifest E G L P P_frame (P_queue E)). by apply P_memory.
  - by apply P_rows.
Qed.
Lemma history_keeps w w' : staging_history float_equal valid_manifest w w' → P None w → P None w'.
Proof. induction 1 as [|w1 w2 w3 Hs _ IH]; [done|]. intros Hw. by eapply IH, step_keeps. Qed.

Hypothesis P_loss : ∀ w w', loss w w' → P None w → P None w'.
Lemma history_with_losses_keeps w w' :
  history_with_losses float_equal valid_manifest w w' → P None w → P None w'.
Proof.
  induction 1 as [|w1 w2 w3 [Hs|Hs] _ IH]; [done|..]; intros Hw; apply IH; [by eapply step_keeps|by eapply P_loss].
Qed.
End Survival.

Section Files.
Context `{Sha256} `{EnvelopeCodec} `{PythonText} `{UuidText}.
Context (float_equal : json → json → bool) (valid_manifest : json → bool).

Lemma stored_same durably busy u u' w w' :
  same_file u u' → disk w' = disk w → stored durably busy u w → stored durably busy u' w'.
Proof. intros (Hp & Hz & Hh) Hd (name & ino & Hn & Hq & Hb & Hf). exists name, ino. rewrite Hp, Hz, Hh, Hd. done. Qed.
Lemma stored_loss u w w' : loss w w' → stored (true, true) None u w → stored (true, true) None u w'.
Proof.
  intros [d' Hl] (name & ino & Hn & Hq & Hb & Hnames & i & Hi & Hf). exists name, ino. split_and!; [done..|].
  destruct (loses_outbox _ _ Hl) as (names & Hx & Ho). destruct (loses_inodes _ _ Hl ino i Hi) as (b & Hv & Hi').
  split; simpl.
  - rewrite Ho. intros ? ->%list_elem_of_singleton. by apply Hnames.
  - eexists. split; [exact Hi'|]. intros ? ->%list_elem_of_singleton. by apply Hf.
Qed.

(** C14: from a database without uploads, in every history of stagings, lookups, restarts and other database work, with
    failures and kills wherever they happen, every row of [pending_uploads] has a
    published file of the size and the digest it states. *)
Theorem uploads_have_files w0 w u :
  pending_uploads (db w0) = [] → staging_history float_equal valid_manifest w0 w → u ∈ pending_uploads (db w) →
  ∃ name ino i, pu_relative_path u = relative_path_of name ∧ published name
    ∧ latest (outbox (disk w)) !! name = Some ino ∧ inodes (disk w) !! ino = Some i
    ∧ fits (pu_size_bytes u) (pu_sha256 u) (latest (body i)).
Proof.
  intros Hnone Hh Hu. assert (all_stored None w) as Hw.
  { eapply (history_keeps float_equal valid_manifest all_stored); [..|exact Hh|intros x Hx; unfold uploads in Hx; rewrite Hnone in Hx; by apply elem_of_nil in Hx].
    - apply all_stored_frame.
    - intros n w' Hw x Hx. eapply stored_free, Hw, Hx.
    - apply all_stored_create.
    - apply all_stored_queue.
    - intros w' Hw x Hx. exact (Hw x Hx).
    - intros w' s' Hf Hw x Hx. apply (related_right _ _ _ _ Hf) in Hx as (x' & Hs & Hx').
      eapply stored_same; [exact Hs| |by apply Hw]. done. }
  destruct (Hw u Hu) as (name & ino & Hn & Hp & _ & Hnames & i & Hi & Hf). exists name, ino, i.
  split_and!; [done..|by apply Hnames; left|done|by apply Hf; left].
Qed.

(** C13: what staging has returned survives: after it, in every history with losses of
    power at any moment, its row is there, and the file of the row has the size
    and the digest the row states. *)
Theorem staged_survives_power_loss E G L supplied S task_id maximum_size expected authority callback w a w1 w2 :
  (∀ i md sha256, works_elsewhere (callback i md sha256)) →
  stage_sync float_equal valid_manifest E G L supplied S task_id maximum_size expected authority callback w = (Ok a, w1) →
  history_with_losses float_equal valid_manifest w1 w2 →
  confirmed a w2.
Proof.
  intros Hc Hs Hh.
  pose proof (stage_sync_confirms float_equal valid_manifest E G L callback Hc supplied S task_id maximum_size expected authority w I) as Hw.
  rewrite Hs in Hw. clear Hs. set (Q := λ busy w, ∃ u, pu_relative_path u = staged_path a ∧ row_kept u busy w).
  change (Q None w2). eapply (history_with_losses_keeps float_equal valid_manifest Q); [..|exact Hh|exact Hw].
  - intros busy A m Hm w' (u & Hp & Hu). exists u. split; [done|]. by apply row_kept_frame.
  - intros n w' (u & Hp & Hu & Hs). exists u. split; [done|]. split; [done|by eapply stored_free].
  - intros E' f s mode w' (u & Hp & Hu). pose proof (row_kept_create E' u f s mode w' Hu) as Hk.
    destruct (on_disk _ w') as [[n|e] w'']; by exists u.
  - intros E' t final payload size sha256 Hn Hz Hd w' [(u & Hp & Hu) Hv].
    pose proof (row_kept_queue E' u t final payload size sha256 Hn Hz Hd w' (conj Hu Hv)) as Hk.
    destruct (ensure_queued _ _ _ _ w') as [[[]|e] w'']; by exists u.
  - intros w' (u & Hp & Hu & Hs). by exists u.
  - intros w' s' Hf (u & Hp & Hu & Hs). destruct (related_left _ _ _ _ Hf Hu) as (u' & Hsame & Hu'). exists u'.
    split; [by destruct Hsame as (-> & _)|]. split; [done|]. by eapply stored_same.
  - intros w' w'' Hl (u & Hp & Hu & Hs). exists u. split; [done|]. split; [by destruct Hl|by eapply stored_loss].
Qed.
End Files.

Lemma forget_loses names d : names ∈ versions (outbox d) → loses_power d (forget names d).
Proof.
  intros Hn. constructor; [by exists names|by exists (latest (intents d)); split; [left|]|by intros g; exists (latest (others d g)); split; [left|]|].
  intros n i Hi. exists (latest (body i)). split; [by left|]. simpl. by rewrite lookup_fmap, Hi.
Qed.
Lemma oldest_version {A} (v : Durable A) : oldest v ∈ versions v.
Proof.
  unfold oldest, versions. generalize (latest v) at 1 3. induction (unsynced v) as [|a l IH]; intros b; [by left|].
  simpl. right. destruct l; [by left|apply (IH a)].
Qed.

Lemma no_callback_elsewhere i md sha256 : works_elsewhere (no_callback i md sha256).
Proof. intros w. exists (calls (disk w)). by destruct w as [[]]. Qed.

(** One artifact is staged and then the process is restarted. *)
Lemma uploads_have_files_witness :
  let w := (start_stager never_equal any_manifest (example_env no_fault) no_signal example_limits
              (new_stager (disk (stage_example no_signal no_fault 30 example_start).2)
                 (db (stage_example no_signal no_fault 30 example_start).2))).2 in
  uploads w ≠ [] ∧ ∃ name ino i, pu_relative_path (first_upload w) = relative_path_of name ∧ published name
    ∧ latest (outbox (disk w)) !! name = Some ino ∧ inodes (disk w) !! ino = Some i
    ∧ fits (pu_size_bytes (first_upload w)) (pu_sha256 (first_upload w)) (latest (body i)).
Proof.
  intros w. split; [by vm_compute|]. apply (uploads_have_files never_equal any_manifest example_start w); [done|..].
  - eapply rtc_l; [exact (stages never_equal any_manifest example_start (example_env no_fault) no_signal example_limits
      example_identity (example_source 30) "t1" 100 None None no_callback no_callback_elsewhere)|].
    apply rtc_once, restarts.
  - vm_compute. by left.
Defined.

(** After it is staged, the power is lost twice. *)
Lemma staged_survives_power_loss_witness :
  let '(r, w1) := stage_sync_example no_signal no_fault in
  let lost w := new_stager (forget (oldest (outbox (disk w))) (disk w)) (db w) in
  match r with Ok a => confirmed a (lost (lost w1)) | Err _ => False end.
Proof.
  destruct (stage_sync_example no_signal no_fault) as [[a|e] w1] eqn:Es; [|vm_compute in Es; discriminate Es].
  apply (staged_survives_power_loss never_equal any_manifest (example_env no_fault) no_signal example_limits
    example_identity (example_source 18) "t1" 100 None None no_callback example_start a w1); [exact no_callback_elsewhere|exact Es|].
  assert (∀ w, loss w (new_stager (forget (oldest (outbox (disk w))) (disk w)) (db w))) as Hl
    by (intros w; constructor; apply forget_loses, oldest_version).
  eapply rtc_l; [right; apply Hl|]. eapply rtc_once. right. apply Hl.
Defined.

(** ** What a failed synchronisation leaves *)

(** The outbox is renamed but its synchronisation fails: [stage] raises, and the
    retry finds the published name, queues it and returns it as staged without a
    second [fsync]; a loss of power then leaves a row without its file. *)
Theorem retry_forgets_failed_sync :
  let '(r1, w1) := stage_example no_signal (fails_at 59) 30 example_start in
  let '(r2, w2) := stage_example no_signal no_fault 30 w1 in
  is_ok r1 = false ∧ is_ok r2 = true ∧ uploads w2 ≠ []
  ∧ ∃ w3, loss w2 w3 ∧ uploads w3 = uploads w2 ∧ latest (outbox (disk w3)) !! "artifact-aaaaaaaaaaaaaaaaaa.pcap" = None
    ∧ pu_relative_path (first_upload w3) = relative_path_of "artifact-aaaaaaaaaaaaaaaaaa.pcap".
Proof.
  destruct (stage_example no_signal (fails_at 59) 30 example_start) as [r1 w1] eqn:E1.
  destruct (stage_example no_signal no_fault 30 w1) as [r2 w2] eqn:E2.
  vm_compute in E1. injection E1 as <- <-. vm_compute in E2. injection E2 as <- <-.
  split_and!; [done..|]. eexists. split; [constructor; apply forget_loses, oldest_version|]. vm_compute. by split_and!.
Qed.
(** A process killed while it writes an intent leaves a torn file, and no later start
    gets past it. *)
Theorem torn_intent_blocks_start :
  let w := (stage_example no_signal (killed_at 46) 30 example_start).2 in
  let '(r, w') := start_stager never_equal any_manifest (example_env no_fault) no_signal example_limits (new_stager (disk w) (db w)) in
  r = Err ArtifactReconciliationError
  ∧ (start_stager never_equal any_manifest (example_env no_fault) no_signal example_limits (new_stager (disk w') (db w'))).1
    = Err ArtifactReconciliationError.
Proof. by vm_compute. Qed.
