(* ===== verification/CaptureMarkerTheorems.v ===== *)
(** * What the marker of a capture remembers

    An append that is cut leaves the whole event, nothing of it, or a text that is
    refused; and what a marker confirmed is in its file whatever happens later,
    losses of power included. *)

From Stdlib Require Import Ascii.
From S2P Require Import CaptureRollback CaptureTheorems.
From S2P Require Export CaptureMarkerFrames StagerHistory.

(** ** UTF-8 *)

Local Ltac Zify.zify_post_hook ::= Z.to_euclidean_division_equations.
Lemma char_code_byte n : (n < 256)%N → char_code (ascii_of_N n) = n.
Proof. apply N_ascii_embedding. Qed.
Lemma continuation_byte x : (x < 64)%N → continuation (ascii_of_N (128 + x)) = Some x.
Proof.
  intros Hx. unfold continuation. rewrite char_code_byte by lia.
  rewrite (proj2 (N.leb_le 128 _)), (proj2 (N.ltb_lt _ 192)) by lia. simpl. f_equal. lia.
Qed.
Lemma well_coded_scalar low n : scalar n → (low ≤ n)%N → well_coded low n = Some n.
Proof.
  intros [Hn Hs] Hl. unfold well_coded. rewrite (proj2 (N.leb_le low n)), (proj2 (N.ltb_lt n _)) by lia. simpl.
  destruct ((55296 <=? n)%N && (n <? 57344)%N) eqn:E; [|done]. rewrite andb_true_iff, N.leb_le, N.ltb_lt in E. lia.
Qed.
Lemma app_nil_string (s : string) : EmptyString +:+ s = s.
Proof. reflexivity. Qed.
(** One code point in front of a text. *)
Lemma utf8_decode_point n rest : scalar n → utf8_decode (utf8 n +:+ rest) = cons n <$> utf8_decode rest.
Proof.
  intros Hs. pose proof Hs as [Hn _]. unfold utf8, byte.
  destruct (N.ltb_spec n 128); [|destruct (N.ltb_spec n 2048); [|destruct (N.ltb_spec n 65536)]];
    rewrite ?app_string_assoc, ?app_string_cons, ?app_nil_string; cbn [utf8_decode].
  - rewrite char_code_byte by lia. by rewrite (proj2 (N.ltb_lt n 128)).
  - rewrite char_code_byte by lia. set (a := (192 + n / 64)%N). assert (192 ≤ a < 224)%N as Ha by (unfold a; lia).
    rewrite (proj2 (N.ltb_ge a 128)), (proj2 (N.leb_le 192 a)), (proj2 (N.ltb_lt a 224)) by lia. cbn [andb].
    rewrite continuation_byte by lia. cbn [mbind option_bind].
    replace ((a - 192) * 64 + n mod 64)%N with n by (unfold a; lia). by rewrite well_coded_scalar by (done || lia).
  - rewrite char_code_byte by lia. set (a := (224 + n / 4096)%N). assert (224 ≤ a < 240)%N as Ha by (unfold a; lia).
    rewrite (proj2 (N.ltb_ge a 128)), (proj2 (N.leb_le 192 a)), (proj2 (N.ltb_ge a 224)), (proj2 (N.leb_le 224 a)), (proj2 (N.ltb_lt a 240)) by lia.
    cbn [andb]. rewrite !continuation_byte by lia. cbn [mbind option_bind].
    replace ((a - 224) * 4096 + n / 64 mod 64 * 64 + n mod 64)%N with n by (unfold a; lia). by rewrite well_coded_scalar by (done || lia).
  - rewrite char_code_byte by lia. set (a := (240 + n / 262144)%N). assert (240 ≤ a < 248)%N as Ha by (unfold a; lia).
    rewrite (proj2 (N.ltb_ge a 128)), (proj2 (N.leb_le 192 a)), (proj2 (N.ltb_ge a 224)), (proj2 (N.leb_le 224 a)), (proj2 (N.ltb_ge a 240)),
      (proj2 (N.leb_le 240 a)), (proj2 (N.ltb_lt a 248)) by lia.
    cbn [andb]. rewrite !continuation_byte by lia. cbn [mbind option_bind].
    replace ((a - 240) * 262144 + n / 4096 mod 64 * 4096 + n / 64 mod 64 * 64 + n mod 64)%N with n by (unfold a; lia).
    by rewrite well_coded_scalar by (done || lia).
Qed.
Lemma utf8_decode_of points rest : Forall scalar points → utf8_decode (JsonAsciiRoundTrip.encode points +:+ rest) = (app points) <$> utf8_decode rest.
Proof.
  induction 1 as [|n points Hn _ IH].
  { change (JsonAsciiRoundTrip.encode []) with EmptyString. rewrite app_nil_string. by destruct (utf8_decode rest). }
  rewrite encode_cons, app_string_assoc, utf8_decode_point, IH by done. by destruct (utf8_decode rest).
Qed.
Lemma utf8_app a b : is_utf8 a = true → is_utf8 b = true → is_utf8 (a +:+ b) = true.
Proof.
  unfold is_utf8. destruct (utf8_decode a) as [p|] eqn:Ea; [|done]. destruct (utf8_decode b) as [q|] eqn:Eb; [|done]. intros _ _.
  apply utf8_decode_encode in Ea as [<- Hp]. by rewrite utf8_decode_of, Eb.
Qed.
Lemma lower_hex_utf8 s : all_chars is_lower_hex s = true → is_utf8 s = true.
Proof.
  intros Hs. apply printable_utf8. revert Hs. apply all_chars_impl. intros c.
  destruct c as [[] [] [] [] [] [] [] []]; vm_compute; congruence.
Qed.

(** ** Markers that say what their file says *)

Section Markers.
Context `{Sha256} `{!CaptureTheorems.Sha256Hex} `{PythonText} `{UuidText} (float_equal : json → json → bool).
Abbreviation parse_marker := (parse_marker float_equal).
Abbreviation read_line := (read_line float_equal).

(** What every snapshot that is read has. *)
Definition sound_snapshot (s : CaptureMarkerSnapshot) : Prop :=
  valid_authority (authority s) = true ∧ is_utf8 (event_digest s) = true.
Lemma digest_utf8 s : is_utf8 (sha256_hex s) = true.
Proof. apply lower_hex_utf8, CaptureTheorems.sha256_hex_lower. Qed.
Lemma parse_event_sound n p l e : parse_event float_equal n p l = Ok e → valid_authority (ev_authority e) = true ∧ is_utf8 (ev_digest e) = true.
Proof.
  unfold parse_event. rewrite result_bind_Ok. intros (j & _ & He). repeat (case_match; try discriminate).
  all: injection He as <-; simpl; split; [done|apply digest_utf8].
Qed.
Lemma read_line_sound b l s :
  (∀ s0, b = Some s0 → sound_snapshot s0) → read_line b l = Ok s → sound_snapshot s.
Proof.
  intros Hb. unfold CaptureMarkerLog.read_line. rewrite result_bind_Ok. intros (e & [Ha Hd]%parse_event_sound & He). destruct b as [s0|].
  - apply result_bind_Ok in He as ([] & _ & He). case_match; [|done]. injection He as <-. split; [by apply (Hb s0)|done].
  - case_match; [|done]. injection He as <-. by split.
Qed.
Lemma read_lines_sound ls b s :
  (∀ s0, b = Some s0 → sound_snapshot s0) → read_lines float_equal b ls = Ok (Some s) → sound_snapshot s.
Proof.
  revert b. induction ls as [|l ls IH]; intros b Hb; cbn [CaptureMarkerLog.read_lines]; [intros [= ->]; by apply Hb|].
  rewrite result_bind_Ok. intros (s1 & Hl & Hs). eapply IH, Hs. intros s0 [= <-]. by eapply read_line_sound.
Qed.
Lemma parse_sound c s : parse_marker c = Ok s → sound_snapshot s.
Proof. intros [_ Hs]%parse_marker_Ok. by eapply read_lines_sound, Hs. Qed.

Lemma same_authority s s' : same_snapshot s s' → authority s = authority s'.
Proof. unfold same_snapshot, read_back. by intros [=]. Qed.
Lemma same_fields s s' :
  same_snapshot s s' → authority s = authority s' ∧ sn_state s = sn_state s' ∧ sequence s = sequence s' ∧ event_digest s = event_digest s'.
Proof. unfold same_snapshot, read_back. by intros [=]. Qed.
Lemma same_with_event s s' st d line :
  same_snapshot s s' → same_snapshot (with_event s st (sorted_details d) line) (with_event s' st d line).
Proof.
  intros Hs. pose proof (same_fields _ _ Hs) as (Ha & _ & Hq & _). unfold same_snapshot, read_back in *. injection Hs as _ _ _ _ Hd.
  simpl. by rewrite Ha, Hq, Hd, sorted_details_idem.
Qed.

Lemma snoc_inj a b x y : a +:+ String x EmptyString = b +:+ String y EmptyString → x = y.
Proof.
  intros Hab. pose proof (f_equal String.length Hab) as Hl. rewrite !length_app_string in Hl. cbn [String.length] in Hl.
  pose proof (substring_app_tail a (String x EmptyString)) as Ha. pose proof (substring_app_tail b (String y EmptyString)) as Hb.
  rewrite Hab in Ha. replace (String.length a) with (String.length b) in Ha by lia.
  cbn [String.length] in Ha, Hb. rewrite Hb in Ha. by injection Ha.
Qed.
(** The next line of a marker. *)
Definition next_line (s : CaptureMarkerSnapshot) (st : CaptureMarkerState) (recorded_at : string) (d : Details) : string :=
  event_line (authority s) (sequence s + 1) st (Some (event_digest s)) recorded_at d.

Section Append.
Context (t : string) (s0 s : CaptureMarkerSnapshot) (st : CaptureMarkerState) (recorded_at : string) (d : Details).
Context (Ht : parse_marker t = Ok s0) (Hs : same_snapshot s0 s).
Context (Hd : proper_details d) (Hf : has_exactly (detail_fields st) d = true) (Hau : utf8_authority (authority s)).
Context (Hat : is_utf8 recorded_at = true) (Hm : may_follow (sn_state s) st = true).
Abbreviation line := (next_line s st recorded_at d).

Lemma next_line_unbroken : all_chars unbroken line = true.
Proof.
  destruct (parse_sound _ _ Ht) as [_ Hdig]. pose proof (same_fields _ _ Hs) as (_ & _ & _ & Hed).
  apply printable_unbroken. unfold next_line. apply event_line_printable; [assumption..|]. unfold utf8_digest. by rewrite <- Hed.
Qed.
(** The whole line: the snapshot with the event. *)
Lemma parse_appended :
  ∃ s1, parse_marker (t +:+ line +:+ newline) = Ok s1 ∧ same_snapshot s1 (with_event s st d line).
Proof.
  destruct (parse_sound _ _ Ht) as [Hva Hdig]. pose proof (same_fields _ _ Hs) as (Ha & Hst & Hq & Hed).
  exists (with_event s0 st (sorted_details d) line). split; [|by apply same_with_event].
  pose proof (parse_whole _ _ _ Ht) as Hw. pose proof (proj1 (parse_marker_Ok _ _ _) Ht) as [_ Hr]. apply parse_marker_Ok. split.
  - apply ends_with_newline. exists (t +:+ line). by rewrite app_string_assoc.
  - rewrite splitlines_whole, read_lines_app, Hr by done. cbn [mbind result_bind].
    pose proof (splitlines_line _ EmptyString next_line_unbroken) as Hl. rewrite app_string_nil_r in Hl. rewrite Hl.
    cbn [splitlines CaptureMarkerLog.read_lines]. unfold next_line. rewrite <- Ha, <- Hq, <- Hed.
    by rewrite read_next by (assumption || by rewrite ?Ha, ?Hst).
Qed.
(** A beginning of it: nothing, or a text that is refused. *)
Lemma parse_torn p q :
  line +:+ newline = p +:+ q → p ≠ EmptyString → q ≠ EmptyString →
  parse_marker (t +:+ p) = Err (manual_recovery "capture marker has an incomplete event").
Proof.
  intros Hpq Hp Hq. unfold CaptureMarkerLog.parse_marker. destruct (ends_with newline (t +:+ p)) eqn:E; [exfalso|done].
  apply ends_with_newline in E as [b Hb]. destruct (string_snoc p Hp) as (p' & x & ->).
  rewrite <- app_string_assoc in Hb. apply snoc_inj in Hb as ->.
  eapply torn_line; [apply next_line_unbroken|done|done|done].
Qed.
End Append.

(** *** A marker object and its file *)

(** When the file has the size the object remembers, it reads as the object says. *)
Definition holds_snapshot (m : CaptureMarker) (t : string) : Prop :=
  id_size (mk_identity m) ≤ Z.of_nat (String.length t)
  ∧ (id_size (mk_identity m) = Z.of_nat (String.length t) → ∃ s0, parse_marker t = Ok s0 ∧ same_snapshot s0 (mk_snapshot m)).
Definition represents (m : CaptureMarker) : Durable Body → Prop := λ v, holds_snapshot m (contents (latest v)).
Lemma represents_sync m v : represents m v → represents m (sync v).
Proof. done. Qed.
Lemma represents_write m s v : represents m v → represents m (overwrite (write_body s) v).
Proof.
  intros [Hl Hp]. unfold represents, holds_snapshot. simpl. rewrite length_app_string. split; [lia|].
  destruct s as [|c s]; [by rewrite app_string_nil_r, Nat.add_0_r|]. simpl. intros. lia.
Qed.

(** Two objects of the same file at the same event. *)
Definition same_object (m m' : CaptureMarker) : Prop :=
  mk_descriptor m' = mk_descriptor m ∧ mk_snapshot m' = mk_snapshot m ∧ id_size (mk_identity m') = id_size (mk_identity m).
Lemma same_object_refl m : same_object m m.
Proof. done. Qed.
Lemma same_object_trans m1 m2 m3 : same_object m1 m2 → same_object m2 m3 → same_object m1 m3.
Proof. unfold same_object. intros (-> & -> & ->) (-> & -> & ->). done. Qed.
Lemma same_represents m m' v : same_object m m' → represents m v → represents m' v.
Proof. intros (Hd & Hs & Hz). unfold represents, holds_snapshot. by rewrite Hs, Hz. Qed.

Definition refused (t : string) : Prop := parse_marker t = Err (manual_recovery "capture marker has an incomplete event").
(** The file of a marker [m] whose text was [t]: one more event, which the object
    has and no loss of power undoes; or the object did not advance, and the text
    has nothing more, a part of an event that is refused, or a whole one. *)
Definition grown (m : CaptureMarker) (t : string) (w : Marking) : Prop :=
  ∃ st recorded_at d s1, let l := next_line (mk_snapshot m) st recorded_at d in let t' := t +:+ l +:+ newline in
    at_inode (mk_descriptor m) (settled t') (mk_disk w)
    ∧ mk_descriptor (mk_marker w) = mk_descriptor m
    ∧ mk_snapshot (mk_marker w) = with_event (mk_snapshot m) st d l
    ∧ id_size (mk_identity (mk_marker w)) = Z.of_nat (String.length t')
    ∧ parse_marker t' = Ok s1 ∧ same_snapshot s1 (mk_snapshot (mk_marker w)).
Definition cut_off (m : CaptureMarker) (t : string) (w : Marking) : Prop :=
  same_object m (mk_marker w)
  ∧ ∃ p, at_inode (mk_descriptor m) (text_is (t +:+ p)) (mk_disk w)
    ∧ (p = EmptyString ∨ refused (t +:+ p)
       ∨ ∃ s1 st recorded_at d, parse_marker (t +:+ p) = Ok s1
           ∧ same_snapshot s1 (with_event (mk_snapshot m) st d (next_line (mk_snapshot m) st recorded_at d))).
Definition untouched (m : CaptureMarker) (t : string) (w : Marking) : Prop :=
  same_object m (mk_marker w) ∧ at_inode (mk_descriptor m) (text_is t) (mk_disk w).
Lemma untouched_cut_off m t w : untouched m t w → cut_off m t w.
Proof. intros [Hm Ht]. split; [done|]. exists EmptyString. rewrite append_empty. split; [done|by left]. Qed.

(** A call on a marker object. *)
Inductive MarkerCall :=
  | Advance (st : CaptureMarkerState) (d : Details)
  | NoteIntentDurable (d : Details)
  | NoteRollback (rollback : Details)
  | Retire (reason : string) (source_quarantine_name : option string)
  | RetireAborted (reason : string) (source_quarantine_name : option string)
  | CloseMarker.
Definition run_call (E : Env) (c : MarkerCall) : SE Marking unit :=
  match c with
  | Advance st d => advance_marker E st d
  | NoteIntentDurable d => note_intent_durable float_equal E d
  | NoteRollback r => note_rollback E r
  | Retire reason q => retire E reason q
  | RetireAborted reason q => retire_aborted E reason q
  | CloseMarker => close_marker E
  end.
Definition utf8_option (q : option string) : Prop := match q with Some x => is_utf8 x = true | None => True end.
(** Its arguments are values that JSON and UTF-8 can express. *)
Definition proper_call (c : MarkerCall) : Prop :=
  match c with
  | Advance _ d | NoteIntentDurable d | NoteRollback d => proper_details d
  | Retire reason q | RetireAborted reason q => is_utf8 reason = true ∧ utf8_option q
  | CloseMarker => True
  end.
Lemma call_file E n Q c :
  (∀ v, Q v → Q (sync v)) → (∀ s v, Q v → Q (overwrite (write_body s) v)) → preserves (at_marking n Q) (run_call E c).
Proof.
  intros Hs Hw. destruct c; cbn [run_call]; first [by apply file_advance | by apply file_note_intent | by apply file_note_rollback
    | by apply file_retire | by apply file_retire_aborted | by apply file_close_marker].
Qed.

(** What begins a marker can be written. *)
Definition proper_begin (task_id execution_id idempotency_key : string) (fingerprint : CaptureFingerprint) (request : Details)
    (artifact_root : string) : Prop :=
  is_utf8 task_id = true ∧ is_utf8 execution_id = true ∧ is_utf8 idempotency_key = true
  ∧ is_utf8 (fp_version fingerprint) = true ∧ proper_details request ∧ is_utf8 artifact_root = true.
(** The marker object of a file says what the file says. *)
Definition opened (m : CaptureMarker) (d : Disk) : Prop := at_inode (mk_descriptor m) (represents m) d.
Definition begun (m : CaptureMarker) (d : Disk) : Prop := opened m d ∧ utf8_authority (authority (mk_snapshot m)).
(** No loss of power undoes what the object says. *)
Definition marker_confirmed (m : CaptureMarker) (d : Disk) : Prop :=
  ∃ t s0, at_inode (mk_descriptor m) (settled t) d ∧ parse_marker t = Ok s0 ∧ same_snapshot s0 (mk_snapshot m).

Section Calls.
Context (E : Env) (Hclock : ∀ k, is_utf8 (wall_clock E k) = true).

Lemma append_line_effect m st d t :
  triple (at_inode (mk_descriptor m) (text_is t)) (append_line E m st d)
    (λ r d', has_exactly (detail_fields st) d = true ∧ id_size (mk_identity m) = Z.of_nat (String.length t)
       ∧ ∃ k, let l := next_line (mk_snapshot m) st (wall_clock E k) d in
           r.1 = sha256_hex l ∧ id_size r.2 = Z.of_nat (String.length (t +:+ l +:+ newline))
           ∧ at_inode (mk_descriptor m) (settled (t +:+ l +:+ newline)) d')
    (λ _ d', at_inode (mk_descriptor m) (text_is t) d'
       ∨ has_exactly (detail_fields st) d = true ∧ id_size (mk_identity m) = Z.of_nat (String.length t)
         ∧ ∃ k p q, next_line (mk_snapshot m) st (wall_clock E k) d +:+ newline = p +:+ q
             ∧ at_inode (mk_descriptor m) (text_is (t +:+ p)) d').
Proof.
  unfold append_line. set (n := mk_descriptor m).
  eapply (triple_bind _ (λ _ d', at_inode n (text_is t) d' ∧ has_exactly (detail_fields st) d = true)).
  { apply triple_raise_if; [by left|]. intros d' Hd' Hf%negb_false_iff. done. }
  intros [] d' [Hd' Hf]. revert d' Hd'.
  eapply triple_bind.
  { eapply triple_weaken; [apply (validate_open_size E n (text_is t) t); done|done|by intros a s Hs; exact Hs|by left]. }
  intros [] d' [Hd' Hsize]. revert d' Hd'.
  eapply (triple_bind _ (λ a d', at_inode n (text_is t) d' ∧ ∃ k, a = wall_clock E k)).
  { apply triple_get. intros d' Hd'. split; [done|by eexists]. }
  intros now d' [Hd' [k ->]]. revert d' Hd'. cbv zeta. fold (next_line (mk_snapshot m) st (wall_clock E k) d).
  set (l := next_line _ _ _ _).
  assert (∀ A (x : SE Disk A), preserves (at_inode n (text_is t)) x → ∀ B (f : A → SE Disk B) Q X,
    (∀ a, triple (at_inode n (text_is t)) (f a) Q X) → (∀ e d', at_inode n (text_is t) d' → X e d') →
    triple (at_inode n (text_is t)) (x ≫= f) Q X) as Hstep.
  { intros A x Hx B f Q X Hf' HX. eapply (triple_bind _ (λ _, at_inode n (text_is t))); [|exact Hf'].
    eapply triple_weaken; [by apply triple_preserves|done|done|exact HX]. }
  apply Hstep; [apply file_fstat| |by left]. intros md.
  apply Hstep; [apply preserves_raise_if| |by left]. intros [].
  apply Hstep; [apply file_system_call| |by left]. intros [].
  eapply triple_bind.
  { eapply triple_weaken; [apply (write_all_text E n t (String.length (l +:+ newline)) (l +:+ newline)); lia|done| |].
    - intros a s Hs. exact Hs.
    - intros e d' (p & q & Hpq & Hd'). right. split_and!; [done..|]. by exists k, p, q. }
  intros []. eapply triple_bind.
  { eapply triple_weaken; [apply (fsync_settles E n (t +:+ l +:+ newline))|done|by intros a s Hs; exact Hs|].
    intros e d' Hd'. right. split_and!; [done..|]. exists k, (l +:+ newline), EmptyString. by rewrite app_string_nil_r. }
  intros []. eapply triple_bind.
  { eapply triple_weaken; [apply (capture_size E n (settled (t +:+ l +:+ newline)) (t +:+ l +:+ newline)); intros v; apply settled_text|done|by intros a s Hs; exact Hs|].
    intros e d' (i & Hi & Hv). right. split_and!; [done..|]. exists k, (l +:+ newline), EmptyString.
    rewrite app_string_nil_r. split; [done|]. exists i. split; [done|by apply settled_text]. }
  intros refreshed. apply triple_ret. intros d' [Hd' Hr]. split_and!; [done..|]. by exists k.
Qed.

Section Appending.
Context (m0 : CaptureMarker) (t : string) (Ht : holds_snapshot m0 t) (Hau : utf8_authority (authority (mk_snapshot m0))).

Lemma append_event_effect st d :
  proper_details d → may_follow (sn_state (mk_snapshot m0)) st = true →
  triple (untouched m0 t) (append_event E st d) (λ _, grown m0 t) (λ _, cut_off m0 t).
Proof.
  intros Hd Hm w [Hw Hdisk]. unfold append_event. rewrite bind_state. cbn [get].
  destruct Hw as (Hfd & Hsn & Hsize). pose proof (append_line_effect (mk_marker w) st d t) as He. rewrite Hfd, Hsn, Hsize in He.
  unfold on_marker_disk. rewrite bind_state. specialize (He (mk_disk w) Hdisk).
  destruct (append_line E (mk_marker w) st d (mk_disk w)) as [[[dig refreshed]|e] d'].
  - destruct He as (Hf & Hlen & k & Hdig & Hid & Hset). simpl in Hdig, Hid. destruct (proj2 Ht Hlen) as (s0 & Hp & Hs).
    destruct (parse_appended t s0 (mk_snapshot m0) st (wall_clock E k) d Hp Hs Hd Hf Hau (Hclock k) Hm) as (s1 & Hp1 & Hs1).
    exists st, (wall_clock E k), d, s1. cbn. rewrite Hsn, Hdig. by split_and!.
  - destruct He as [He|(Hf & Hlen & k & p & q & Hpq & Hset)]; [by apply untouched_cut_off; split|].
    split; [done|]. exists p. split; [done|]. destruct (proj2 Ht Hlen) as (s0 & Hp & Hs).
    destruct (decide (p = EmptyString)) as [->|Hne]; [by left|right]. destruct (decide (q = EmptyString)) as [->|Hq].
    + right. rewrite append_empty in Hpq. rewrite <- Hpq.
      destruct (parse_appended t s0 (mk_snapshot m0) st (wall_clock E k) d Hp Hs Hd Hf Hau (Hclock k) Hm) as (s1 & Hp1 & Hs1).
      by exists s1, st, (wall_clock E k), d.
    + left. by eapply (parse_torn t s0 (mk_snapshot m0) st (wall_clock E k) d Hp Hs Hd Hau (Hclock k)).
Qed.

Abbreviation before := (untouched m0 t).
Lemma untouched_state w : before w → sn_state (mk_snapshot (mk_marker w)) = sn_state (mk_snapshot m0).
Proof. by intros [(_ & -> & _) _]. Qed.
(** A disk operation that appends nothing. *)
Lemma disk_untouched {A} (x : SE Disk A) :
  preserves (at_inode (mk_descriptor m0) (text_is t)) x → triple before (on_marker_disk x) (λ _, before) (λ _, before).
Proof.
  intros Hx w [Hw Hd]. specialize (Hx (mk_disk w) Hd). unfold on_marker_disk. by destruct (x (mk_disk w)) as [[a|e] d'].
Qed.
Lemma advance_effect st d : proper_details d → triple before (advance_marker E st d) (λ _, grown m0 t) (λ _, cut_off m0 t).
Proof.
  intros Hd w Hw. unfold advance_marker, current_state. rewrite !bind_state. cbn [get]. rewrite bind_state. unfold raise_if.
  destruct (bool_decide (successor _ = Some st)) eqn:Es; cbn [negb]; [|by apply untouched_cut_off]. apply bool_decide_eq_true_1 in Es.
  apply append_event_effect; [done| |done]. unfold may_follow. rewrite <- (untouched_state _ Hw), Es. by rewrite bool_decide_eq_true_2.
Qed.
Lemma note_intent_effect d :
  proper_details d →
  triple before (note_intent_durable float_equal E d) (λ _ w, before w ∨ grown m0 t w) (λ _, cut_off m0 t).
Proof.
  intros Hd w Hw. unfold note_intent_durable, current_state. rewrite bind_state. cbn [get]. destruct (decide _).
  - rewrite bind_state. cbn [get]. unfold raise_if. destruct (negb _); [by apply untouched_cut_off|by left].
  - pose proof (advance_effect STAGING_INTENT_DURABLE d Hd w Hw) as Ha. by destruct (advance_marker _ _ _ w) as [[[]|e] w']; [right|].
Qed.
Lemma note_rollback_effect r : proper_details r → triple before (note_rollback E r) (λ _, grown m0 t) (λ _, cut_off m0 t).
Proof.
  intros Hr w Hw. assert (proper_details [("rollback", JObj r)]) as Hd.
  { destruct Hr as [Hr1 Hr2]. split; [cbn [well_formed] in *; apply andb_true_iff|cbn [utf8_json] in *].
    - split; [by apply bool_decide_eq_true_2; repeat constructor; set_solver|]. cbn [forallb snd well_formed]. by rewrite Hr1.
    - cbn [forallb fst snd utf8_json]. by rewrite Hr2. }
  unfold note_rollback, current_state. rewrite bind_state. cbn [get].
  destruct (sn_state (mk_snapshot (mk_marker w))) eqn:Es; try (by apply untouched_cut_off); try by apply advance_effect.
  all: apply append_event_effect; [done| |done]; rewrite <- (untouched_state _ Hw), Es; by vm_compute.
Qed.

(** *** Retiring *)

Lemma retired_name_utf8 name : is_retired_name name = true → is_utf8 name = true.
Proof.
  unfold is_retired_name. destruct (after_prefix marker_retired_prefix name) as [token|] eqn:Ep; [|done].
  intros [_ Ht']%andb_true_iff. apply after_prefix_Some in Ep as ->. apply utf8_app; [by vm_compute|by apply lower_hex_utf8].
Qed.
Lemma retired_details reason q name :
  is_utf8 reason = true → utf8_option q → is_utf8 name = true →
  proper_details [("reason", JStr reason); ("source_quarantine_name", match q with Some x => JStr x | None => JNull end);
                  ("marker_quarantine_name", JStr name)].
Proof.
  intros Hr Hq Hn. split; [by destruct q; vm_compute|]. cbn [utf8_json forallb fst snd]. rewrite Hr, Hn. by destruct q; cbn; rewrite ?Hq.
Qed.
Lemma grown_fsync f : triple (grown m0 t) (on_marker_disk (fsync_folder E f)) (λ _, grown m0 t) (λ _, grown m0 t).
Proof.
  intros w (st & now & d & s1 & Hset & Hrest). pose proof (file_fsync_folder E (mk_descriptor m0) _ f (mk_disk w) Hset) as Hx.
  unfold on_marker_disk. destruct (fsync_folder E f (mk_disk w)) as [[a|e] d']; by exists st, now, d, s1.
Qed.
Lemma logical_retire_effect reason q :
  is_utf8 reason = true → utf8_option q →
  triple before (logical_retire E reason q) (λ _, grown m0 t) (λ _ w, cut_off m0 t w ∨ grown m0 t w).
Proof.
  intros Hr Hq w Hw. unfold logical_retire. rewrite bind_state. cbn [get].
  assert (same_object m0 (mk_marker w)) as Hm by apply Hw.
  set (m := mk_marker w) in *. clearbody m. revert w Hw.
  assert (∀ w, before w → cut_off m0 t w ∨ grown m0 t w) as Hcut by (intros w Hw; left; by apply untouched_cut_off).
  eapply triple_bind; [eapply triple_weaken; [apply disk_untouched, file_validate_open|done|intros ? ? Hx; exact Hx|intros ? ? Hx; by apply Hcut]|].
  intros []. eapply triple_bind; [eapply triple_weaken; [apply disk_untouched, file_quarantine|done|intros ? ? Hx; exact Hx|intros ? ? Hx; by apply Hcut]|].
  intros outcome. destruct (quarantine_name outcome) as [name|]; [|by apply triple_raise].
  eapply (triple_bind _ (λ _, before)); [apply triple_raise_if; [intros s Hs _; by apply Hcut|done]|]. intros [].
  eapply (triple_bind _ (λ _ w, before w ∧ is_retired_name name = true)).
  { apply triple_raise_if; [intros s Hs _; by apply Hcut|]. intros s Hs Hn%negb_false_iff. done. }
  intros []. eapply (triple_bind _ (λ _ w, before w ∧ is_retired_name name = true)).
  { intros w [[_ Hd] Hn]. cbn. split; [split; [|done]|done]. by eapply same_object_trans; [exact Hm|]. }
  intros [] w [Hw Hn]. rewrite bind_state. pose proof (retired_details reason q name Hr Hq (retired_name_utf8 _ Hn)) as Hd.
  set (d := [_; _; _]) in *. clearbody d. set (step := if decide _ then _ else _).
  assert (triple before step (λ _, grown m0 t) (λ _, cut_off m0 t)) as Ha.
  { subst step. destruct (decide _); [by apply advance_effect|]. apply append_event_effect; [done|]. unfold may_follow. by rewrite orb_true_r. }
  specialize (Ha w Hw). destruct (step w) as [[[]|e] w1]; [|by left].
  pose proof (grown_fsync (SUB CAPTURE_MARKERS) w1 Ha) as Hg. destruct (on_marker_disk _ w1) as [[[]|e] w2]; [done|by right].
Qed.

Lemma call_effect c :
  proper_call c → triple before (run_call E c) (λ _ w, before w ∨ grown m0 t w) (λ _ w, cut_off m0 t w ∨ grown m0 t w).
Proof.
  assert (∀ A (x : SE Marking A), triple before x (λ _, grown m0 t) (λ _, cut_off m0 t) →
    triple before x (λ _ w, before w ∨ grown m0 t w) (λ _ w, cut_off m0 t w ∨ grown m0 t w)) as Happ.
  { intros A x Hx. eapply triple_weaken; [exact Hx|done|by right|by left]. }
  assert (∀ w, before w → cut_off m0 t w ∨ grown m0 t w) as Hcut by (intros w Hw; left; by apply untouched_cut_off).
  assert (∀ reason q, is_utf8 reason = true → utf8_option q → triple before (logical_retire E reason q)
    (λ _ w, before w ∨ grown m0 t w) (λ _ w, cut_off m0 t w ∨ grown m0 t w)) as Hret.
  { intros reason q Hr Hq. eapply triple_weaken; [by apply logical_retire_effect|done|by right|done]. }
  destruct c as [st d|d|r|reason q|reason q|]; cbn [proper_call run_call].
  - intros Hd. by apply Happ, advance_effect.
  - intros Hd. eapply triple_weaken; [by apply note_intent_effect|done|done|by left].
  - intros Hd. by apply Happ, note_rollback_effect.
  - intros [Hr Hq] w Hw. unfold retire, current_state. rewrite !bind_state. cbn [get]. rewrite bind_state. unfold raise_if.
    destruct (negb _); [by apply Hcut|]. by apply Hret.
  - intros [Hr Hq] w Hw. unfold retire_aborted, current_state. rewrite bind_state. cbn [get].
    destruct (decide _); [by left|]. by apply Hret.
  - intros _ w Hw. unfold close_marker. rewrite bind_state. cbn [get]. destruct (mk_closed _); [by left|].
    rewrite bind_state. cbn. assert (before (MkMarking (mk_disk w) (MkMarker (mk_descriptor (mk_marker w)) (mk_identity (mk_marker w))
      (mk_snapshot (mk_marker w)) true))) as Hw' by exact Hw.
    pose proof (disk_untouched _ (file_close E _ (text_is t) (mk_descriptor (mk_marker w))) _ Hw') as Hc.
    destruct (on_marker_disk _ _) as [[[]|e] w']; [by left|by apply Hcut].
Qed.
End Appending.

(** *** Opening *)

Lemma open_read_text f name :
  triple (λ _, True) (open_read E f name) (λ n d, ∃ t, at_inode n (text_is t) d) (λ _ _, True).
Proof.
  intros d _. unfold open_read, syscall. destruct (fault E _); [done|].
  unfold mbind, SE_bind, inode, get, lift, mret, SE_ret, raise_if. simpl.
  destruct (named _ _ _) as [n|] eqn:En; [|done]. simpl. destruct (inodes d !! n) as [i|] eqn:Ei; [|done]. simpl.
  destruct (S_IFMT _ =? S_IFLNK); [done|]. by exists (contents (latest (body i))), i.
Qed.
Lemma read_text n acc rest count :
  triple (at_inode n (text_is (acc +:+ rest))) (read E n (String.length acc) count)
    (λ chunk d, at_inode n (text_is (acc +:+ rest)) d ∧ ∃ rest', rest = chunk +:+ rest') (λ _ _, True).
Proof.
  intros d (i & Hi & Ht). unfold read, syscall. destruct (fault E _); [done|].
  unfold mbind, SE_bind, inode, tick, get, lift, mret, SE_ret. simpl. rewrite Hi. simpl. split; [by exists i|].
  unfold text_is in Ht. rewrite Ht, substring_rest, (substring_all (String.length (acc +:+ rest)) rest) by (rewrite length_append; lia).
  set (k := portion _ _ _). destruct (decide (k ≤ String.length rest)%nat) as [Hk|Hk]; [by apply substring_beginning|].
  exists EmptyString. by rewrite substring_all, append_empty by lia.
Qed.
Lemma read_whole_text n fuel size acc rest :
  (size ≤ String.length acc + fuel)%nat → size = String.length (acc +:+ rest) →
  triple (at_inode n (text_is (acc +:+ rest))) (read_whole E fuel n size acc)
    (λ encoded d, at_inode n (text_is (acc +:+ rest)) d ∧ encoded = acc +:+ rest) (λ _ _, True).
Proof.
  assert (∀ acc rest, (String.length (acc +:+ rest) ≤ String.length acc)%nat → acc = acc +:+ rest) as Hend.
  { intros a r Hl. rewrite length_append in Hl. destruct r; [by rewrite append_empty|simpl in Hl; lia]. }
  revert acc rest. induction fuel as [|fuel IH]; intros acc rest Hf ->; simpl; destruct (Nat.leb_spec (String.length (acc +:+ rest)) (String.length acc)).
  1, 3: apply triple_ret; intros d Hd; split; [done|by apply Hend].
  { lia. }
  eapply triple_bind; [apply read_text|]. intros chunk d [Hd (rest' & ->)]. revert d Hd.
  eapply (triple_bind _ (λ _ d, at_inode n (text_is (acc +:+ chunk +:+ rest')) d ∧ chunk ≠ EmptyString)).
  { apply triple_raise_if; [done|]. intros d Hd He. by apply String.eqb_neq in He. }
  intros [] d [Hd Hne]. revert d Hd. rewrite append_assoc_string in *. apply (IH (acc +:+ chunk) rest'); [|done].
  replace (String.length (acc +:+ chunk)) with (String.length acc + String.length chunk)%nat by (symmetry; apply length_append). assert (1 ≤ String.length chunk)%nat by (destruct chunk; simpl; [done|lia]). lia.
Qed.

Lemma keep_step {A B} (K : Disk → Prop) (x : SE Disk A) (f : A → SE Disk B) Q :
  preserves K x → (∀ a, triple K (f a) Q (λ _ _, True)) → triple K (x ≫= f) Q (λ _ _, True).
Proof.
  intros Hx Hf. eapply (triple_bind _ (λ _, K)); [|exact Hf].
  eapply triple_weaken; [by apply triple_preserves|done..].
Qed.
Lemma read_snapshot_text n t identity :
  triple (at_inode n (text_is t)) (read_marker_snapshot float_equal E n identity)
    (λ s d, at_inode n (text_is t) d ∧ parse_marker t = Ok s) (λ _ _, True).
Proof.
  unfold read_marker_snapshot.
  eapply triple_bind; [eapply triple_weaken; [apply (fstat_size E n (text_is t) t); done|done|intros ? ? Hx; exact Hx|done]|].
  intros before d [Hd Hz]. revert d Hd.
  apply keep_step; [apply preserves_raise_if|]. intros []. apply keep_step; [apply file_system_call|]. intros [].
  rewrite Hz, Nat2Z.id. eapply triple_bind; [apply (read_whole_text n _ _ EmptyString t); [by simpl|done]|].
  intros encoded d [Hd ->]. revert d Hd. rewrite app_nil_string.
  apply keep_step; [apply file_read|]. intros more. apply keep_step; [apply preserves_raise_if|]. intros [].
  apply keep_step; [apply file_fstat|]. intros after. apply keep_step; [apply preserves_raise_if|]. intros [].
  apply triple_lift; [|done]. intros d s Hd Hs. done.
Qed.
Lemma closing_result {A} n P (x : SE Disk A) Q : triple P x Q (λ _ _, True) → triple P (closing E n x) Q (λ _ _, True).
Proof.
  intros Hx. unfold closing. eapply triple_catch; [exact Hx|]. intros e.
  eapply (triple_bind _ (λ _ _, True)); [apply triple_true|]. intros ?. by apply triple_raise.
Qed.
Lemma open_marker_reads key :
  triple (λ _, True) (open_marker float_equal E key)
    (λ m d, ∃ t, at_inode (mk_descriptor m) (text_is t) d ∧ id_size (mk_identity m) = Z.of_nat (String.length t)
       ∧ parse_marker t = Ok (mk_snapshot m)) (λ _ _, True).
Proof.
  unfold open_marker. eapply (triple_bind _ (λ _ _, True)); [by apply triple_lift|]. intros name.
  eapply triple_bind; [eapply triple_weaken; [apply open_read_text|done|intros ? ? Hx; exact Hx|done]|].
  intros n d [t Hd]. revert d Hd. apply closing_result.
  apply keep_step; [apply file_system_call|]. intros []. apply keep_step; [apply file_fstat|]. intros _.
  eapply triple_bind; [eapply triple_weaken; [apply (capture_size E n (text_is t) t); done|done|intros ? ? Hx; exact Hx|done]|].
  intros identity d [Hd Hz]. revert d Hd. eapply triple_bind; [apply read_snapshot_text|].
  intros s. apply triple_ret. intros d [Hd Hs]. by exists t.
Qed.
Lemma open_marker_opened key :
  triple (λ _, True) (open_marker float_equal E key) (λ m d, opened m d ∧ valid_authority (authority (mk_snapshot m)) = true) (λ _ _, True).
Proof.
  eapply triple_weaken; [apply open_marker_reads|done| |done]. intros m d (t & (i & Hi & Hx) & Hz & Hs).
  split; [|by apply (parse_sound _ _ Hs)]. unfold text_is in Hx. subst t.
  exists i. split; [done|]. split; [lia|]. intros _. by exists (mk_snapshot m).
Qed.

(** *** Beginning *)

Definition proper_authority (a : CaptureAuthority) : Prop :=
  is_utf8 (au_task_id a) = true ∧ is_utf8 (au_execution_id a) = true ∧ is_utf8 (au_idempotency_key a) = true
  ∧ is_utf8 (fp_version (au_fingerprint a)) = true.
Lemma proper_utf8 a : proper_authority a → valid_authority a = true → utf8_authority a.
Proof.
  intros (H1' & H2' & H3' & H4') Hv. unfold valid_authority, valid_fingerprint, hex_of_length in Hv. bool_simp.
  split_and!; try assumption; by apply lower_hex_utf8.
Qed.
Lemma assert_authority_Ok o e b :
  assert_authority o e b = Ok tt →
  au_task_id o = au_task_id e ∧ au_execution_id o = au_execution_id e ∧ au_idempotency_key o = au_idempotency_key e
  ∧ au_fingerprint o = au_fingerprint e.
Proof.
  unfold assert_authority. destruct (negb _) eqn:Es; [done|]. intros _. apply negb_false_iff in Es.
  rewrite !andb_true_iff, !String.eqb_eq, bool_decide_eq_true in Es. tauto.
Qed.
Lemma create_settled f name mode :
  triple (λ _, True) (open_create E f name mode) (λ n d, at_inode n (settled EmptyString) d) (λ _ _, True).
Proof.
  intros d _. unfold open_create, syscall. destruct (fault E _); [done|].
  unfold mbind, SE_bind, get, lift, mret, SE_ret, raise_if, modify. simpl.
  destruct (named _ _ _); [done|]. simpl. destruct (inodes d !! _); [done|]. simpl.
  eexists. split; [destruct f; simpl; by rewrite lookup_insert_eq|]. cbn. by intros b ->%list_elem_of_singleton.
Qed.
Lemma begin_details request source fmt root dev ino :
  proper_details request → is_utf8 source = true → is_utf8 fmt = true → is_utf8 root = true →
  proper_details [("request", JObj request); ("source_name", JStr source); ("capture_format", JStr fmt);
                  ("artifact_root", JStr root); ("artifact_root_dev", JInt dev); ("artifact_root_ino", JInt ino)].
Proof.
  intros [Hr1 Hr2] Hs Hf Hro. split; [cbn [well_formed] in *; apply andb_true_iff|cbn [utf8_json] in *].
  - split; [by apply bool_decide_eq_true_2; repeat constructor; set_solver|]. cbn [forallb snd well_formed]. by rewrite Hr1.
  - cbn [forallb fst snd utf8_json]. by rewrite Hr2, Hs, Hf, Hro.
Qed.
Lemma source_name_utf8 x fmt token s : is_utf8 x = true → source_name x fmt token = Ok s → is_utf8 s = true ∧ is_utf8 fmt = true.
Proof.
  intros Hx. unfold source_name. destruct (str_in fmt _) eqn:Ef; [|done]. destruct (hex_of_length 32 token) eqn:Et; [|done].
  intros [= <-]. unfold hex_of_length in Et. bool_simp. apply str_in_spec in Ef.
  assert (is_utf8 fmt = true) as Hf by (rewrite !elem_of_cons in Ef; destruct Ef as [-> | [-> | []%not_elem_of_nil]]; by vm_compute).
  split; [|assumption].
  do 3 (apply utf8_app; [first [exact (eq_refl true) | assumption]|]). apply utf8_app; [by apply lower_hex_utf8|].
  apply utf8_app; [exact (eq_refl true)|assumption].
Qed.

Section Beginning.
Context (task_id execution_id idempotency_key : string) (fingerprint : CaptureFingerprint) (request : Details)
  (capture_format artifact_root : string) (root_identity : Z * Z).
Abbreviation begin := (begin_marker float_equal E task_id execution_id idempotency_key fingerprint request capture_format artifact_root root_identity).
Context (Hbegin : proper_begin task_id execution_id idempotency_key fingerprint request artifact_root).

Lemma begin_first_line a recorded_at d :
  proper_authority a → valid_authority a = true → proper_details d → has_exactly (detail_fields RESERVATION_PLANNED) d = true →
  is_utf8 recorded_at = true →
  let line := event_line a 0 RESERVATION_PLANNED None recorded_at d in
  ∃ s0, parse_marker (line +:+ newline) = Ok s0
    ∧ same_snapshot s0 (MkSnapshot a RESERVATION_PLANNED 0 (sha256_hex line) [(RESERVATION_PLANNED, d)]).
Proof.
  intros Hpa Hva Hd Hf Hat line. pose proof (proper_utf8 a Hpa Hva) as Hau.
  assert (all_chars unbroken line = true) as Hl by (by apply printable_unbroken, event_line_printable).
  exists (MkSnapshot a RESERVATION_PLANNED 0 (sha256_hex line) [(RESERVATION_PLANNED, sorted_details d)]). split.
  - apply parse_marker_Ok. split; [apply ends_with_newline; by exists line|].
    pose proof (splitlines_line _ EmptyString Hl) as Hs. rewrite app_string_nil_r in Hs. rewrite Hs.
    cbn [splitlines CaptureMarkerLog.read_lines].
    pose proof (read_first float_equal a recorded_at d Hd Hf Hva Hau Hat) as Hr. fold line in Hr. by rewrite Hr.
  - unfold same_snapshot, read_back. cbn [details map fst snd authority sn_state sequence event_digest]. by rewrite sorted_details_idem.
Qed.
Lemma begin_marker_begun :
  triple (λ _, True) begin (λ r d, begun r.1 d ∧ (r.2 = true → marker_confirmed r.1 d)) (λ _ _, True).
Proof.
  destruct Hbegin as (U1 & U2 & U3 & U4 & Hreq & Hroot). unfold begin_marker.
  eapply (triple_bind _ (λ _ _, True)); [by apply triple_lift|]. intros name.
  eapply (triple_bind _ (λ _ _, True)); [by apply triple_get|]. intros token. cbv zeta. set (a := Build_CaptureAuthority _ _ _ _ _).
  assert (proper_authority a) as Hpa by done.
  eapply (triple_bind _ (λ _ _, valid_authority a = true)); [apply triple_raise_if; [done|]; by intros d _ Hv%negb_false_iff|].
  intros []. apply triple_fact. intros Hva.
  eapply (triple_bind _ (λ source _, is_utf8 source = true ∧ is_utf8 capture_format = true)).
  { apply triple_lift; [|done]. intros d source _ Hs. exact (source_name_utf8 _ _ _ _ U2 Hs). }
  intros source. apply triple_fact. intros [Hsource Hfmt].
  eapply triple_bind; [apply triple_attempt, create_settled|]. intros [n|e].
  - apply closing_result. cbv beta iota.
    eapply triple_weaken with (P := at_inode n (text_is EmptyString));
      [|intros d (i & Hi & Hx); exists i; split; [done|by apply settled_text]|intros ? ? Hx; exact Hx|done].
    apply keep_step; [apply file_system_call|]. intros []. apply keep_step; [apply file_fstat|]. intros _.
    apply keep_step; [apply file_capture|]. intros _. set (d0 := [_; _; _; _; _; _]).
    assert (proper_details d0) as Hd by (by apply begin_details). assert (has_exactly (detail_fields RESERVATION_PLANNED) d0 = true) as Hf by reflexivity.
    clearbody d0. eapply (triple_bind _ (λ now d, at_inode n (text_is EmptyString) d ∧ is_utf8 now = true)).
    { apply triple_get. intros d Hx. split; [done|apply Hclock]. }
    intros now d [Hx Hnow]. revert d Hx. destruct (begin_first_line a now d0 Hpa Hva Hd Hf Hnow) as (s0 & Hp & Hs).
    set (line := event_line _ _ _ _ _ _) in *. clearbody line.
    eapply triple_bind; [eapply triple_weaken; [apply (write_all_text E n EmptyString (String.length (line +:+ newline)) (line +:+ newline)); lia|done|intros ? ? Hx; exact Hx|done]|].
    intros []. rewrite app_nil_string.
    eapply triple_bind; [eapply triple_weaken; [apply fsync_settles|done|intros ? ? Hx; exact Hx|done]|]. intros [].
    apply keep_step; [apply file_fsync_folder|]. intros [].
    eapply triple_bind; [eapply triple_weaken; [apply (capture_size E n (settled (line +:+ newline)) (line +:+ newline)); intros v; apply settled_text|done|intros ? ? Hx; exact Hx|done]|].
    intros identity. apply triple_ret. intros d [Hx Hz]. cbn [fst snd]. split; [split; [|by apply proper_utf8]|].
    + destruct Hx as (i & Hi & Hv). exists i. split; [done|]. apply settled_text in Hv. unfold represents, holds_snapshot. cbn.
      unfold text_is in Hv. rewrite Hv, Hz. split; [lia|]. intros _. by exists s0.
    + intros _. by exists (line +:+ newline), s0.
  - eapply triple_weaken with (P := λ _, True); [|done|intros ? ? Hx; exact Hx|intros ? ? Hx; exact Hx]. destruct (decide _); [|by apply triple_raise].
    eapply triple_bind; [apply open_marker_opened|]. intros m. apply closing_result.
    eapply (triple_bind _ (λ _ d, begun m d)).
    + apply triple_lift; [|done]. intros d [] [Ho Hv] Ha. split; [done|]. apply proper_utf8; [|done].
      apply assert_authority_Ok in Ha as (E1 & E2 & E3 & E4). unfold proper_authority. by rewrite E1, E2, E3, E4.
    + intros []. by apply triple_ret.
Qed.
End Beginning.

Lemma call_begun m c d :
  proper_call c → begun m d →
  let w := (run_call E c (MkMarking d m)).2 in begun (mk_marker w) (mk_disk w).
Proof.
  intros Hc [(i & Hi & Hr) Hau] w.
  assert (same_object m (mk_marker w) ∨ grown m (contents (latest (body i))) w) as [Hs|Hg].
  { pose proof (call_effect m _ Hr Hau c Hc (MkMarking d m)) as He. subst w.
    assert (untouched m (contents (latest (body i))) (MkMarking d m)) as Hw by (split; [done|by exists i]).
    specialize (He Hw). destruct (run_call E c (MkMarking d m)) as [[[]|e] w]; cbn [snd].
    - destruct He as [[Hs _]|Hg]; [by left|by right].
    - destruct He as [[Hs _]|Hg]; [by left|by right]. }
  - pose proof (call_file E (mk_descriptor m) (represents m) c (represents_sync m) (represents_write m) (MkMarking d m)) as Hf.
    destruct Hs as (Hd & Hsn & Hz). split; [|by rewrite Hsn]. destruct Hf as (j & Hj & Hv); [by exists i|]. exists j. rewrite Hd.
    split; [exact Hj|]. by apply (same_represents m).
  - destruct Hg as (st & now & dt & s1 & (j & Hj & Hv) & Hd & Hsn & Hz & Hp & Hs1). split; [|by rewrite Hsn].
    exists j. rewrite Hd. split; [done|]. apply settled_text in Hv. unfold text_is in Hv. unfold represents, holds_snapshot. rewrite Hv, Hz.
    split; [lia|]. intros _. by exists s1.
Qed.
End Calls.

(** ** Histories *)

Definition proper_clock (E : Env) : Prop := ∀ k, is_utf8 (wall_clock E k) = true.
(** What anybody does with markers, under any system: every call on any object, and
    work elsewhere that changes no file there is. *)
Inductive marker_step (d : Disk) : Disk → Prop :=
| begins E task_id execution_id key fingerprint request fmt root root_identity :
    marker_step d (begin_marker float_equal E task_id execution_id key fingerprint request fmt root root_identity d).2
| opens E key : marker_step d (open_marker float_equal E key d).2
| calls_on E c m : marker_step d (mk_disk (run_call E c (MkMarking d m)).2)
| works_beside d' : (∀ n i, inodes d !! n = Some i → inodes d' !! n = Some i) → marker_step d d'.

(** A process that holds a marker object: begun or opened, and used since, while
    anybody else goes on. *)
Inductive held : Disk → CaptureMarker → Prop :=
| held_begun E task_id execution_id key fingerprint request fmt root root_identity d m is_new d' :
    proper_clock E → proper_begin task_id execution_id key fingerprint request root →
    begin_marker float_equal E task_id execution_id key fingerprint request fmt root root_identity d = (Ok (m, is_new), d') →
    held d' m
| held_opened E key d m d' :
    open_marker float_equal E key d = (Ok m, d') → proper_authority (authority (mk_snapshot m)) → held d' m
| held_called E c d m :
    proper_clock E → proper_call c → held d m →
    held (mk_disk (run_call E c (MkMarking d m)).2) (mk_marker (run_call E c (MkMarking d m)).2)
| held_on d m d' : held d m → marker_step d d' → held d' m.

(** What a marker has confirmed: that it was begun, or one more event. *)
Inductive confirms : Disk → CaptureMarker → Prop :=
| confirms_begin E task_id execution_id key fingerprint request fmt root root_identity d m d' :
    proper_clock E → proper_begin task_id execution_id key fingerprint request root →
    begin_marker float_equal E task_id execution_id key fingerprint request fmt root root_identity d = (Ok (m, true), d') →
    confirms d' m
| confirms_call E c d m w :
    proper_clock E → proper_call c → held d m → run_call E c (MkMarking d m) = (Ok tt, w) →
    mk_snapshot (mk_marker w) ≠ mk_snapshot m →
    confirms (mk_disk w) (mk_marker w).

Section Kept.
Context (n : nat) (Q : Durable Body → Prop).
Hypothesis Q_sync : ∀ v, Q v → Q (sync v).
Hypothesis Q_write : ∀ s v, Q v → Q (overwrite (write_body s) v).
Lemma step_file d d' : marker_step d d' → at_inode n Q d → at_inode n Q d'.
Proof.
  intros Hs Hd. destruct Hs as [E t x key fp r fmt root ri|E key|E c m|d' Hsame].
  - by apply (file_begin_marker E n Q Q_sync Q_write float_equal t x key fp r fmt root ri d).
  - by apply (file_open_marker E n Q float_equal key d).
  - by apply (call_file E n Q c Q_sync Q_write (MkMarking d m)).
  - destruct Hd as (i & Hi & Hq). exists i. by auto.
Qed.
(** A property of each of its versions also survives a loss of power. *)
Lemma history_file d d' :
  (∀ v b, Q v → b ∈ versions v → Q (synced b)) →
  rtc (λ d d', marker_step d d' ∨ loses_power d d') d d' → at_inode n Q d → at_inode n Q d'.
Proof.
  intros Hloss. induction 1 as [|d1 d2 d3 [Hs|Hs] _ IH]; [done|intros Hd; apply IH..]; [by eapply step_file|].
  destruct Hd as (i & Hi & Hq). destruct (loses_inodes _ _ Hs n i Hi) as (b & Hb & Hi'). eexists. split; [exact Hi'|].
  by apply (Hloss (body i)).
Qed.
End Kept.

Lemma held_begins d m : held d m → begun m d.
Proof.
  induction 1 as [E t x key fp r fmt root ri d m is_new d' Hc Hp Hb|E key d m d' Ho Hp|E c d m Hc Hp _ IH|d m d' _ [IH Hau] Hs].
  - pose proof (begin_marker_begun E Hc t x key fp r fmt root ri Hp d I) as Hx. rewrite Hb in Hx. apply Hx.
  - pose proof (open_marker_opened E key d I) as Hx. rewrite Ho in Hx. destruct Hx as [Hx Hv]. split; [done|by apply proper_utf8].
  - by apply call_begun.
  - split; [|done]. by apply (step_file _ _ (represents_sync m) (represents_write m) d).
Qed.
Lemma confirms_confirmed d m : confirms d m → marker_confirmed m d.
Proof.
  intros [E t x key fp r fmt root ri d1 m1 d' Hc Hp Hb|E c d1 m1 w Hc Hp Hh Hr Hne].
  - pose proof (begin_marker_begun E Hc t x key fp r fmt root ri Hp d1 I) as Hx. rewrite Hb in Hx. by apply Hx.
  - apply held_begins in Hh as [(i & Hi & Hv) Hau].
    pose proof (call_effect E Hc m1 _ Hv Hau c Hp (MkMarking d1 m1)) as He. rewrite Hr in He.
    destruct He as [[(_ & Hs & _) _]|(st & now & dt & s1 & Hset & Hfd & Hsn & Hz & Hps & Hs1)]; [split; [done|by exists i]|done|].
    rewrite <- Hfd in Hset. eexists. by exists s1.
Qed.

(** *** What is kept *)

(** Every version of the file begins with the text. *)
Definition begins_with (t : string) : Durable Body → Prop := λ v, ∀ b, b ∈ versions v → ∃ rest, contents b = t +:+ rest.
Lemma begins_sync t v : begins_with t v → begins_with t (sync v).
Proof. intros Hv b ->%list_elem_of_singleton. apply Hv. by left. Qed.
Lemma begins_write t s v : begins_with t v → begins_with t (overwrite (write_body s) v).
Proof.
  intros Hv b [->|Hb]%elem_of_cons; [|by apply Hv]. destruct (Hv (latest v)) as [rest Hr]; [by left|].
  exists (rest +:+ s). cbn. by rewrite Hr, app_string_assoc.
Qed.
Lemma begins_loss t v b : begins_with t v → b ∈ versions v → begins_with t (synced b).
Proof. intros Hv Hb b' ->%list_elem_of_singleton. by apply Hv. Qed.
Lemma begins_settled t v : settled t v → begins_with t v.
Proof. intros Hv b Hb. exists EmptyString. rewrite append_empty. by apply Hv. Qed.

(** C18: a call on a marker object that a process holds either leaves the file and the object at their
    event; or adds exactly one event, after which the object, the file and what any loss of power leaves of it agree;
    or raises with the object where it was, and the file then has nothing new, the whole event, or a part of it
    that every reader refuses as incomplete. *)
Theorem marker_append_atomic E c d m :
  proper_clock E → proper_call c → held d m →
  ∃ t, at_inode (mk_descriptor m) (text_is t) d ∧ holds_snapshot m t
    ∧ let '(r, w) := run_call E c (MkMarking d m) in
      match r with Ok _ => untouched m t w ∨ grown m t w | Err _ => cut_off m t w ∨ grown m t w end.
Proof.
  intros Hc Hp [(i & Hi & Hv) Hau]%held_begins. exists (contents (latest (body i))). split; [by exists i|]. split; [done|].
  pose proof (call_effect E Hc m _ Hv Hau c Hp (MkMarking d m)) as He. destruct (run_call E c (MkMarking d m)) as [[[]|e] w].
  all: apply He; by split; [|exists i].
Qed.

(** C17: once [begin_marker] has returned a new marker, or a call has added an event, the file keeps it: whatever
    anybody does with markers, failures, kills and losses of power included, the file begins with the text that was confirmed,
    and whoever opens it finds that snapshot or one that extends it by further events. *)
Theorem confirmed_marker_survives d m d' :
  confirms d m → rtc (λ d d', marker_step d d' ∨ loses_power d d') d d' →
  ∃ t s0, parse_marker t = Ok s0 ∧ same_snapshot s0 (mk_snapshot m)
    ∧ at_inode (mk_descriptor m) (begins_with t) d'
    ∧ ∀ E key m' d'', open_marker float_equal E key d' = (Ok m', d'') → mk_descriptor m' = mk_descriptor m →
        extends s0 (mk_snapshot m').
Proof.
  intros (t & s0 & Hset & Hp & Hs)%confirms_confirmed Hh. exists t, s0. split; [done|]. split; [done|].
  assert (at_inode (mk_descriptor m) (begins_with t) d') as Hd.
  { eapply (history_file _ _ (begins_sync t) (begins_write t)); [apply begins_loss|exact Hh|].
    destruct Hset as (i & Hi & Hv). exists i. split; [done|by apply begins_settled]. }
  split; [done|]. intros E key m' d'' Ho Hm.
  pose proof (open_marker_reads E key d' I) as Hx. pose proof (file_open_marker E _ _ float_equal key d' Hd) as (j & Hj & Hb).
  rewrite Ho in Hx, Hj. cbn [snd] in Hj. destruct Hx as (t' & (k & Hk & Ht') & _ & Hp'). rewrite Hm in Hk. rewrite Hj in Hk. injection Hk as <-.
  destruct (Hb (latest (body j))) as [rest Hr]; [by left|]. unfold text_is in Ht'. rewrite Hr in Ht'. subst t'.
  by eapply parse_extends.
Qed.
End Markers.

(** ** A marker that is begun, reserved and lost with the power *)

#[local] Existing Instances hex_sha256 hex_sha256_lower short_uuid example_text.

(** Tokens are 32 digits long. *)
Definition marker_env (fails : nat → option exc) : Env := {|
  euid := 1000; umask := 63; directory_stat := λ _, (1, 4); fault := fails; token_hex := λ _, repeated 32 "a"%char;
  fresh_inode := size; moved := λ _ n, (n / 2)%nat; wall_clock := λ _, "2026-01-01T00:00:00Z"; listing := λ names, map fst (map_to_list names);
  new_uuid := λ _, EmptyString |}.
Definition some_uuid (a : ascii) : string := repeated 36 a.
Definition begin_example : SE Disk (CaptureMarker * bool) :=
  begin_marker never_equal (marker_env no_fault) (some_uuid "1"%char) (some_uuid "2"%char) (some_uuid "3"%char)
    {| fp_version := "v1"; fp_sha256 := repeated 64 "b"%char |} [("duration_seconds", JInt 5)] "pcap" "/outbox" (1, 2).
Definition reserved_details : Details :=
  [("directory_dev", JInt 1); ("directory_ino", JInt 2); ("st_dev", JInt 1); ("st_ino", JInt 9); ("st_uid", JInt 1000);
   ("file_type", JInt 32768); ("mode", JInt 384); ("st_nlink", JInt 1)].
Definition reserve_on (fails : nat → option exc) (d : Disk) (m : CaptureMarker) : result unit * Marking :=
  run_call never_equal (marker_env fails) (Advance RESERVED reserved_details) (MkMarking d m).
(** The oldest version of everything. *)
Definition oldest_disk (d : Disk) : Disk :=
  MkDisk ((λ i, set_body (synced (oldest (body i))) i) <$> inodes d) (synced (oldest (outbox d))) (synced (oldest (intents d)))
    (λ g, synced (oldest (others d g))) 0.
Lemma oldest_loses d : loses_power d (oldest_disk d).
Proof.
  constructor; [eexists; split; [apply oldest_version|done]..|intros g; eexists; split; [apply oldest_version|done]|].
  intros n i Hi. exists (oldest (body i)). split; [apply oldest_version|]. simpl. by rewrite lookup_fmap, Hi.
Qed.

(** What the file holds, by the number of its lines, or that it is refused. *)
Definition file_reads (d : Disk) (n : nat) : option (result CaptureMarkerState) :=
  i ← inodes d !! n;
  Some (match parse_marker never_equal (contents (latest (body i))) with Ok s => Ok (sn_state s) | Err e => Err e end).
(** An event of which only a part was written is refused; when nothing of it was synchronised it is gone with the
    power, and the marker is at its event before. *)
Example torn_reservation :
  match begin_example no_files with
  | (Ok (m, true), d) =>
      let w := (reserve_on (fails_at 32) d m).2 in
      file_reads (mk_disk w) 0 = Some (Err (manual_recovery "capture marker has an incomplete event"))
      ∧ file_reads (oldest_disk (mk_disk w)) 0 = Some (Ok RESERVATION_PLANNED)
      ∧ file_reads (mk_disk (reserve_on no_fault d m).2) 0 = Some (Ok RESERVED)
  | _ => False
  end.
Proof. vm_compute. by split_and!. Qed.

Lemma example_clock fails : proper_clock (marker_env fails).
Proof. intros k. exact (eq_refl true). Qed.
Lemma reserved_proper : proper_call (Advance RESERVED reserved_details).
Proof. by vm_compute. Qed.
Lemma begin_example_proper :
  proper_begin (some_uuid "1"%char) (some_uuid "2"%char) (some_uuid "3"%char) {| fp_version := "v1"; fp_sha256 := repeated 64 "b"%char |}
    [("duration_seconds", JInt 5)] "/outbox".
Proof. vm_compute. by split_and!. Qed.
Lemma example_held m b d : begin_example no_files = (Ok (m, b), d) → held never_equal d m.
Proof. intros Hb. eapply held_begun; [apply (example_clock no_fault)|apply begin_example_proper|exact Hb]. Qed.

Lemma begin_example_new : match (begin_example no_files).1 with Ok (_, b) => b | Err _ => false end = true.
Proof. by vm_compute. Qed.
Lemma reserve_example_new :
  match begin_example no_files with
  | (Ok (m, _), d) =>
      let '(r, w) := reserve_on no_fault d m in
      is_ok r && bool_decide (sn_state (mk_snapshot (mk_marker w)) = RESERVED) && (sequence (mk_snapshot m) <? sequence (mk_snapshot (mk_marker w)))
  | _ => false
  end = true.
Proof. by vm_compute. Qed.

(** The second write of an event fails. *)
Lemma marker_append_atomic_witness :
  match begin_example no_files with
  | (Ok (m, true), d) =>
      ∃ t, at_inode (mk_descriptor m) (text_is t) d ∧ holds_snapshot never_equal m t
        ∧ let '(r, w) := reserve_on (fails_at 32) d m in
          match r with
          | Ok _ => untouched m t w ∨ grown never_equal m t w
          | Err _ => cut_off never_equal m t w ∨ grown never_equal m t w
          end
  | _ => False
  end.
Proof.
  pose proof begin_example_new as Hnew. destruct (begin_example no_files) as [[[m []]|e] d] eqn:Eb; [|discriminate Hnew..]. clear Hnew.
  apply (marker_append_atomic never_equal (marker_env (fails_at 32)) (Advance RESERVED reserved_details) d m);
    [apply example_clock|apply reserved_proper|exact (example_held m true d Eb)].
Defined.

(** Reserved, then another event is torn, and the power is lost. *)
Lemma confirmed_marker_survives_witness :
  match begin_example no_files with
  | (Ok (m, true), d) =>
      let '(r, w) := reserve_on no_fault d m in
      let d1 := mk_disk (run_call never_equal (marker_env (fails_at 32)) (RetireAborted "aborted" None) w).2 in
      match r with
      | Ok tt => sn_state (mk_snapshot (mk_marker w)) = RESERVED ∧
          ∃ t s0, parse_marker never_equal t = Ok s0 ∧ same_snapshot s0 (mk_snapshot (mk_marker w))
            ∧ at_inode (mk_descriptor (mk_marker w)) (begins_with t) (oldest_disk d1)
            ∧ ∀ E key m' d'', open_marker never_equal E key (oldest_disk d1) = (Ok m', d'') →
                mk_descriptor m' = mk_descriptor (mk_marker w) → extends s0 (mk_snapshot m')
      | Err _ => False
      end
  | _ => False
  end.
Proof.
  pose proof begin_example_new as Hnew. pose proof reserve_example_new as Hr.
  destruct (begin_example no_files) as [[[m []]|e] d] eqn:Eb; [|discriminate Hnew..]. clear Hnew.
  destruct (reserve_on no_fault d m) as [[[]|e] w] eqn:Er; [|discriminate Hr].
  assert (sn_state (mk_snapshot (mk_marker w)) = RESERVED ∧ mk_snapshot (mk_marker w) ≠ mk_snapshot m) as [Hst Hne].
  { cbn [is_ok andb] in Hr. rewrite andb_true_iff, bool_decide_eq_true, Z.ltb_lt in Hr. destruct Hr as [Hst Hlt]. split; [exact Hst|].
    intros He. rewrite He in Hlt. lia. }
  cbv zeta. split; [exact Hst|].
  apply (confirmed_marker_survives never_equal (mk_disk w)).
  - exact (confirms_call never_equal (marker_env no_fault) (Advance RESERVED reserved_details) d m w (example_clock no_fault) reserved_proper (example_held m true d Eb) Er Hne).
  - eapply rtc_l; [left|apply rtc_once; right; apply oldest_loses].
    destruct w as [d' m']. exact (calls_on never_equal d' (marker_env (fails_at 32)) (RetireAborted "aborted" None) m').
Defined.
