(* ===== verification/StagerRace.v ===== *)
(** * The race of staging and cancellation

    [_StagingTransaction] decides, under its lock, whether a request to cancel comes
    before the commit or after it.  Nothing but its methods touches it, and nothing
    but the commit writes the database. *)

From S2P Require Export StagerHistory.

(** No request so far, or refused ones after an abort; and a commit that answers
    every request with its priority. *)
Definition undecided (st : StagingState) (t : Transaction) : Prop :=
  (tx_state t = st ∧ tx_answers t = []) ∨ (tx_state t = ABORTED ∧ Forall (eq false) (tx_answers t)).
Definition committing (st : StagingState) (t : Transaction) : Prop :=
  tx_state t = st ∧ Forall (eq true) (tx_answers t).
Definition before_commit (st : StagingState) : bool :=
  match st with COPYING | READY_TO_COMMIT => true | _ => false end.

(** ** Operations that do not decide *)

Section Quiet.
Context `{Sha256} `{PythonText} `{UuidText}.
Context (float_equal : json → json → bool) (valid_manifest : json → bool).
Context (E : Env) (G : Signals) (L : Limits).
Context (P : Stager → Prop).
Hypothesis P_disk : ∀ d w, P w → P (set_disk d w).
Hypothesis P_maintenance : ∀ l w, P w → P (set_maintenance l w).
Hypothesis P_inspected : ∀ n b w, P w → P (set_inspected n b w).
Abbreviation quiet := (preserves P).

Lemma quiet_disk {A} (m : SE Disk A) : quiet (on_disk m).
Proof. intros w Hw. unfold on_disk. destruct (m (disk w)) as [r d]. by apply P_disk. Qed.
Lemma quiet_observe {A} (f : nat → A) : quiet (observe f).
Proof. intros w Hw. by apply P_disk. Qed.
Lemma quiet_record name context : quiet (record_quarantine name context).
Proof. intros w Hw. unfold record_quarantine, modify. simpl. case_match; [done|by apply P_maintenance]. Qed.
Lemma quiet_inspected (f g : Stager → Z) : quiet (modify (λ w, set_inspected (f w) (g w) w)).
Proof. intros w Hw. by apply P_inspected. Qed.
Ltac quiet := repeat (first
  [ progress intros | apply quiet_disk | apply quiet_observe | apply quiet_record | apply quiet_inspected | apply preserves_ret
  | apply preserves_raise | apply preserves_raise_if | apply preserves_get | apply preserves_lift | apply preserves_attempt
  | apply preserves_for_each | apply preserves_catch | apply preserves_bind | progress case_match | progress case_decide ]).

Lemma quiet_close_all n : quiet (close_all E n).
Proof. induction n as [|n IH]; simpl; [quiet|]. apply preserves_bind; [quiet|]. intros r. by apply preserves_bind; [|quiet]. Qed.
Lemma quiet_finally {A} n (m : SE Stager A) : quiet m → quiet (finally_close E n m).
Proof. intros Hm. pose proof (quiet_close_all n). unfold finally_close. by quiet. Qed.
Lemma quiet_remove_durably identity prefix message context : quiet (remove_durably E identity prefix message context).
Proof. unfold remove_durably. quiet. Qed.
Lemma quiet_clean_up_handler identities :
  quiet (for_each identities (λ identity, attempt (remove_durably E identity ".artifact-cleanup-quarantine-"
           "artifact cleanup quarantine was not durable" "artifact_cleanup") ;; mret tt)).
Proof. apply preserves_for_each. intros identity. apply preserves_bind; [apply preserves_attempt, quiet_remove_durably|quiet]. Qed.
Lemma quiet_write_intent t temporary final m authority : quiet (write_intent float_equal E t temporary final m authority).
Proof. unfold write_intent, validate_capture_intent_authority, discard_intent. quiet. Qed.
Lemma quiet_ask {A} (f : nat → result A) : quiet (ask E f).
Proof. unfold ask, any_call. quiet. Qed.
Lemma quiet_validate_source md n : quiet (validate_source E md n).
Proof. unfold validate_source. quiet. Qed.
Lemma quiet_hash c fuel n acc : quiet (hash_contents E G L c fuel n acc).
Proof.
  revert acc. induction fuel as [|fuel IH]; intros acc; simpl; [quiet|]. unfold inspect_bytes, control_check.
  apply preserves_bind; [quiet|]. intros _. apply preserves_bind; [quiet|]. intros chunk. case_match; [quiet|].
  apply preserves_bind; [quiet|]. intros _. apply IH.
Qed.
Lemma quiet_validate_named c name size sha256 : quiet (validate_named_artifact E G L c name size sha256).
Proof.
  pose proof quiet_hash. unfold validate_named_artifact. apply preserves_bind; [quiet|]. intros fd. apply quiet_finally.
  unfold validate_private_file, hash_descriptor, any_call. by quiet.
Qed.
Lemma quiet_publish temporary final : quiet (publish_without_overwrite E temporary final).
Proof. unfold publish_without_overwrite. quiet. Qed.
Lemma quiet_elsewhere m : works_elsewhere m → quiet m.
Proof. intros Hm w Hw. destruct (Hm w) as [k ->]. by apply P_disk. Qed.

(** Queueing also writes the database. *)
Hypothesis P_db : ∀ s w, P w → P (set_db s w).
Lemma quiet_queue t path payload : quiet (ensure_queued E t path payload).
Proof.
  unfold ensure_queued, on_db. quiet. intros w Hw. unfold with_db.
  match goal with |- context [ensure_artifact_queued ?a ?b ?c ?d ?x ?y ?z ?v ?p ?s] => destruct (ensure_artifact_queued a b c d x y z v p s) end.
  by apply P_db.
Qed.
End Quiet.

(** ** The methods of the transaction *)

Section Decisions.
Context (G : Signals).

Lemma observe_spec {A} (f : nat → A) w : ∃ a d, observe f w = (Ok a, set_disk d w).
Proof. by do 2 eexists. Qed.

(** What another thread's request does to a transaction. *)
Definition asked_once (t : Transaction) : Transaction :=
  {| tx_state := tx_state (request_cancel t).2; tx_stop := tx_stop (request_cancel t).2;
     tx_answers := tx_answers (request_cancel t).2 ++ [(request_cancel t).1] |}.
Lemma outsider_spec (P : Transaction → Store → Prop) :
  (∀ t s, P t s → P (asked_once t) s) → preserves (λ w, P (transaction w) (db w)) (outsider G).
Proof.
  intros HP w Hw. unfold outsider. rewrite bind_state. simpl. destruct (cancel_requested G _); [|done]. simpl.
  destruct (request_cancel (transaction w)) as [b t] eqn:Er. specialize (HP _ _ Hw). unfold asked_once in HP. by rewrite Er in HP.
Qed.
Lemma asked_undecided st t : before_commit st = true → undecided st t → undecided st (asked_once t).
Proof.
  intros Hst [[Hs Ha]|[Hs Ha]]; right; unfold asked_once, request_cancel; rewrite Hs; destruct st; try done; simpl.
  1,2: by rewrite Ha; split; [|by constructor].
  all: split; [done|]; apply Forall_app; split; [done|by constructor].
Qed.
Lemma asked_committing st t : before_commit st = false → st ≠ ABORTED → committing st t → committing st (asked_once t).
Proof.
  intros Hst Hne [Hs Ha]. unfold asked_once, request_cancel. rewrite Hs.
  destruct st; try done; (split; [done|]; apply Forall_app; split; [done|by constructor]).
Qed.

Definition quietly (s0 : Store) (st : StagingState) (w : Stager) : Prop := undecided st (transaction w) ∧ db w = s0.
Definition going (st : StagingState) (w : Stager) : Prop := committing st (transaction w).

Lemma undecided_abort st t : undecided st t → undecided st (abort t).
Proof. intros Ht. right. split; [done|]. simpl. destruct Ht as [[_ ->]|[_ ?]]; [constructor|done]. Qed.
Lemma tx_check_quietly s0 : preserves (quietly s0 COPYING) (tx_check G).
Proof.
  unfold tx_check. apply preserves_bind.
  { apply (outsider_spec (λ t s, undecided COPYING t ∧ s = s0)). intros t s [Ht ->]. by split; [apply asked_undecided|]. }
  intros [] w Hw. unfold get, observe, on_transaction, modify. rewrite !bind_state. simpl.
  assert (quietly s0 COPYING (set_transaction (request_cancel (transaction w)).2 w)) as Hr.
  { destruct Hw as [Ht Hd]. split; [|done]. unfold request_cancel. simpl. destruct Ht as [[Hs Ha]|[Hs Ha]]; rewrite Hs; simpl; right.
    - split; [done|]. simpl. by rewrite Ha.
    - done. }
  case_match; simpl; [exact Hr|]. rewrite ?bind_state. simpl. case_match; simpl; [exact Hr|exact Hw].
Qed.
Lemma advance_quietly s0 from to (Q : Stager → Prop) :
  before_commit from = true →
  (∀ w, tx_state (transaction w) = to → tx_answers (transaction w) = [] → db w = s0 → Q w) →
  triple (quietly s0 from) (advance G from to) (λ _, Q) (λ _, quietly s0 from).
Proof.
  intros Hb HQ. unfold advance. eapply triple_bind.
  { apply triple_preserves, (outsider_spec (λ t s, undecided from t ∧ s = s0)). intros t s [Ht ->].
    by split; [apply asked_undecided|]. }
  intros [] w [Ht Hd]. unfold get, observe, on_transaction, modify. rewrite !bind_state. simpl.
  destruct (negb _ || _ || _) eqn:Ec; [by split; [apply undecided_abort|]|].
  rewrite bind_state. simpl. destruct (deadline_passed G _); simpl; [by split; [apply undecided_abort|]|].
  apply HQ; [done| |done]. simpl. apply orb_false_iff in Ec as [[Hs _]%orb_false_iff _].
  apply negb_false_iff, bool_decide_eq_true in Hs. destruct Ht as [[_ Ha]|[Hs' _]]; [done|]. rewrite Hs' in Hs. by destruct from.
Qed.
Lemma committed_going : triple (going COMMITTING) (Staging.committed G) (λ _, going COMMITTED) (λ _, going COMMITTING).
Proof.
  unfold Staging.committed. eapply triple_bind.
  { apply triple_preserves, (outsider_spec (λ t _, committing COMMITTING t)). intros t _. by apply asked_committing. }
  intros [] w Hw. unfold get, raise_if. rewrite ?bind_state. simpl. unfold in_state.
  destruct (negb _); simpl; [done|]. by split; [|apply Hw].
Qed.
End Decisions.

(** ** Staging *)

Section Race.
Context `{Sha256} `{PythonText} `{UuidText}.
Context (float_equal : json → json → bool) (valid_manifest : json → bool).
Context (E : Env) (G : Signals) (L : Limits) (s0 : Store).
Context (intent_durable : ArtifactIntent → stat_result → string → SE Stager unit).
Hypothesis callback_elsewhere : ∀ i md sha256, works_elsewhere (intent_durable i md sha256).

(** The ends of a staging that raises. *)
Definition unstarted (w : Stager) : Prop := ∃ st, before_commit st = true ∧ quietly s0 st w.
Definition settled (w : Stager) : Prop := unstarted w ∨ ∃ st, commit_started (enter st (transaction w)) = true ∧ going st w.

Lemma quietly_settled st w : before_commit st = true → quietly s0 st w → settled w.
Proof. intros Hst Hw. left. by exists st. Qed.
Lemma going_settled st w : st = COMMITTING ∨ st = COMMITTED → going st w → settled w.
Proof. intros Hst Hw. right. exists st. split; [by destruct Hst as [-> | ->]|done]. Qed.
Lemma quiet_step {A} st (m : SE Stager A) :
  before_commit st = true → preserves (quietly s0 st) m → triple (quietly s0 st) m (λ _, quietly s0 st) (λ _, settled).
Proof.
  intros Hst Hm. eapply triple_weaken; [apply triple_preserves, Hm|done|done|]. intros e w. by apply quietly_settled.
Qed.
Lemma going_step {A} st (m : SE Stager A) :
  st = COMMITTING ∨ st = COMMITTED → preserves (going st) m → triple (going st) m (λ _, going st) (λ _, settled).
Proof.
  intros Hst Hm. eapply triple_weaken; [apply triple_preserves, Hm|done|done|]. intros e w. by apply going_settled.
Qed.
Lemma settled_quiet {A} (m : SE Stager A) :
  (∀ P : Stager → Prop, (∀ d w, P w → P (set_disk d w)) → (∀ l w, P w → P (set_maintenance l w)) → preserves P m) →
  preserves settled m.
Proof. intros Hm. apply Hm; by intros. Qed.
Lemma settled_clean_up {A} identities P (Q : A → Stager → Prop) (m : SE Stager A) :
  triple P m Q (λ _, settled) → triple P (clean_up E identities m) Q (λ _, settled).
Proof.
  intros Hm. unfold clean_up. eapply triple_catch; [exact Hm|]. intros e.
  eapply triple_bind; [apply triple_preserves, quiet_clean_up_handler; by intros|]. intros []. by apply triple_raise.
Qed.
Lemma settled_on_error {A} P (Q : A → Stager → Prop) (m : SE Stager A) :
  triple P m Q (λ _, settled) → triple P (on_error_close E m) Q (λ _, settled).
Proof.
  intros Hm. unfold on_error_close. eapply triple_catch; [exact Hm|]. intros e.
  eapply triple_bind; [apply triple_preserves, preserves_attempt, quiet_disk; by intros|]. intros r. by apply triple_raise.
Qed.
Lemma settled_finally {A} n P (m : SE Stager A) :
  triple P m (λ _, going COMMITTED) (λ _, settled) → triple P (finally_close E n m) (λ _, going COMMITTED) (λ _, settled).
Proof.
  intros Hm. unfold finally_close. eapply triple_bind; [exact (triple_attempt _ _ _ (λ _, settled) _ Hm)|]. intros [a|e]; simpl.
  - eapply triple_bind; [apply going_step; [by right|apply quiet_close_all; by intros]|]. intros [e|].
    + apply triple_raise. intros w. apply going_settled. by right.
    + by apply triple_ret.
  - eapply triple_bind; [apply triple_preserves, quiet_close_all; by intros|]. intros failed. by apply triple_raise.
Qed.

Lemma copy_chunks_quiet fuel S maximum n copied : preserves (quietly s0 COPYING) (copy_chunks E G fuel S maximum n copied).
Proof.
  revert copied. induction fuel as [|fuel IH]; intros copied; simpl; [apply preserves_raise|].
  apply preserves_bind; [apply tx_check_quietly|]. intros []. apply preserves_bind; [apply quiet_ask; by intros|]. intros chunk.
  case_match; [apply preserves_ret|]. apply preserves_bind; [apply preserves_raise_if|]. intros [].
  apply preserves_bind; [apply quiet_disk; by intros|]. intros _. apply IH.
Qed.
Lemma copy_source_quiet supplied S maximum expected before temporary n :
  preserves (quietly s0 COPYING) (copy_source valid_manifest E G supplied S maximum expected before temporary n).
Proof.
  unfold copy_source. apply preserves_bind; [apply copy_chunks_quiet|]. intros copied.
  apply preserves_bind; [apply preserves_raise_if|]. intros []. apply preserves_bind; [apply quiet_ask; by intros|]. intros after.
  do 4 (apply preserves_bind; [apply preserves_raise_if|intros []]).
  do 2 (apply preserves_bind; [apply quiet_disk; by intros|intros ?]). apply preserves_ret.
Qed.
Lemma first_copy_quiet supplied S maximum expected before temporary n :
  triple (quietly s0 COPYING)
    (on_error_close E (
      first ← on_disk (capture_file_identity E OUTBOX temporary n (Some (euid E)) (Some temporary_mode));
      '(final_manifest, copied, identity) ←
        clean_up E [first] (copy_source valid_manifest E G supplied S maximum expected before temporary n);
      clean_up E [identity] (on_disk (fsync E n)) ;;
      mret (final_manifest, copied, identity)))
    (λ _, quietly s0 COPYING) (λ _, settled).
Proof.
  apply settled_on_error. eapply triple_bind; [apply quiet_step; [done|apply quiet_disk; by intros]|]. intros first.
  eapply triple_bind; [apply settled_clean_up, quiet_step; [done|apply copy_source_quiet]|]. intros [[fm copied] identity].
  eapply triple_bind; [apply settled_clean_up, quiet_step; [done|apply quiet_disk; by intros]|]. intros []. by apply triple_ret.
Qed.
Lemma decide_race identities i before sha256 temporary final :
  triple (quietly s0 COPYING)
    (clean_up E identities (
      intent_durable i before sha256 ;; ready G ;; begin_commit G ;; publish_without_overwrite E temporary final))
    (λ _, going COMMITTING) (λ _, settled).
Proof.
  apply settled_clean_up. eapply triple_bind.
  { apply quiet_step; [done|]. apply quiet_elsewhere; [by intros|]. apply callback_elsewhere. }
  intros []. eapply (triple_bind _ (λ _, quietly s0 READY_TO_COMMIT)).
  { eapply triple_weaken; [apply advance_quietly|by intros w Hw|by intros [] w Hw|intros e w; by apply quietly_settled]; [done|].
    intros w Hs Ha Hd. split; [by left|done]. }
  intros []. eapply (triple_bind _ (λ _, going COMMITTING)).
  { eapply triple_weaken; [apply advance_quietly|by intros w Hw|by intros [] w Hw|intros e w; by apply quietly_settled]; [done|].
    intros w Hs Ha Hd. split; [done|]. rewrite Ha. constructor. }
  intros []. apply going_step; [by left|]. apply quiet_publish; by intros.
Qed.
Lemma finish_going t i copied :
  triple (going COMMITTING) (finish_published E G L t i copied) (λ _, going COMMITTED) (λ _, settled).
Proof.
  assert (∀ A (m : SE Stager A), preserves (going COMMITTING) m → triple (going COMMITTING) m (λ _, going COMMITTING) (λ _, settled))
    as Hstep by (intros A m; apply going_step; by left).
  unfold finish_published. eapply triple_bind; [apply Hstep, quiet_disk; by intros|]. intros [].
  eapply triple_bind; [apply Hstep, quiet_validate_named; by intros|]. intros identity.
  eapply triple_bind; [apply Hstep, quiet_queue; by intros|]. intros [].
  eapply triple_bind; [apply Hstep, quiet_remove_durably; by intros|]. intros [].
  eapply (triple_bind _ (λ _, going COMMITTED)); [eapply triple_weaken; [apply committed_going|done|by intros [] w Hw|intros e w; apply (going_settled COMMITTING); by left]|].
  intros []. by apply triple_ret.
Qed.
Lemma stage_sync_settles supplied S t maximum expected authority :
  triple (quietly s0 COPYING) (stage_sync float_equal valid_manifest E G L supplied S t maximum expected authority intent_durable)
    (λ _, going COMMITTED) (λ _, settled).
Proof.
  assert (∀ A (m : SE Stager A), preserves (quietly s0 COPYING) m → triple (quietly s0 COPYING) m (λ _, quietly s0 COPYING) (λ _, settled))
    as Hstep by (intros A m; by apply quiet_step).
  unfold stage_sync, open_managed_tree, any_call. eapply triple_bind; [apply Hstep, quiet_disk; by intros|]. intros [].
  apply settled_finally. eapply triple_bind; [apply Hstep, quiet_disk; by intros|]. intros [].
  eapply triple_bind; [apply Hstep, preserves_lift|]. intros []. eapply triple_bind; [apply Hstep, quiet_ask; by intros|]. intros before.
  eapply triple_bind; [apply Hstep, quiet_validate_source|]. intros [].
  eapply triple_bind; [apply Hstep, preserves_raise_if|]. intros []. eapply triple_bind; [apply Hstep, quiet_disk; by intros|]. intros [].
  do 2 (eapply triple_bind; [apply Hstep, quiet_observe; by intros|intros ?]).
  eapply triple_bind; [apply Hstep, quiet_disk; by intros|]. intros n.
  eapply triple_bind; [apply first_copy_quiet|]. intros [[fm copied] identity].
  eapply triple_bind.
  { apply settled_clean_up. eapply triple_bind; [apply Hstep, quiet_disk; by intros|]. intros []. apply Hstep, quiet_write_intent; by intros. }
  intros i. eapply triple_bind; [apply decide_race|]. intros []. apply finish_going.
Qed.
End Race.

(** ** Who wins *)

Section Winner.
Context `{Sha256} `{PythonText} `{UuidText}.
Context (float_equal : json → json → bool) (valid_manifest : json → bool).

(** C15: the race of a staging with requests to cancel it, at any moment: when the
    staging returns, its transaction is committed and every request was told that
    the commit goes first; when one request was told that it goes first, the
    staging raises and no row was written; and a request that was told otherwise
    found the commit begun. *)
Theorem cancellation_race E G L supplied S task_id maximum_size expected authority callback w :
  (∀ i md sha256, works_elsewhere (callback i md sha256)) → transaction w = new_transaction →
  let '(r, w') := stage_sync float_equal valid_manifest E G L supplied S task_id maximum_size expected authority callback w in
  let answers := tx_answers (transaction w') in
  (is_ok r = true → tx_state (transaction w') = COMMITTED ∧ false ∉ answers)
  ∧ (false ∈ answers → is_ok r = false ∧ pending_uploads (db w') = pending_uploads (db w))
  ∧ (true ∈ answers → commit_started (transaction w') = true ∧ false ∉ answers).
Proof.
  intros Hc Ht. assert (quietly (db w) COPYING w) as Hw by (split; [left; by rewrite Ht|done]).
  pose proof (stage_sync_settles float_equal valid_manifest E G L (db w) callback Hc supplied S task_id maximum_size expected authority w Hw) as Hs.
  assert (∀ b l, Forall (eq (negb b)) l → b ∉ l) as Hall by (intros b l Hf Hb; rewrite Forall_forall in Hf; by destruct b; apply Hf in Hb).
  destruct (stage_sync _ _ _ _ _ _ _ _ _ _ _ _ w) as [[a|e] w']; simpl.
  - destruct Hs as [Hs Ha]. apply (Hall false) in Ha as Hf. unfold commit_started. rewrite Hs. by split_and!.
  - destruct Hs as [(st & Hst & Hu & Hd)|(st & Hst & Hs & Ha)]; (split; [done|]).
    + rewrite Hd. split; [by intros _|]. intros Hx. exfalso.
      destruct Hu as [[_ Hn]|[_ Hn]]; [rewrite Hn in Hx; by apply elem_of_nil in Hx|by apply (Hall true) in Hn].
    + apply (Hall false) in Ha. split; [done|]. intros _. split; [|done]. unfold commit_started in *. by rewrite Hs.
Qed.
End Winner.


(** A request just before the commit, and one after the publication. *)
Lemma cancellation_race_witness :
  (let '(r, w') := stage_sync_example (cancelled_at 43) no_fault in
   false ∈ tx_answers (transaction w') ∧ is_ok r = false ∧ pending_uploads (db w') = [])
  ∧ (let '(r, w') := stage_sync_example (cancelled_at 67) no_fault in
     true ∈ tx_answers (transaction w') ∧ commit_started (transaction w') = true).
Proof.
  pose proof (λ k, cancellation_race never_equal any_manifest (example_env no_fault) (cancelled_at k)
    example_limits example_identity (example_source 18) "t1" 100 None None no_callback example_start no_callback_elsewhere eq_refl) as Hr.
  unfold stage_sync_example. split; [specialize (Hr 43%nat)|specialize (Hr 67%nat)].
  - destruct (stage_sync _ _ _ _ _ _ _ _ _ _ _ _ _) as [r w'] eqn:Er. destruct Hr as (_ & Hr & _).
    assert (tx_answers (transaction w') = [false]) as Hf by (vm_compute in Er; by injection Er as _ <-).
    clear Er. rewrite Hf in *. destruct Hr as [H1 H2]; [by left|]. split_and!; [by left|done|by rewrite H2].
  - destruct (stage_sync _ _ _ _ _ _ _ _ _ _ _ _ _) as [r w'] eqn:Er. destruct Hr as (_ & _ & Hr).
    assert (tx_answers (transaction w') = [true]) as Hf by (vm_compute in Er; by injection Er as _ <-).
    clear Er. rewrite Hf in *. destruct Hr as [H1 _]; [by left|]. split; [by left|done].
Defined.
