(* ===== verification/StagerStray.v ===== *)
(** * Names that block the stager

    Both reconciliations read every name of the intents directory but those of one
    quarantine prefix, and raise when there is one they cannot read.  The cleanup
    of an attempt that failed after its intent was durable leaves such a name. *)

From S2P Require Export StagerRace.

(** Neither an intent nor an intent in quarantine. *)
Definition stray (name : string) : bool :=
  negb (starts_with "intent-" name) && negb (starts_with intent_quarantine_prefix name).
(** [os.scandir] lists every name. *)
Definition lists_all (E : Env) : Prop := ∀ names name, is_Some (names !! name) → name ∈ listing E names.
Definition holds_stray (w : Stager) : Prop :=
  ∃ name, stray name = true ∧ is_Some (latest (intents (disk w)) !! name).

Section Stray.
Context `{Sha256} `{PythonText} `{UuidText}.
Context (float_equal : json → json → bool) (valid_manifest : json → bool).
Context (E : Env) (G : Signals) (L : Limits).
Hypothesis scandir : lists_all E.

(** A result that is not an empty list of issues. *)
Lemma read_stray_issue name (f : ArtifactIntent → SE Stager (list string)) :
  starts_with "intent-" name = false →
  triple (λ _, True) (collect name (i ← read_intent float_equal valid_manifest E G L name; f i)) (λ issues _, issues ≠ []) (λ _ _, True).
Proof.
  intros Hn. unfold collect. eapply (triple_catch _ _ (λ _ _, True)).
  - eapply (triple_bind _ (λ _ _, False)); [|by intros i w []]. unfold read_intent. rewrite Hn. by intros w _.
  - intros e. case_match; [by apply triple_raise|by apply triple_ret].
Qed.
Lemma triple_true_value {A B} (m : SE Stager A) (f : A → SE Stager B) (Q : B → Stager → Prop) :
  (∀ a, triple (λ _, True) (f a) Q (λ _ _, True)) → triple (λ _, True) (m ≫= f) Q (λ _ _, True).
Proof. intros Hf. by eapply triple_bind; [apply triple_true|]. Qed.
Lemma rest_of_issues {A} (rest : SE Stager (list A)) (issues : list A) (K : Prop) :
  triple (λ _, True) rest (λ more _, K → more ≠ []) (λ _ _, True) →
  triple (λ _, True) (more ← rest; mret (issues ++ more)) (λ all _, issues ≠ [] ∨ K → all ≠ []) (λ _ _, True).
Proof.
  intros Hm. eapply triple_bind; [exact Hm|]. intros more. apply triple_ret. intros w Hk [Hi|Hx] [-> ->]%app_nil; [done|by apply Hk].
Qed.
(** The issues of one entry, whatever is done with the intents that are read. *)
Lemma entry_issues name (f : ArtifactIntent → SE Stager (list string)) :
  triple (λ _, True)
    (if starts_with intent_quarantine_prefix name then record_quarantine name "artifact_intent" ;; mret []
     else collect name (i ← read_intent float_equal valid_manifest E G L name; f i))
    (λ issues _, stray name = true → issues ≠ []) (λ _ _, True).
Proof.
  unfold stray. destruct (starts_with intent_quarantine_prefix name).
  - eapply triple_bind; [apply triple_true|]. intros []. apply triple_ret. intros w _. by rewrite andb_false_r.
  - destruct (starts_with "intent-" name) eqn:En; simpl.
    + eapply triple_weaken; [apply (triple_true (λ _, True))|..]; by intros.
    + eapply triple_weaken; [by apply read_stray_issue|..]; by intros.
Qed.
Definition has_stray (names : list string) : Prop := ∃ name, name ∈ names ∧ stray name = true.
Lemma then_rest name names (issues : list string) (rest : SE Stager (list string)) :
  (stray name = true → issues ≠ []) →
  triple (λ _, True) rest (λ more _, has_stray names → more ≠ []) (λ _ _, True) →
  triple (λ _, True) (more ← rest; mret (issues ++ more)) (λ all _, has_stray (name :: names) → all ≠ []) (λ _ _, True).
Proof.
  intros Hi Hm. eapply triple_weaken; [apply (rest_of_issues _ issues _ Hm)|by intros| |by intros].
  intros all w Hall (x & [->|Hx]%elem_of_cons & Hs); apply Hall; [left; by apply Hi|right; by exists x].
Qed.
Lemma reconcile_intents_stray names :
  triple (λ _, True) (reconcile_intents float_equal valid_manifest E G L names)
    (λ issues _, has_stray names → issues ≠ []) (λ _ _, True).
Proof.
  induction names as [|name names IH]; simpl; [apply triple_ret; by intros w _ (x & Hx%elem_of_nil & _)|].
  apply triple_true_value. intros []. eapply triple_bind; [apply entry_issues|]. intros issues. cbv beta; apply triple_fact; intros Hi.
  by apply then_rest.
Qed.
Lemma reconcile_entries_stray artifact_id execution_id names :
  triple (λ _, True) (reconcile_entries float_equal valid_manifest E G L artifact_id execution_id names)
    (λ issues _, has_stray names → issues ≠ []) (λ _ _, True).
Proof.
  induction names as [|name names IH]; simpl; [apply triple_ret; by intros w _ (x & Hx%elem_of_nil & _)|].
  apply triple_true_value. intros []. eapply triple_bind; [apply entry_issues|]. intros issues. cbv beta; apply triple_fact; intros Hi.
  by apply then_rest.
Qed.
Lemma stray_listed :
  triple holds_stray (any_call E ;; get (λ w, listing E (latest (intents (disk w))))) (λ names _, has_stray names) (λ _ _, True).
Proof.
  intros w (name & Hs & Hn). unfold any_call, on_disk. rewrite bind_state. unfold syscall. destruct (fault E _); [done|].
  exists name. split; [by apply scandir|done].
Qed.
Lemma never_finally {A} n (P : Stager → Prop) (m : SE Stager A) :
  triple P m (λ _ _, False) (λ _ _, True) → triple P (finally_close E n m) (λ _ _, False) (λ _ _, True).
Proof.
  intros Hm. unfold finally_close. eapply triple_bind; [exact (triple_attempt _ _ _ (λ _ _, True) _ Hm)|].
  intros [a|e]; [by intros w []|]. eapply triple_bind; [apply triple_true|]. intros failed. by apply triple_raise.
Qed.
Lemma stray_call {A} (m : SE Disk A) : (∀ d, intents (m d).2 = intents d) → preserves holds_stray (on_disk m).
Proof.
  intros Hm w (name & Hs & Hn). unfold on_disk. specialize (Hm (disk w)). destruct (m (disk w)) as [r d].
  exists name. simpl in *. by rewrite Hm.
Qed.
Lemma silent_call_stray {A} (m : SE Disk A) : (∀ d, intents (m d).2 = intents d) → preserves holds_stray (on_disk (syscall E m)).
Proof. intros Hm. apply stray_call. intros d. unfold syscall. destruct (fault E _); [done|]. by rewrite Hm. Qed.
Lemma close_all_stray n : preserves holds_stray (close_all E n).
Proof.
  induction n as [|n IH]; simpl; [apply preserves_ret|]. apply preserves_bind; [by apply preserves_attempt, silent_call_stray|].
  intros closed. apply preserves_bind; [exact IH|]. intros rest. apply preserves_ret.
Qed.
Lemma finally_stray {A} n (m : SE Stager A) : preserves holds_stray m → preserves holds_stray (finally_close E n m).
Proof.
  intros Hm. unfold finally_close. apply preserves_bind; [by apply preserves_attempt|]. intros r.
  apply preserves_bind; [apply close_all_stray|]. intros failed. repeat case_match; first [apply preserves_ret|apply preserves_raise].
Qed.
Lemma stray_step {A B} (m : SE Stager A) (f : A → SE Stager B) Q :
  preserves holds_stray m → (∀ a, triple holds_stray (f a) Q (λ _ _, True)) → triple holds_stray (m ≫= f) Q (λ _ _, True).
Proof.
  intros Hm Hf. eapply triple_bind; [|exact Hf]. eapply triple_weaken; [by apply triple_preserves|done|done|done].
Qed.
Lemma any_call_stray : preserves holds_stray (any_call E).
Proof. by apply silent_call_stray. Qed.

Lemma raise_issues_stray (issues more : list string) :
  issues ≠ [] → triple (λ _ : Stager, True) (raise_if (negb (bool_decide (issues ++ more = []))) ArtifactReconciliationError)
    (λ _ _, False) (λ _ _, True).
Proof.
  intros Hi. apply triple_raise_if; [done|]. intros w _ Hb%negb_false_iff%bool_decide_eq_true. by apply app_nil in Hb as [-> _].
Qed.
Lemma reconcile_relevant_stray artifact_id execution_id :
  triple holds_stray (reconcile_relevant float_equal valid_manifest E G L artifact_id execution_id) (λ _ _, False) (λ _ _, True).
Proof.
  unfold reconcile_relevant, open_managed_tree. apply stray_step; [apply any_call_stray|]. intros [].
  apply never_finally. eapply triple_bind; [apply stray_listed|]. intros names. cbv beta; apply triple_fact; intros Hs.
  eapply triple_bind; [apply reconcile_entries_stray|]. intros issues. cbv beta; apply triple_fact; intros Hi.
  apply triple_true_value. intros more. apply raise_issues_stray. by apply Hi.
Qed.
Lemma reconcile_startup_stray :
  triple holds_stray (reconcile_startup float_equal valid_manifest E G L) (λ _ _, False) (λ _ _, True).
Proof.
  unfold reconcile_startup, open_managed_tree. apply stray_step; [apply any_call_stray|]. intros [].
  apply never_finally. eapply triple_bind; [apply stray_listed|]. intros names. cbv beta; apply triple_fact; intros Hs.
  eapply triple_bind; [apply reconcile_intents_stray|]. intros issues. cbv beta; apply triple_fact; intros Hi.
  do 7 (apply triple_true_value; intros ?). apply raise_issues_stray. by apply Hi.
Qed.
Lemma start_stager_stray :
  triple holds_stray (start_stager float_equal valid_manifest E G L) (λ _ _, False) (λ _ _, True).
Proof.
  unfold start_stager, open_managed_tree. apply stray_step; [apply any_call_stray|]. intros [].
  apply stray_step; [by apply finally_stray, silent_call_stray|]. intros [].
  apply stray_step; [by intros w Hw|]. intros []. apply reconcile_startup_stray.
Qed.
Lemma stage_stray supplied S t maximum expected authority callback :
  triple holds_stray (stage float_equal valid_manifest E G L supplied S t maximum expected authority callback)
    (λ _ _, False) (λ _ _, True).
Proof.
  unfold stage, stage_exclusive, reconcile_and_find_existing. apply stray_step; [apply preserves_raise_if|]. intros [].
  eapply (triple_bind _ (λ _ _, False)); [|by intros a w []]. apply stray_step; [by intros w Hw|]. intros [].
  eapply (triple_bind _ (λ _ _, False)); [apply reconcile_relevant_stray|by intros [] w []].
Qed.
End Stray.

Section Blocked.
Context `{Sha256} `{PythonText} `{UuidText}.
Context (float_equal : json → json → bool) (valid_manifest : json → bool).

(** C16: a name in the intents directory that is neither an intent nor an intent in
    quarantine blocks the stager: no staging of any artifact returns, and no
    process starts, whatever else is on the disk and whatever the system does. *)
Theorem stray_name_blocks E G L w name supplied S task_id maximum_size expected authority callback :
  lists_all E → stray name = true → is_Some (latest (intents (disk w)) !! name) →
  is_ok (stage float_equal valid_manifest E G L supplied S task_id maximum_size expected authority callback w).1 = false
  ∧ is_ok (start_stager float_equal valid_manifest E G L w).1 = false.
Proof.
  intros Hl Hs Hn. assert (holds_stray w) as Hw by by exists name. split.
  - pose proof (stage_stray float_equal valid_manifest E G L Hl supplied S task_id maximum_size expected authority callback w Hw) as Hr.
    by destruct (stage _ _ _ _ _ _ _ _ _ _ _ _ w) as [[a|e] w'].
  - pose proof (start_stager_stray float_equal valid_manifest E G L Hl w Hw) as Hr.
    by destruct (start_stager _ _ _ _ _ w) as [[a|e] w'].
Qed.
End Blocked.

Lemma example_lists_all fails : lists_all (example_env fails).
Proof. intros names name [n Hn]. apply list_elem_of_fmap. exists (name, n). split; [done|]. by apply elem_of_map_to_list. Qed.
(** A cancellation that is accepted between the durable intent and the commit moves
    the intent to a name of the cleanup, and the stager is blocked for good. *)
Lemma stray_name_blocks_witness :
  let '(r, w) := stage_example (cancelled_at 55) no_fault 30 example_start in
  r = Err CancelledError ∧ tx_answers (transaction w) = [false]
  ∧ is_ok (stage_example no_signal no_fault 500 w).1 = false
  ∧ is_ok (start_stager never_equal any_manifest (example_env no_fault) no_signal example_limits (new_stager (disk w) (db w))).1 = false.
Proof.
  assert (let '(r, w) := stage_example (cancelled_at 55) no_fault 30 example_start in
    r = Err CancelledError ∧ tx_answers (transaction w) = [false]
    ∧ latest (intents (disk w)) !! (".artifact-cleanup-quarantine-" +:+ letters 64) = Some 1%nat) as Hw by by vm_compute.
  destruct (stage_example (cancelled_at 55) no_fault 30 example_start) as [r w]. destruct Hw as (Hr & Ha & Hn).
  assert (stray (".artifact-cleanup-quarantine-" +:+ letters 64) = true) as Hs by done.
  assert (is_Some (latest (intents (disk w)) !! (".artifact-cleanup-quarantine-" +:+ letters 64))) as Hi by by eexists.
  pose proof (stray_name_blocks never_equal any_manifest (example_env no_fault) no_signal example_limits) as Hb.
  split; [done|]. split; [done|]. split.
  - by apply (Hb w _ example_identity (example_source 500) "t1" 100 None None no_callback (example_lists_all no_fault) Hs Hi).
  - by apply (Hb (new_stager (disk w) (db w)) _ example_identity (example_source 500) "t1" 100 None None no_callback
                 (example_lists_all no_fault) Hs Hi).
Defined.
